(* ===== verification/_CoqProject ===== *)
-Q . S2P
Prelude.v
Bytes.v
GuestMemory.v
FlatMemory.v
Descriptor.v
Chain.v
ChainKept.v
Queue.v
QueueFacts.v
UsedRing.v
AvailRing.v
Notification.v
Handshake.v
Processing.v
DeviceLoop.v
QueueState.v
QueueConfig.v
KaniHarness.v
QueueApi.v
Mock.v
Benches.v
QueueSync.v
DescriptorUtils.v
VirtioDevice.v
Mmio.v
MmioInit.v
BlkRequest.v
BlkExecutor.v
BlkProperties.v
BlkZeroes.v
BlkDriver.v
BlkDevice.v
VsockPacket.v
VsockProperties.v
VsockDriver.v
Console.v
ConsoleDevice.v
FuzzTargets.v
NetHeader.v
Testing.v
QueueTests.v
ChainTests.v
ReaderTests.v
SyncTests.v
FormatTests.v
DeviceTests.v
BlkTests.v
VsockTests.v
ConsoleTests.v
CorpusTests.v
Layout.v
BindingsTarget.v
BindingsRing.v
BindingsDevices.v
BindingsNet.v
BindingsGpu.v
BindingsConsts.v
Bindings.v
Errors.v
