(* ===== verification/Prelude.v ===== *)
(** * A verification library for vm-virtio

    The vm-virtio workspace is a set of Rust crates from which virtual machine
    monitors build virtio devices.  This library models the device side of
    split virtqueues and the devices on top of them, and proves them correct
    against guest memory that a driver, possibly a hostile one, controls.

    ** The program and how its parts interact

    A driver in the guest and a device in the monitor share guest memory.  The
    driver writes descriptors into a table, links them into chains and puts
    the heads of the chains into the available ring.  The device
    ([Queue] in virtio-queue) iterates over the available ring, walks each
    chain ([DescriptorChain]), reads and writes its buffers directly or
    through [Reader] and [Writer], and returns the head through the used ring.
    Both sides tell each other when a notification is wanted.  A transport
    (the MMIO registers of virtio-device) lets the driver negotiate features
    and configure the queues.  On top of this are the block device
    (virtio-blk: parse a chain into a request, execute it on a file), the
    vsock packet (virtio-vsock) and the console (virtio-console).  The mock
    driver of virtio-queue builds queues and chains for tests, benchmarks and
    the fuzz targets.

    ** The files

    - Prelude: Rust's [Result], the monad [RM] of methods that take
      [&mut self], may return early and may panic, machine integers with their
      wrap-around, checked and saturating operations, bit tricks, tactics.
    - Bytes: little-endian integers, [repr(C)] layouts, [ByteValued].
    - GuestMemory: the interface to the vm-memory crate, a class of the
      operations the code calls and a class of their documented behaviour.
    - FlatMemory: a computable memory that satisfies the interface; every
      example and witness runs on it.
    - Descriptor: virtio-queue/src/desc and defs.rs.
    - Chain: virtio-queue/src/chain.rs and the errors of lib.rs.  ChainKept:
      chains read from a memory that the device is writing to.
    - Queue: virtio-queue/src/queue.rs, all methods of [QueueT] and
      [QueueOwnedT] and [AvailIter].  QueueFacts: the invariant [queue_wf] and
      that every method keeps it.
    - UsedRing, AvailRing, Notification, Handshake, Processing: the two rings
      against their abstract specifications (a history of returned elements, a
      list of offered heads), notification suppression, the methods of the
      queue running while the driver acts on the same memory (a guest memory
      that runs the driver around each store, and a step relation on top), and
      a loop that pops chains.  DeviceLoop: the loop the documentation of [Queue]
      shows, with the processing of a chain as a parameter, its contract for
      such a handler, and the example of the documentation.
    - QueueState: virtio-queue/src/state.rs and virtio-queue-ser/src/state.rs.
    - QueueConfig: the configuration methods and [is_valid].
    - KaniHarness: virtio-queue/src/queue/verification.rs, the proof harness of
      the repository with the queues and memories it quantifies over.
    - QueueApi: fuzz/common/src/lib.rs, the whole API as a language of calls.
    - Mock: virtio-queue/src/mock.rs.  Benches: virtio-queue/benches/queue,
      with the facts on [add_chain] and [add_indirect_chain].
    - QueueSync: the trait [QueueT] of virtio-queue/src/lib.rs as a class and
      its two implementations, [Queue] and the mutex of
      virtio-queue/src/queue_sync.rs; clients of the trait as a language of
      dependent calls.
    - DescriptorUtils: virtio-queue/src/descriptor_utils.rs.
    - VirtioDevice, Mmio: virtio-device/src/lib.rs, virtio_config.rs, mmio.rs.
      MmioInit: the register writes that bring a device up.
    - BlkRequest, BlkExecutor, BlkProperties: virtio-blk/src/request.rs,
      stdio_executor.rs, defs.rs.  BlkZeroes: what discard and write zeroes do
      to the disk.  BlkDriver: a driver that submits requests through a mock
      queue and the device that serves them.  BlkDevice: the device loop with
      the block device as its handler.
    - VsockPacket, VsockProperties: virtio-vsock/src/packet.rs and
      fuzz/common/src/vsock.rs.  VsockDriver: packets from a driver to the
      device and back.
    - Console: virtio-console/src/console.rs.  ConsoleDevice: the device loop
      on its receive and its transmit queue.
    - FuzzTargets: fuzz/fuzz_targets and their inputs.
    - Errors: the messages of all error types and the comparison of queue
      errors by them.
    - NetHeader: virtio-bindings/src/virtio_net/mod.rs.
    - Layout: the rules by which structs, unions and flexible arrays of C are
      laid out on a target.  BindingsTarget: the architectures of
      virtio-bindings/src/bindings, the data layouts of their targets and the
      choice of a directory in virtio-bindings/src/lib.rs.  BindingsRing, BindingsDevices, BindingsNet,
      BindingsGpu: the structs of the generated files with their assertions,
      as functions of the architecture where its files differ.
      BindingsConsts: their constants.  Bindings: the theorems on them.
    - Testing, and the files that end in Tests: the unit tests of the
      repository, statement by statement, on the definitions above.  Queue,
      Chain, Reader, Sync, Format, Device, Blk, Vsock and ConsoleTests are the
      tests of their crates, CorpusTests those of fuzz/common/src that build
      the corpus of the fuzz targets.

    ** How the code is modelled

    A struct is a [Record] with the fields of the source, an enum an
    [Inductive].  A method that takes [&mut self] and returns [Result] is a
    function in [RM S E A = S -> option (S * result E A)]: [S] is what it
    changes (the receiver and guest memory), an error keeps the changes made
    before it, and [None] is a panic, that is an [unwrap] on nothing, an index
    out of range or an arithmetic overflow (overflow checks are on).  An
    integer of [w] bits is a [Z] with its wrap-around written out.  A handle
    to guest memory that the source keeps inside of an object is an argument
    of the steps, because memory is shared and changes between them.  Memory
    accesses are sequentially consistent; an [Ordering] matters only where the
    standard library panics on it.  The host is little endian with 64-bit
    [usize]; this matters for the plain integers of [RequestHeader],
    [DiscardWriteZeroes] and the network header, as all other formats are
    declared with little-endian types (Bindings has the bytes of the first two
    on hosts of either order).

    Code outside of the workspace is a parameter: guest memory (class
    [GuestMemory]), volatile slices ([SliceBytes]), the backing file of the
    block device ([Backend]), the output sink of the console ([Sink]), the
    activation logic of a device ([VirtioDeviceImpl]).  What the proofs need
    of it is a class of laws next to it, with a computable instance.

    ** Bounds and fuel

    Loops over a chain run on the measure [chain_budget]: each step of a chain
    lowers it, so it is enough fuel and more fuel changes nothing.  The
    iterator over the available ring yields at most [queue_size] chains.  The
    recursion of [DescriptorChain::next] into an indirect table happens at
    most once.  Where a definition has fuel, [None] stands for running out of
    it, and the theorems show that a result is reached.  The driver of
    Handshake follows a schedule, a list of batches of actions, one before and
    one after each store of the device; the theorem holds for every schedule
    and every order of calls.

    ** What the theorems show

    - Queue: the iterator yields exactly what the driver offered, never more
      than the size of the queue; [add_used] refines an append-only history
      and its failing branches; the device loop returns each chain once and in
      order, notifies for the elements the driver waits for and ends with
      notifications enabled, for every handler that keeps its contract;
      popping and iterating agree; no wake-up is lost however the
      driver acts between the accesses of [enable_notification], with event
      indices and without; [needs_notification] is exact; no sequence of calls
      panics; saved queues are restored and hostile states rejected.
    - Shared queues: a [QueueSync] behaves as a [Queue] to every client.
    - Harness: the Kani proof holds for every context it can draw, on the
      memory of one region that it defines, and the used ring of these contexts
      is always the default one.
    - Fuzz targets: each returns on every decoded input of at most 65536
      descriptors.  Benchmarks: their assertions hold on any memory.
    - Chains: iteration ends on any memory, within a bound for the descriptor
      table and one for the indirect table, and yields what the driver linked,
      as shown also end to end from the mock driver to the device.
    - Readers and writers: they are the list of guest addresses left; reads,
      writes, splits and object round trips follow.
    - Devices: register writes keep the device invariant and never panic;
      negotiation, activation and locking of the configuration; the
      initialisation sequence gives the driver the device it asked for.
    - Block: [parse] accepts exactly the chains of the specification; execution
      is isolated to the sectors and buffers of the request; data written is
      read back, also from the driver's side through two queues; discarded and
      zeroed segments read as zero and nothing else changes; every request
      completes with its status; on its queue the device executes the offered
      requests one after the other and returns each with its length and
      status.
    - Vsock: the constructors accept exactly the documented shapes and, for
      reception, a chain of one descriptor; slices stay inside the buffers, and
      the header the device sees is immune to later guest writes; packets arrive unchanged in both directions.
    - Console: the input buffer is delivered in order and in the right place,
      transmit chains reach the output; both queues are streams, with nothing
      lost, repeated or reordered.
    - Bindings: on 17 of the 18 architectures the generated assertions hold and
      the layouts are sound, and on m68k they do not hold; the formats that virtio-queue and virtio-blk
      define themselves are those of the kernel's headers; the queue accesses
      the rings exactly where the structs have their fields, and addresses the
      setters accept are aligned for them; constants fit their types and are
      the ones the crates use.
    - Errors: two queue errors compare equal exactly when they are of the same
      variant with arguments of the same message; those of [GuestMemory] are
      ignored.
    - Tests: every unit test of the repository passes on the model, so the
      definitions agree with the code on every input its authors checked.  The
      one loop that is too long to run, in [test_needs_notification], is
      computed for all its indices at once.  Three inputs of the corpus are
      shown to end in their targets before the code they are for is reached.

    ** What is not modelled

    The derived encoders of serde, bincode and versionize, [Debug] and log
    output, the [Display] of errors of other crates (a parameter), threads (a
    mutex is the state it protects and its poisoning), mutable slices of flexible arrays, dirty-page bitmaps, weak
    memory orderings, the stub that stands for a mapped region under Kani, the
    timing of the benchmarks, and, in the tests, the alignment of types and
    the files of the corpus.  Packed virtqueues exist in the source only as
    descriptor formats. *)

From stdpp Require Import base numbers list option.
From Stdlib Require Import ZArith Lia.

Global Open Scope Z_scope.

(** ** Automation shared by all files *)

Create HintDb virtio.

(** Case analysis on the scrutinee of a [match] or [if] of the goal or of a
    hypothesis, recording the equation. *)
Ltac case_all :=
  repeat (case_match; simplify_eq/=).

(** Turn boolean comparisons on [Z] into propositions. *)
Ltac zbool :=
  repeat match goal with
  | H : (_ <? _) = true |- _ => apply Z.ltb_lt in H
  | H : (_ <? _) = false |- _ => apply Z.ltb_ge in H
  | H : (_ <=? _) = true |- _ => apply Z.leb_le in H
  | H : (_ <=? _) = false |- _ => apply Z.leb_gt in H
  | H : (_ =? _) = true |- _ => apply Z.eqb_eq in H
  | H : (_ =? _) = false |- _ => apply Z.eqb_neq in H
  | H : (_ >? _) = _ |- _ => rewrite Z.gtb_ltb in H
  | H : (_ >=? _) = _ |- _ => rewrite Z.geb_leb in H
  | H : negb _ = true |- _ => apply negb_true_iff in H
  | H : negb _ = false |- _ => apply negb_false_iff in H
  | H : (_ || _) = false |- _ => apply orb_false_iff in H as [? ?]
  | H : (_ && _) = true |- _ => apply andb_true_iff in H as [? ?]
  end.

(** ** Rust's [Result] *)

(** [Result<A, E>]; the error type comes first so that [result E] is a monad. *)
Inductive result (E A : Type) : Type :=
| Ok (a : A)
| Err (e : E).
Arguments Ok {E A} a.
Arguments Err {E A} e.

Global Instance result_ret {E} : MRet (result E) := fun _ a => Ok a.
Global Instance result_bind {E} : MBind (result E) := fun _ _ k r =>
  match r with Ok a => k a | Err e => Err e end.

Global Instance result_eq_dec {E A} `{EqDecision E, EqDecision A} :
  EqDecision (result E A).
Proof. solve_decision. Defined.

Definition is_ok {E A} (r : result E A) : bool :=
  match r with Ok _ => true | Err _ => false end.

(** [Result::map_err] and [Option::ok_or]. *)
Definition map_err {E E' A} (f : E -> E') (r : result E A) : result E' A :=
  match r with Ok a => Ok a | Err e => Err (f e) end.

Definition ok_or {E A} (e : E) (o : option A) : result E A :=
  match o with Some a => Ok a | None => Err e end.

(** [Result::ok]. *)
Definition to_option {E A} (r : result E A) : option A :=
  match r with Ok a => Some a | Err _ => None end.

Lemma is_ok_spec {E A} (r : result E A) : is_ok r = true <-> exists a, r = Ok a.
Proof. destruct r; naive_solver. Qed.

Lemma map_err_ok {E E' A} (f : E -> E') (r : result E A) a :
  map_err f r = Ok a <-> r = Ok a.
Proof. destruct r; naive_solver. Qed.

Lemma ok_or_ok {E A} (e : E) (o : option A) a : ok_or e o = Ok a <-> o = Some a.
Proof. destruct o; naive_solver. Qed.

(** ** The state, error and panic monad

    A method that takes [&mut self] and returns [Result] is a function of the
    state.  An early return ([?]) keeps the updates made so far, hence the
    state is returned beside the error.  A panic (an [unwrap] on [None], a
    division by zero, an arithmetic overflow) is [None]. *)
Definition RM (S E A : Type) : Type := S -> option (S * result E A).

Global Instance rm_ret {S E} : MRet (RM S E) := fun _ a s => Some (s, Ok a).
Global Instance rm_bind {S E} : MBind (RM S E) := fun _ _ k c s =>
  match c s with
  | None => None
  | Some (s', Ok a) => k a s'
  | Some (s', Err e) => Some (s', Err e)
  end.

Section RM.
Context {S E : Type}.

Definition throw {A} (e : E) : RM S E A := fun s => Some (s, Err e).
Definition panic {A} : RM S E A := fun _ => None.
Definition gets {A} (f : S -> A) : RM S E A := fun s => Some (s, Ok (f s)).
Definition modify (f : S -> S) : RM S E unit := fun s => Some (f s, Ok tt).
Definition of_result {A} (r : result E A) : RM S E A := fun s => Some (s, r).
Definition unwrap {A} (o : option A) : RM S E A := fun s =>
  match o with Some a => Some (s, Ok a) | None => None end.

(** A call whose error is unwrapped. *)
Definition unwrapped {A} (c : RM S E A) : RM S E A := fun s =>
  match c s with
  | Some (s, Ok a) => Some (s, Ok a)
  | _ => None
  end.

(** Run [c] and hand its outcome to the caller as a value. *)
Definition try {A E'} (c : RM S E' A) : RM S E (result E' A) := fun s =>
  match c s with Some (s', r) => Some (s', Ok r) | None => None end.

Lemma rm_bind_unfold {A B} (c : RM S E A) (k : A -> RM S E B) s :
  (c ≫= k) s = match c s with
               | None => None
               | Some (s', Ok a) => k a s'
               | Some (s', Err e) => Some (s', Err e)
               end.
Proof. reflexivity. Qed.

(** A computation that ends in [Ok] went through every [?] before it. *)
Lemma rm_bind_ok {A B} (c : RM S E A) (k : A -> RM S E B) s s' b :
  (c ≫= k) s = Some (s', Ok b) <->
  exists s1 a, c s = Some (s1, Ok a) /\ k a s1 = Some (s', Ok b).
Proof.
  rewrite rm_bind_unfold. split.
  - destruct (c s) as [[? []]|]; naive_solver.
  - intros (s1 & a & -> & ?). done.
Qed.
End RM.

(** Unfold the monad in the goal and in the hypotheses. *)
Ltac rm_unfold :=
  unfold throw, panic, gets, modify, of_result, unwrap, try,
    mret, rm_ret, mbind, rm_bind in *; simpl in *.

(** ** Machine integers

    A [w]-bit unsigned integer is a [Z] in [[0, 2^w)].  The names below only
    document the width at which the source declares a value. *)
Abbreviation u8 := Z (only parsing).
Abbreviation u16 := Z (only parsing).
Abbreviation u32 := Z (only parsing).
Abbreviation u64 := Z (only parsing).
Abbreviation usize := Z (only parsing).

Definition in_u (w z : Z) : Prop := 0 <= z < 2 ^ w.
Definition in_ub (w z : Z) : bool := (0 <=? z) && (z <? 2 ^ w).

Global Instance in_u_dec w z : Decision (in_u w z).
Proof. unfold in_u. apply _. Defined.

(** [as uW]: truncation to [w] bits. *)
Definition wrap (w z : Z) : Z := z mod 2 ^ w.

(** [Wrapping<uW>] addition and subtraction. *)
Definition wadd (w a b : Z) : Z := wrap w (a + b).
Definition wsub (w a b : Z) : Z := wrap w (a - b).

(** [checked_add], [checked_sub], [checked_rem] and [saturating_add]. *)
Definition checked_add (w a b : Z) : option Z :=
  if a + b <? 2 ^ w then Some (a + b) else None.
Definition checked_sub (a b : Z) : option Z :=
  if b <=? a then Some (a - b) else None.
Definition checked_rem (a b : Z) : option Z :=
  if b =? 0 then None else Some (a mod b).
Definition saturating_add (w a b : Z) : Z :=
  if a + b <? 2 ^ w then a + b else 2 ^ w - 1.

(** [checked_shl]: [None] only when the shift amount reaches the width; bits
    shifted out are lost. *)
Definition checked_shl (w a n : Z) : option Z :=
  if n <? w then Some (wrap w (Z.shiftl a n)) else None.

(** [!x] on [w] bits. *)
Definition unot (w z : Z) : Z := 2 ^ w - 1 - z.

(** [u16::try_from]. *)
Definition u16_try_from (z : Z) : option Z :=
  if in_ub 16 z then Some z else None.

(** A [w]-bit addition with overflow checks: [None] is the panic. *)
Definition add_u (w a b : Z) : option Z := checked_add w a b.

Section Integers.
Implicit Types a b w z : Z.

Lemma in_ub_spec w z : in_ub w z = true <-> in_u w z.
Proof. unfold in_ub, in_u. rewrite andb_true_iff. lia. Qed.

Lemma pow2_pos w : 0 <= w -> 0 < 2 ^ w.
Proof. intros. apply Z.pow_pos_nonneg; lia. Qed.

Lemma in_u_wrap w z : 0 <= w -> in_u w (wrap w z).
Proof. intros Hw. apply Z.mod_pos_bound. by apply pow2_pos. Qed.

Lemma wrap_small w z : in_u w z -> wrap w z = z.
Proof. intros. by apply Z.mod_small. Qed.

Lemma in_u_wadd w a b : 0 <= w -> in_u w (wadd w a b).
Proof. apply in_u_wrap. Qed.

Lemma in_u_wsub w a b : 0 <= w -> in_u w (wsub w a b).
Proof. apply in_u_wrap. Qed.

Lemma in_u_mono w w' z : 0 <= w <= w' -> in_u w z -> in_u w' z.
Proof.
  unfold in_u. intros Hw Hz.
  assert (2 ^ w <= 2 ^ w') by (apply Z.pow_le_mono_r; lia). lia.
Qed.

Lemma checked_add_Some w a b c :
  checked_add w a b = Some c <-> a + b < 2 ^ w /\ c = a + b.
Proof. unfold checked_add. case_match; zbool; naive_solver lia. Qed.

Lemma checked_add_None w a b :
  checked_add w a b = None <-> 2 ^ w <= a + b.
Proof. unfold checked_add. case_match; zbool; naive_solver lia. Qed.

Lemma u16_try_from_Some z c : u16_try_from z = Some c <-> in_u 16 z /\ c = z.
Proof.
  unfold u16_try_from. destruct (in_ub 16 z) eqn:Hz.
  - apply in_ub_spec in Hz. naive_solver.
  - split; [done|]. intros [Hu _]. apply in_ub_spec in Hu. congruence.
Qed.

Lemma unot_lnot w z : 0 <= w -> in_u w z -> unot w z = wrap w (Z.lnot z).
Proof.
  intros Hw Hz. pose proof (pow2_pos w Hw). unfold unot, wrap, Z.lnot, in_u in *.
  rewrite <- (Z.mod_add _ 1) by lia.
  replace (Z.pred (- z) + 1 * 2 ^ w) with (2 ^ w - 1 - z) by lia.
  rewrite Z.mod_small; lia.
Qed.

(** Going one step forward and one step back in the circular sequence. *)
Lemma wsub_wadd w a b : 0 <= w -> in_u w a -> wsub w (wadd w a b) b = a.
Proof.
  intros Hw Ha. pose proof (pow2_pos w Hw). unfold wsub, wadd, wrap.
  rewrite Zminus_mod_idemp_l. replace (a + b - b) with a by lia.
  by apply Z.mod_small.
Qed.

Lemma wadd_wsub w a b : 0 <= w -> in_u w a -> wadd w (wsub w a b) b = a.
Proof.
  intros Hw Ha. unfold wsub, wadd, wrap.
  rewrite Zplus_mod_idemp_l. replace (a - b + b) with a by lia.
  by apply Z.mod_small.
Qed.

Lemma wadd_0_r w a : in_u w a -> wadd w a 0 = a.
Proof. intros. unfold wadd. rewrite Z.add_0_r. by apply wrap_small. Qed.

Lemma wadd_assoc w a b c : 0 <= w -> wadd w (wadd w a b) c = wadd w a (b + c).
Proof.
  intros. unfold wadd, wrap. rewrite Zplus_mod_idemp_l. f_equal. lia.
Qed.

Lemma wsub_diag w a : wsub w a a = 0.
Proof. unfold wsub, wrap. by rewrite Z.sub_diag. Qed.

(** Bits that do not overlap: [|] is addition. *)
Lemma lor_disjoint n high low :
  0 <= n -> in_u n low -> Z.lor (high * 2 ^ n) low = high * 2 ^ n + low.
Proof.
  intros Hn Hlow. symmetry. apply Z.add_nocarry_lor, Z.bits_inj'. intros i Hi.
  rewrite Z.land_spec, Z.bits_0. destruct (Z.lt_ge_cases i n).
  - by rewrite Z.mul_pow2_bits_low.
  - rewrite <- (wrap_small n low) by done. unfold wrap.
    by rewrite Z.mod_pow2_bits_high, andb_false_r by lia.
Qed.

Lemma land_ones_mod z n : 0 <= n -> Z.land z (2 ^ n - 1) = z mod 2 ^ n.
Proof. intros. rewrite <- Z.land_ones by done. by rewrite Z.ones_equiv. Qed.
(** The bit operations stay within the width. *)
Lemma lor_u w a b : 0 <= w -> in_u w a -> in_u w b -> in_u w (Z.lor a b).
Proof.
  intros Hw [Ha Ha'] [Hb Hb']. split; [by apply Z.lor_nonneg|].
  destruct (decide (Z.lor a b = 0)) as [->|Hne]; [by apply pow2_pos|].
  assert (0 <= Z.lor a b) by (by apply Z.lor_nonneg).
  apply Z.log2_lt_pow2; [lia|]. rewrite Z.log2_lor by done.
  destruct (decide (w = 0)) as [->|].
  { change (2 ^ 0) with 1 in *. replace a with 0 in Hne by lia. by replace b with 0 in Hne by lia. }
  apply Z.max_lub_lt.
  - destruct (decide (a = 0)) as [->|]; [simpl; lia|]. by apply Z.log2_lt_pow2; lia.
  - destruct (decide (b = 0)) as [->|]; [simpl; lia|]. by apply Z.log2_lt_pow2; lia.
Qed.

Lemma land_u w a b : 0 <= w -> in_u w a -> 0 <= b -> in_u w (Z.land a b).
Proof.
  intros Hw [Ha Ha'] Hb. assert (0 <= Z.land a b) by (apply Z.land_nonneg; by left).
  split; [done|]. destruct (decide (Z.land a b = 0)) as [->|Hne]; [by apply pow2_pos|].
  apply Z.log2_lt_pow2; [lia|]. pose proof (Z.log2_land a b Ha Hb).
  destruct (decide (a = 0)) as [->|]; [by rewrite Z.land_0_l in Hne|].
  pose proof (proj1 (Z.log2_lt_pow2 a w ltac:(lia)) Ha'). lia.
Qed.
End Integers.

Global Hint Resolve in_u_wrap in_u_wadd in_u_wsub : virtio.
Global Hint Extern 1 (0 <= _) => lia : virtio.

(** [x & (x - 1)] clears the lowest set bit, so it is zero exactly on powers
    of two. *)
Section PowerOfTwo.
Definition is_pow2 (z : Z) : Prop := exists k, 0 <= k /\ z = 2 ^ k.

Lemma land_pred_odd z : 0 <= z -> Z.land (2 * z + 1) (2 * z) = 2 * z.
Proof.
  intros Hz. apply Z.bits_inj'. intros n Hn. rewrite Z.land_spec.
  destruct (decide (n = 0)) as [->|].
  - by rewrite Z.testbit_even_0, andb_false_r.
  - replace n with (Z.succ (n - 1)) by lia.
    rewrite Z.testbit_odd_succ, Z.testbit_even_succ by lia. apply andb_diag.
Qed.

Lemma land_pred_even z : 0 < z ->
  Z.land (2 * z) (2 * z - 1) = 2 * Z.land z (z - 1).
Proof.
  intros Hz. replace (2 * z - 1) with (2 * (z - 1) + 1) by lia.
  apply Z.bits_inj'. intros n Hn. rewrite Z.land_spec.
  destruct (decide (n = 0)) as [->|].
  - by rewrite !Z.testbit_even_0.
  - replace n with (Z.succ (n - 1)) by lia.
    rewrite Z.testbit_odd_succ, !Z.testbit_even_succ by lia.
    by rewrite Z.land_spec.
Qed.

Lemma is_pow2_pos z : is_pow2 z -> 0 < z.
Proof. intros (k & Hk & ->). by apply pow2_pos. Qed.

Lemma is_pow2_double z : is_pow2 (2 * z) <-> is_pow2 z \/ 2 * z = 1.
Proof.
  split.
  - intros (k & Hk & Hz). destruct (decide (k = 0)) as [->|]; [by right|].
    left. exists (k - 1). split; [lia|].
    replace k with (Z.succ (k - 1)) in Hz by lia.
    rewrite Z.pow_succ_r in Hz by lia. lia.
  - intros [(k & Hk & ->)|]; [|lia].
    exists (Z.succ k). split; [lia|]. by rewrite Z.pow_succ_r by lia.
Qed.

(** The test the queue uses is exact. *)
Lemma land_pred_pow2 z : 0 < z -> Z.land z (z - 1) = 0 <-> is_pow2 z.
Proof.
  intros Hpos. assert (0 <= z) as Hz by lia. revert Hpos. pattern z.
  apply Z_lt_induction; [clear z Hz; intros z IH Hpos|done].
  destruct (Z.Even_or_Odd z) as [[y ->]|[y ->]].
  - rewrite land_pred_even, is_pow2_double, <- IH by lia. lia.
  - replace (2 * y + 1 - 1) with (2 * y) by lia.
    rewrite land_pred_odd by lia. split.
    + intros. exists 0. split; [done|]. lia.
    + intros (k & Hk & Hy). destruct (decide (k = 0)) as [->|]; [lia|].
      replace k with (Z.succ (k - 1)) in Hy by lia.
      rewrite Z.pow_succ_r in Hy by lia. lia.
Qed.
End PowerOfTwo.
