(* ===== verification/Bytes.v ===== *)
(** * Bytes and plain-old-data layouts

    Little-endian encodings of machine integers, the [repr(C)] layout of a
    structure as the concatenation of its fields, and the interface
    [ByteValued] through which guest memory reads and writes objects.  The
    host is little endian, so [to_le] and [from_le] are the identity and an
    integer field occupies its little-endian bytes in memory. *)

From stdpp Require Import base numbers list option.
From S2P Require Import Prelude.

(** ** Little-endian integers *)

Fixpoint le_bytes (n : nat) (z : Z) : list Z :=
  match n with
  | O => []
  | S n => z mod 256 :: le_bytes n (z / 256)
  end.

Fixpoint le_value (bs : list Z) : Z :=
  match bs with
  | [] => 0
  | b :: bs => b + 256 * le_value bs
  end.

Abbreviation bytes_ok := (Forall (in_u 8)).

Lemma length_le_bytes n z : length (le_bytes n z) = n.
Proof. revert z. induction n; intros; simpl; auto. Qed.

Lemma le_bytes_ok n z : bytes_ok (le_bytes n z).
Proof.
  revert z. induction n as [|n IH]; intros z; simpl; constructor; auto.
  apply Z.mod_pos_bound. done.
Qed.

Lemma pow256_succ n : 2 ^ (8 * Z.of_nat (S n)) = 256 * 2 ^ (8 * Z.of_nat n).
Proof.
  replace (8 * Z.of_nat (S n)) with (8 + 8 * Z.of_nat n) by lia.
  rewrite Z.pow_add_r by lia. done.
Qed.

Lemma le_value_bytes n z : in_u (8 * Z.of_nat n) z -> le_value (le_bytes n z) = z.
Proof.
  revert z. induction n as [|n IH]; intros z Hz; simpl.
  - unfold in_u in Hz. change (2 ^ _) with 1 in Hz. lia.
  - unfold in_u in *. rewrite pow256_succ in Hz. rewrite IH.
    + pose proof (Z.div_mod z 256). lia.
    + split; [apply Z.div_pos; lia|]. apply Z.div_lt_upper_bound; lia.
Qed.

Lemma le_value_range bs : bytes_ok bs -> in_u (8 * Z.of_nat (length bs)) (le_value bs).
Proof.
  unfold in_u. induction 1 as [|b bs Hb _ IH]; simpl length; cbn [le_value].
  - by compute.
  - rewrite pow256_succ. unfold in_u in Hb. change (2 ^ 8) with 256 in Hb. lia.
Qed.

Lemma le_bytes_value bs : bytes_ok bs -> le_bytes (length bs) (le_value bs) = bs.
Proof.
  induction 1 as [|b bs Hb _ IH]; [done|]. simpl.
  unfold in_u in Hb. change (2 ^ 8) with 256 in Hb.
  rewrite Z.mul_comm, Z.mod_add, Z.mod_small by lia.
  rewrite Z.div_add, (Z.div_small b) by lia. by rewrite Z.add_0_l, IH.
Qed.

Lemma le_bytes_inj n z z' :
  in_u (8 * Z.of_nat n) z -> in_u (8 * Z.of_nat n) z' ->
  le_bytes n z = le_bytes n z' -> z = z'.
Proof.
  intros Hz Hz' H. rewrite <- (le_value_bytes n z), <- (le_value_bytes n z') by done.
  by rewrite H.
Qed.

(** ** Structures as sequences of integer fields *)

(** [ws] are the sizes in bytes of the fields, in memory order. *)
Fixpoint encode_fields (ws : list nat) (vs : list Z) : list Z :=
  match ws, vs with
  | w :: ws, v :: vs => le_bytes w v ++ encode_fields ws vs
  | _, _ => []
  end.

Fixpoint decode_fields (ws : list nat) (bs : list Z) : list Z :=
  match ws with
  | [] => []
  | w :: ws => le_value (take w bs) :: decode_fields ws (drop w bs)
  end.

Definition fields_ok (ws : list nat) (vs : list Z) : Prop :=
  Forall2 (fun w v => in_u (8 * Z.of_nat w) v) ws vs.

Lemma fields_ok_nil : fields_ok [] [].
Proof. constructor. Qed.

Lemma fields_ok_cons w ws v vs :
  fields_ok (w :: ws) (v :: vs) <-> in_u (8 * Z.of_nat w) v /\ fields_ok ws vs.
Proof. unfold fields_ok. split; [by inversion 1|]. intros []. by constructor. Qed.

Lemma length_encode_fields ws vs :
  length ws = length vs -> length (encode_fields ws vs) = sum_list ws.
Proof.
  revert vs. induction ws as [|w ws IH]; intros [|v vs] Hl; simplify_eq/=; [done|].
  rewrite length_app, length_le_bytes, IH by done. done.
Qed.

Lemma encode_fields_ok ws vs : bytes_ok (encode_fields ws vs).
Proof.
  revert vs. induction ws as [|w ws IH]; intros [|v vs]; simpl; try constructor.
  apply Forall_app. split; [apply le_bytes_ok|apply IH].
Qed.

Lemma decode_encode_fields ws vs :
  fields_ok ws vs -> decode_fields ws (encode_fields ws vs) = vs.
Proof.
  induction 1 as [|w v ws vs Hv _ IH]; [done|]. simpl.
  rewrite take_app_length', drop_app_length' by (by rewrite length_le_bytes).
  by rewrite le_value_bytes, IH.
Qed.

Lemma decode_fields_ok ws bs :
  bytes_ok bs -> length bs = sum_list ws -> fields_ok ws (decode_fields ws bs).
Proof.
  revert bs. induction ws as [|w ws IH]; intros bs Hb Hl; simpl in *; [constructor|].
  constructor; [|apply IH].
  - pose proof (le_value_range (take w bs) (Forall_take _ _ _ Hb)) as Hr.
    rewrite length_take_le in Hr by lia. done.
  - by apply Forall_drop.
  - rewrite length_drop. lia.
Qed.

Lemma encode_decode_fields ws bs :
  bytes_ok bs -> length bs = sum_list ws -> encode_fields ws (decode_fields ws bs) = bs.
Proof.
  revert bs. induction ws as [|w ws IH]; intros bs Hb Hl; simpl in *.
  - by destruct bs.
  - rewrite IH; [|by apply Forall_drop|rewrite length_drop; lia].
    assert (length (take w bs) = w) as Hw by (rewrite length_take_le; lia).
    rewrite <- Hw at 1. rewrite le_bytes_value by (by apply Forall_take).
    apply take_drop.
Qed.

(** The bytes of a field start after the fields before it. *)
Definition fields_offset (ws : list nat) (k : nat) : nat := sum_list (take k ws).

Lemma encode_fields_insert ws vs k w v :
  length ws = length vs -> ws !! k = Some w ->
  encode_fields ws (<[k := v]> vs) =
    take (fields_offset ws k) (encode_fields ws vs) ++ le_bytes w v ++
    drop (fields_offset ws k + w) (encode_fields ws vs).
Proof.
  unfold fields_offset. revert vs k. induction ws as [|w0 ws IH]; intros [|v0 vs] [|k] Hl Hk; simplify_eq/=.
  - rewrite drop_app_length' by (by rewrite length_le_bytes). done.
  - rewrite (IH vs k) by (done || lia). rewrite take_app, length_le_bytes.
    rewrite (take_ge (le_bytes w0 v0)) by (rewrite length_le_bytes; lia).
    rewrite (drop_app_ge (le_bytes w0 v0)) by (rewrite length_le_bytes; lia).
    rewrite length_le_bytes, <- (assoc_L (++)). do 3 f_equal; [lia|].
    f_equal. f_equal. lia.
Qed.

Lemma fields_ok_insert ws vs k w v :
  fields_ok ws vs -> ws !! k = Some w -> in_u (8 * Z.of_nat w) v ->
  fields_ok ws (<[k := v]> vs).
Proof.
  intros Hf Hk Hv. rewrite <- (list_insert_id ws k w Hk). by apply Forall2_insert.
Qed.

Lemma fields_offset_lt ws k w : ws !! k = Some w -> (fields_offset ws k + w <= sum_list ws)%nat.
Proof.
  unfold fields_offset. revert k. induction ws as [|w0 ws IH]; intros [|k] Hk; simplify_eq/=; [lia|].
  specialize (IH k Hk). lia.
Qed.

(** ** The interface [ByteValued]

    What guest memory needs to know of a type it stores: its size, its bytes,
    and how to rebuild a value from bytes. *)
Class ByteValued (T : Type) : Type := {
  bv_size : nat;
  bv_encode : T -> list Z;
  bv_decode : list Z -> T;
  bv_wf : T -> Prop;
}.
Arguments bv_size T {_}.

Class ByteValuedLaws (T : Type) `{BV : ByteValued T} : Prop := {
  bv_size_pos : (0 < bv_size T)%nat;
  bv_encode_length : forall x : T, length (bv_encode x) = bv_size T;
  bv_encode_bytes : forall x : T, bytes_ok (bv_encode x);
  bv_decode_encode : forall x : T, bv_wf x -> bv_decode (bv_encode x) = x;
  bv_decode_wf : forall bs, bytes_ok bs -> length bs = bv_size T -> bv_wf (bv_decode bs : T);
  bv_encode_decode : forall bs, bytes_ok bs -> length bs = bv_size T ->
    bv_encode (bv_decode bs : T) = bs;
}.

(** A [w]-byte unsigned integer as an object. *)
Definition uint_bv (w : nat) : ByteValued Z := {|
  bv_size := w;
  bv_encode := le_bytes w;
  bv_decode := le_value;
  bv_wf := in_u (8 * Z.of_nat w);
|}.

Lemma uint_bv_laws w : (0 < w)%nat -> ByteValuedLaws Z (BV := uint_bv w).
Proof.
  intros Hw. split; simpl; intros.
  - done.
  - apply length_le_bytes.
  - apply le_bytes_ok.
  - by apply le_value_bytes.
  - subst w. by apply le_value_range.
  - subst w. by apply le_bytes_value.
Qed.

(** A structure given by its field sizes and an isomorphism with the list of
    its fields is a lawful object. *)
Section StructBv.
Context {T : Type} (ws : list nat) (fields : T -> list Z) (build : list Z -> T).

Definition struct_bv : ByteValued T := {|
  bv_size := sum_list ws;
  bv_encode := fun x => encode_fields ws (fields x);
  bv_decode := fun bs => build (decode_fields ws bs);
  bv_wf := fun x => fields_ok ws (fields x);
|}.

Lemma struct_bv_laws :
  (0 < sum_list ws)%nat ->
  (forall x, length (fields x) = length ws) ->
  (forall x, build (fields x) = x) ->
  (forall vs, length vs = length ws -> fields (build vs) = vs) ->
  ByteValuedLaws T (BV := struct_bv).
Proof.
  intros Hpos Hlen Hbf Hfb.
  assert (forall bs, length (decode_fields ws bs) = length ws) as Hdl.
  { clear. induction ws; intros; simpl; auto. }
  split; simpl; intros.
  - done.
  - by apply length_encode_fields.
  - apply encode_fields_ok.
  - by rewrite decode_encode_fields, Hbf.
  - rewrite Hfb by done. by apply decode_fields_ok.
  - rewrite Hfb by done. by apply encode_decode_fields.
Qed.
End StructBv.
