(* ===== verification/GuestMemory.v ===== *)
(** * Guest memory

    The crates reach guest memory through the [vm-memory] crate, which is a
    dependency and not part of this repository.  It is therefore an interface:
    [GuestMemory] lists the operations the code calls and [GuestMemoryLaws]
    the documented behaviour the proofs rely on.  Everything else in the
    library is stated for an arbitrary lawful memory; the file FlatMemory has
    one. *)

From stdpp Require Import base numbers list option.
From S2P Require Import Prelude Bytes.

(** The errors of guest memory: the two variants the code names, and any
    other one. *)
Inductive GuestMemoryError : Type :=
| InvalidGuestAddress (addr : Z)
| PartialBuffer (expected completed : Z)
| OtherMemoryError (code : Z).

Global Instance GuestMemoryError_eq_dec : EqDecision GuestMemoryError.
Proof. solve_decision. Defined.

(** A volatile slice: [vs_len] bytes of guest memory from [vs_addr] on. *)
Record VolatileSlice : Type := { vs_addr : Z; vs_len : Z }.

Global Instance VolatileSlice_eq_dec : EqDecision VolatileSlice.
Proof. solve_decision. Defined.

Class GuestMemory (M : Type) : Type := {
  (** [Bytes::read_slice] and [Bytes::write_slice]. *)
  gm_read : M -> Z -> nat -> result GuestMemoryError (list Z);
  gm_write : M -> Z -> list Z -> M * result GuestMemoryError unit;
  (** [Bytes::load] and [Bytes::store] of a 16-bit integer. *)
  gm_load16 : M -> Z -> result GuestMemoryError Z;
  gm_store16 : M -> Z -> Z -> M * result GuestMemoryError unit;
  (** [GuestMemory::address_in_range]; [check_address] is [Some] exactly
      there. *)
  gm_in_range : M -> Z -> bool;
  (** [GuestMemory::find_region]: start and length of the region. *)
  gm_find_region : M -> Z -> option (Z * Z);
  (** [GuestMemory::get_slice], which is [find_region] and then
      [GuestMemoryRegion::get_slice] at the offset in the region. *)
  gm_get_slice : M -> Z -> Z -> result GuestMemoryError VolatileSlice;
  (** [VolatileSlice::offset] and [VolatileSlice::subslice]; the error is a
      [volatile_memory::Error]. *)
  gm_offset : M -> VolatileSlice -> Z -> result Z VolatileSlice;
  gm_subslice : M -> VolatileSlice -> Z -> Z -> result Z VolatileSlice;
}.

(** The byte at an address, [None] when the address is not backed. *)
Definition peek {M} `{GuestMemory M} (m : M) (a : Z) : option Z :=
  match gm_read m a 1 with Ok [b] => Some b | _ => None end.

Definition mapped {M} `{GuestMemory M} (m : M) (a : Z) : Prop := is_Some (peek m a).

(** Every byte of [[a, a + n)] is backed. *)
Definition range_mapped {M} `{GuestMemory M} (m : M) (a n : Z) : Prop :=
  forall x, a <= x < a + n -> mapped m x.

(** Atomic 16-bit accesses work at [a]. *)
Definition acc16 {M} `{GuestMemory M} (m : M) (a : Z) : Prop :=
  exists v, gm_load16 m a = Ok v.

(** [bs] replaces the bytes from [a] on and nothing else changes. *)
Definition overwritten {M} `{GuestMemory M} (m m' : M) (a : Z) (bs : list Z) : Prop :=
  forall x, peek m' x = if decide (a <= x < a + Z.of_nat (length bs))
                        then bs !! Z.to_nat (x - a) else peek m x.

(** The parts of a memory that no store changes: what is backed and where
    atomic accesses work. *)
Definition same_layout {M} `{GuestMemory M} (m m' : M) : Prop :=
  (forall x, mapped m x <-> mapped m' x) /\
  (forall x, acc16 m x <-> acc16 m' x) /\
  (forall x, gm_in_range m x = gm_in_range m' x) /\
  (forall x, gm_find_region m x = gm_find_region m' x) /\
  (forall x n, gm_get_slice m x n = gm_get_slice m' x n).

(** [m'] is [m] with other bytes at some of the addresses [cs]. *)
Definition changed_within {M} `{GuestMemory M} (cs : list Z) (m m' : M) : Prop :=
  same_layout m m' /\ forall x, x ∉ cs -> peek m' x = peek m x.

Class GuestMemoryLaws (M : Type) `{GM : GuestMemory M} : Prop := {
  (** A read returns the bytes of the range, and fails when one is missing. *)
  law_read : forall m a n bs, (0 < n)%nat ->
    gm_read m a n = Ok bs <->
    length bs = n /\ forall i : nat, (i < n)%nat -> peek m (a + Z.of_nat i) = bs !! i;
  law_byte : forall m a b, peek m a = Some b -> in_u 8 b /\ in_u 64 a;
  (** A write succeeds exactly on a backed range. *)
  law_write_success : forall m a bs, bs <> [] -> bytes_ok bs ->
    snd (gm_write m a bs) = Ok tt <-> range_mapped m a (Z.of_nat (length bs));
  law_write : forall m m' a bs, bytes_ok bs ->
    gm_write m a bs = (m', Ok tt) -> overwritten m m' a bs;
  law_write_fail : forall m m' a bs e, bytes_ok bs ->
    gm_write m a bs = (m', Err e) ->
    forall x, ~ (a <= x < a + Z.of_nat (length bs)) -> peek m' x = peek m x;
  law_write_layout : forall m a bs, bytes_ok bs -> same_layout m (fst (gm_write m a bs));
  (** Atomic accesses see and change the two bytes of the integer. *)
  law_load : forall m a v, gm_load16 m a = Ok v ->
    in_u 16 v /\ gm_read m a 2 = Ok (le_bytes 2 v);
  law_store_success : forall m a v, in_u 16 v ->
    snd (gm_store16 m a v) = Ok tt <-> acc16 m a;
  law_store : forall m m' a v, in_u 16 v ->
    gm_store16 m a v = (m', Ok tt) -> overwritten m m' a (le_bytes 2 v);
  law_store_fail : forall m m' a v e, gm_store16 m a v = (m', Err e) -> m' = m;
  law_store_layout : forall m a v, in_u 16 v -> same_layout m (fst (gm_store16 m a v));
  (** The regions: [address_in_range] and [find_region] agree with what is
      backed, and a slice lies in a region. *)
  law_in_range : forall m a, gm_in_range m a = true <-> mapped m a;
  law_region : forall m a s l, gm_find_region m a = Some (s, l) ->
    s <= a < s + l /\ range_mapped m s l;
  law_slice : forall m a n sl, gm_get_slice m a n = Ok sl ->
    sl = {| vs_addr := a; vs_len := n |} /\ range_mapped m a n;
  law_slice_success : forall m a n s l, gm_find_region m a = Some (s, l) ->
    0 <= n -> a + n <= s + l -> is_ok (gm_get_slice m a n) = true;
  (** The parts of a slice. *)
  law_offset : forall m vs n, 0 <= n <= vs_len vs ->
    gm_offset m vs n = Ok {| vs_addr := vs_addr vs + n; vs_len := vs_len vs - n |};
  law_subslice : forall m vs o n, 0 <= o -> 0 <= n -> o + n <= vs_len vs ->
    gm_subslice m vs o n = Ok {| vs_addr := vs_addr vs + o; vs_len := n |};
}.

(** [read_obj] and [write_obj] on an object. *)
Definition read_obj {M} `{GuestMemory M} (T : Type) `{ByteValued T} (m : M) (a : Z)
    : result GuestMemoryError T :=
  match gm_read m a (bv_size T) with
  | Ok bs => Ok (bv_decode bs)
  | Err e => Err e
  end.

Definition write_obj {M} `{GuestMemory M} {T : Type} `{ByteValued T} (m : M) (v : T) (a : Z)
    : M * result GuestMemoryError unit :=
  gm_write m a (bv_encode v).

(** ** Consequences of the laws *)

Section Laws.
Context {M : Type} `{GML : GuestMemoryLaws M}.
Implicit Types m : M.

Lemma same_layout_refl m : same_layout m m.
Proof. by repeat split. Qed.

Lemma same_layout_trans m1 m2 m3 :
  same_layout m1 m2 -> same_layout m2 m3 -> same_layout m1 m3.
Proof.
  intros (A1 & B1 & C1 & D1 & E1) (A2 & B2 & C2 & D2 & E2).
  split_and!; intros.
  - by rewrite A1, A2.
  - by rewrite B1, B2.
  - by rewrite C1, C2.
  - by rewrite D1, D2.
  - by rewrite E1, E2.
Qed.

Lemma changed_within_refl cs m : changed_within cs m m.
Proof. split; [apply same_layout_refl|done]. Qed.

Lemma changed_within_trans cs m1 m2 m3 :
  changed_within cs m1 m2 -> changed_within cs m2 m3 -> changed_within cs m1 m3.
Proof.
  intros [H1 P1] [H2 P2]. split; [by eapply same_layout_trans|]. intros x Hx.
  by rewrite P2, P1.
Qed.

Lemma changed_within_mono cs cs' m m' :
  cs ⊆ cs' -> changed_within cs m m' -> changed_within cs' m m'.
Proof. intros Hs [Hl Hp]. split; [done|]. intros x Hx. apply Hp. intros Hin. by apply Hx, Hs. Qed.

(** A write, failed or not, stays within its range. *)
Lemma write_changed_within m m' a bs r cs :
  bytes_ok bs -> (forall x, a <= x < a + Z.of_nat (length bs) -> x ∈ cs) ->
  gm_write m a bs = (m', r) -> changed_within cs m m'.
Proof.
  intros Hb Hcs Hw. split.
  - change m' with (fst (m', r)). rewrite <- Hw. by apply law_write_layout.
  - intros x Hx. assert (~ (a <= x < a + Z.of_nat (length bs))) as Hn by auto. destruct r as [[]|e].
    + pose proof (law_write _ _ _ _ Hb Hw x) as Ho. by rewrite Ho, decide_False.
    + by eapply law_write_fail.
Qed.

Lemma same_layout_mapped m m' a n :
  same_layout m m' -> range_mapped m a n -> range_mapped m' a n.
Proof. intros (A & _) Hr x Hx. apply A. by apply Hr. Qed.

Lemma same_layout_acc16 m m' a : same_layout m m' -> acc16 m a -> acc16 m' a.
Proof. intros (_ & B & _). apply B. Qed.

Lemma gm_read_peek m a n bs i :
  (0 < n)%nat -> gm_read m a n = Ok bs -> (i < n)%nat ->
  peek m (a + Z.of_nat i) = bs !! i.
Proof. intros Hn Hr Hi. apply law_read in Hr as [_ Hr]; auto. Qed.

Lemma gm_read_length m a n bs : (0 < n)%nat -> gm_read m a n = Ok bs -> length bs = n.
Proof. intros Hn Hr. by apply law_read in Hr as [? _]. Qed.

Lemma gm_read_bytes m a n bs : (0 < n)%nat -> gm_read m a n = Ok bs -> bytes_ok bs.
Proof.
  intros Hn Hr. apply Forall_lookup. intros i b Hi.
  assert (i < n)%nat.
  { apply lookup_lt_Some in Hi. by rewrite (gm_read_length _ _ _ _ Hn Hr) in Hi. }
  apply (law_byte m (a + Z.of_nat i)). by rewrite (gm_read_peek m a n bs) by done.
Qed.

(** A read depends only on the bytes of its range. *)
Lemma gm_read_ext m m' a n bs :
  (0 < n)%nat -> (forall x, a <= x < a + Z.of_nat n -> peek m' x = peek m x) ->
  gm_read m a n = Ok bs -> gm_read m' a n = Ok bs.
Proof.
  intros Hn Hx Hr. apply law_read in Hr as [Hl Hr]; [|done].
  apply law_read; [done|]. split; [done|]. intros i Hi.
  rewrite Hx by lia. by apply Hr.
Qed.

Lemma gm_read_succeeds m a n :
  (0 < n)%nat -> range_mapped m a (Z.of_nat n) -> exists bs, gm_read m a n = Ok bs.
Proof.
  intros Hn Hm. exists ((fun i => default 0 (peek m (a + Z.of_nat i))) <$> seq 0 n).
  apply law_read; [done|]. split; [by rewrite length_fmap, length_seq|].
  intros i Hi. rewrite list_lookup_fmap, lookup_seq_lt by done. simpl.
  destruct (Hm (a + Z.of_nat i)) as [b ->]; [lia|done].
Qed.

(** Reading back what was written. *)
Lemma overwritten_read m m' a bs :
  bs <> [] -> overwritten m m' a bs -> gm_read m' a (length bs) = Ok bs.
Proof.
  intros Hbs Ho. apply law_read; [by destruct bs; [|simpl; lia]|]. split; [done|].
  intros i Hi. rewrite Ho, decide_True by lia. f_equal. lia.
Qed.

(** A read of a disjoint range is not disturbed. *)
Lemma overwritten_read_other m m' a bs a' n r :
  (0 < n)%nat -> overwritten m m' a bs ->
  a' + Z.of_nat n <= a \/ a + Z.of_nat (length bs) <= a' ->
  gm_read m a' n = Ok r -> gm_read m' a' n = Ok r.
Proof.
  intros Hn Ho Hd. apply gm_read_ext; [done|]. intros x Hx.
  rewrite Ho, decide_False by lia. done.
Qed.

Lemma overwritten_peek_other m m' a bs x :
  overwritten m m' a bs -> ~ (a <= x < a + Z.of_nat (length bs)) ->
  peek m' x = peek m x.
Proof. intros Ho Hx. by rewrite Ho, decide_False. Qed.

Lemma gm_load16_value m a v v' :
  gm_load16 m a = Ok v -> gm_read m a 2 = Ok (le_bytes 2 v') -> in_u 16 v' -> v = v'.
Proof.
  intros Hl Hr Hv'. apply law_load in Hl as [Hv Hl]. rewrite Hl in Hr. simplify_eq.
  apply (le_bytes_inj 2); try done. cbn [le_bytes]. by f_equal; [|f_equal].
Qed.

(** An atomic load depends on its two bytes. *)
Lemma load_ext m m' a v :
  same_layout m m' -> (forall x, a <= x < a + 2 -> peek m' x = peek m x) ->
  gm_load16 m a = Ok v -> gm_load16 m' a = Ok v.
Proof.
  intros Hl Hx Hv. destruct (same_layout_acc16 m m' a Hl) as [v' Hv']; [by exists v|].
  rewrite Hv'. f_equal. apply law_load in Hv as [Hu Hr].
  apply (gm_load16_value m' a); [done| |done]. eapply gm_read_ext; [lia|done|done].
Qed.

(** An atomic load after an atomic store. *)
Lemma load_after_store m m' a v :
  in_u 16 v -> gm_store16 m a v = (m', Ok tt) -> gm_load16 m' a = Ok v.
Proof.
  intros Hv Hs.
  assert (acc16 m' a) as [v' Hv'].
  { pose proof (law_store_layout m a v Hv) as Hly. rewrite Hs in Hly.
    apply (same_layout_acc16 m); [done|]. apply (law_store_success m a v Hv).
    by rewrite Hs. }
  rewrite Hv'. f_equal. apply (gm_load16_value m' a); [done| |done].
  apply (overwritten_read m m' a (le_bytes 2 v)); [done|]. by apply law_store.
Qed.

(** An atomic load is not disturbed by a change elsewhere. *)
Lemma load_other m m' a bs a' v :
  overwritten m m' a bs -> same_layout m m' ->
  a' + 2 <= a \/ a + Z.of_nat (length bs) <= a' ->
  gm_load16 m a' = Ok v -> gm_load16 m' a' = Ok v.
Proof.
  intros Ho Hly Hd Hl.
  destruct (same_layout_acc16 m m' a' Hly) as [v' Hv']; [by exists v|].
  rewrite Hv'. f_equal. apply law_load in Hl as [Hv Hr].
  apply (gm_load16_value m' a'); [done| |done].
  eapply overwritten_read_other; [| | |exact Hr]; [lia|done|lia].
Qed.

Section Objects.
Context {T : Type} `{BVL : ByteValuedLaws T}.

Lemma write_obj_success m (v : T) a :
  snd (write_obj m v a) = Ok tt <-> range_mapped m a (Z.of_nat (bv_size T)).
Proof.
  unfold write_obj. pose proof (bv_encode_length v) as Hl. pose proof (bv_size_pos (T:=T)).
  rewrite law_write_success; [by rewrite Hl| |apply bv_encode_bytes].
  intros Hn. rewrite Hn in Hl. simpl in Hl. lia.
Qed.

Lemma write_obj_overwritten m m' (v : T) a :
  write_obj m v a = (m', Ok tt) -> overwritten m m' a (bv_encode v).
Proof. apply law_write, bv_encode_bytes. Qed.

Lemma write_obj_layout m (v : T) a : same_layout m (fst (write_obj m v a)).
Proof. apply law_write_layout, bv_encode_bytes. Qed.

(** [read_obj] after [write_obj]. *)
Lemma read_write_obj m m' (v : T) a :
  bv_wf v -> write_obj m v a = (m', Ok tt) -> read_obj T m' a = Ok v.
Proof.
  intros Hv Hw. apply write_obj_overwritten in Hw. apply overwritten_read in Hw.
  - unfold read_obj. rewrite bv_encode_length in Hw. rewrite Hw.
    by rewrite bv_decode_encode.
  - intros Hn. pose proof (bv_encode_length v) as Hl. pose proof (bv_size_pos (T:=T)).
    rewrite Hn in Hl. simpl in Hl. lia.
Qed.

Lemma read_obj_succeeds m a :
  range_mapped m a (Z.of_nat (bv_size T)) -> exists v : T, read_obj T m a = Ok v.
Proof.
  intros Hm. destruct (gm_read_succeeds m a (bv_size T)) as [bs Hbs];
    [apply bv_size_pos|done|]. exists (bv_decode bs). unfold read_obj. by rewrite Hbs.
Qed.

Lemma read_obj_wf m a (v : T) : read_obj T m a = Ok v -> bv_wf v.
Proof.
  unfold read_obj. intros Hr. case_match eqn:Hg; simplify_eq.
  apply bv_decode_wf.
  - eapply gm_read_bytes; [apply bv_size_pos|done].
  - eapply gm_read_length; [apply bv_size_pos|done].
Qed.

Lemma read_obj_other m m' a bs a' (v : T) :
  overwritten m m' a bs ->
  a' + Z.of_nat (bv_size T) <= a \/ a + Z.of_nat (length bs) <= a' ->
  read_obj T m a' = Ok v -> read_obj T m' a' = Ok v.
Proof.
  unfold read_obj. intros Ho Hd Hr. case_match eqn:Hg; simplify_eq.
  eapply overwritten_read_other in Hg as ->; [done|apply bv_size_pos|done|lia].
Qed.
End Objects.
End Laws.

Global Hint Resolve same_layout_refl write_obj_layout : virtio.
