(* ===== verification/FlatMemory.v ===== *)
(** * A concrete guest memory

    A list of regions, zero filled, with the bytes written so far in a finite
    map.  It satisfies every law of [GuestMemoryLaws], so the hypotheses of
    the library can be met, and it computes: the examples and witnesses of the
    other files run on it. *)

From stdpp Require Import base numbers list option gmap.
From S2P Require Import Prelude Bytes GuestMemory.

Record FlatMem : Type := {
  fm_regions : list (Z * Z);
  fm_bytes : gmap Z Z;
}.

(** [GuestMemoryMmap::from_ranges]. *)
Definition from_ranges (rs : list (Z * Z)) : FlatMem :=
  {| fm_regions := rs; fm_bytes := ∅ |}.

Definition region_has (a : Z) (r : Z * Z) : bool :=
  (0 <=? r.1) && (r.1 + r.2 <=? 2 ^ 64) && (r.1 <=? a) && (a <? r.1 + r.2).

Definition fm_region (m : FlatMem) (a : Z) : option (Z * Z) :=
  List.find (region_has a) (fm_regions m).

Definition fm_byte (m : FlatMem) (a : Z) : option Z :=
  match fm_region m a with
  | Some _ => Some (wrap 8 (default 0 (fm_bytes m !! a)))
  | None => None
  end.

(** The backed bytes from [a] on, at most [n]. *)
Fixpoint fm_collect (m : FlatMem) (a : Z) (n : nat) : list Z :=
  match n with
  | O => []
  | S n => match fm_byte m a with
           | Some b => b :: fm_collect m (a + 1) n
           | None => []
           end
  end.

Fixpoint poke (bytes : gmap Z Z) (a : Z) (bs : list Z) : gmap Z Z :=
  match bs with
  | [] => bytes
  | b :: bs => <[a := b]> (poke bytes (a + 1) bs)
  end.

Definition with_bytes (m : FlatMem) (bytes : gmap Z Z) : FlatMem :=
  {| fm_regions := fm_regions m; fm_bytes := bytes |}.

(** The outcome of an access to [n] bytes of which [k] are backed. *)
Definition access (a : Z) (n k : nat) : result GuestMemoryError unit :=
  if decide (k = n) then Ok tt
  else if decide (k = 0%nat) then Err (InvalidGuestAddress a)
  else Err (PartialBuffer (Z.of_nat n) (Z.of_nat k)).

Definition fm_read (m : FlatMem) (a : Z) (n : nat) : result GuestMemoryError (list Z) :=
  let bs := fm_collect m a n in
  match access a n (length bs) with Ok _ => Ok bs | Err e => Err e end.

Definition fm_write (m : FlatMem) (a : Z) (bs : list Z)
    : FlatMem * result GuestMemoryError unit :=
  let k := length (fm_collect m a (length bs)) in
  (with_bytes m (poke (fm_bytes m) a (take k bs)), access a (length bs) k).

Definition fm_acc16 (m : FlatMem) (a : Z) : bool :=
  (a mod 2 =? 0) &&
  match fm_region m a with Some (s, l) => a + 2 <=? s + l | None => false end.

Definition fm_load16 (m : FlatMem) (a : Z) : result GuestMemoryError Z :=
  if fm_acc16 m a then Ok (le_value (fm_collect m a 2)) else Err (InvalidGuestAddress a).

Definition fm_store16 (m : FlatMem) (a v : Z) : FlatMem * result GuestMemoryError unit :=
  if fm_acc16 m a then (with_bytes m (poke (fm_bytes m) a (le_bytes 2 v)), Ok tt)
  else (m, Err (InvalidGuestAddress a)).

Definition fm_get_slice (m : FlatMem) (a n : Z) : result GuestMemoryError VolatileSlice :=
  match fm_region m a with
  | Some (s, l) =>
      if (0 <=? n) && (a + n <=? s + l) then Ok {| vs_addr := a; vs_len := n |}
      else Err (OtherMemoryError 0)
  | None => Err (InvalidGuestAddress a)
  end.

Definition fm_subslice (vs : VolatileSlice) (o n : Z) : result Z VolatileSlice :=
  if (0 <=? o) && (0 <=? n) && (o + n <=? vs_len vs)
  then Ok {| vs_addr := vs_addr vs + o; vs_len := n |} else Err 0.

Definition fm_offset (vs : VolatileSlice) (n : Z) : result Z VolatileSlice :=
  fm_subslice vs n (vs_len vs - n).

Global Instance FlatMem_GuestMemory : GuestMemory FlatMem := {|
  gm_read := fm_read;
  gm_write := fm_write;
  gm_load16 := fm_load16;
  gm_store16 := fm_store16;
  gm_in_range := fun m a => bool_decide (is_Some (fm_region m a));
  gm_find_region := fm_region;
  gm_get_slice := fm_get_slice;
  gm_offset := fun _ => fm_offset;
  gm_subslice := fun _ => fm_subslice;
|}.

(** ** The laws *)

Section Flat.
Implicit Types m : FlatMem.

Lemma fm_byte_region m a : is_Some (fm_byte m a) <-> is_Some (fm_region m a).
Proof. unfold fm_byte. case_match; naive_solver. Qed.

Lemma fm_region_spec m a r : fm_region m a = Some r ->
  In r (fm_regions m) /\ region_has a r = true.
Proof. apply List.find_some. Qed.

Lemma region_has_spec a r : region_has a r = true <->
  0 <= r.1 /\ r.1 + r.2 <= 2 ^ 64 /\ r.1 <= a < r.1 + r.2.
Proof. unfold region_has. rewrite !andb_true_iff. lia. Qed.

Lemma fm_region_in m a r :
  In r (fm_regions m) -> region_has a r = true -> is_Some (fm_region m a).
Proof.
  intros Hin Hr. unfold fm_region. destruct (List.find _ _) eqn:Hf; [done|].
  eapply List.find_none in Hf; [|done]. congruence.
Qed.

Lemma fm_peek m a : peek m a = fm_byte m a.
Proof.
  unfold peek. cbn. unfold fm_read. cbn. destruct (fm_byte m a); done.
Qed.

Lemma fm_byte_ok m a b : fm_byte m a = Some b -> in_u 8 b /\ in_u 64 a.
Proof.
  unfold fm_byte. intros Hb. case_match eqn:Hr; simplify_eq. split.
  - by apply in_u_wrap.
  - apply fm_region_spec in Hr as [_ Hr]. apply region_has_spec in Hr.
    unfold in_u. lia.
Qed.

Lemma fm_collect_prefix m a n :
  (length (fm_collect m a n) <= n)%nat /\
  (forall i, (i < length (fm_collect m a n))%nat ->
    fm_byte m (a + Z.of_nat i) = fm_collect m a n !! i) /\
  ((length (fm_collect m a n) < n)%nat ->
    fm_byte m (a + Z.of_nat (length (fm_collect m a n))) = None).
Proof.
  revert a. induction n as [|n IH]; intros a; simpl; [by split_and!; [|intros; lia|lia]|].
  destruct (fm_byte m a) as [b|] eqn:Hb; simpl.
  - destruct (IH (a + 1)) as (Hl & Hi & Hn). split_and!; [lia| |].
    + intros [|i] Hlt; simpl; [by rewrite Z.add_0_r|].
      rewrite <- Hi by lia. f_equal. lia.
    + intros Hlt. rewrite <- Hn by lia. f_equal. lia.
  - split_and!; [lia|lia|]. intros _. by rewrite Z.add_0_r.
Qed.

Lemma fm_collect_full m a n :
  length (fm_collect m a n) = n <->
  forall i, (i < n)%nat -> is_Some (fm_byte m (a + Z.of_nat i)).
Proof.
  destruct (fm_collect_prefix m a n) as (Hl & Hi & Hn). split.
  - intros Heq i Hlt. rewrite Hi by lia. apply lookup_lt_is_Some. lia.
  - intros Hall. destruct (decide (length (fm_collect m a n) = n)) as [|Hne]; [done|].
    specialize (Hn ltac:(lia)). destruct (Hall (length (fm_collect m a n))); [lia|].
    congruence.
Qed.

Lemma access_ok a n k : access a n k = Ok tt <-> k = n.
Proof. unfold access. repeat case_decide; naive_solver. Qed.

Lemma poke_lookup bytes a bs x :
  poke bytes a bs !! x =
    if decide (a <= x < a + Z.of_nat (length bs)) then bs !! Z.to_nat (x - a)
    else bytes !! x.
Proof.
  revert a. induction bs as [|b bs IH]; intros a; simpl.
  - rewrite decide_False by lia. done.
  - destruct (decide (x = a)) as [->|Hne].
    + rewrite lookup_insert_eq, decide_True by lia. by rewrite Z.sub_diag.
    + rewrite lookup_insert_ne, IH by done. repeat case_decide; try lia; [|done].
      replace (Z.to_nat (x - a)) with (S (Z.to_nat (x - (a + 1)))) by lia. done.
Qed.

Lemma fm_poke_byte m a bs x :
  bytes_ok bs ->
  (forall i, (i < length bs)%nat -> is_Some (fm_byte m (a + Z.of_nat i))) ->
  fm_byte (with_bytes m (poke (fm_bytes m) a bs)) x =
    if decide (a <= x < a + Z.of_nat (length bs)) then bs !! Z.to_nat (x - a)
    else fm_byte m x.
Proof.
  intros Hb Hm. unfold fm_byte at 1. unfold fm_region. simpl. fold (fm_region m x).
  rewrite poke_lookup. case_decide as Hx.
  - specialize (Hm (Z.to_nat (x - a)) ltac:(lia)).
    rewrite Z2Nat.id, Zplus_minus in Hm by lia. apply fm_byte_region in Hm as [r ->].
    destruct (bs !! Z.to_nat (x - a)) as [b|] eqn:Hlk; simpl.
    + rewrite wrap_small; [done|]. eapply Forall_lookup; done.
    + apply lookup_ge_None in Hlk. lia.
  - done.
Qed.

Lemma with_bytes_layout m bytes : same_layout m (with_bytes m bytes).
Proof.
  unfold same_layout, mapped, acc16. split_and!; intros; try done.
  - rewrite !fm_peek, !fm_byte_region. done.
  - cbn. unfold fm_load16.
    change (fm_acc16 (with_bytes m bytes) x) with (fm_acc16 m x).
    destruct (fm_acc16 m x); [|naive_solver].
    split; intros _; eexists; done.
Qed.

Lemma fm_acc16_mapped m a i :
  fm_acc16 m a = true -> (i < 2)%nat -> is_Some (fm_byte m (a + Z.of_nat i)).
Proof.
  unfold fm_acc16. intros Ha Hi. zbool. case_match eqn:Hr; [|done].
  destruct p as [s l]. zbool. apply fm_region_spec in Hr as [Hin Hr].
  apply fm_byte_region. eapply fm_region_in; [done|].
  apply region_has_spec in Hr. apply region_has_spec. simpl in *. lia.
Qed.

Lemma fm_acc16_spec m a : acc16 m a <-> fm_acc16 m a = true.
Proof.
  unfold acc16. cbn. unfold fm_load16. destruct (fm_acc16 m a); naive_solver.
Qed.

Lemma fm_collect_bytes m a n : bytes_ok (fm_collect m a n).
Proof.
  apply Forall_lookup. intros i b Hlk. pose proof (lookup_lt_Some _ _ _ Hlk).
  destruct (fm_collect_prefix m a n) as (_ & Hi & _).
  rewrite <- Hi in Hlk by done. by apply fm_byte_ok in Hlk as [? _].
Qed.

(** The bytes of a region are backed, and so is a part of it. *)
Lemma fm_region_mapped m a s l b n :
  fm_region m a = Some (s, l) -> s <= b -> b + n <= s + l -> range_mapped m b n.
Proof.
  intros Hr Hb Hn x Hx. apply fm_region_spec in Hr as [Hin Hr].
  apply region_has_spec in Hr. simpl in Hr. unfold mapped.
  rewrite fm_peek, fm_byte_region. eapply fm_region_in; [done|].
  apply region_has_spec. simpl. lia.
Qed.

Lemma fm_range_mapped m a n :
  range_mapped m a (Z.of_nat n) <-> length (fm_collect m a n) = n.
Proof.
  rewrite fm_collect_full. unfold range_mapped, mapped. setoid_rewrite fm_peek. split.
  - intros Hm i Hi. apply Hm. lia.
  - intros Hm x Hx. specialize (Hm (Z.to_nat (x - a)) ltac:(lia)).
    by rewrite Z2Nat.id, Zplus_minus in Hm by lia.
Qed.

Lemma fm_read_law m a n bs :
  fm_read m a n = Ok bs <->
  length bs = n /\ forall i : nat, (i < n)%nat -> peek m (a + Z.of_nat i) = bs !! i.
Proof.
  setoid_rewrite fm_peek. unfold fm_read.
  destruct (fm_collect_prefix m a n) as (Hl & Hi & _). split.
  - intros H. destruct (access _ _ _) as [[]|] eqn:Ha; simplify_eq.
    apply access_ok in Ha. rewrite Ha in Hi. done.
  - intros [Hbs Hpk].
    assert (length (fm_collect m a n) = n) as Hf.
    { apply fm_collect_full. intros i Hlt. rewrite Hpk by done.
      apply lookup_lt_is_Some. lia. }
    rewrite (proj2 (access_ok a n _) Hf). f_equal.
    apply list_eq_same_length with n; try done.
    intros i x y Hlt. rewrite <- Hi, <- Hpk by lia. congruence.
Qed.

Lemma fm_write_law m m' a bs :
  bytes_ok bs -> fm_write m a bs = (m', Ok tt) -> overwritten m m' a bs.
Proof.
  intros Hb Hw. injection Hw as <- Ha. apply access_ok in Ha.
  rewrite Ha, firstn_all. intros x. rewrite !fm_peek.
  apply fm_poke_byte; [done|]. by apply fm_collect_full.
Qed.

Lemma fm_write_fail_law m m' a bs e x :
  bytes_ok bs -> fm_write m a bs = (m', Err e) ->
  ~ (a <= x < a + Z.of_nat (length bs)) -> peek m' x = peek m x.
Proof.
  intros Hb Hw Hx. injection Hw as <- Ha.
  destruct (fm_collect_prefix m a (length bs)) as (Hl & Hi & _).
  rewrite !fm_peek, fm_poke_byte.
  - rewrite length_take_le by done. rewrite decide_False by lia. done.
  - by apply Forall_take.
  - rewrite length_take_le by done. intros i Hlt. rewrite Hi by done.
    by apply lookup_lt_is_Some.
Qed.

Lemma fm_load_law m a v :
  fm_load16 m a = Ok v -> in_u 16 v /\ fm_read m a 2 = Ok (le_bytes 2 v).
Proof.
  unfold fm_load16, fm_read. destruct (fm_acc16 m a) eqn:Ha; [|done].
  assert (length (fm_collect m a 2) = 2%nat) as Hf.
  { apply fm_collect_full. intros. by apply fm_acc16_mapped. }
  pose proof (fm_collect_bytes m a 2) as Hb.
  rewrite (proj2 (access_ok a 2 _) Hf). intros [= <-].
  pose proof (le_value_range _ Hb) as Hr. pose proof (le_bytes_value _ Hb) as Hv.
  rewrite Hf in Hr, Hv. split; [done|]. by rewrite <- Hv at 1.
Qed.

Lemma fm_store_law m m' a v :
  fm_store16 m a v = (m', Ok tt) -> overwritten m m' a (le_bytes 2 v).
Proof.
  unfold fm_store16. destruct (fm_acc16 m a) eqn:Ha; [|done].
  intros Heq. pose proof (f_equal fst Heq) as Hm. cbn [fst] in Hm. rewrite <- Hm.
  intros x. rewrite !fm_peek. apply fm_poke_byte; [apply le_bytes_ok|].
  rewrite length_le_bytes. intros. by apply fm_acc16_mapped.
Qed.

Lemma fm_slice_law m a n sl :
  fm_get_slice m a n = Ok sl ->
  sl = {| vs_addr := a; vs_len := n |} /\ range_mapped m a n.
Proof.
  unfold fm_get_slice. intros H. case_match eqn:Hr; [|done]. case_match. case_match; [|done].
  zbool. simplify_eq. split; [done|]. eapply fm_region_mapped; [done| |done].
  apply fm_region_spec in Hr as [_ Hr]. apply region_has_spec in Hr. simpl in Hr. lia.
Qed.
End Flat.

Global Instance FlatMem_laws : GuestMemoryLaws FlatMem.
Proof.
  split; cbn [gm_read gm_write gm_load16 gm_store16 gm_in_range gm_find_region
    gm_get_slice gm_offset gm_subslice FlatMem_GuestMemory].
  - intros. apply fm_read_law.
  - intros m a b. rewrite fm_peek. apply fm_byte_ok.
  - intros m a bs _ _. simpl. by rewrite access_ok, fm_range_mapped.
  - apply fm_write_law.
  - intros. by eapply fm_write_fail_law.
  - intros m a bs _. apply with_bytes_layout.
  - apply fm_load_law.
  - intros m a v Hv. rewrite fm_acc16_spec. unfold fm_store16.
    destruct (fm_acc16 m a); simpl; naive_solver.
  - intros. by eapply fm_store_law.
  - intros m m' a v e. unfold fm_store16. destruct (fm_acc16 m a); naive_solver.
  - intros m a v _. unfold fm_store16. destruct (fm_acc16 m a); simpl;
      [apply with_bytes_layout|apply same_layout_refl].
  - intros m a. unfold mapped. rewrite fm_peek, fm_byte_region, bool_decide_eq_true. done.
  - intros m a s l Hr. split; [|by eapply fm_region_mapped].
    apply fm_region_spec in Hr as [_ Hr]. apply region_has_spec in Hr. simpl in Hr. lia.
  - apply fm_slice_law.
  - intros m a n s l Hr Hn Hle. unfold fm_get_slice. rewrite Hr.
    rewrite (proj2 (Z.leb_le _ _) Hn), (proj2 (Z.leb_le _ _) Hle). done.
  - intros m vs n Hn. unfold fm_offset, fm_subslice.
    by rewrite !(proj2 (Z.leb_le _ _)) by lia.
  - intros m vs o n Ho Hn Hle. unfold fm_subslice. by rewrite !(proj2 (Z.leb_le _ _)) by lia.
Qed.
