(* ===== verification/Descriptor.v ===== *)
(** * Descriptors

    The constants of the split virtqueue layout (virtio-queue/src/defs.rs and
    the generated bindings), the split, packed and raw descriptor formats
    (virtio-queue/src/desc), and their images in guest memory. *)

From stdpp Require Import base numbers list option.
From S2P Require Import Prelude Bytes.

(** ** Constants *)

Definition VIRTQ_USED_RING_HEADER_SIZE : u64 := 4.
Definition VIRTQ_USED_RING_META_SIZE : u64 := VIRTQ_USED_RING_HEADER_SIZE + 2.
Definition VIRTQ_USED_ELEMENT_SIZE : u64 := 8.
Definition VIRTQ_AVAIL_RING_HEADER_SIZE : u64 := 4.
Definition VIRTQ_AVAIL_RING_META_SIZE : u64 := VIRTQ_AVAIL_RING_HEADER_SIZE + 2.
Definition VIRTQ_AVAIL_ELEMENT_SIZE : u64 := 2.
Definition DEFAULT_DESC_TABLE_ADDR : u64 := 0.
Definition DEFAULT_AVAIL_RING_ADDR : u64 := 0.
Definition DEFAULT_USED_RING_ADDR : u64 := 0.

Definition VRING_DESC_F_NEXT : u32 := 1.
Definition VRING_DESC_F_WRITE : u32 := 2.
Definition VRING_DESC_F_INDIRECT : u32 := 4.
Definition VRING_USED_F_NO_NOTIFY : u32 := 1.
Definition VRING_DESC_ALIGN_SIZE : u32 := 16.

(** ** The split descriptor *)

(** The fields are stored little endian; [d_addr] and the others are the
    values the getters [addr], [len], [flags] and [next] return. *)
Record Descriptor : Type := mk_descriptor {
  d_addr : u64;
  d_len : u32;
  d_flags : u16;
  d_next : u16;
}.

Global Instance Descriptor_eq_dec : EqDecision Descriptor.
Proof. solve_decision. Defined.

Definition descriptor_new (addr : u64) (len : u32) (flags next : u16) : Descriptor :=
  {| d_addr := addr; d_len := len; d_flags := flags; d_next := next |}.

Definition refers_to_indirect_table (d : Descriptor) : bool :=
  negb (Z.land (d_flags d) (wrap 16 VRING_DESC_F_INDIRECT) =? 0).

Definition has_next (d : Descriptor) : bool :=
  negb (Z.land (d_flags d) (wrap 16 VRING_DESC_F_NEXT) =? 0).

Definition is_write_only (d : Descriptor) : bool :=
  negb (Z.land (d_flags d) (wrap 16 VRING_DESC_F_WRITE) =? 0).

Definition set_addr (addr : u64) (d : Descriptor) : Descriptor :=
  descriptor_new addr (d_len d) (d_flags d) (d_next d).
Definition set_len (len : u32) (d : Descriptor) : Descriptor :=
  descriptor_new (d_addr d) len (d_flags d) (d_next d).
Definition set_flags (flags : u16) (d : Descriptor) : Descriptor :=
  descriptor_new (d_addr d) (d_len d) flags (d_next d).
Definition set_next (next : u16) (d : Descriptor) : Descriptor :=
  descriptor_new (d_addr d) (d_len d) (d_flags d) next.

(** ** The packed descriptor *)

Record PackedDescriptor : Type := mk_packed {
  p_addr : u64;
  p_len : u32;
  p_id : u16;
  p_flags : u16;
}.

Definition packed_new (addr : u64) (len : u32) (id flags : u16) : PackedDescriptor :=
  {| p_addr := addr; p_len := len; p_id := id; p_flags := flags |}.

Definition packed_refers_to_indirect_table (d : PackedDescriptor) : bool :=
  negb (Z.land (p_flags d) (wrap 16 VRING_DESC_F_INDIRECT) =? 0).
Definition packed_has_next (d : PackedDescriptor) : bool :=
  negb (Z.land (p_flags d) (wrap 16 VRING_DESC_F_NEXT) =? 0).
Definition packed_is_write_only (d : PackedDescriptor) : bool :=
  negb (Z.land (p_flags d) (wrap 16 VRING_DESC_F_WRITE) =? 0).

Definition packed_set_addr (addr : u64) (d : PackedDescriptor) : PackedDescriptor :=
  packed_new addr (p_len d) (p_id d) (p_flags d).
Definition packed_set_len (len : u32) (d : PackedDescriptor) : PackedDescriptor :=
  packed_new (p_addr d) len (p_id d) (p_flags d).
Definition packed_set_flags (flags : u16) (d : PackedDescriptor) : PackedDescriptor :=
  packed_new (p_addr d) (p_len d) (p_id d) flags.
Definition packed_set_id (id : u16) (d : PackedDescriptor) : PackedDescriptor :=
  packed_new (p_addr d) (p_len d) id (p_flags d).

(** The event suppression structure of packed queues. *)
Record PackedDescEvent : Type := mk_packed_event { off_wrap : u16; event_flags : u16 }.

Definition packed_desc_event_new (off_wrap flags : u16) : PackedDescEvent :=
  {| off_wrap := off_wrap; event_flags := flags |}.

(** ** The raw descriptor *)

(** [RawDescriptor(Le64, Le32, Le16, Le16)]: the common memory layout. *)
Record RawDescriptor : Type := mk_raw { raw0 : u64; raw1 : u32; raw2 : u16; raw3 : u16 }.

Definition raw_of_split (d : Descriptor) : RawDescriptor :=
  mk_raw (d_addr d) (d_len d) (d_flags d) (d_next d).
Definition raw_of_packed (d : PackedDescriptor) : RawDescriptor :=
  mk_raw (p_addr d) (p_len d) (p_id d) (p_flags d).
Definition split_of_raw (r : RawDescriptor) : Descriptor :=
  descriptor_new (raw0 r) (raw1 r) (raw2 r) (raw3 r).
Definition packed_of_raw (r : RawDescriptor) : PackedDescriptor :=
  packed_new (raw0 r) (raw1 r) (raw2 r) (raw3 r).

(** ** The used ring element *)

Record VirtqUsedElem : Type := mk_used_elem { ue_id : u32; ue_len : u32 }.

Global Instance VirtqUsedElem_eq_dec : EqDecision VirtqUsedElem.
Proof. solve_decision. Defined.

Definition used_elem_new (id len : u32) : VirtqUsedElem := {| ue_id := id; ue_len := len |}.

(** ** Memory layouts

    Each of these is [repr(C)] with fields that need no padding. *)

Global Instance Descriptor_bv : ByteValued Descriptor :=
  struct_bv [8; 4; 2; 2]%nat (fun d => [d_addr d; d_len d; d_flags d; d_next d])
    (fun vs => match vs with
               | [a; l; f; n] => mk_descriptor a l f n
               | _ => mk_descriptor 0 0 0 0
               end).

Global Instance RawDescriptor_bv : ByteValued RawDescriptor :=
  struct_bv [8; 4; 2; 2]%nat (fun r => [raw0 r; raw1 r; raw2 r; raw3 r])
    (fun vs => match vs with
               | [a; b; c; d] => mk_raw a b c d
               | _ => mk_raw 0 0 0 0
               end).

Global Instance PackedDescriptor_bv : ByteValued PackedDescriptor :=
  struct_bv [8; 4; 2; 2]%nat (fun d => [p_addr d; p_len d; p_id d; p_flags d])
    (fun vs => match vs with
               | [a; l; i; f] => mk_packed a l i f
               | _ => mk_packed 0 0 0 0
               end).

Global Instance VirtqUsedElem_bv : ByteValued VirtqUsedElem :=
  struct_bv [4; 4]%nat (fun e => [ue_id e; ue_len e])
    (fun vs => match vs with [i; l] => mk_used_elem i l | _ => mk_used_elem 0 0 end).

Global Instance PackedDescEvent_bv : ByteValued PackedDescEvent :=
  struct_bv [2; 2]%nat (fun e => [off_wrap e; event_flags e])
    (fun vs => match vs with [o; f] => mk_packed_event o f | _ => mk_packed_event 0 0 end).

(** The isomorphism between a structure and the list of its fields. *)
Ltac solve_struct_bv :=
  apply struct_bv_laws;
    [simpl; lia | done | by intros [] |
     intros vs Hvs; repeat (destruct vs as [|? vs]; simplify_eq/=); done].

Global Instance Descriptor_bv_laws : ByteValuedLaws Descriptor.
Proof. solve_struct_bv. Qed.
Global Instance RawDescriptor_bv_laws : ByteValuedLaws RawDescriptor.
Proof. solve_struct_bv. Qed.
Global Instance PackedDescriptor_bv_laws : ByteValuedLaws PackedDescriptor.
Proof. solve_struct_bv. Qed.
Global Instance VirtqUsedElem_bv_laws : ByteValuedLaws VirtqUsedElem.
Proof. solve_struct_bv. Qed.
Global Instance PackedDescEvent_bv_laws : ByteValuedLaws PackedDescEvent.
Proof. solve_struct_bv. Qed.

(** ** Lemmas *)

Definition descriptor_wf (d : Descriptor) : Prop :=
  in_u 64 (d_addr d) /\ in_u 32 (d_len d) /\ in_u 16 (d_flags d) /\ in_u 16 (d_next d).

Lemma descriptor_wf_bv d : bv_wf d <-> descriptor_wf d.
Proof.
  unfold descriptor_wf. cbn [bv_wf Descriptor_bv struct_bv].
  rewrite !fields_ok_cons. pose proof fields_ok_nil. naive_solver.
Qed.

Lemma used_elem_wf id len : in_u 32 id -> in_u 32 len -> bv_wf (used_elem_new id len).
Proof.
  intros. cbn [bv_wf VirtqUsedElem_bv struct_bv].
  rewrite !fields_ok_cons. by split_and!; [..|apply fields_ok_nil].
Qed.

(** The flag tests look at one bit each. *)
Lemma flag_test (f : Z) (k : Z) : 0 <= k ->
  negb (Z.land f (2 ^ k) =? 0) = Z.testbit f k.
Proof.
  intros Hk. destruct (Z.testbit f k) eqn:Hb.
  - apply negb_true_iff, Z.eqb_neq. intros H0.
    apply (f_equal (fun z => Z.testbit z k)) in H0.
    rewrite Z.land_spec, Hb, Z.pow2_bits_true, Z.bits_0 in H0 by done. done.
  - apply negb_false_iff, Z.eqb_eq, Z.bits_inj'. intros n Hn.
    rewrite Z.land_spec, Z.bits_0, Z.pow2_bits_eqb by done.
    destruct (Z.eqb_spec k n) as [->|]; [by rewrite Hb|]. apply andb_false_r.
Qed.

Lemma has_next_bit d : has_next d = Z.testbit (d_flags d) 0.
Proof. apply (flag_test _ 0). done. Qed.
Lemma is_write_only_bit d : is_write_only d = Z.testbit (d_flags d) 1.
Proof. apply (flag_test _ 1). done. Qed.
Lemma refers_to_indirect_table_bit d :
  refers_to_indirect_table d = Z.testbit (d_flags d) 2.
Proof. apply (flag_test _ 2). done. Qed.
