(* ===== verification/Chain.v ===== *)
(** * Descriptor chains

    The iterator over the descriptors of a chain (virtio-queue/src/chain.rs)
    and the errors of the virtio-queue crate (virtio-queue/src/lib.rs).

    A [DescriptorChain<M>] holds a handle to guest memory beside its cursor;
    guest memory is shared with the driver and with the device, so the model
    keeps the cursor in the record and passes the memory to each step. *)

From stdpp Require Import base numbers list option.
From S2P Require Import Prelude Bytes GuestMemory FlatMemory Descriptor.

(** ** Errors of virtio-queue *)

Inductive Error : Type :=
| AddressOverflow
| ErrGuestMemory (e : GuestMemoryError)
| InvalidIndirectDescriptor
| InvalidIndirectDescriptorTable
| InvalidChain
| InvalidDescriptorIndex
| InvalidMaxSize
| InvalidSize
| InvalidDescTableAlign
| InvalidAvailRingAlign
| InvalidUsedRingAlign
| InvalidAvailRingIndex
| QueueNotReady
| VolatileMemoryError (code : Z)
| DescriptorChainOverflow
| FindMemoryRegion
| ErrGuestMemoryError (e : GuestMemoryError)
| SplitOutOfBounds (offset : usize).

Global Instance Error_eq_dec : EqDecision Error.
Proof. solve_decision. Defined.

(** ** The chain *)

Record DescriptorChain : Type := mk_chain {
  c_desc_table : u64;
  c_queue_size : u16;
  c_head_index : u16;
  c_next_index : u16;
  c_ttl : u16;
  c_yielded_bytes : u32;
  c_is_indirect : bool;
}.

Definition with_ttl (desc_table : u64) (queue_size ttl head_index : u16) : DescriptorChain := {|
  c_desc_table := desc_table;
  c_queue_size := queue_size;
  c_head_index := head_index;
  c_next_index := head_index;
  c_ttl := ttl;
  c_yielded_bytes := 0;
  c_is_indirect := false;
|}.

Definition chain_new (desc_table : u64) (queue_size head_index : u16) : DescriptorChain :=
  with_ttl desc_table queue_size queue_size head_index.

Definition head_index (c : DescriptorChain) : u16 := c_head_index c.

Definition switch_to_indirect_table (c : DescriptorChain) (desc : Descriptor)
    : result Error DescriptorChain :=
  if c_is_indirect c then Err InvalidIndirectDescriptor
  else if negb (Z.land (d_len desc) (VRING_DESC_ALIGN_SIZE - 1) =? 0)
  then Err InvalidIndirectDescriptorTable
  else
    let table_len := d_len desc / VRING_DESC_ALIGN_SIZE in
    if table_len >? 65535 then Err InvalidIndirectDescriptorTable
    else
      (* [expect] is never reached with [None], see [switch_expect]. *)
      let queue_size := default 0 (u16_try_from table_len) in
      Ok {|
        c_desc_table := d_addr desc;
        c_queue_size := queue_size;
        c_head_index := c_head_index c;
        c_next_index := 0;
        c_ttl := queue_size;
        c_yielded_bytes := c_yielded_bytes c;
        c_is_indirect := true;
      |}.

(** The cursor after a descriptor has been accepted. *)
Definition advance (c : DescriptorChain) (desc : Descriptor) (yielded_bytes : u32)
    : DescriptorChain := {|
  c_desc_table := c_desc_table c;
  c_queue_size := c_queue_size c;
  c_head_index := c_head_index c;
  c_next_index := if has_next desc then d_next desc else c_next_index c;
  c_ttl := if has_next desc then c_ttl c - 1 else 0;
  c_yielded_bytes := yielded_bytes;
  c_is_indirect := c_is_indirect c;
|}.

Section Iteration.
Context {M : Type} `{GuestMemory M}.
Implicit Types m : M.

(** [next] calls itself after it has switched to an indirect table; [fuel]
    bounds the depth of these calls. *)
Fixpoint next_fuel (fuel : nat) (m : M) (c : DescriptorChain)
    : DescriptorChain * option Descriptor :=
  match fuel with
  | O => (c, None)
  | S fuel =>
      if (c_ttl c =? 0) || (c_next_index c >=? c_queue_size c) then (c, None)
      else
        match checked_add 64 (c_desc_table c) (c_next_index c * Z.of_nat (bv_size Descriptor)) with
        | None => (c, None)
        | Some desc_addr =>
            match read_obj Descriptor m desc_addr with
            | Err _ => (c, None)
            | Ok desc =>
                if refers_to_indirect_table desc then
                  match switch_to_indirect_table c desc with
                  | Err _ => (c, None)
                  | Ok c => next_fuel fuel m c
                  end
                else
                  match checked_add 32 (c_yielded_bytes c) (d_len desc) with
                  | None => (c, None)
                  | Some yielded_bytes => (advance c desc yielded_bytes, Some desc)
                  end
            end
        end
  end.

Definition chain_next (m : M) (c : DescriptorChain) : DescriptorChain * option Descriptor :=
  next_fuel 2 m c.

(** How many more descriptors the chain can yield at most. *)
Definition chain_budget (c : DescriptorChain) : Z :=
  c_ttl c + (if c_is_indirect c then 0 else 65535).

(** The loop of [DescriptorChainRwIter::next]. *)
Fixpoint rw_next_fuel (fuel : nat) (m : M) (writable : bool) (c : DescriptorChain)
    : DescriptorChain * option Descriptor :=
  match fuel with
  | O => (c, None)
  | S fuel =>
      match chain_next m c with
      | (c, Some v) =>
          if Bool.eqb (is_write_only v) writable then (c, Some v)
          else rw_next_fuel fuel m writable c
      | (c, None) => (c, None)
      end
  end.

Record DescriptorChainRwIter : Type := mk_rw_iter {
  rw_chain : DescriptorChain;
  rw_writable : bool;
}.

Definition readable (c : DescriptorChain) : DescriptorChainRwIter :=
  {| rw_chain := c; rw_writable := false |}.
Definition writable (c : DescriptorChain) : DescriptorChainRwIter :=
  {| rw_chain := c; rw_writable := true |}.

Definition rw_next (m : M) (it : DescriptorChainRwIter)
    : DescriptorChainRwIter * option Descriptor :=
  let '(c, d) := rw_next_fuel (S (Z.to_nat (chain_budget (rw_chain it)))) m
                   (rw_writable it) (rw_chain it) in
  ({| rw_chain := c; rw_writable := rw_writable it |}, d).

(** Everything an iterator yields, in order, from an unchanging memory. *)
Fixpoint collect_fuel {I : Type} (next : I -> I * option Descriptor) (fuel : nat) (it : I)
    : list Descriptor :=
  match fuel with
  | O => []
  | S fuel =>
      match next it with
      | (it, Some d) => d :: collect_fuel next fuel it
      | (_, None) => []
      end
  end.

Definition chain_descriptors (m : M) (c : DescriptorChain) : list Descriptor :=
  collect_fuel (chain_next m) (Z.to_nat (chain_budget c)) c.

(** The same run, each descriptor with the table it was found in: [true] is the
    indirect one. *)
Fixpoint trace_fuel (fuel : nat) (m : M) (c : DescriptorChain) : list (Descriptor * bool) :=
  match fuel with
  | O => []
  | S fuel =>
      match chain_next m c with
      | (c, Some d) => (d, c_is_indirect c) :: trace_fuel fuel m c
      | (_, None) => []
      end
  end.

Definition chain_trace (m : M) (c : DescriptorChain) : list (Descriptor * bool) :=
  trace_fuel (Z.to_nat (chain_budget c)) m c.

Definition rw_descriptors (m : M) (it : DescriptorChainRwIter) : list Descriptor :=
  collect_fuel (rw_next m) (Z.to_nat (chain_budget (rw_chain it))) it.
End Iteration.

(** ** Invariant *)

Record chain_wf (c : DescriptorChain) : Prop := {
  cw_desc_table : in_u 64 (c_desc_table c);
  cw_queue_size : in_u 16 (c_queue_size c);
  cw_next_index : in_u 16 (c_next_index c);
  cw_ttl : in_u 16 (c_ttl c);
  cw_yielded : in_u 32 (c_yielded_bytes c);
}.

Lemma chain_new_wf desc_table queue_size hd :
  in_u 64 desc_table -> in_u 16 queue_size -> in_u 16 hd ->
  chain_wf (chain_new desc_table queue_size hd).
Proof. by split. Qed.

Lemma chain_budget_nonneg c : chain_wf c -> 0 <= chain_budget c.
Proof. intros [_ _ _ [] _]. unfold chain_budget. case_match; lia. Qed.

(** The [expect] in [switch_to_indirect_table] cannot fail. *)
Lemma switch_expect len :
  in_u 32 len -> (len / VRING_DESC_ALIGN_SIZE >? 65535) = false ->
  u16_try_from (len / VRING_DESC_ALIGN_SIZE) = Some (len / VRING_DESC_ALIGN_SIZE).
Proof.
  intros Hlen Ht. zbool. apply u16_try_from_Some. split; [|done].
  assert (0 <= len / VRING_DESC_ALIGN_SIZE) by (apply Z.div_pos; unfold in_u in Hlen; done || lia).
  unfold in_u. change (2 ^ 16) with 65536. lia.
Qed.

Lemma switch_ok c desc c' :
  descriptor_wf desc -> switch_to_indirect_table c desc = Ok c' ->
  c_is_indirect c = false /\ c_is_indirect c' = true /\
  c_desc_table c' = d_addr desc /\
  c_queue_size c' = d_len desc / VRING_DESC_ALIGN_SIZE /\
  c_ttl c' = c_queue_size c' /\ c_next_index c' = 0 /\ in_u 16 (c_queue_size c') /\
  c_yielded_bytes c' = c_yielded_bytes c /\ c_head_index c' = c_head_index c.
Proof.
  intros (_ & Hlen & _) Hs. unfold switch_to_indirect_table in Hs.
  destruct (c_is_indirect c) eqn:Hi; [done|]. case_match; [done|].
  case_match eqn:Ht; [done|]. simplify_eq. simpl.
  rewrite switch_expect by done. simpl.
  pose proof (switch_expect _ Hlen Ht) as Hq. apply u16_try_from_Some in Hq as [? _].
  by split_and!.
Qed.

Section Facts.
Context {M : Type} `{GML : GuestMemoryLaws M}.
Implicit Types m : M.

Lemma read_descriptor_wf m a d : read_obj Descriptor m a = Ok d -> descriptor_wf d.
Proof. intros Hr. apply descriptor_wf_bv. by eapply read_obj_wf. Qed.

Lemma advance_wf c d y :
  chain_wf c -> descriptor_wf d -> in_u 32 y -> c_ttl c <> 0 -> chain_wf (advance c d y).
Proof.
  intros [] (? & ? & ? & ?) Hy Ht. split; simpl; try done; case_match; try done.
  unfold in_u in *. lia.
Qed.

(** One call of [next]: what it may return, by induction on the nesting. *)
Lemma next_fuel_inv fuel m c c' o :
  chain_wf c -> next_fuel fuel m c = (c', o) ->
  chain_wf c' /\ c_head_index c' = c_head_index c /\
  match o with
  | Some d =>
      chain_budget c' < chain_budget c /\
      c_yielded_bytes c' = c_yielded_bytes c + d_len d /\
      descriptor_wf d /\ refers_to_indirect_table d = false
  | None => chain_budget c' <= chain_budget c /\ c_yielded_bytes c' = c_yielded_bytes c
  end.
Proof.
  revert c. induction fuel as [|fuel IH]; intros c Hwf Hn; simpl in Hn; [by simplify_eq|].
  case_match eqn:Hend; [by simplify_eq|]. zbool.
  case_match eqn:Haddr; [|by simplify_eq].
  case_match eqn:Hread; [|by simplify_eq].
  pose proof (read_descriptor_wf _ _ _ Hread) as Hd.
  case_match eqn:Hind.
  - case_match eqn:Hsw; [|by simplify_eq].
    pose proof (switch_ok _ _ _ Hd Hsw) as (Hi & Hi' & Hdt & Hqs & Httl & Hni & Hq16 & Hy & Hh).
    destruct Hwf as [? ? ? Ht Hy32]. destruct Hd as (Ha & _).
    destruct (IH a0) as (Hwf' & Hh' & Ho); [|done|].
    { split; rewrite ?Hdt, ?Httl, ?Hni, ?Hy; done. }
    assert (chain_budget a0 < chain_budget c) as Hlt.
    { unfold chain_budget. rewrite Hi, Hi', Httl. unfold in_u in *. lia. }
    split; [done|]. split; [congruence|]. destruct o; rewrite <- Hy;
      destruct_and!; split_and!; try done; lia.
  - case_match eqn:Hadd; [|by simplify_eq]. simplify_eq.
    apply checked_add_Some in Hadd as [Hlt ->].
    assert (in_u 32 (c_yielded_bytes c + d_len a)).
    { destruct Hwf, Hd as (_ & ? & _). unfold in_u in *. lia. }
    split; [by apply advance_wf|]. split; [done|]. split_and!; try done.
    unfold chain_budget, advance; simpl. destruct Hwf as [_ _ _ ? _]. unfold in_u in *.
    destruct (has_next a), (c_is_indirect c); lia.
Qed.

Lemma chain_next_wf m c c' o : chain_wf c -> chain_next m c = (c', o) -> chain_wf c'.
Proof. intros Hwf Hn. by apply next_fuel_inv in Hn as (? & _). Qed.

Lemma chain_next_budget m c c' d :
  chain_wf c -> chain_next m c = (c', Some d) -> chain_budget c' < chain_budget c.
Proof. intros Hwf Hn. apply next_fuel_inv in Hn as (_ & _ & ? & _); done. Qed.

(** The [ttl] counts down in each table, and an indirect table has at most
    65535 entries. *)
Lemma next_fuel_table fuel m c c' d :
  chain_wf c -> next_fuel fuel m c = (c', Some d) ->
  c_is_indirect c' = c_is_indirect c /\ c_ttl c' < c_ttl c \/
  c_is_indirect c = false /\ c_is_indirect c' = true /\ c_ttl c' < 65535.
Proof.
  revert c. induction fuel as [|fuel IH]; intros c Hwf Hn; simpl in Hn; [done|].
  case_match eqn:Hend; [done|]. zbool. case_match eqn:Haddr; [|done].
  case_match eqn:Hread; [|done]. pose proof (read_descriptor_wf _ _ _ Hread) as Hd.
  case_match eqn:Hind.
  - case_match eqn:Hsw; [|done].
    pose proof (switch_ok _ _ _ Hd Hsw) as (Hi & Hi' & Hdt & Hqs & Httl & Hni & Hq16 & Hy & Hh).
    destruct Hwf as [? ? ? Ht Hy32]. destruct Hd as (Ha & _).
    right. destruct (IH a0) as [[Hi2 Hlt]|[? _]]; [|done| |congruence].
    { split; rewrite ?Hdt, ?Httl, ?Hni, ?Hy; done. }
    split_and!; [done|congruence|]. rewrite Httl in Hlt. unfold in_u in *. lia.
  - case_match; [|done]. simplify_eq. left. split; [done|]. simpl.
    destruct Hwf as [_ _ _ ? _]. unfold in_u in *. case_match; lia.
Qed.

Lemma next_fuel_step k k' m c :
  (forall c', c_is_indirect c' = true -> next_fuel k m c' = next_fuel k' m c') ->
  next_fuel (S k) m c = next_fuel (S k') m c.
Proof.
  intros Hrec. simpl. case_match; [done|]. case_match; [|done]. case_match; [|done].
  case_match; [|done]. case_match eqn:Hsw; [|done]. apply Hrec.
  unfold switch_to_indirect_table in Hsw. by case_all.
Qed.

Lemma indirect_next_fuel fuel fuel' m c :
  c_is_indirect c = true -> next_fuel (S fuel) m c = next_fuel (S fuel') m c.
Proof. intros Hi. simpl. unfold switch_to_indirect_table. rewrite Hi. done. Qed.

Lemma next_fuel_two fuel m c : next_fuel (2 + fuel) m c = chain_next m c.
Proof. apply next_fuel_step. intros c' Hi. by apply indirect_next_fuel. Qed.
End Facts.

(** ** Collecting an iterator

    An iterator whose [Some] steps decrease a measure is exhausted within that
    many steps, and more fuel changes nothing. *)
Section Collect.
Context {I : Type} (next : I -> I * option Descriptor) (wf : I -> Prop) (mu : I -> Z).
Hypothesis next_wf : forall it it' o, wf it -> next it = (it', o) -> wf it'.
Hypothesis next_mu : forall it it' d, wf it -> next it = (it', Some d) -> mu it' < mu it.
Hypothesis mu_nonneg : forall it, wf it -> 0 <= mu it.

Lemma collect_fuel_enough n n' it :
  wf it -> mu it <= Z.of_nat n -> mu it <= Z.of_nat n' ->
  collect_fuel next n it = collect_fuel next n' it.
Proof.
  revert n' it. induction n as [|n IH]; intros n' it Hwf Hn Hn'; simpl.
  - destruct n' as [|n']; [done|]. simpl. destruct (next it) as [it' [d|]] eqn:Hnx; [|done].
    pose proof (next_mu _ _ _ Hwf Hnx). pose proof (mu_nonneg it' (next_wf _ _ _ Hwf Hnx)). lia.
  - destruct (next it) as [it' [d|]] eqn:Hnx.
    + pose proof (next_mu _ _ _ Hwf Hnx). pose proof (next_wf _ _ _ Hwf Hnx) as Hwf'.
      pose proof (mu_nonneg it' Hwf').
      destruct n' as [|n']; [lia|]. simpl. rewrite Hnx. f_equal. apply IH; [done|lia|lia].
    + destruct n' as [|n']; simpl; [done|]. by rewrite Hnx.
Qed.

(** The equation of the loop. *)
Lemma collect_unfold it :
  wf it ->
  collect_fuel next (Z.to_nat (mu it)) it =
    match next it with
    | (it', Some d) => d :: collect_fuel next (Z.to_nat (mu it')) it'
    | (_, None) => []
    end.
Proof.
  intros Hwf. rewrite (collect_fuel_enough _ (S (Z.to_nat (mu it)))) by (try done; lia).
  simpl. destruct (next it) as [it' [d|]] eqn:Hnx; [|done]. f_equal.
  pose proof (next_mu _ _ _ Hwf Hnx). pose proof (next_wf _ _ _ Hwf Hnx) as Hwf'.
  pose proof (mu_nonneg _ Hwf'). apply collect_fuel_enough; [done|lia|lia].
Qed.
End Collect.

(** ** What a chain yields *)

Definition total_len (ds : list Descriptor) : Z := foldr (fun d n => d_len d + n) 0 ds.

Section Yield.
Context {M : Type} `{GML : GuestMemoryLaws M}.
Implicit Types m : M.

Lemma chain_descriptors_unfold m c :
  chain_wf c ->
  chain_descriptors m c =
    match chain_next m c with
    | (c', Some d) => d :: chain_descriptors m c'
    | (_, None) => []
    end.
Proof.
  apply (collect_unfold (chain_next m) chain_wf chain_budget).
  - apply chain_next_wf.
  - apply chain_next_budget.
  - apply chain_budget_nonneg.
Qed.

(** Induction along the steps of a chain. *)
Lemma chain_ind m (P : DescriptorChain -> Prop) :
  (forall c c', chain_wf c -> chain_next m c = (c', None) -> P c) ->
  (forall c c' d, chain_wf c -> chain_next m c = (c', Some d) -> P c' -> P c) ->
  forall c, chain_wf c -> P c.
Proof.
  intros Hend Hstep. cut (forall n c, chain_budget c <= Z.of_nat n -> chain_wf c -> P c).
  { intros Hcut c Hwf. apply (Hcut (Z.to_nat (chain_budget c))); [|done]. lia. }
  induction n as [|n IH]; intros c Hb Hwf;
    (destruct (chain_next m c) as [c' [d|]] eqn:Hn; [|by eapply Hend]).
  - pose proof (chain_next_budget _ _ _ _ Hwf Hn).
    pose proof (chain_budget_nonneg c' (chain_next_wf _ _ _ _ Hwf Hn)). lia.
  - eapply Hstep; [done..|]. apply IH.
    + pose proof (chain_next_budget _ _ _ _ Hwf Hn). lia.
    + by eapply chain_next_wf.
Qed.

Lemma chain_descriptors_total m c :
  chain_wf c -> c_yielded_bytes c + total_len (chain_descriptors m c) < 2 ^ 32.
Proof.
  revert c. apply (chain_ind m).
  - intros c c' Hwf Hn. rewrite chain_descriptors_unfold, Hn by done. simpl.
    destruct Hwf as [_ _ _ _ []]. lia.
  - intros c c' d Hwf Hn IH. rewrite chain_descriptors_unfold, Hn by done. simpl.
    apply next_fuel_inv in Hn as (_ & _ & _ & Hy & _); [|done]. lia.
Qed.

(** A run goes through the descriptor table first and then, if at all, through
    one indirect table. *)
Lemma trace_tables n m c :
  chain_wf c -> exists direct indirect,
    trace_fuel n m c = ((., false) <$> direct) ++ ((., true) <$> indirect) /\
    collect_fuel (chain_next m) n c = direct ++ indirect /\
    Z.of_nat (length direct) <= (if c_is_indirect c then 0 else c_ttl c) /\
    Z.of_nat (length indirect) <= (if c_is_indirect c then c_ttl c else 65535).
Proof.
  revert c. induction n as [|n IH]; intros c Hwf; simpl.
  { exists [], []. pose proof (cw_ttl c Hwf) as []. case_match; simpl; split_and!; done || lia. }
  destruct (chain_next m c) as [c' [d|]] eqn:Hn.
  - destruct (IH c' (chain_next_wf _ _ _ _ Hwf Hn)) as (dr & ind & Ht & Hc & Hd & Hi).
    apply next_fuel_table in Hn as [[Heq Hlt]|(Hf & Htr & Hlt)]; [| |done].
    + destruct (c_is_indirect c) eqn:Hci; rewrite Heq in *.
      * destruct dr; [|simpl in Hd; lia]. exists [], (d :: ind). simpl in *.
        rewrite Ht, Hc. split_and!; done || lia.
      * exists (d :: dr), ind. simpl. rewrite Ht, Hc. split_and!; done || lia.
    + rewrite Hf. rewrite Htr in *. destruct dr; [|simpl in Hd; lia].
      exists [], (d :: ind). simpl in *. rewrite Ht, Hc.
      pose proof (cw_ttl c Hwf) as []. split_and!; done || lia.
  - exists [], []. pose proof (cw_ttl c Hwf) as []. case_match; simpl; split_and!; done || lia.
Qed.

Lemma chain_descriptors_direct m c :
  chain_wf c -> Forall (fun d => refers_to_indirect_table d = false /\ descriptor_wf d)
                  (chain_descriptors m c).
Proof.
  revert c. apply (chain_ind m).
  - intros c c' Hwf Hn. rewrite chain_descriptors_unfold, Hn by done. constructor.
  - intros c c' d Hwf Hn IH. rewrite chain_descriptors_unfold, Hn by done.
    constructor; [|done]. apply next_fuel_inv in Hn as (_ & _ & _ & _ & ? & ?); done.
Qed.

(** ** The readable and writable iterators *)

Lemma rw_next_fuel_filter n m w c :
  chain_wf c -> chain_budget c < Z.of_nat n ->
  match rw_next_fuel n m w c with
  | (c', Some d) =>
      chain_wf c' /\ chain_budget c' < chain_budget c /\ is_write_only d = w /\
      filter (fun d => is_write_only d = w) (chain_descriptors m c) =
        d :: filter (fun d => is_write_only d = w) (chain_descriptors m c')
  | (c', None) =>
      chain_wf c' /\ filter (fun d => is_write_only d = w) (chain_descriptors m c) = []
  end.
Proof.
  revert c. induction n as [|n IH]; intros c Hwf Hb;
    [pose proof (chain_budget_nonneg c Hwf); lia|].
  simpl. rewrite (chain_descriptors_unfold m c) by done.
  destruct (chain_next m c) as [c' [d|]] eqn:Hn; [|by eauto using chain_next_wf].
  pose proof (chain_next_budget _ _ _ _ Hwf Hn). pose proof (chain_next_wf _ _ _ _ Hwf Hn) as Hwf'.
  rewrite filter_cons. destruct (Bool.eqb (is_write_only d) w) eqn:Hw.
  - apply eqb_prop in Hw. by rewrite decide_True.
  - apply eqb_false_iff in Hw. rewrite decide_False by done. specialize (IH c' Hwf' ltac:(lia)).
    destruct (rw_next_fuel n m w c') as [c'' [d'|]]; [|done].
    destruct IH as (? & ? & ? & ?). split_and!; try done. lia.
Qed.

Definition rw_wf (it : DescriptorChainRwIter) : Prop := chain_wf (rw_chain it).

Lemma rw_next_spec m it it' o :
  rw_wf it -> rw_next m it = (it', o) ->
  rw_wf it' /\ rw_writable it' = rw_writable it /\
  filter (fun d => is_write_only d = rw_writable it) (chain_descriptors m (rw_chain it)) =
    match o with
    | Some d => d :: filter (fun d => is_write_only d = rw_writable it)
                      (chain_descriptors m (rw_chain it'))
    | None => []
    end /\
  (is_Some o -> chain_budget (rw_chain it') < chain_budget (rw_chain it)).
Proof.
  unfold rw_next, rw_wf. intros Hwf Hn.
  pose proof (rw_next_fuel_filter (S (Z.to_nat (chain_budget (rw_chain it)))) m
    (rw_writable it) (rw_chain it) Hwf ltac:(lia)) as Hf.
  destruct (rw_next_fuel _ m _ _) as [c' o']. simplify_eq. simpl.
  destruct o as [d|]; destruct_and!; split_and!; done.
Qed.

(** The restricted iterators yield the restriction of the chain. *)
Lemma rw_descriptors_filter m it :
  rw_wf it ->
  rw_descriptors m it =
    filter (fun d => is_write_only d = rw_writable it) (chain_descriptors m (rw_chain it)).
Proof.
  unfold rw_descriptors. intros Hwf.
  assert (forall n it, rw_wf it -> chain_budget (rw_chain it) <= Z.of_nat n ->
    collect_fuel (rw_next m) n it =
    filter (fun d => is_write_only d = rw_writable it) (chain_descriptors m (rw_chain it)))
    as Haux; [|apply Haux; [done|lia]].
  clear it Hwf. induction n as [|n IH]; intros it Hwf Hn; simpl;
    destruct (rw_next m it) as [it' o] eqn:Hr;
    apply rw_next_spec in Hr as (Hwf' & Hw & -> & Hb); try done; destruct o as [d|]; try done.
  - specialize (Hb ltac:(done)). pose proof (chain_budget_nonneg _ Hwf'). lia.
  - specialize (Hb ltac:(done)). f_equal. rewrite <- Hw. apply IH; [done|lia].
Qed.
End Yield.

(** ** The chains a driver offers

    The virtio specification describes a chain as a path through the
    descriptor table along the [next] fields; its last entry may be an
    indirect descriptor, in which case the chain goes on from the start of a
    second table. *)
Section Offered.
Context {M : Type} `{GML : GuestMemoryLaws M}.
Implicit Types m : M.

(** Entry [i] of the table of [n] descriptors at [tbl] holds [d]. *)
Definition slot m (tbl n i : Z) (d : Descriptor) : Prop :=
  0 <= i < n /\ read_obj Descriptor m (tbl + 16 * i) = Ok d.

(** [ds] are the descriptors from entry [i] up to, not including, entry [j]. *)
Inductive path m (tbl n : Z) : Z -> list Descriptor -> Z -> Prop :=
| path_nil i : path m tbl n i [] i
| path_cons i d ds j :
    slot m tbl n i d -> refers_to_indirect_table d = false -> has_next d = true ->
    path m tbl n (d_next d) ds j -> path m tbl n i (d :: ds) j.

Definition direct_chain m (tbl n i : Z) (ds : list Descriptor) : Prop :=
  exists pre j d, ds = pre ++ [d] /\ path m tbl n i pre j /\ slot m tbl n j d /\
    refers_to_indirect_table d = false /\ has_next d = false /\
    Z.of_nat (length ds) <= n.

Definition indirect_chain m (tbl n i : Z) (ds : list Descriptor) : Prop :=
  exists pre j d post k, ds = pre ++ post /\ path m tbl n i pre j /\ slot m tbl n j d /\
    refers_to_indirect_table d = true /\ Z.of_nat (length pre) < n /\
    d_len d = 16 * k /\ k <= 65535 /\ direct_chain m (d_addr d) k 0 post.

Lemma total_len_app ds1 ds2 : total_len (ds1 ++ ds2) = total_len ds1 + total_len ds2.
Proof. induction ds1 as [|d ds1 IH]; simpl; [done|]. lia. Qed.

Lemma total_len_nonneg ds : Forall descriptor_wf ds -> 0 <= total_len ds.
Proof.
  induction 1 as [|d ds (_ & Hd & _) _ IH]; simpl; [done|]. unfold in_u in Hd. lia.
Qed.

Lemma slot_wf m tbl n i d : slot m tbl n i d -> descriptor_wf d /\ tbl + 16 * i < 2 ^ 64.
Proof.
  intros [_ Hr]. split; [by eapply read_descriptor_wf|].
  unfold read_obj in Hr. case_match eqn:Hg; [|done].
  assert (peek m (tbl + 16 * i + Z.of_nat 0) = a !! 0%nat) as Hp.
  { eapply gm_read_peek; [|done|]; simpl; lia. }
  apply gm_read_length in Hg; [|simpl; lia]. destruct a as [|b a]; [done|].
  apply law_byte in Hp as [_ Hp]. unfold in_u in Hp. lia.
Qed.

Lemma path_wf m tbl n i ds j : path m tbl n i ds j -> Forall descriptor_wf ds.
Proof.
  induction 1 as [|i d ds j Hs]; constructor; [|done]. by apply slot_wf in Hs as [? _].
Qed.

(** [next] on a table entry that is not indirect. *)
Lemma next_on_slot m c d :
  chain_wf c -> slot m (c_desc_table c) (c_queue_size c) (c_next_index c) d ->
  refers_to_indirect_table d = false -> 0 < c_ttl c ->
  c_yielded_bytes c + d_len d < 2 ^ 32 ->
  chain_next m c = (advance c d (c_yielded_bytes c + d_len d), Some d).
Proof.
  intros Hwf Hs Hi Ht Hy. destruct (slot_wf _ _ _ _ _ Hs) as [_ Ha].
  destruct Hs as [Hlt Hr]. unfold chain_next. simpl.
  rewrite (proj2 (Z.eqb_neq _ _)), Z.geb_leb, (proj2 (Z.leb_gt _ _)) by lia. simpl.
  unfold checked_add at 1. rewrite (proj2 (Z.ltb_lt _ _)) by lia.
  replace (c_desc_table c + c_next_index c * Z.of_nat 16)
    with (c_desc_table c + 16 * c_next_index c) by lia.
  rewrite Hr, Hi. unfold checked_add. rewrite (proj2 (Z.ltb_lt _ _)) by lia. done.
Qed.

(** The cursor [c'] is the cursor [c] after [ds]. *)
Definition moved (c c' : DescriptorChain) (ds : list Descriptor) : Prop :=
  chain_wf c' /\ c_desc_table c' = c_desc_table c /\ c_queue_size c' = c_queue_size c /\
  c_is_indirect c' = c_is_indirect c /\ c_ttl c' = c_ttl c - Z.of_nat (length ds) /\
  c_yielded_bytes c' = c_yielded_bytes c + total_len ds.

Lemma path_walk m tbl n i ds j :
  path m tbl n i ds j -> forall c,
  chain_wf c -> c_desc_table c = tbl -> c_queue_size c = n -> c_next_index c = i ->
  Z.of_nat (length ds) < c_ttl c -> c_yielded_bytes c + total_len ds < 2 ^ 32 ->
  exists c', moved c c' ds /\ c_next_index c' = j /\
    chain_descriptors m c = ds ++ chain_descriptors m c'.
Proof.
  induction 1 as [i|i d ds j Hs Hi Hn Hp IH]; intros c Hwf Ht Hq Hx Hl Hy; simpl in *.
  - exists c. unfold moved. simpl. split_and!; try done; lia.
  - subst. pose proof (total_len_nonneg ds (path_wf _ _ _ _ _ _ Hp)).
    destruct (slot_wf _ _ _ _ _ Hs) as [Hd _].
    assert (in_u 32 (c_yielded_bytes c + d_len d)).
    { destruct Hwf as [_ _ _ _ ?], Hd as (_ & ? & _). unfold in_u in *. lia. }
    pose proof (next_on_slot m c d Hwf Hs Hi ltac:(lia) ltac:(lia)) as Hnx.
    assert (chain_wf (advance c d (c_yielded_bytes c + d_len d))) as Hwf'
      by (apply advance_wf; [done..|lia]).
    destruct (IH (advance c d (c_yielded_bytes c + d_len d))) as (c' & Hm & Hj & Hds);
      try done; simpl; rewrite ?Hn; try done; try lia.
    exists c'. destruct Hm as (? & ? & ? & ? & Htt & Hyy). simpl in *. rewrite Hn in Htt.
    split; [|split; [done|]].
    + unfold moved. simpl. split_and!; try done; lia.
    + rewrite chain_descriptors_unfold by done. rewrite Hnx. by f_equal.
Qed.

(** A chain that is exhausted yields nothing more. *)
Lemma exhausted m c : chain_wf c -> c_ttl c = 0 -> chain_descriptors m c = [].
Proof.
  intros Hwf Ht. rewrite chain_descriptors_unfold by done. unfold chain_next. simpl.
  by rewrite Ht.
Qed.

Lemma direct_chain_walk m tbl n i ds c :
  direct_chain m tbl n i ds ->
  chain_wf c -> c_desc_table c = tbl -> c_queue_size c = n -> c_next_index c = i ->
  c_ttl c = n -> c_yielded_bytes c + total_len ds < 2 ^ 32 ->
  chain_descriptors m c = ds.
Proof.
  intros (pre & j & d & -> & Hp & Hs & Hi & Hn & Hl) Hwf Ht Hq Hx Htt Hy.
  rewrite total_len_app in Hy. simpl in Hy. rewrite length_app in Hl. simpl in Hl.
  destruct (slot_wf _ _ _ _ _ Hs) as [Hd _]. pose proof Hd as (_ & Hd32 & _).
  unfold in_u in Hd32.
  destruct (path_walk _ _ _ _ _ _ Hp c) as (c' & Hm & Hj & ->); try done; [lia|lia|].
  destruct Hm as (Hwf' & Ht' & Hq' & _ & Htt' & Hy'). f_equal.
  rewrite chain_descriptors_unfold by done.
  assert (in_u 32 (c_yielded_bytes c' + d_len d)).
  { destruct Hwf' as [_ _ _ _ ?]. unfold in_u in *. lia. }
  rewrite (next_on_slot m c' d); try done; [|by rewrite Ht', Hq', Hj, Ht, Hq|lia|lia].
  f_equal. apply exhausted; [apply advance_wf; [done..|lia]|]. simpl. by rewrite Hn.
Qed.

(** Switching on an indirect entry. *)
Lemma switch_succeeds c d k :
  c_is_indirect c = false -> d_len d = 16 * k -> 0 <= k <= 65535 ->
  switch_to_indirect_table c d = Ok (mk_chain (d_addr d) k (c_head_index c) 0 k
    (c_yielded_bytes c) true).
Proof.
  intros Hi Hl Hk. unfold switch_to_indirect_table. rewrite Hi, Hl.
  assert (Z.land (16 * k) (VRING_DESC_ALIGN_SIZE - 1) = 0) as ->.
  { change (VRING_DESC_ALIGN_SIZE - 1) with (Z.ones 4). rewrite Z.land_ones by done.
    change (2 ^ 4) with 16. rewrite Z.mul_comm. by apply Z.mod_mul. }
  simpl. unfold VRING_DESC_ALIGN_SIZE.
  rewrite (Z.mul_comm 16 k), Z.div_mul by done.
  rewrite Z.gtb_ltb, (proj2 (Z.ltb_ge _ _)) by lia.
  rewrite (proj2 (u16_try_from_Some k k)); [done|]. split; [|done].
  unfold in_u. change (2 ^ 16) with 65536. lia.
Qed.

Lemma next_on_indirect m c d k :
  slot m (c_desc_table c) (c_queue_size c) (c_next_index c) d ->
  refers_to_indirect_table d = true -> c_is_indirect c = false -> 0 < c_ttl c ->
  d_len d = 16 * k -> 0 <= k <= 65535 ->
  chain_next m c =
    chain_next m (mk_chain (d_addr d) k (c_head_index c) 0 k (c_yielded_bytes c) true).
Proof.
  intros Hs Hi Hind Ht Hk Hk16. destruct (slot_wf _ _ _ _ _ Hs) as [_ Ha].
  destruct Hs as [Hlt Hr]. unfold chain_next. 
  rewrite (indirect_next_fuel 1 0 m (mk_chain _ _ _ _ _ _ true)) by done. simpl.
  rewrite (proj2 (Z.eqb_neq _ _)), Z.geb_leb, (proj2 (Z.leb_gt _ _)) by lia. simpl.
  unfold checked_add at 1. rewrite (proj2 (Z.ltb_lt _ _)) by lia.
  replace (c_desc_table c + c_next_index c * Z.of_nat 16)
    with (c_desc_table c + 16 * c_next_index c) by lia.
  rewrite Hr, Hi, (switch_succeeds c d k) by done. done.
Qed.

Lemma indirect_chain_walk m c ds :
  indirect_chain m (c_desc_table c) (c_queue_size c) (c_next_index c) ds ->
  chain_wf c -> c_is_indirect c = false -> c_ttl c = c_queue_size c ->
  c_yielded_bytes c + total_len ds < 2 ^ 32 ->
  chain_descriptors m c = ds.
Proof.
  intros (pre & j & d & post & k & -> & Hp & Hs & Hi & Hl & Hk & Hk16 & Hpost) Hwf Hind Htt Hy.
  rewrite total_len_app in Hy. destruct (slot_wf _ _ _ _ _ Hs) as [Hd Ha].
  assert (0 <= total_len post).
  { apply total_len_nonneg. destruct Hpost as (pre' & j' & d' & -> & Hp' & Hs' & _).
    apply Forall_app. split; [by eapply path_wf|]. constructor; [|done].
    by apply slot_wf in Hs' as [? _]. }
  destruct (path_walk _ _ _ _ _ _ Hp c) as (c' & Hm & Hj & ->); try done; [lia|lia|].
  destruct Hm as (Hwf' & Ht' & Hq' & Hi' & Htt' & Hy'). f_equal.
  assert (0 <= k) by (destruct Hd as (_ & Hd & _); unfold in_u in Hd; lia).
  rewrite chain_descriptors_unfold by done.
  rewrite (next_on_indirect m c' d k); try done; try lia;
    [|by rewrite Ht', Hq', Hj|congruence].
  set (c2 := mk_chain _ _ _ _ _ _ _).
  assert (chain_wf c2) as Hwf2.
  { destruct Hwf', Hd as (? & _). split; try done; unfold in_u; simpl;
      change (2 ^ 16) with 65536; lia. }
  rewrite <- chain_descriptors_unfold by done.
  eapply direct_chain_walk; try done. simpl. lia.
Qed.
End Offered.

(** ** Properties *)

Section Properties.
Context {M : Type} `{GML : GuestMemoryLaws M}.
Implicit Types m : M.

(** The recursion of [DescriptorChain::next] into indirect tables is at most one level
    deep: any deeper budget of calls gives the same cursor and the same descriptor. *)
Theorem chain_next_recursion m c fuel : next_fuel (2 + fuel) m c = chain_next m c.
Proof. apply next_fuel_two. Qed.

(** C6: whatever the driver put in guest memory, loops included, iterating over a fresh
    chain ends: it yields at most [queue_size] descriptors of the descriptor table and then at
    most 65535 of one indirect table, their total length stays below 2^32 bytes, none of them is
    an indirect descriptor, and the list is complete (it satisfies the loop equation). *)
Theorem chain_iteration_bounded m desc_table queue_size hd :
  in_u 64 desc_table -> in_u 16 queue_size -> in_u 16 hd ->
  let c := chain_new desc_table queue_size hd in
  let ds := chain_descriptors m c in
  (exists direct indirect,
     chain_trace m c = ((., false) <$> direct) ++ ((., true) <$> indirect) /\
     ds = direct ++ indirect /\
     Z.of_nat (length direct) <= queue_size /\ Z.of_nat (length indirect) <= 65535) /\
  total_len ds < 2 ^ 32 /\
  Forall (fun d => refers_to_indirect_table d = false /\ descriptor_wf d) ds /\
  ds = match chain_next m c with
       | (c', Some d) => d :: chain_descriptors m c'
       | (_, None) => []
       end.
Proof.
  intros Ht Hq Hh c ds. pose proof (chain_new_wf _ _ _ Ht Hq Hh) as Hwf. fold c in Hwf.
  split_and!.
  - apply (trace_tables _ m c Hwf).
  - pose proof (chain_descriptors_total m c Hwf). simpl in *. unfold ds. lia.
  - by apply chain_descriptors_direct.
  - by apply chain_descriptors_unfold.
Qed.

(** C5: a chain the driver laid out as the specification asks, directly in the descriptor
    table or ending in an indirect table, is yielded descriptor by descriptor, in order and
    completely. *)
Theorem chain_yields_offered m desc_table queue_size hd ds :
  in_u 64 desc_table -> in_u 16 queue_size -> in_u 16 hd ->
  direct_chain m desc_table queue_size hd ds \/ indirect_chain m desc_table queue_size hd ds ->
  total_len ds < 2 ^ 32 ->
  chain_descriptors m (chain_new desc_table queue_size hd) = ds.
Proof.
  intros Ht Hq Hh Hc Hl. pose proof (chain_new_wf _ _ _ Ht Hq Hh) as Hwf.
  destruct Hc as [Hd|Hi].
  - by eapply direct_chain_walk.
  - by eapply indirect_chain_walk.
Qed.

(** The iterators [readable] and [writable] yield exactly the device-readable, respectively
    device-writable, descriptors of the chain, in the order of the chain. *)
Theorem rw_iter_is_filter m c :
  chain_wf c ->
  rw_descriptors m (readable c) =
    filter (fun d => is_write_only d = false) (chain_descriptors m c) /\
  rw_descriptors m (writable c) =
    filter (fun d => is_write_only d = true) (chain_descriptors m c).
Proof. intros Hwf. by split; rewrite rw_descriptors_filter. Qed.
End Properties.

(** ** Witnesses *)

(** Three descriptors in a table of four at 0x1000; the third is indirect and
    refers to a table of two at 0x2000. *)
Definition sample_table : list (Z * Descriptor) := [
  (0x1000, descriptor_new 0x5000 0x100 VRING_DESC_F_NEXT 1);
  (0x1010, descriptor_new 0x6000 0x100 (VRING_DESC_F_NEXT + VRING_DESC_F_WRITE) 2);
  (0x1020, descriptor_new 0x2000 32 VRING_DESC_F_INDIRECT 0);
  (0x2000, descriptor_new 0x7000 0x100 (VRING_DESC_F_NEXT + VRING_DESC_F_WRITE) 1);
  (0x2010, descriptor_new 0x8000 0x100 VRING_DESC_F_WRITE 0)].

Definition sample_memory : FlatMem :=
  foldl (fun m '(a, d) => fst (write_obj m (raw_of_split d) a))
    (from_ranges [(0, 0x10000)]) sample_table.

Definition sample_chain : list Descriptor :=
  omap (fun ad => if refers_to_indirect_table (snd ad) then None else Some (snd ad)) sample_table.

Lemma chain_iteration_bounded_witness :
  (chain_trace sample_memory (chain_new 0x1000 4 0)).*2 = [false; false; true; true] /\
  total_len (chain_descriptors sample_memory (chain_new 0x1000 4 0)) < 2 ^ 32.
Proof.
  split; [vm_compute; reflexivity|].
  apply (chain_iteration_bounded sample_memory 0x1000 4 0); by vm_compute.
Defined.

Lemma chain_yields_offered_witness :
  chain_descriptors sample_memory (chain_new 0x1000 4 0) = sample_chain.
Proof.
  apply (chain_yields_offered sample_memory 0x1000 4 0); [by vm_compute..| |by vm_compute].
  right.
  exists (take 2 sample_chain), 2, (descriptor_new 0x2000 32 VRING_DESC_F_INDIRECT 0),
    (drop 2 sample_chain), 2.
  split_and!; [reflexivity| |by vm_compute|reflexivity|simpl; lia|reflexivity|lia|].
  - repeat (eapply path_cons; [by vm_compute|reflexivity|reflexivity|]). apply path_nil.
  - exists [descriptor_new 0x7000 0x100 (VRING_DESC_F_NEXT + VRING_DESC_F_WRITE) 1], 1,
      (descriptor_new 0x8000 0x100 VRING_DESC_F_WRITE 0).
    split_and!; [reflexivity| |by vm_compute|reflexivity|reflexivity|simpl; lia].
    eapply path_cons; [by vm_compute|reflexivity|reflexivity|]. apply path_nil.
Defined.

Lemma rw_iter_is_filter_witness :
  length (rw_descriptors sample_memory (readable (chain_new 0x1000 4 0))) = 1%nat /\
  rw_descriptors sample_memory (writable (chain_new 0x1000 4 0)) =
    filter (fun d => is_write_only d = true)
      (chain_descriptors sample_memory (chain_new 0x1000 4 0)).
Proof.
  split; [vm_compute; reflexivity|].
  apply (rw_iter_is_filter sample_memory). apply chain_new_wf; by vm_compute.
Defined.
