(* ===== verification/ChainKept.v ===== *)
(** * Chains in a memory that changes

    A device reads a chain while it writes to guest memory: to the buffers of
    the chain, of other chains, and to the used ring.  What it reads does not
    depend on that as long as the tables of the chain are kept. *)

From stdpp Require Import base numbers list option.
From S2P Require Import Prelude Bytes GuestMemory FlatMemory Descriptor Chain.

(** [m'] is [m] with other bytes outside of [kept]. *)
Definition agree {M} `{GuestMemory M} (kept : Z -> Prop) (m m' : M) : Prop :=
  same_layout m m' /\ forall x, kept x -> peek m' x = peek m x.

(** [c] yields [ds] in every memory that agrees with [m]. *)
Inductive chain_fixed {M} `{GuestMemory M} (kept : Z -> Prop) (m : M)
    : DescriptorChain -> list Descriptor -> Prop :=
| fixed_end c c' :
    (forall m', agree kept m m' -> chain_next m' c = (c', None)) -> chain_fixed kept m c []
| fixed_step c c' d ds :
    (forall m', agree kept m m' -> chain_next m' c = (c', Some d)) ->
    chain_fixed kept m c' ds -> chain_fixed kept m c (d :: ds).

Section ChainKept.
Context {M : Type} `{GML : GuestMemoryLaws M} (kept : Z -> Prop).
Implicit Types (m : M) (c : DescriptorChain) (ds : list Descriptor).

Lemma agree_refl m : agree kept m m.
Proof. split; [apply same_layout_refl|done]. Qed.

Lemma agree_trans m1 m2 m3 : agree kept m1 m2 -> agree kept m2 m3 -> agree kept m1 m3.
Proof.
  intros [L1 P1] [L2 P2]. split; [by eapply same_layout_trans|]. intros x Hx. by rewrite P2, P1.
Qed.

Lemma agree_within cs m m' :
  (forall x, x ∈ cs -> ~ kept x) -> changed_within cs m m' -> agree kept m m'.
Proof. intros Hcs [Hl Hp]. split; [done|]. intros x Hx. apply Hp. intros Hin. by apply (Hcs x). Qed.

Lemma chain_fixed_agree m m' c ds :
  chain_fixed kept m c ds -> agree kept m m' -> chain_fixed kept m' c ds.
Proof.
  intros Hf Ha. induction Hf as [c c' Hn|c c' d ds Hn _ IH].
  - apply (fixed_end _ _ c c'). intros m2 H2. apply Hn. by eapply agree_trans.
  - apply (fixed_step _ _ c c'); [|done]. intros m2 H2. apply Hn. by eapply agree_trans.
Qed.

Lemma chain_fixed_descriptors m c ds :
  chain_wf c -> chain_fixed kept m c ds -> chain_descriptors m c = ds.
Proof.
  intros Hwf Hf. revert Hwf. induction Hf as [c c' Hn|c c' d ds Hn _ IH]; intros Hwf;
    specialize (Hn m (agree_refl m)); rewrite chain_descriptors_unfold, Hn by done; [done|].
  f_equal. apply IH. by eapply chain_next_wf.
Qed.

(** ** Chains whose tables are kept *)

Lemma slot_agree m m' tbl n i d :
  slot m tbl n i d -> agree kept m m' -> (forall x, tbl <= x < tbl + 16 * n -> kept x) ->
  slot m' tbl n i d.
Proof.
  intros [Hi Hr] [_ Hp] Hk. split; [done|]. unfold read_obj in *.
  destruct (gm_read m _ _) as [bs|] eqn:Hg; [|done].
  rewrite (gm_read_ext m m' _ _ bs); [done|apply bv_size_pos| |done].
  intros x Hx. apply Hp, Hk. change (Z.of_nat (bv_size Descriptor)) with 16 in Hx. lia.
Qed.

Lemma path_fixed m tbl n i pre j post :
  (forall x, tbl <= x < tbl + 16 * n -> kept x) -> path m tbl n i pre j -> forall c,
  chain_wf c -> c_desc_table c = tbl -> c_queue_size c = n -> c_next_index c = i ->
  Z.of_nat (length pre) < c_ttl c -> c_yielded_bytes c + total_len pre < 2 ^ 32 ->
  (forall c', moved c c' pre -> c_next_index c' = j -> chain_fixed kept m c' post) ->
  chain_fixed kept m c (pre ++ post).
Proof.
  intros Hk. induction 1 as [i|i d ds j Hs Hi Hn Hp IH]; intros c Hwf Ht Hq Hx Hl Hy Hpost; simpl in *.
  - apply Hpost; [|done]. unfold moved. simpl. split_and!; try done; lia.
  - subst. pose proof (total_len_nonneg ds (path_wf _ _ _ _ _ _ Hp)).
    destruct (slot_wf _ _ _ _ _ Hs) as [Hd _].
    assert (in_u 32 (c_yielded_bytes c + d_len d)).
    { destruct Hwf as [_ _ _ _ ?], Hd as (_ & ? & _). unfold in_u in *. lia. }
    apply (fixed_step _ _ c (advance c d (c_yielded_bytes c + d_len d))).
    { intros m' Ha. apply next_on_slot; [done|by eapply slot_agree|done|lia|lia]. }
    apply IH; simpl; rewrite ?Hn; try done; try lia; [apply advance_wf; [done..|lia]|].
    intros c' (? & ? & ? & ? & Htt & Hyy) Hj. simpl in *. rewrite Hn in Htt. apply Hpost; [|done].
    unfold moved. simpl. split_and!; try done; lia.
Qed.

Lemma direct_chain_fixed m c ds :
  (forall x, c_desc_table c <= x < c_desc_table c + 16 * c_queue_size c -> kept x) ->
  direct_chain m (c_desc_table c) (c_queue_size c) (c_next_index c) ds ->
  chain_wf c -> c_ttl c = c_queue_size c -> c_yielded_bytes c + total_len ds < 2 ^ 32 ->
  chain_fixed kept m c ds.
Proof.
  intros Hk (pre & j & d & -> & Hp & Hs & Hi & Hn & Hl) Hwf Htt Hy.
  rewrite total_len_app in Hy. simpl in Hy. rewrite length_app in Hl. simpl in Hl.
  destruct (slot_wf _ _ _ _ _ Hs) as [Hd _]. pose proof Hd as (_ & [Hd0 _] & _).
  apply (path_fixed _ _ _ _ _ _ _ Hk Hp); try done; try lia.
  intros c' (Hwf' & Ht' & Hq' & _ & Htt' & Hy') Hj.
  apply (fixed_step _ _ c' (advance c' d (c_yielded_bytes c' + d_len d))).
  - intros m' Ha. apply next_on_slot; [done| |done|lia|lia]. rewrite Ht', Hq', Hj.
    by eapply slot_agree.
  - eapply fixed_end. intros m' Ha. unfold chain_next. simpl. by rewrite Hn.
Qed.

(** Going through an indirect entry. *)
Lemma chain_fixed_switch m c c2 ds :
  ds <> [] -> chain_fixed kept m c2 ds ->
  (forall m', agree kept m m' -> chain_next m' c = chain_next m' c2) -> chain_fixed kept m c ds.
Proof.
  intros Hne Hf Hsw. destruct Hf as [|? c' d ds Hn Hf]; [done|].
  apply (fixed_step _ _ c c'); [|done]. intros m' Ha. by rewrite Hsw, Hn.
Qed.

Lemma indirect_chain_fixed m c pre j d post k :
  let tbl := c_desc_table c in let n := c_queue_size c in
  (forall x, tbl <= x < tbl + 16 * n -> kept x) ->
  (forall x, d_addr d <= x < d_addr d + 16 * k -> kept x) ->
  path m tbl n (c_next_index c) pre j -> slot m tbl n j d -> refers_to_indirect_table d = true ->
  Z.of_nat (length pre) < n -> d_len d = 16 * k -> k <= 65535 -> direct_chain m (d_addr d) k 0 post ->
  chain_wf c -> c_is_indirect c = false -> c_ttl c = n ->
  c_yielded_bytes c + total_len (pre ++ post) < 2 ^ 32 ->
  chain_fixed kept m c (pre ++ post).
Proof.
  intros tbl n Hk1 Hk2 Hp Hs Hi Hl Hk Hk16 Hpost Hwf Hind Htt Hy.
  rewrite total_len_app in Hy. destruct (slot_wf _ _ _ _ _ Hs) as [Hd Ha].
  assert (Forall descriptor_wf post /\ post <> []) as [Hpw Hne].
  { destruct Hpost as (pre' & j' & d' & -> & Hp' & Hs' & _). split; [|by destruct pre'].
    apply Forall_app. split; [by eapply path_wf|]. constructor; [|done]. by apply slot_wf in Hs' as [? _]. }
  pose proof (total_len_nonneg post Hpw).
  assert (0 <= k) by (destruct Hd as (_ & Hd & _); unfold in_u in Hd; lia).
  apply (path_fixed _ _ _ _ _ _ _ Hk1 Hp); try done; try lia.
  intros c' (Hwf' & Ht' & Hq' & Hi' & Htt' & Hy') Hj.
  apply (chain_fixed_switch m c' (mk_chain (d_addr d) k (c_head_index c') 0 k (c_yielded_bytes c') true));
    [done| |].
  - apply direct_chain_fixed; try done; [|simpl; lia].
    destruct Hwf', Hd as (? & _). split; try done; unfold in_u; simpl; change (2 ^ 16) with 65536; lia.
  - intros m' Hag. apply (next_on_indirect m' c' d k); try done; try lia; [|congruence].
    rewrite Ht', Hq', Hj. by eapply slot_agree.
Qed.
End ChainKept.
