(* ===== verification/Queue.v ===== *)
(** * The split virtqueue, device side

    virtio-queue/src/queue.rs: the queue's configuration and cursors, the
    operations of the [QueueT] and [QueueOwnedT] traits and the iterator over
    available chains.

    The methods that touch guest memory run on the pair of the queue and the
    memory.  Memory accesses are sequentially consistent, so fences are
    no-ops; the [Ordering] argument matters only where the standard library
    panics on it. *)

From stdpp Require Import base numbers list option.
From S2P Require Import Prelude Bytes GuestMemory Descriptor Chain.

(** [std::sync::atomic::Ordering].  [load] panics on a release ordering and
    [store] on an acquire ordering. *)
Inductive Ordering : Type := Relaxed | Release | Acquire | AcqRel | SeqCst.

Global Instance Ordering_eq_dec : EqDecision Ordering.
Proof. solve_decision. Defined.

Definition load_order_ok (o : Ordering) : bool :=
  match o with Release | AcqRel => false | _ => true end.
Definition store_order_ok (o : Ordering) : bool :=
  match o with Acquire | AcqRel => false | _ => true end.

Definition MAX_QUEUE_SIZE : u16 := 32768.

Record Queue : Type := mk_queue {
  q_max_size : u16;
  q_next_avail : u16;
  q_next_used : u16;
  q_event_idx_enabled : bool;
  q_num_added : u16;
  q_size : u16;
  q_ready : bool;
  q_desc_table : u64;
  q_avail_ring : u64;
  q_used_ring : u64;
}.

Global Instance Queue_eq_dec : EqDecision Queue.
Proof. solve_decision. Defined.

(** Field assignments. *)
Definition with_size (v : u16) (q : Queue) : Queue :=
  mk_queue (q_max_size q) (q_next_avail q) (q_next_used q) (q_event_idx_enabled q)
    (q_num_added q) v (q_ready q) (q_desc_table q) (q_avail_ring q) (q_used_ring q).
Definition with_ready (v : bool) (q : Queue) : Queue :=
  mk_queue (q_max_size q) (q_next_avail q) (q_next_used q) (q_event_idx_enabled q)
    (q_num_added q) (q_size q) v (q_desc_table q) (q_avail_ring q) (q_used_ring q).
Definition with_desc_table (v : u64) (q : Queue) : Queue :=
  mk_queue (q_max_size q) (q_next_avail q) (q_next_used q) (q_event_idx_enabled q)
    (q_num_added q) (q_size q) (q_ready q) v (q_avail_ring q) (q_used_ring q).
Definition with_avail_ring (v : u64) (q : Queue) : Queue :=
  mk_queue (q_max_size q) (q_next_avail q) (q_next_used q) (q_event_idx_enabled q)
    (q_num_added q) (q_size q) (q_ready q) (q_desc_table q) v (q_used_ring q).
Definition with_used_ring (v : u64) (q : Queue) : Queue :=
  mk_queue (q_max_size q) (q_next_avail q) (q_next_used q) (q_event_idx_enabled q)
    (q_num_added q) (q_size q) (q_ready q) (q_desc_table q) (q_avail_ring q) v.
Definition with_event_idx (v : bool) (q : Queue) : Queue :=
  mk_queue (q_max_size q) (q_next_avail q) (q_next_used q) v
    (q_num_added q) (q_size q) (q_ready q) (q_desc_table q) (q_avail_ring q) (q_used_ring q).
Definition with_next_avail (v : u16) (q : Queue) : Queue :=
  mk_queue (q_max_size q) v (q_next_used q) (q_event_idx_enabled q)
    (q_num_added q) (q_size q) (q_ready q) (q_desc_table q) (q_avail_ring q) (q_used_ring q).
Definition with_next_used (v : u16) (q : Queue) : Queue :=
  mk_queue (q_max_size q) (q_next_avail q) v (q_event_idx_enabled q)
    (q_num_added q) (q_size q) (q_ready q) (q_desc_table q) (q_avail_ring q) (q_used_ring q).
Definition with_num_added (v : u16) (q : Queue) : Queue :=
  mk_queue (q_max_size q) (q_next_avail q) (q_next_used q) (q_event_idx_enabled q)
    v (q_size q) (q_ready q) (q_desc_table q) (q_avail_ring q) (q_used_ring q).

(** ** Configuration *)

Definition try_set_size (size : u16) (q : Queue) : result Error Queue :=
  if (size >? q_max_size q) || (size =? 0) || negb (Z.land size (size - 1) =? 0)
  then Err InvalidSize
  else Ok (with_size size q).

Definition try_set_desc_table_address (desc_table : u64) (q : Queue) : result Error Queue :=
  if negb (Z.land desc_table 0xf =? 0) then Err InvalidDescTableAlign
  else Ok (with_desc_table desc_table q).

Definition try_set_avail_ring_address (avail_ring : u64) (q : Queue) : result Error Queue :=
  if negb (Z.land avail_ring 0x1 =? 0) then Err InvalidAvailRingAlign
  else Ok (with_avail_ring avail_ring q).

Definition try_set_used_ring_address (used_ring : u64) (q : Queue) : result Error Queue :=
  if negb (Z.land used_ring 0x3 =? 0) then Err InvalidUsedRingAlign
  else Ok (with_used_ring used_ring q).

Definition queue_new (max_size : u16) : result Error Queue :=
  if (max_size =? 0) || (max_size >? MAX_QUEUE_SIZE)
     || negb (Z.land max_size (max_size - 1) =? 0)
  then Err InvalidMaxSize
  else Ok {|
    q_max_size := max_size;
    q_size := max_size;
    q_ready := false;
    q_desc_table := DEFAULT_DESC_TABLE_ADDR;
    q_avail_ring := DEFAULT_AVAIL_RING_ADDR;
    q_used_ring := DEFAULT_USED_RING_ADDR;
    q_next_avail := 0;
    q_next_used := 0;
    q_event_idx_enabled := false;
    q_num_added := 0;
  |}.

Definition reset (q : Queue) : Queue := {|
  q_max_size := q_max_size q;
  q_ready := false;
  q_size := q_max_size q;
  q_desc_table := DEFAULT_DESC_TABLE_ADDR;
  q_avail_ring := DEFAULT_AVAIL_RING_ADDR;
  q_used_ring := DEFAULT_USED_RING_ADDR;
  q_next_avail := 0;
  q_next_used := 0;
  q_num_added := 0;
  q_event_idx_enabled := false;
|}.

(** The methods that log an error and go on keep the queue as it was. *)
Definition or_keep (q : Queue) (r : result Error Queue) : Queue :=
  match r with Ok q' => q' | Err _ => q end.

Definition queue_set_size (size : u16) (q : Queue) : Queue :=
  or_keep q (try_set_size size q).

Definition set_ready (ready : bool) (q : Queue) : Queue := with_ready ready q.

(** [(high << 32) | low], each half taken from the old address when absent. *)
Definition join_address (old : u64) (low high : option u32) : u64 :=
  let low := default (wrap 32 old) low in
  let high := default (wrap 32 (Z.shiftr old 32)) high in
  Z.lor (wrap 64 (Z.shiftl high 32)) low.

Definition set_desc_table_address (low high : option u32) (q : Queue) : Queue :=
  or_keep q (try_set_desc_table_address (join_address (q_desc_table q) low high) q).

Definition set_avail_ring_address (low high : option u32) (q : Queue) : Queue :=
  or_keep q (try_set_avail_ring_address (join_address (q_avail_ring q) low high) q).

Definition set_used_ring_address (low high : option u32) (q : Queue) : Queue :=
  or_keep q (try_set_used_ring_address (join_address (q_used_ring q) low high) q).

Definition set_event_idx (enabled : bool) (q : Queue) : Queue := with_event_idx enabled q.
Definition set_next_avail (next_avail : u16) (q : Queue) : Queue := with_next_avail next_avail q.
Definition set_next_used (next_used : u16) (q : Queue) : Queue := with_next_used next_used q.

Definition go_to_previous_position (q : Queue) : Queue :=
  with_next_avail (wsub 16 (q_next_avail q) 1) q.

(** ** Guest memory accesses *)

(** The iterator over available chains.  It borrows [next_avail] from the
    queue, so its steps run on the queue. *)
Record AvailIter : Type := mk_avail_iter {
  it_desc_table : u64;
  it_avail_ring : u64;
  it_queue_size : u16;
  it_last_index : u16;
}.

Definition avail_iter_new (idx : u16) (q : Queue) : result Error AvailIter :=
  if wsub 16 idx (q_next_avail q) >? q_size q then Err InvalidAvailRingIndex
  else Ok {|
    it_desc_table := q_desc_table q;
    it_avail_ring := q_avail_ring q;
    it_queue_size := q_size q;
    it_last_index := idx;
  |}.

Section Operations.
Context {M : Type} `{GuestMemory M}.

Definition is_valid (m : M) (q : Queue) : bool :=
  let queue_size := q_size q in
  let desc_table_size := Z.of_nat (bv_size RawDescriptor) * queue_size in
  let avail_ring_size := VIRTQ_AVAIL_RING_META_SIZE + VIRTQ_AVAIL_ELEMENT_SIZE * queue_size in
  let used_ring_size := VIRTQ_USED_RING_META_SIZE + VIRTQ_USED_ELEMENT_SIZE * queue_size in
  let out_of_bounds start size :=
    match checked_add 64 start size with
    | None => true
    | Some v => negb (gm_in_range m v)
    end in
  if negb (q_ready q) then false
  else if out_of_bounds (q_desc_table q) desc_table_size then false
  else if out_of_bounds (q_avail_ring q) avail_ring_size then false
  else if out_of_bounds (q_used_ring q) used_ring_size then false
  else true.

(** The monad of the methods below. *)
Abbreviation QM := (RM (Queue * M) Error).

Definition queue_of : QM Queue := gets fst.
Definition update_queue (f : Queue -> Queue) : QM unit := modify (fun '(q, m) => (f q, m)).

(** [mem.load(addr, order)] and [mem.store(val, addr, order)]. *)
Definition mem_load (addr : u64) (order : Ordering) : QM u16 := fun '(q, m) =>
  match gm_load16 m addr with
  | Err e => Some ((q, m), Err (ErrGuestMemory e))
  | Ok v => if load_order_ok order then Some ((q, m), Ok v) else None
  end.

Definition mem_store (val : u16) (addr : u64) (order : Ordering) : QM unit := fun '(q, m) =>
  match gm_store16 m addr val with
  | (m, Err e) => Some ((q, m), Err (ErrGuestMemory e))
  | (m, Ok _) => if store_order_ok order then Some ((q, m), Ok tt) else None
  end.

Definition mem_write_obj {T} `{ByteValued T} (val : T) (addr : u64) : QM unit := fun '(q, m) =>
  let '(m, r) := write_obj m val addr in Some ((q, m), map_err ErrGuestMemory r).

Definition set_avail_event (val : u16) (order : Ordering) : QM unit :=
  q ← queue_of;
  let avail_event_offset :=
    VIRTQ_USED_RING_HEADER_SIZE + VIRTQ_USED_ELEMENT_SIZE * q_size q in
  addr ← of_result (ok_or AddressOverflow (checked_add 64 (q_used_ring q) avail_event_offset));
  mem_store val addr order.

Definition set_used_flags (val : u16) (order : Ordering) : QM unit :=
  q ← queue_of;
  mem_store val (q_used_ring q) order.

Definition set_notification (enable : bool) : QM unit :=
  q ← queue_of;
  if enable then
    if q_event_idx_enabled q then set_avail_event (q_next_avail q) Relaxed
    else set_used_flags 0 Relaxed
  else if negb (q_event_idx_enabled q) then set_used_flags (wrap 16 VRING_USED_F_NO_NOTIFY) Relaxed
  else mret tt.

Definition used_event (order : Ordering) : QM u16 :=
  q ← queue_of;
  let used_event_offset :=
    VIRTQ_AVAIL_RING_HEADER_SIZE + q_size q * VIRTQ_AVAIL_ELEMENT_SIZE in
  used_event_addr ←
    of_result (ok_or AddressOverflow (checked_add 64 (q_avail_ring q) used_event_offset));
  mem_load used_event_addr order.

Definition avail_idx (order : Ordering) : QM u16 :=
  q ← queue_of;
  addr ← of_result (ok_or AddressOverflow (checked_add 64 (q_avail_ring q) 2));
  mem_load addr order.

Definition used_idx (order : Ordering) : QM u16 :=
  q ← queue_of;
  addr ← of_result (ok_or AddressOverflow (checked_add 64 (q_used_ring q) 2));
  mem_load addr order.

Definition add_used (head_index : u16) (len : u32) : QM unit :=
  q ← queue_of;
  if head_index >=? q_size q then throw InvalidDescriptorIndex
  else
    next_used_index ← unwrap (checked_rem (q_next_used q) (q_size q));
    let offset := VIRTQ_USED_RING_HEADER_SIZE + next_used_index * VIRTQ_USED_ELEMENT_SIZE in
    addr ← of_result (ok_or AddressOverflow (checked_add 64 (q_used_ring q) offset));
    _ ← mem_write_obj (used_elem_new head_index len) addr;
    _ ← update_queue (fun q => with_next_used (wadd 16 (q_next_used q) 1) q);
    _ ← update_queue (fun q => with_num_added (wadd 16 (q_num_added q) 1) q);
    q ← queue_of;
    idx_addr ← of_result (ok_or AddressOverflow (checked_add 64 (q_used_ring q) 2));
    mem_store (q_next_used q) idx_addr Release.

Definition enable_notification : QM bool :=
  _ ← set_notification true;
  idx ← avail_idx Relaxed;
  q ← queue_of;
  mret (negb (idx =? q_next_avail q)).

Definition disable_notification : QM unit := set_notification false.

Definition needs_notification : QM bool :=
  q ← queue_of;
  let used_idx := q_next_used q in
  if q_event_idx_enabled q then
    used_event ← used_event Relaxed;
    let old := wsub 16 used_idx (q_num_added q) in
    _ ← update_queue (with_num_added 0);
    mret (wsub 16 (wsub 16 used_idx used_event) 1 <? wsub 16 used_idx old)
  else mret true.

Definition iter : QM AvailIter :=
  q ← queue_of;
  if negb (q_ready q) || (q_avail_ring q =? 0) then throw QueueNotReady
  else
    idx ← avail_idx Acquire;
    of_result (avail_iter_new idx q).

(** [AvailIter::next]. *)
Definition avail_next (it : AvailIter) : QM (option DescriptorChain) := fun '(q, m) =>
  if q_next_avail q =? it_last_index it then Some ((q, m), Ok None)
  else
    match checked_rem (q_next_avail q) (it_queue_size it) with
    | None => Some ((q, m), Ok None)
    | Some r =>
        let elem_off := r * VIRTQ_AVAIL_ELEMENT_SIZE in
        let offset := VIRTQ_AVAIL_RING_HEADER_SIZE + elem_off in
        match checked_add 64 (it_avail_ring it) offset with
        | None => Some ((q, m), Ok None)
        | Some addr =>
            match gm_load16 m addr with
            | Err _ => Some ((q, m), Ok None)
            | Ok head_index =>
                Some ((with_next_avail (wadd 16 (q_next_avail q) 1) q, m),
                      Ok (Some (chain_new (it_desc_table it) (it_queue_size it) head_index)))
            end
        end
    end.

Definition pop_descriptor_chain : QM (option DescriptorChain) :=
  r ← try iter;
  match r with
  | Ok it => avail_next it
  | Err _ => mret None
  end.
End Operations.
