(* ===== verification/QueueFacts.v ===== *)
(** * Facts about the queue

    The invariant [queue_wf] of a queue, that every operation of Queue keeps
    it, and that no operation panics ([safe]). *)

From stdpp Require Import base numbers list option.
From S2P Require Import Prelude Bytes GuestMemory FlatMemory Descriptor Chain Queue.

(** ** The invariant *)

Record queue_wf (q : Queue) : Prop := {
  qw_max_size : is_pow2 (q_max_size q) /\ q_max_size q <= MAX_QUEUE_SIZE;
  qw_size : is_pow2 (q_size q) /\ q_size q <= q_max_size q;
  qw_next_avail : in_u 16 (q_next_avail q);
  qw_next_used : in_u 16 (q_next_used q);
  qw_num_added : in_u 16 (q_num_added q);
  qw_desc_table : in_u 64 (q_desc_table q) /\ q_desc_table q mod 16 = 0;
  qw_avail_ring : in_u 64 (q_avail_ring q) /\ q_avail_ring q mod 2 = 0;
  qw_used_ring : in_u 64 (q_used_ring q) /\ q_used_ring q mod 4 = 0;
}.

(** A power of two up to 2^15 divides the modulus of the 16-bit cursors. *)
Lemma pow2_divides_u16 z : is_pow2 z -> z <= MAX_QUEUE_SIZE -> (z | 2 ^ 16).
Proof.
  intros (k & Hk & ->) Hz. assert (k <= 15).
  { destruct (Z.le_gt_cases k 15) as [|Hgt]; [done|].
    pose proof (Z.pow_le_mono_r 2 16 k ltac:(lia) ltac:(lia)).
    unfold MAX_QUEUE_SIZE in Hz. change (2 ^ 16) with 65536 in *. lia. }
  exists (2 ^ (16 - k)). rewrite <- Z.pow_add_r by lia. f_equal. lia.
Qed.

Lemma queue_wf_size q : queue_wf q -> 0 < q_size q <= MAX_QUEUE_SIZE.
Proof.
  intros []. destruct qw_size0 as [Hp Hle], qw_max_size0 as [_ Hm].
  apply is_pow2_pos in Hp. lia.
Qed.

(** Cursors wrap consistently with ring positions. *)
Lemma wrap_mod_size q z : queue_wf q -> wrap 16 z mod q_size q = z mod q_size q.
Proof.
  intros Hwf. pose proof (queue_wf_size q Hwf). destruct Hwf as [[_ Hm] [Hp Hle] _ _ _ _ _ _].
  unfold wrap. apply Z.mod_mod_divide, pow2_divides_u16; [done|lia].
Qed.

(** ** Configuration *)

Lemma pow2_check z :
  (z =? 0) || negb (Z.land z (z - 1) =? 0) = false -> 0 <= z -> is_pow2 z.
Proof. intros H Hz. zbool. apply land_pred_pow2; [lia|done]. Qed.

Lemma try_set_size_ok size q q' :
  0 <= size ->
  try_set_size size q = Ok q' <->
  is_pow2 size /\ size <= q_max_size q /\ q' = with_size size q.
Proof.
  intros Hs. unfold try_set_size. case_match eqn:Hc; split; try done.
  - intros (Hp & Hle & _). exfalso. pose proof (is_pow2_pos _ Hp) as Hpos.
    pose proof (proj2 (land_pred_pow2 size Hpos) Hp) as Hl.
    rewrite Hl in Hc. destruct (size >? q_max_size q) eqn:?, (size =? 0) eqn:?; zbool; try lia; done.
  - intros [= <-]. zbool. split_and!; [|lia|done]. apply land_pred_pow2; [lia|done].
  - intros (_ & _ & ->). done.
Qed.

Lemma queue_new_ok max_size q :
  0 <= max_size -> queue_new max_size = Ok q ->
  queue_wf q /\ q_max_size q = max_size /\ q_size q = max_size /\ q_ready q = false.
Proof.
  intros Hm. unfold queue_new. case_match eqn:Hc; [done|]. intros [= <-]. zbool.
  assert (is_pow2 max_size) by (apply land_pred_pow2; [lia|done]).
  split; [|done]. by split.
Qed.

(** The two halves of an address do not overlap. *)
Lemma join_halves low high :
  in_u 32 low -> in_u 32 high ->
  Z.lor (wrap 64 (Z.shiftl high 32)) low = high * 2 ^ 32 + low.
Proof.
  intros Hl Hh. rewrite Z.shiftl_mul_pow2 by done.
  rewrite wrap_small by (unfold in_u in *; change (2 ^ 64) with (2 ^ 32 * 2 ^ 32); nia).
  by apply lor_disjoint.
Qed.

Lemma high_half a : in_u 64 a -> in_u 32 (Z.shiftr a 32) /\
  Z.shiftr a 32 * 2 ^ 32 + wrap 32 a = a.
Proof.
  intros Ha. rewrite Z.shiftr_div_pow2 by done. unfold in_u, wrap in *. split.
  - split; [apply Z.div_pos; lia|]. apply Z.div_lt_upper_bound; [done|].
    change (2 ^ 32 * 2 ^ 32) with (2 ^ 64). lia.
  - pose proof (Z.div_mod a (2 ^ 32)). lia.
Qed.

Definition opt_u32 (o : option Z) : Prop := forall v, o = Some v -> in_u 32 v.

(** The address the setters try: given halves, the others from the old one. *)
Lemma join_address_value old low high :
  in_u 64 old -> opt_u32 low -> opt_u32 high ->
  join_address old low high =
    default (Z.shiftr old 32) high * 2 ^ 32 + default (wrap 32 old) low /\
  in_u 64 (join_address old low high).
Proof.
  intros Hold Hlow Hhigh. destruct (high_half old Hold) as [Hh _].
  unfold join_address. rewrite (wrap_small 32 (Z.shiftr old 32)) by done.
  assert (in_u 32 (default (wrap 32 old) low)).
  { destruct low; simpl; [by apply Hlow|by apply in_u_wrap]. }
  assert (in_u 32 (default (Z.shiftr old 32) high)).
  { destruct high; simpl; [by apply Hhigh|done]. }
  rewrite join_halves by done. split; [done|].
  unfold in_u in *. change (2 ^ 64) with (2 ^ 32 * 2 ^ 32). nia.
Qed.

Lemma mask_zero a n : 0 <= n -> negb (Z.land a (2 ^ n - 1) =? 0) = false -> a mod 2 ^ n = 0.
Proof. intros Hn Hc. zbool. by rewrite <- land_ones_mod. Qed.

(** ** Preservation of the invariant *)

Section Preservation.
Context (q : Queue) (Hwf : queue_wf q).

Lemma reset_wf : queue_wf (reset q).
Proof. destruct Hwf as [[? ?]]. by split. Qed.

Lemma queue_set_size_wf size : 0 <= size -> queue_wf (queue_set_size size q).
Proof.
  intros Hs. unfold queue_set_size. destruct (try_set_size size q) eqn:Ht; [|done].
  apply try_set_size_ok in Ht as (Hp & Hle & ->); [|done]. destruct Hwf. by split.
Qed.

Lemma set_ready_wf b : queue_wf (set_ready b q).
Proof. destruct Hwf. by split. Qed.

Lemma set_event_idx_wf b : queue_wf (set_event_idx b q).
Proof. destruct Hwf. by split. Qed.

Lemma with_next_avail_wf v : in_u 16 v -> queue_wf (with_next_avail v q).
Proof. destruct Hwf. by split. Qed.

Lemma with_next_used_wf v : in_u 16 v -> queue_wf (with_next_used v q).
Proof. destruct Hwf. by split. Qed.

Lemma with_num_added_wf v : in_u 16 v -> queue_wf (with_num_added v q).
Proof. destruct Hwf. by split. Qed.

Lemma set_desc_table_address_wf low high :
  opt_u32 low -> opt_u32 high -> queue_wf (set_desc_table_address low high q).
Proof.
  intros Hl Hh. unfold set_desc_table_address, try_set_desc_table_address.
  case_match eqn:Hc; [done|]. apply (mask_zero _ 4) in Hc; [|done].
  destruct (join_address_value (q_desc_table q) low high) as [_ ?]; [apply Hwf|done..|].
  destruct Hwf. by split.
Qed.

Lemma set_avail_ring_address_wf low high :
  opt_u32 low -> opt_u32 high -> queue_wf (set_avail_ring_address low high q).
Proof.
  intros Hl Hh. unfold set_avail_ring_address, try_set_avail_ring_address.
  case_match eqn:Hc; [done|]. apply (mask_zero _ 1) in Hc; [|done].
  destruct (join_address_value (q_avail_ring q) low high) as [_ ?]; [apply Hwf|done..|].
  destruct Hwf. by split.
Qed.

Lemma set_used_ring_address_wf low high :
  opt_u32 low -> opt_u32 high -> queue_wf (set_used_ring_address low high q).
Proof.
  intros Hl Hh. unfold set_used_ring_address, try_set_used_ring_address.
  case_match eqn:Hc; [done|]. apply (mask_zero _ 2) in Hc; [|done].
  destruct (join_address_value (q_used_ring q) low high) as [_ ?]; [apply Hwf|done..|].
  destruct Hwf. by split.
Qed.

Lemma go_to_previous_position_wf : queue_wf (go_to_previous_position q).
Proof. apply with_next_avail_wf. by apply in_u_wsub. Qed.
End Preservation.

Global Hint Resolve reset_wf queue_set_size_wf set_ready_wf set_event_idx_wf
  with_next_avail_wf with_next_used_wf with_num_added_wf set_desc_table_address_wf
  set_avail_ring_address_wf set_used_ring_address_wf go_to_previous_position_wf : virtio.

(** ** No operation panics *)

Section Safety.
Context {M : Type} `{GML : GuestMemoryLaws M}.
Implicit Types m : M.

Lemma store_layout m m' a v r :
  in_u 16 v -> gm_store16 m a v = (m', r) -> same_layout m m'.
Proof. intros Hv Hs. pose proof (law_store_layout m a v Hv) as Hl. by rewrite Hs in Hl. Qed.

Lemma write_layout {T} `{ByteValuedLaws T} m m' (v : T) a r :
  write_obj m v a = (m', r) -> same_layout m m'.
Proof. intros Hs. pose proof (write_obj_layout m v a) as Hl. by rewrite Hs in Hl. Qed.

(** [c] runs to completion from a well-formed queue, keeps the queue well
    formed and only stores into guest memory. *)
Definition safe {A} (c : RM (Queue * M) Error A) : Prop :=
  forall q m, queue_wf q ->
  exists q' m' r, c (q, m) = Some ((q', m'), r) /\ queue_wf q' /\ same_layout m m'.

Ltac safe_done :=
  eexists _, _, _; split; [reflexivity|]; split;
    [eauto 6 with virtio | eauto using same_layout_refl, same_layout_trans, store_layout, write_layout].

Lemma mem_load_safe a o : load_order_ok o = true -> safe (mem_load a o).
Proof. intros Ho q m Hwf. unfold mem_load. rewrite Ho. case_match; safe_done. Qed.

Lemma mem_store_safe v a o :
  in_u 16 v -> store_order_ok o = true -> safe (mem_store v a o).
Proof.
  intros Hv Ho q m Hwf. unfold mem_store. rewrite Ho.
  destruct (gm_store16 m a v) as [m' [|]] eqn:Hs; safe_done.
Qed.

Lemma mem_write_obj_safe {T} `{ByteValuedLaws T} (v : T) a : safe (mem_write_obj v a).
Proof.
  intros q m Hwf. unfold mem_write_obj. destruct (write_obj m v a) as [m' r] eqn:Hs. safe_done.
Qed.

Lemma safe_ret {A} (a : A) : safe (mret a).
Proof. intros q m Hwf. safe_done. Qed.

Lemma safe_result {A} (r : result Error A) : safe (of_result r).
Proof. intros q m Hwf. safe_done. Qed.

Lemma safe_throw {A} (e : Error) : safe (A := A) (throw e).
Proof. intros q m Hwf. safe_done. Qed.

Lemma safe_update f : (forall q, queue_wf q -> queue_wf (f q)) -> safe (update_queue f).
Proof. intros Hf q m Hwf. eexists _, _, _. split; [reflexivity|]. eauto with virtio. Qed.

Lemma safe_bind {A B} (c : RM (Queue * M) Error A) (k : A -> RM (Queue * M) Error B) :
  safe c -> (forall a, safe (k a)) -> safe (c ≫= k).
Proof.
  intros Hc Hk q m Hwf. destruct (Hc q m Hwf) as (q1 & m1 & r1 & Heq & Hwf1 & Hl1).
  rewrite rm_bind_unfold, Heq. destruct r1 as [a|e].
  - destruct (Hk a q1 m1 Hwf1) as (q2 & m2 & r2 & -> & Hwf2 & Hl2).
    eexists _, _, _. split; [done|]. split; [done|]. by eapply same_layout_trans.
  - by eexists _, _, _.
Qed.

(** Reading the queue first: the continuation may use that it is well formed. *)
Lemma safe_queue_of {B} (k : Queue -> RM (Queue * M) Error B) :
  (forall q, queue_wf q -> safe (k q)) -> safe (queue_of ≫= k).
Proof. intros Hk q m Hwf. rewrite rm_bind_unfold. simpl. by apply Hk. Qed.

Lemma safe_try {A B} (c : RM (Queue * M) Error A) (k : result Error A -> RM (Queue * M) Error B) :
  safe c -> (forall r, safe (k r)) -> safe (try c ≫= k).
Proof.
  intros Hc Hk q m Hwf. destruct (Hc q m Hwf) as (q1 & m1 & r1 & Heq & Hwf1 & Hl1).
  rewrite rm_bind_unfold. unfold try. rewrite Heq.
  destruct (Hk r1 q1 m1 Hwf1) as (q2 & m2 & r2 & -> & Hwf2 & Hl2).
  eexists _, _, _. split; [done|]. split; [done|]. by eapply same_layout_trans.
Qed.

Ltac safe_step :=
  first
    [ apply mem_load_safe; done
    | apply mem_store_safe; [try apply wrap_small; eauto using qw_next_avail, qw_next_used|done]
    | apply mem_write_obj_safe
    | apply safe_ret | apply safe_result | apply safe_throw
    | apply safe_update; intros; eauto using in_u_wadd with virtio
    | apply safe_queue_of; intros ? ?
    | apply safe_bind; [|intros]
    | progress case_match ].

Lemma set_notification_safe enable : safe (set_notification enable).
Proof.
  unfold set_notification, set_avail_event, set_used_flags.
  repeat safe_step; by vm_compute.
Qed.

Lemma used_event_safe o : load_order_ok o = true -> safe (used_event o).
Proof. intros. unfold used_event. repeat safe_step. Qed.

Lemma avail_idx_safe o : load_order_ok o = true -> safe (avail_idx o).
Proof. intros. unfold avail_idx. repeat safe_step. Qed.

Lemma used_idx_safe o : load_order_ok o = true -> safe (used_idx o).
Proof. intros. unfold used_idx. repeat safe_step. Qed.

Lemma add_used_safe head_index len : safe (add_used head_index len).
Proof.
  unfold add_used. apply safe_queue_of. intros q Hwf. case_match; [apply safe_throw|].
  pose proof (queue_wf_size q Hwf). unfold checked_rem.
  rewrite (proj2 (Z.eqb_neq _ _)) by lia. apply safe_bind; [apply safe_ret|intros].
  repeat safe_step.
Qed.

Lemma enable_notification_safe : safe enable_notification.
Proof.
  unfold enable_notification. apply safe_bind; [apply set_notification_safe|intros].
  apply safe_bind; [by apply avail_idx_safe|intros]. repeat safe_step.
Qed.

Lemma needs_notification_safe : safe needs_notification.
Proof.
  unfold needs_notification. apply safe_queue_of. intros q Hwf. case_match; [|apply safe_ret].
  apply safe_bind; [by apply used_event_safe|intros]. repeat safe_step.
  apply with_num_added_wf; [done|by vm_compute].
Qed.

Lemma iter_safe : safe iter.
Proof.
  unfold iter. apply safe_queue_of. intros q Hwf. case_match; [apply safe_throw|].
  apply safe_bind; [by apply avail_idx_safe|intros]. apply safe_result.
Qed.

Lemma avail_next_safe it : safe (avail_next it).
Proof.
  intros q m Hwf. unfold avail_next. repeat case_match; safe_done.
Qed.

Lemma pop_descriptor_chain_safe : safe pop_descriptor_chain.
Proof.
  unfold pop_descriptor_chain. apply safe_try; [apply iter_safe|].
  intros [it|e]; [apply avail_next_safe|apply safe_ret].
Qed.
End Safety.
