(* ===== verification/UsedRing.v ===== *)
(** * The used ring

    [Queue::add_used] publishes an element in guest memory.  The abstract
    specification is an append-only history of elements; the theorems below
    show that [add_used] appends to it, that the driver finds in the ring the
    last [size] elements of the history in order, and what happens on every
    failing branch. *)

From stdpp Require Import base numbers list option.
From S2P Require Import Prelude Bytes GuestMemory FlatMemory Descriptor Chain Queue QueueFacts.

(** Address of the ring entry for the element with sequence number [i]. *)
Definition used_slot (q : Queue) (i : Z) : Z :=
  q_used_ring q + VIRTQ_USED_RING_HEADER_SIZE + VIRTQ_USED_ELEMENT_SIZE * (i mod q_size q).

(** The queue after one element has been added. *)
Definition bumped (q : Queue) : Queue :=
  with_num_added (wadd 16 (q_num_added q) 1) (with_next_used (wadd 16 (q_next_used q) 1) q).

Section Used.
Context {M : Type} `{GML : GuestMemoryLaws M}.
Implicit Types m : M.

(** The ring lies in guest memory and its index can be stored. *)
Definition used_ring_ready (q : Queue) m : Prop :=
  range_mapped m (q_used_ring q)
    (VIRTQ_USED_RING_META_SIZE + VIRTQ_USED_ELEMENT_SIZE * q_size q) /\
  acc16 m (q_used_ring q + 2).

Definition used_entry m (q : Queue) (i : Z) : result GuestMemoryError VirtqUsedElem :=
  read_obj VirtqUsedElem m (used_slot q i).

Lemma used_slot_bounds q i :
  queue_wf q ->
  q_used_ring q + 4 <= used_slot q i /\
  used_slot q i + 8 <= q_used_ring q + 4 + 8 * q_size q.
Proof.
  intros Hwf. pose proof (queue_wf_size q Hwf).
  pose proof (Z.mod_pos_bound i (q_size q) ltac:(lia)).
  unfold used_slot, VIRTQ_USED_RING_HEADER_SIZE, VIRTQ_USED_ELEMENT_SIZE. lia.
Qed.

(** Sequence numbers less than a ring apart have different entries. *)
Lemma used_slot_disjoint q i j :
  queue_wf q -> i < j < i + q_size q ->
  used_slot q i + 8 <= used_slot q j \/ used_slot q j + 8 <= used_slot q i.
Proof.
  intros Hwf Hij. pose proof (queue_wf_size q Hwf).
  unfold used_slot, VIRTQ_USED_ELEMENT_SIZE.
  assert (i mod q_size q <> j mod q_size q) as Hne; [|lia].
  intros Heq. pose proof (Z.div_mod i (q_size q) ltac:(lia)) as Hi.
  pose proof (Z.div_mod j (q_size q) ltac:(lia)) as Hj.
  assert (0 < j / q_size q - i / q_size q < 1) by nia. lia.
Qed.

Lemma used_ring_in_u64 q m :
  queue_wf q -> used_ring_ready q m ->
  q_used_ring q + 4 + 8 * q_size q < 2 ^ 64.
Proof.
  intros Hwf [Hr _]. pose proof (queue_wf_size q Hwf).
  destruct (Hr (q_used_ring q + 5 + 8 * q_size q)) as [b Hb].
  { unfold VIRTQ_USED_RING_META_SIZE, VIRTQ_USED_RING_HEADER_SIZE, VIRTQ_USED_ELEMENT_SIZE. lia. }
  apply law_byte in Hb as [_ Hb]. unfold in_u in Hb. lia.
Qed.

(** [add_used] on an accepted index, as its two stores whatever their outcome. *)
Lemma add_used_stores q m head_index len :
  queue_wf q -> 0 <= head_index < q_size q -> used_slot q (q_next_used q) < 2 ^ 64 ->
  add_used head_index len (q, m) =
    match write_obj m (used_elem_new head_index len) (used_slot q (q_next_used q)) with
    | (m1, Err e) => Some ((q, m1), Err (ErrGuestMemory e))
    | (m1, Ok _) =>
        match gm_store16 m1 (q_used_ring q + 2) (wadd 16 (q_next_used q) 1) with
        | (m2, Err e) => Some ((bumped q, m2), Err (ErrGuestMemory e))
        | (m2, Ok _) => Some ((bumped q, m2), Ok tt)
        end
    end.
Proof.
  intros Hwf Hh H64. pose proof (queue_wf_size q Hwf) as Hsz.
  destruct (used_slot_bounds q (q_next_used q) Hwf) as [Hlo _].
  unfold add_used. rm_unfold.
  rewrite Z.geb_leb, (proj2 (Z.leb_gt _ _)) by lia.
  unfold checked_rem. rewrite (proj2 (Z.eqb_neq _ _)) by lia.
  assert (q_used_ring q + (VIRTQ_USED_RING_HEADER_SIZE
    + q_next_used q mod q_size q * VIRTQ_USED_ELEMENT_SIZE) = used_slot q (q_next_used q)) as Ha.
  { unfold used_slot, VIRTQ_USED_RING_HEADER_SIZE, VIRTQ_USED_ELEMENT_SIZE. lia. }
  unfold checked_add. rewrite !Ha, (proj2 (Z.ltb_lt _ _)) by lia.
  unfold ok_or, mem_write_obj. destruct (write_obj _ _ _) as [m1 [[]|e]]; [|done].
  simpl. rewrite (proj2 (Z.ltb_lt _ _)) by lia. unfold mem_store. by repeat case_match.
Qed.

(** The slot's address does not fit. *)
Lemma add_used_overflow q m head_index len :
  queue_wf q -> 0 <= head_index < q_size q -> 2 ^ 64 <= used_slot q (q_next_used q) ->
  add_used head_index len (q, m) = Some ((q, m), Err AddressOverflow).
Proof.
  intros Hwf Hh H64. pose proof (queue_wf_size q Hwf) as Hsz. unfold add_used. rm_unfold.
  rewrite Z.geb_leb, (proj2 (Z.leb_gt _ _)) by lia.
  unfold checked_rem. rewrite (proj2 (Z.eqb_neq _ _)) by lia. unfold checked_add.
  rewrite (proj2 (Z.ltb_ge (_ + _) _)); [done|].
  unfold used_slot, VIRTQ_USED_RING_HEADER_SIZE, VIRTQ_USED_ELEMENT_SIZE in *. lia.
Qed.

(** With the slot in guest memory only the store of the index can fail. *)
Lemma add_used_mapped q m head_index len :
  queue_wf q -> 0 <= head_index < q_size q ->
  range_mapped m (used_slot q (q_next_used q)) 8 ->
  exists m1, same_layout m m1 /\ add_used head_index len (q, m) =
    match gm_store16 m1 (q_used_ring q + 2) (wadd 16 (q_next_used q) 1) with
    | (m2, Err e) => Some ((bumped q, m2), Err (ErrGuestMemory e))
    | (m2, Ok _) => Some ((bumped q, m2), Ok tt)
    end.
Proof.
  intros Hwf Hh Hmap. assert (used_slot q (q_next_used q) < 2 ^ 64) as H64.
  { destruct (Hmap (used_slot q (q_next_used q))) as [b Hb]; [lia|].
    apply law_byte in Hb as [_ []]. lia. }
  rewrite add_used_stores by done. destruct (write_obj _ _ _) as [m1 r] eqn:Hw.
  pose proof (proj2 (write_obj_success m (used_elem_new head_index len) _) Hmap) as Hok.
  rewrite Hw in Hok. simpl in Hok. subst r. exists m1. split; [|done].
  exact (write_layout _ _ _ _ _ Hw).
Qed.

(** The successful run of [add_used], as its two stores. *)
Lemma add_used_run q m head_index len :
  queue_wf q -> used_ring_ready q m ->
  0 <= head_index < q_size q -> in_u 32 len ->
  exists m1 m2,
    write_obj m (used_elem_new head_index len) (used_slot q (q_next_used q)) = (m1, Ok tt) /\
    gm_store16 m1 (q_used_ring q + 2) (wadd 16 (q_next_used q) 1) = (m2, Ok tt) /\
    add_used head_index len (q, m) = Some ((bumped q, m2), Ok tt).
Proof.
  intros Hwf Hrdy Hh Hlen. pose proof (queue_wf_size q Hwf) as Hsz.
  pose proof (used_ring_in_u64 q m Hwf Hrdy) as H64. destruct Hrdy as [Hmap Hacc].
  destruct (used_slot_bounds q (q_next_used q) Hwf) as [Hlo Hhi].
  set (elem := used_elem_new head_index len).
  destruct (write_obj m elem (used_slot q (q_next_used q))) as [m1 r1] eqn:Hw.
  assert (r1 = Ok tt) as ->.
  { pose proof (proj2 (write_obj_success m elem (used_slot q (q_next_used q)))) as Hs.
    rewrite Hw in Hs. apply Hs. intros x Hx. apply Hmap. simpl in Hx.
    unfold VIRTQ_USED_RING_META_SIZE, VIRTQ_USED_RING_HEADER_SIZE, VIRTQ_USED_ELEMENT_SIZE. lia. }
  destruct (gm_store16 m1 (q_used_ring q + 2) (wadd 16 (q_next_used q) 1)) as [m2 r2] eqn:Hst.
  assert (r2 = Ok tt) as ->.
  { assert (in_u 16 (wadd 16 (q_next_used q) 1)) as Hv by (by apply in_u_wadd).
    pose proof (proj2 (law_store_success m1 (q_used_ring q + 2) _ Hv)) as Hs.
    rewrite Hst in Hs. apply Hs. eapply same_layout_acc16; [|done]. exact (write_layout _ _ _ _ _ Hw). }
  exists m1, m2. split; [done|]. split; [done|].
  rewrite add_used_stores by (done || lia). fold elem. by rewrite Hw, Hst.
Qed.

(** What the two stores change. *)
Lemma add_used_effect q m m1 m2 (e : VirtqUsedElem) v :
  queue_wf q -> used_ring_ready q m -> bv_wf e -> in_u 16 v ->
  write_obj m e (used_slot q (q_next_used q)) = (m1, Ok tt) ->
  gm_store16 m1 (q_used_ring q + 2) v = (m2, Ok tt) ->
  same_layout m m2 /\ used_entry m2 q (q_next_used q) = Ok e /\
  gm_load16 m2 (q_used_ring q + 2) = Ok v /\
  (forall i r, q_next_used q < i < q_next_used q + q_size q ->
     used_entry m q i = Ok r -> used_entry m2 q i = Ok r) /\
  (forall x, ~ (q_used_ring q + 2 <= x < q_used_ring q + 4) ->
     ~ (used_slot q (q_next_used q) <= x < used_slot q (q_next_used q) + 8) ->
     peek m2 x = peek m x).
Proof.
  intros Hwf Hrdy He Hv Hw Hst.
  pose proof (write_obj_overwritten _ _ _ _ Hw) as Ho1.
  pose proof (law_store _ _ _ _ Hv Hst) as Ho2.
  assert (length (bv_encode e) = 8%nat) as Hl by exact (bv_encode_length e).
  split_and!.
  - eapply same_layout_trans; [exact (write_layout _ _ _ _ _ Hw)|by eapply store_layout].
  - unfold used_entry. eapply read_obj_other; [exact Ho2| |by eapply read_write_obj].
    simpl. destruct (used_slot_bounds q (q_next_used q) Hwf). lia.
  - by eapply load_after_store.
  - intros i r Hi Hr. unfold used_entry in *.
    eapply read_obj_other; [exact Ho2| |]; simpl.
    { destruct (used_slot_bounds q i Hwf). lia. }
    eapply read_obj_other; [exact Ho1| |done]. rewrite Hl. simpl.
    destruct (used_slot_disjoint q (q_next_used q) i Hwf Hi); lia.
  - intros x Hx1 Hx2. rewrite (overwritten_peek_other _ _ _ _ _ Ho2) by (simpl; lia).
    apply (overwritten_peek_other _ _ _ _ _ Ho1). rewrite Hl. lia.
Qed.

(** ** The history *)

(** [hist] are the elements added since sequence number [b]: the last [size]
    of them are in the ring, and the index in memory tells how many there
    are. *)
Definition used_view (b : Z) (hist : list VirtqUsedElem) (q : Queue) m : Prop :=
  q_next_used q = wrap 16 (b + Z.of_nat (length hist)) /\
  (hist <> [] -> gm_load16 m (q_used_ring q + 2) = Ok (q_next_used q)) /\
  (forall k e, hist !! k = Some e -> Z.of_nat (length hist) <= Z.of_nat k + q_size q ->
    used_entry m q (b + Z.of_nat k) = Ok e).

Lemma used_entry_wrap q m i :
  queue_wf q -> used_entry m q (wrap 16 i) = used_entry m q i.
Proof. intros Hwf. unfold used_entry, used_slot. by rewrite wrap_mod_size. Qed.

Lemma used_entry_shift q m i :
  queue_wf q -> used_entry m q (i + q_size q) = used_entry m q i.
Proof.
  intros Hwf. pose proof (queue_wf_size q Hwf). unfold used_entry, used_slot.
  rewrite <- (Z.mul_1_l (q_size q)) at 1. by rewrite Z.mod_add by lia.
Qed.

Lemma used_entry_bumped q m i : used_entry m (bumped q) i = used_entry m q i.
Proof. done. Qed.

Lemma used_view_append b hist q m m2 e :
  queue_wf q -> used_view b hist q m ->
  gm_load16 m2 (q_used_ring q + 2) = Ok (wadd 16 (q_next_used q) 1) ->
  used_entry m2 q (q_next_used q) = Ok e ->
  (forall i r, q_next_used q < i < q_next_used q + q_size q ->
     used_entry m q i = Ok r -> used_entry m2 q i = Ok r) ->
  used_view b (hist ++ [e]) (bumped q) m2.
Proof.
  intros Hwf (Hn & Hidx & Hent) Hl He Hoth. pose proof (queue_wf_size q Hwf).
  rewrite Hn in He. rewrite used_entry_wrap in He by done.
  split_and!.
  - simpl. rewrite Hn, length_app. unfold wadd, wrap. rewrite Zplus_mod_idemp_l.
    f_equal. simpl. lia.
  - done.
  - intros k e' Hk Hle. rewrite used_entry_bumped. rewrite length_app in Hle. simpl in Hle.
    destruct (decide (k = length hist)) as [->|Hne].
    { rewrite lookup_app_r, Nat.sub_diag in Hk by lia. by simplify_eq/=. }
    assert (k < length hist)%nat.
    { apply lookup_lt_Some in Hk. rewrite length_app in Hk. simpl in Hk. lia. }
    rewrite lookup_app_l in Hk by done.
    specialize (Hent k e' Hk ltac:(lia)).
    (* the same entry, at a sequence number ahead of the cursor *)
    set (d := Z.of_nat (length hist) - Z.of_nat k) in *.
    assert (0 < d < q_size q) as Hd by lia.
    assert (forall m0 : M, used_entry m0 q (b + Z.of_nat k) =
      used_entry m0 q (q_next_used q + (q_size q - d))) as Heq.
    { intros m0. rewrite Hn. unfold used_entry, used_slot. do 3 f_equal.
      rewrite <- (Zplus_mod_idemp_l (wrap 16 _)), wrap_mod_size, Zplus_mod_idemp_l by done.
      replace (b + Z.of_nat (length hist) + (q_size q - d))
        with (b + Z.of_nat k + 1 * q_size q) by lia.
      by rewrite Z.mod_add by lia. }
    rewrite Heq in Hent |- *. apply Hoth; [lia|done].
Qed.

Lemma bumped_wf q : queue_wf q -> queue_wf (bumped q).
Proof. intros. unfold bumped. eauto 6 with virtio. Qed.

Lemma used_ring_ready_layout q m m2 :
  same_layout m m2 -> used_ring_ready q m -> used_ring_ready (bumped q) m2.
Proof.
  intros Hl [Hr Ha]. split.
  - by eapply same_layout_mapped.
  - by eapply same_layout_acc16.
Qed.

(** Adding a sequence of elements. *)
Fixpoint add_all (es : list VirtqUsedElem) : RM (Queue * M) Error unit :=
  match es with
  | [] => mret tt
  | e :: es => _ ← add_used (ue_id e) (ue_len e); add_all es
  end.

(** An element [add_used] accepts. *)
Definition elem_ok (q : Queue) (e : VirtqUsedElem) : Prop :=
  0 <= ue_id e < q_size q /\ in_u 32 (ue_len e).

Lemma add_used_appends b hist q m e :
  queue_wf q -> used_ring_ready q m -> elem_ok q e -> used_view b hist q m ->
  exists m', add_used (ue_id e) (ue_len e) (q, m) = Some ((bumped q, m'), Ok tt) /\
    used_view b (hist ++ [e]) (bumped q) m' /\ same_layout m m' /\
    (forall x, ~ (q_used_ring q + 2 <= x < q_used_ring q + 4) ->
       ~ (used_slot q (q_next_used q) <= x < used_slot q (q_next_used q) + 8) ->
       peek m' x = peek m x).
Proof.
  intros Hwf Hrdy [Hid Hlen] Hv. pose proof (queue_wf_size q Hwf) as Hsz.
  destruct (add_used_run q m (ue_id e) (ue_len e) Hwf Hrdy Hid Hlen) as (m1 & m2 & Hw & Hs & Hr).
  assert (used_elem_new (ue_id e) (ue_len e) = e) as He by (by destruct e).
  rewrite He in Hw.
  assert (bv_wf e) as Hwfe.
  { rewrite <- He. apply used_elem_wf; [|done]. unfold in_u, MAX_QUEUE_SIZE in *.
    change (2 ^ 32) with 4294967296. lia. }
  destruct (add_used_effect q m m1 m2 e (wadd 16 (q_next_used q) 1) Hwf Hrdy Hwfe
    ltac:(by apply in_u_wadd) Hw Hs) as (Hl & Hent & Hidx & Hoth & Hframe).
  exists m2. split; [done|]. split; [|done]. by eapply used_view_append.
Qed.

Lemma add_all_appends es2 es1 q m :
  queue_wf q -> used_ring_ready q m -> Forall (elem_ok q) es2 ->
  forall b, used_view b es1 q m ->
  exists q' m', add_all es2 (q, m) = Some ((q', m'), Ok tt) /\ queue_wf q' /\
    used_view b (es1 ++ es2) q' m' /\
    q_num_added q' = wrap 16 (q_num_added q + Z.of_nat (length es2)).
Proof.
  revert es1 q m. induction es2 as [|e es2 IH]; intros es1 q m Hwf Hrdy Hes b Hv.
  - exists q, m. rewrite app_nil_r, Z.add_0_r. split; [done|]. split; [done|].
    split; [done|]. symmetry. apply wrap_small, Hwf.
  - inversion Hes as [|? ? He Hes']; subst.
    destruct (add_used_appends b es1 q m e Hwf Hrdy He Hv) as (m' & Hr & Hv' & Hl & _).
    destruct (IH (es1 ++ [e]) (bumped q) m' (bumped_wf q Hwf)
      (used_ring_ready_layout q m m' Hl Hrdy) Hes' b Hv') as (q2 & m2 & Hr2 & Hwf2 & Hv2 & Hn2).
    exists q2, m2. split; [|split; [done|split]].
    + simpl. rewrite rm_bind_unfold, Hr. done.
    + by rewrite <- app_assoc in Hv2.
    + rewrite Hn2. simpl. unfold wadd, wrap. rewrite Zplus_mod_idemp_l. f_equal. lia.
Qed.

End Used.

(** ** Properties *)

Section UsedProperties.
Context {M : Type} `{GML : GuestMemoryLaws M}.
Implicit Types m : M.

(** C2: [add_used] on a ring that lies in guest memory succeeds and refines the append-only
    history: the element is appended, the driver finds the last [size] elements of the history
    in the ring and their number in the index, and no byte outside the index and the element's
    own slot changes. *)
Theorem add_used_refines_history b hist q m e :
  queue_wf q -> used_ring_ready q m -> elem_ok q e -> used_view b hist q m ->
  exists m', add_used (ue_id e) (ue_len e) (q, m) = Some ((bumped q, m'), Ok tt) /\
    used_view b (hist ++ [e]) (bumped q) m' /\ same_layout m m' /\
    (forall x, ~ (q_used_ring q + 2 <= x < q_used_ring q + 4) ->
       ~ (used_slot q (q_next_used q) <= x < used_slot q (q_next_used q) + 8) ->
       peek m' x = peek m x).
Proof. apply add_used_appends. Qed.

(** Publishing any sequence of valid elements succeeds; afterwards the ring holds the last
    [size] of them at the sequence numbers that follow the old cursor, and the cursor, the
    index in memory and [num_added] have moved by their number modulo 2^16. *)
Theorem add_all_publishes q m es :
  queue_wf q -> used_ring_ready q m -> Forall (elem_ok q) es ->
  exists q' m', add_all es (q, m) = Some ((q', m'), Ok tt) /\ queue_wf q' /\
    used_view (q_next_used q) es q' m' /\
    q_num_added q' = wrap 16 (q_num_added q + Z.of_nat (length es)).
Proof.
  intros Hwf Hrdy Hes.
  destruct (add_all_appends es [] q m Hwf Hrdy Hes (q_next_used q)) as (q' & m' & ? & ? & ? & ?).
  - split_and!; [|done|done]. rewrite Z.add_0_r. symmetry. apply wrap_small, Hwf.
  - by exists q', m'.
Qed.

(** C35: the outcome of [add_used] on every branch.  An index outside the queue is rejected; a
    slot whose address exceeds 64 bits is an overflow, and memory is not touched; a slot outside
    guest memory is reported; in these three cases the cursors are unchanged.  When only the
    index cannot be stored, the error is reported but the cursors have moved.  In every other
    case the call succeeds. *)
Theorem add_used_failures q m head_index len :
  queue_wf q -> 0 <= head_index -> in_u 32 len ->
  let slot := used_slot q (q_next_used q) in
  (q_size q <= head_index ->
     add_used head_index len (q, m) = Some ((q, m), Err InvalidDescriptorIndex)) /\
  (head_index < q_size q -> 2 ^ 64 <= slot ->
     add_used head_index len (q, m) = Some ((q, m), Err AddressOverflow)) /\
  (head_index < q_size q -> slot < 2 ^ 64 -> ~ range_mapped m slot 8 ->
     exists m' e, add_used head_index len (q, m) = Some ((q, m'), Err (ErrGuestMemory e))) /\
  (head_index < q_size q -> range_mapped m slot 8 -> ~ acc16 m (q_used_ring q + 2) ->
     exists m' e, add_used head_index len (q, m) =
       Some ((bumped q, m'), Err (ErrGuestMemory e))) /\
  (head_index < q_size q -> range_mapped m slot 8 -> acc16 m (q_used_ring q + 2) ->
     exists m', add_used head_index len (q, m) = Some ((bumped q, m'), Ok tt)).
Proof.
  intros Hwf Hh Hlen slot. split_and!; intros Hlt.
  - unfold add_used. rm_unfold. by rewrite Z.geb_leb, (proj2 (Z.leb_le _ _)).
  - intros H64. by apply add_used_overflow.
  - intros H64 Hunm. rewrite add_used_stores by done.
    destruct (write_obj _ _ _) as [m1 [[]|e]] eqn:Hw; [|by exists m1, e].
    exfalso. apply Hunm.
    pose proof (write_obj_success m (used_elem_new head_index len) slot) as [Hs _].
    unfold slot in Hs. rewrite Hw in Hs. by apply Hs.
  - intros Hmap Hnacc.
    destruct (add_used_mapped q m head_index len Hwf ltac:(lia) Hmap) as (m1 & Hl & ->).
    destruct (gm_store16 _ _ _) as [m2 [[]|e]] eqn:Hs; [|by exists m2, e].
    exfalso. apply Hnacc. apply Hl.
    apply (law_store_success m1 _ (wadd 16 (q_next_used q) 1)); [by apply in_u_wadd|].
    by rewrite Hs.
  - intros Hmap Hacc.
    destruct (add_used_mapped q m head_index len Hwf ltac:(lia) Hmap) as (m1 & Hl & ->).
    apply (same_layout_acc16 m m1) in Hacc; [|done].
    apply (law_store_success m1 _ (wadd 16 (q_next_used q) 1)) in Hacc; [|by apply in_u_wadd].
    destruct (gm_store16 _ _ _) as [m2 r] eqn:Hs. simpl in Hacc. subst r. by exists m2.
Qed.
End UsedProperties.

(** ** Concrete runs *)

Module UsedExamples.
(** A queue of size 4 over one region of 64 KiB, its cursor close to the
    wrap-around. *)
Definition mem : FlatMem := from_ranges [(0, 0x10000)].
Definition q4 : Queue :=
  mk_queue 16 0 65535 false 0 4 true 0x1000 0x2000 0x3000.
Definition e1 : VirtqUsedElem := used_elem_new 1 16.
Definition e2 : VirtqUsedElem := used_elem_new 3 512.

Lemma used_q4_wf : queue_wf q4.
Proof. split; try (by vm_compute); split; try done; first [by exists 4 | by exists 2]. Qed.

Lemma used_q4_ready : used_ring_ready q4 mem.
Proof.
  split.
  - apply (fm_region_mapped mem 0x3000 0 0x10000); [by vm_compute|by vm_compute|].
    by apply Z.leb_le; vm_compute.
  - by exists 0.
Qed.
End UsedExamples.
Import UsedExamples.

Lemma add_used_refines_history_witness :
  exists m', add_used 1 16 (q4, mem) = Some ((bumped q4, m'), Ok tt) /\
    used_view 65535 [e1] (bumped q4) m'.
Proof.
  destruct (add_used_refines_history 65535 [] q4 mem e1 used_q4_wf used_q4_ready) as (m' & Hr & Hv & _).
  - by split; [split; vm_compute|split; vm_compute].
  - by split_and!.
  - exists m'. by split.
Defined.

Lemma add_all_publishes_witness :
  exists q' m', add_all [e1; e2] (q4, mem) = Some ((q', m'), Ok tt) /\
    used_view 65535 [e1; e2] q' m' /\ q_num_added q' = 2.
Proof.
  destruct (add_all_publishes q4 mem [e1; e2] used_q4_wf used_q4_ready) as (q' & m' & Hr & _ & Hv & Hn).
  - repeat constructor; by vm_compute.
  - exists q', m'. by split_and!.
Defined.

(** The branches: an index out of the queue, a used ring at the end of the
    address space, a used ring outside guest memory, a ring of which only the
    header is missing, and success. *)
Lemma add_used_failures_witness :
  add_used 4 16 (q4, mem) = Some ((q4, mem), Err InvalidDescriptorIndex) /\
  add_used 1 16 (with_used_ring (2 ^ 64 - 4) q4, mem) =
    Some ((with_used_ring (2 ^ 64 - 4) q4, mem), Err AddressOverflow) /\
  (exists m' e, add_used 1 16 (q4, from_ranges [(0, 0x3000)]) =
    Some ((q4, m'), Err (ErrGuestMemory e))) /\
  (exists m' e, add_used 1 16 (q4, from_ranges [(0x3004, 0x1000)]) =
    Some ((bumped q4, m'), Err (ErrGuestMemory e))) /\
  (exists m', add_used 1 16 (q4, mem) = Some ((bumped q4, m'), Ok tt)).
Proof.
  split_and!.
  - apply (add_used_failures q4 mem 4 16 used_q4_wf); by vm_compute.
  - apply (add_used_failures (with_used_ring (2 ^ 64 - 4) q4) mem 1 16); try by vm_compute.
    split; try (by vm_compute); split; try done; first [by exists 4 | by exists 2].
  - apply (add_used_failures q4 (from_ranges [(0, 0x3000)]) 1 16 used_q4_wf); try by vm_compute.
    intros Hm. destruct (Hm 0x301c) as [b Hb]; [by vm_compute|]. by vm_compute in Hb.
  - apply (add_used_failures q4 (from_ranges [(0x3004, 0x1000)]) 1 16 used_q4_wf);
      [by vm_compute..| |].
    + apply (fm_region_mapped _ 0x3004 0x3004 0x1000); by vm_compute.
    + intros [v Hv]. by vm_compute in Hv.
  - apply (add_used_failures q4 mem 1 16 used_q4_wf); [by vm_compute..| |].
    + apply (fm_region_mapped _ 0x301c 0 0x10000); by vm_compute.
    + by exists 0.
Defined.
