(* ===== verification/AvailRing.v ===== *)
(** * The available ring

    [Queue::iter], the iterator it returns and [Queue::pop_descriptor_chain].
    The abstract specification is the list of heads the driver has offered
    and the device has not consumed; the theorems show that the iterator
    yields exactly that list, in order and once, that it is bounded by the
    queue size whatever the driver writes, and that popping chains one at a
    time is the same as iterating. *)

From stdpp Require Import base numbers list option.
From S2P Require Import Prelude Bytes GuestMemory FlatMemory Descriptor Chain Queue QueueFacts.

(** Address of the ring entry with sequence number [i]. *)
Definition avail_slot (q : Queue) (i : Z) : Z :=
  q_avail_ring q + VIRTQ_AVAIL_RING_HEADER_SIZE + VIRTQ_AVAIL_ELEMENT_SIZE * (i mod q_size q).

(** The queue after [n] heads have been consumed. *)
Definition consumed (n : Z) (q : Queue) : Queue :=
  with_next_avail (wadd 16 (q_next_avail q) n) q.

(** The number of heads between the device's cursor and index [idx]. *)
Definition pending (q : Queue) (idx : u16) : Z := wsub 16 idx (q_next_avail q).

(** The iterator [iter] makes for index [idx]. *)
Definition iter_for (q : Queue) (idx : u16) : AvailIter :=
  mk_avail_iter (q_desc_table q) (q_avail_ring q) (q_size q) idx.

(** The chain of a head. *)
Definition chain_of (q : Queue) (head : u16) : DescriptorChain :=
  chain_new (q_desc_table q) (q_size q) head.

Section Avail.
Context {M : Type} `{GML : GuestMemoryLaws M}.
Implicit Types m : M.

Definition avail_entry m (q : Queue) (i : Z) : result GuestMemoryError Z :=
  gm_load16 m (avail_slot q i).

(** [for chain in iter]: run [next] until it returns [None].  The fuel bounds
    the number of calls; running out of it is [None]. *)
Fixpoint drain (fuel : nat) (it : AvailIter) : RM (Queue * M) Error (list DescriptorChain) :=
  match fuel with
  | O => panic
  | S fuel =>
      o ← avail_next it;
      match o with
      | None => mret []
      | Some c => cs ← drain fuel it; mret (c :: cs)
      end
  end.

(** [while let Some(chain) = queue.pop_descriptor_chain(mem)]. *)
Fixpoint pop_all (fuel : nat) : RM (Queue * M) Error (list DescriptorChain) :=
  match fuel with
  | O => panic
  | S fuel =>
      o ← pop_descriptor_chain;
      match o with
      | None => mret []
      | Some c => cs ← pop_all fuel; mret (c :: cs)
      end
  end.

(** The driver has offered [heads] and they are still to be consumed. *)
Record offered (q : Queue) m (heads : list Z) : Prop := {
  off_ready : q_ready q = true /\ q_avail_ring q <> 0;
  off_count : Z.of_nat (length heads) <= q_size q;
  off_index : gm_load16 m (q_avail_ring q + 2) =
    Ok (wadd 16 (q_next_avail q) (Z.of_nat (length heads)));
  off_entry : forall k h, heads !! k = Some h ->
    avail_entry m q (q_next_avail q + Z.of_nat k) = Ok h;
}.

Lemma avail_slot_addr q :
  q_avail_ring q + (VIRTQ_AVAIL_RING_HEADER_SIZE +
    q_next_avail q mod q_size q * VIRTQ_AVAIL_ELEMENT_SIZE) = avail_slot q (q_next_avail q).
Proof. unfold avail_slot. lia. Qed.

Lemma consumed_size n q : q_size (consumed n q) = q_size q.
Proof. done. Qed.

Lemma consumed_wf n q : queue_wf q -> queue_wf (consumed n q).
Proof. intros. unfold consumed. eauto with virtio. Qed.

Lemma consumed_consumed a b q : consumed b (consumed a q) = consumed (a + b) q.
Proof. unfold consumed. simpl. by rewrite wadd_assoc. Qed.

Lemma consumed_0 q : queue_wf q -> consumed 0 q = q.
Proof.
  intros []. unfold consumed. rewrite wadd_0_r by done. by destruct q.
Qed.

(** Loading an address implies it is a 64-bit address. *)
Lemma load_addr m a v : gm_load16 m a = Ok v -> in_u 64 a.
Proof.
  intros Hl. apply law_load in Hl as [_ Hr].
  assert (peek m (a + Z.of_nat 0) = le_bytes 2 v !! 0%nat) as Hp.
  { eapply gm_read_peek; [|done|]; lia. }
  rewrite Z.add_0_r in Hp. by apply law_byte in Hp as [_ ?].
Qed.

(** One step of the iterator, on every branch. *)
Lemma avail_next_step q m idx :
  queue_wf q ->
  avail_next (iter_for q idx) (q, m) =
    if decide (q_next_avail q = idx) then Some ((q, m), Ok None)
    else match avail_entry m q (q_next_avail q) with
         | Ok h => Some ((consumed 1 q, m), Ok (Some (chain_of q h)))
         | Err _ => Some ((q, m), Ok None)
         end.
Proof.
  intros Hwf. pose proof (queue_wf_size q Hwf).
  unfold avail_next. cbn [it_last_index it_queue_size it_avail_ring it_desc_table iter_for].
  case_decide as Hi; [by rewrite (proj2 (Z.eqb_eq _ _) Hi)|].
  rewrite (proj2 (Z.eqb_neq _ _) Hi). unfold checked_rem.
  rewrite (proj2 (Z.eqb_neq _ _)) by lia. unfold checked_add. rewrite avail_slot_addr.
  unfold avail_entry. destruct (_ <? _) eqn:Hc; [by case_match|]. zbool.
  destruct (gm_load16 m (avail_slot q (q_next_avail q))) eqn:Hl; [|done].
  apply load_addr in Hl as [_ ?]. lia.
Qed.

Lemma avail_iter_new_spec q idx :
  avail_iter_new idx q =
    if decide (pending q idx <= q_size q) then Ok (iter_for q idx) else Err InvalidAvailRingIndex.
Proof.
  unfold avail_iter_new. fold (pending q idx). rewrite Z.gtb_ltb.
  case_decide; [by rewrite (proj2 (Z.ltb_ge _ _))|by rewrite (proj2 (Z.ltb_lt _ _)) by lia].
Qed.

(** [avail_idx] with an ordering [load] accepts. *)
Lemma avail_idx_spec q m o :
  load_order_ok o = true ->
  avail_idx o (q, m) =
    Some ((q, m), if decide (q_avail_ring q + 2 < 2 ^ 64)
                  then map_err ErrGuestMemory (gm_load16 m (q_avail_ring q + 2))
                  else Err AddressOverflow).
Proof.
  intros Ho. unfold avail_idx. rm_unfold. unfold checked_add. case_decide.
  - rewrite (proj2 (Z.ltb_lt _ _)) by done. simpl. rewrite Ho. by case_match.
  - by rewrite (proj2 (Z.ltb_ge _ _)) by lia.
Qed.

(** What [iter] returns, on every branch. *)
Definition iter_result (q : Queue) m : result Error AvailIter :=
  if decide (q_ready q = true /\ q_avail_ring q <> 0) then
    if decide (q_avail_ring q + 2 < 2 ^ 64) then
      match gm_load16 m (q_avail_ring q + 2) with
      | Err e => Err (ErrGuestMemory e)
      | Ok idx => if decide (pending q idx <= q_size q) then Ok (iter_for q idx)
                  else Err InvalidAvailRingIndex
      end
    else Err AddressOverflow
  else Err QueueNotReady.

Lemma iter_spec q m : iter (q, m) = Some ((q, m), iter_result q m).
Proof.
  unfold iter, iter_result. rewrite rm_bind_unfold. simpl.
  destruct (q_ready q); simpl; [|done].
  destruct (q_avail_ring q =? 0) eqn:H0; zbool.
  { rewrite decide_False by naive_solver. done. }
  rewrite decide_True by done. rewrite rm_bind_unfold, avail_idx_spec by done.
  case_decide; [|done]. destruct (gm_load16 _ _); [|done].
  simpl. unfold of_result. by rewrite avail_iter_new_spec.
Qed.

Lemma pop_spec q m :
  queue_wf q ->
  pop_descriptor_chain (q, m) =
    match iter_result q m with
    | Ok it => avail_next it (q, m)
    | Err _ => Some ((q, m), Ok None)
    end.
Proof.
  intros Hwf. unfold pop_descriptor_chain. rewrite rm_bind_unfold. unfold try.
  rewrite iter_spec. by destruct (iter_result q m).
Qed.

Lemma iter_result_ok q m it :
  iter_result q m = Ok it ->
  exists idx, it = iter_for q idx /\ in_u 16 idx /\ pending q idx <= q_size q /\
    gm_load16 m (q_avail_ring q + 2) = Ok idx /\ q_ready q = true /\
    q_avail_ring q <> 0 /\ q_avail_ring q + 2 < 2 ^ 64.
Proof.
  unfold iter_result. intros Hr.
  case_decide as H1; [|done]. case_decide; [|done]. destruct H1.
  destruct (gm_load16 _ _) as [idx|] eqn:Hl; [|done]. case_decide; [|done].
  injection Hr as <-. exists idx. split_and!; try done; by apply law_load in Hl as [[] _].
Qed.

(** ** Draining the iterator *)

Lemma pending_0 q idx : queue_wf q -> in_u 16 idx -> pending q idx = 0 <-> q_next_avail q = idx.
Proof.
  intros [_ _ Hn _ _ _ _ _] Hi. split.
  - intros Hp. rewrite <- (wadd_wsub 16 idx (q_next_avail q)) by done.
    fold (pending q idx). rewrite Hp.
    unfold wadd. rewrite Z.add_0_l. symmetry. by apply wrap_small.
  - intros <-. apply wsub_diag.
Qed.

Lemma pending_consumed q idx n :
  0 <= n <= pending q idx -> pending (consumed n q) idx = pending q idx - n.
Proof.
  intros Hn. unfold pending, consumed in *. simpl. unfold wsub, wadd, wrap in *.
  rewrite Zminus_mod_idemp_r.
  replace (idx - (q_next_avail q + n)) with (idx - q_next_avail q - n) by lia.
  rewrite <- Zminus_mod_idemp_l. apply Z.mod_small.
  pose proof (Z.mod_pos_bound (idx - q_next_avail q) (2 ^ 16) ltac:(done)). lia.
Qed.

Lemma consumed_pending q idx : queue_wf q -> in_u 16 idx ->
  wadd 16 (q_next_avail q) (pending q idx) = idx.
Proof.
  intros [_ _ Hn _ _ _ _ _] Hi. unfold wadd. rewrite Z.add_comm. by apply wadd_wsub.
Qed.

Lemma avail_entry_consumed q m n k :
  queue_wf q ->
  avail_entry m (consumed n q) (q_next_avail (consumed n q) + k) =
  avail_entry m q (q_next_avail q + (n + k)).
Proof.
  intros Hwf. unfold avail_entry, avail_slot, consumed, wadd. simpl. do 3 f_equal.
  rewrite <- (Zplus_mod_idemp_l (wrap 16 _)), wrap_mod_size, Zplus_mod_idemp_l by done.
  f_equal. lia.
Qed.

(** [heads] are the entries of the ring from the cursor on. *)
Definition heads_at m (q : Queue) (heads : list Z) : Prop :=
  forall k h, heads !! k = Some h -> avail_entry m q (q_next_avail q + Z.of_nat k) = Ok h.

Lemma heads_at_cons m q h heads :
  queue_wf q -> avail_entry m q (q_next_avail q) = Ok h ->
  heads_at m (consumed 1 q) heads -> heads_at m q (h :: heads).
Proof.
  intros Hwf Hh Ht [|k] h' Hk; simpl in Hk.
  - simplify_eq. by rewrite Z.add_0_r.
  - specialize (Ht k h' Hk). rewrite avail_entry_consumed in Ht by done.
    rewrite <- Ht. f_equal. lia.
Qed.

(** The run of the iterator: it consumes a prefix of what is pending, and
    stops early only at an entry it cannot load. *)
Record drained (q : Queue) m (idx : Z) (heads : list Z) : Prop := {
  dr_count : Z.of_nat (length heads) <= pending q idx;
  dr_heads : heads_at m q heads;
  dr_stop : Z.of_nat (length heads) < pending q idx ->
    exists e, avail_entry m q (q_next_avail q + Z.of_nat (length heads)) = Err e;
}.

Lemma drained_cons q m idx h heads :
  queue_wf q -> 0 < pending q idx -> avail_entry m q (q_next_avail q) = Ok h ->
  drained (consumed 1 q) m idx heads -> drained q m idx (h :: heads).
Proof.
  intros Hwf Hp Hh [Hc Hhs Hs]. rewrite pending_consumed in Hc, Hs by lia.
  split; simpl length.
  - lia.
  - by apply heads_at_cons.
  - intros Hlt. destruct Hs as [e He]; [lia|]. exists e.
    rewrite avail_entry_consumed in He by done. rewrite <- He. f_equal. lia.
Qed.

Lemma drain_spec fuel q m idx :
  queue_wf q -> in_u 16 idx -> pending q idx < Z.of_nat fuel ->
  exists heads, drained q m idx heads /\
    drain fuel (iter_for q idx) (q, m) =
      Some ((consumed (Z.of_nat (length heads)) q, m), Ok (chain_of q <$> heads)).
Proof.
  revert q. induction fuel as [|fuel IH]; intros q Hwf Hi Hp.
  { pose proof (in_u_wsub 16 idx (q_next_avail q) ltac:(done)) as [? _]. unfold pending in Hp. lia. }
  simpl. rewrite rm_bind_unfold, avail_next_step by done. case_decide as Hn.
  - exists []. simpl. rewrite consumed_0 by done. split; [|done].
    apply pending_0 in Hn; [|done..]. split; simpl; [lia|done|lia].
  - assert (0 < pending q idx) as Hpos.
    { pose proof (in_u_wsub 16 idx (q_next_avail q) ltac:(done)) as [? _].
      rewrite <- pending_0 in Hn by done. unfold pending in *. lia. }
    destruct (avail_entry m q (q_next_avail q)) as [h|e] eqn:He.
    + destruct (IH (consumed 1 q)) as (heads & Hd & Hr);
        [by apply consumed_wf|done|rewrite pending_consumed; lia|].
      exists (h :: heads). split; [by apply drained_cons|].
      change (iter_for q idx) with (iter_for (consumed 1 q) idx).
      rewrite rm_bind_unfold, Hr, consumed_consumed.
      simpl length. by replace (Z.of_nat (S (length heads))) with (1 + Z.of_nat (length heads)) by lia.
    + exists []. simpl. rewrite consumed_0 by done. split; [|done].
      split; simpl; [lia|done|]. rewrite Z.add_0_r. eauto.
Qed.

(** Popping chains one at a time visits the same heads. *)
Lemma iter_result_consumed q m idx n :
  iter_result q m = Ok (iter_for q idx) -> 0 <= n <= pending q idx ->
  iter_result (consumed n q) m = Ok (iter_for (consumed n q) idx).
Proof.
  intros Hr Hn. apply iter_result_ok in Hr as (idx' & Heq & Hi & Hp & Hl & Hrdy & Ha & H64).
  injection Heq as <-. unfold iter_result. simpl. rewrite !decide_True by done.
  rewrite Hl, decide_True; [done|]. rewrite pending_consumed by done. simpl. lia.
Qed.

Lemma pop_all_spec fuel q m idx :
  queue_wf q -> iter_result q m = Ok (iter_for q idx) -> in_u 16 idx ->
  pending q idx < Z.of_nat fuel ->
  pop_all fuel (q, m) = drain fuel (iter_for q idx) (q, m).
Proof.
  revert q. induction fuel as [|fuel IH]; intros q Hwf Hr Hi Hp; [done|].
  simpl. rewrite !rm_bind_unfold, pop_spec, Hr, avail_next_step by done.
  case_decide as Hn; [done|].
  assert (0 < pending q idx) as Hpos.
  { pose proof (in_u_wsub 16 idx (q_next_avail q) ltac:(done)) as [? _].
    rewrite <- pending_0 in Hn by done. unfold pending in *. lia. }
  destruct (avail_entry m q (q_next_avail q)) as [h|e] eqn:He; [|done].
  change (iter_for q idx) with (iter_for (consumed 1 q) idx).
  rewrite !rm_bind_unfold, IH; [done|by apply consumed_wf| |done|].
  - apply iter_result_consumed; [done|lia].
  - rewrite pending_consumed; lia.
Qed.

Lemma offered_iter q m heads :
  queue_wf q -> offered q m heads ->
  iter_result q m = Ok (iter_for q (wadd 16 (q_next_avail q) (Z.of_nat (length heads)))) /\
  pending q (wadd 16 (q_next_avail q) (Z.of_nat (length heads))) = Z.of_nat (length heads).
Proof.
  intros Hwf [Hrdy Hc Hi He]. pose proof (queue_wf_size q Hwf) as [? Hm].
  assert (pending q (wadd 16 (q_next_avail q) (Z.of_nat (length heads))) =
    Z.of_nat (length heads)) as Hp.
  { unfold pending, wsub, wadd, wrap. rewrite Zminus_mod_idemp_l.
    rewrite Z.add_simpl_l. apply Z.mod_small. unfold MAX_QUEUE_SIZE in Hm.
    change (2 ^ 16) with 65536. lia. }
  split; [|done]. unfold iter_result.
  rewrite decide_True by done. pose proof (load_addr _ _ _ Hi) as [_ ?].
  rewrite decide_True by lia. rewrite Hi, decide_True; [done|]. by rewrite Hp.
Qed.

(** The heads drained from what was offered are what was offered. *)
Lemma drained_offered q m heads heads' :
  queue_wf q -> offered q m heads ->
  drained q m (wadd 16 (q_next_avail q) (Z.of_nat (length heads))) heads' -> heads' = heads.
Proof.
  intros Hwf Ho [Hc Hh Hs]. destruct (offered_iter q m heads Hwf Ho) as [_ Hp].
  rewrite Hp in Hc, Hs. destruct Ho as [_ _ _ He].
  assert (length heads' = length heads) as Hlen.
  { destruct (decide (length heads' < length heads)%nat) as [Hlt|]; [|lia].
    destruct Hs as [e Hs]; [lia|]. apply lookup_lt_is_Some in Hlt as [h Hk].
    rewrite (He _ _ Hk) in Hs. done. }
  apply list_eq_same_length with (length heads); [done|done|].
  intros i x y _ Hx Hy. apply He in Hy. apply Hh in Hx. congruence.
Qed.

(** Draining a new iterator yields what was offered. *)
Lemma offered_drain q m heads :
  queue_wf q -> offered q m heads ->
  exists it, iter (q, m) = Some ((q, m), Ok it) /\
    drain (S (Z.to_nat (q_size q))) it (q, m) =
      Some ((consumed (Z.of_nat (length heads)) q, m), Ok (chain_of q <$> heads)).
Proof.
  intros Hwf Ho. pose proof (off_count _ _ _ Ho).
  destruct (offered_iter q m heads Hwf Ho) as [Hr Hp].
  eexists. rewrite iter_spec, Hr. split; [done|].
  destruct (drain_spec (S (Z.to_nat (q_size q))) q m
    (wadd 16 (q_next_avail q) (Z.of_nat (length heads))) Hwf) as (heads' & Hd & Hrun);
    [by apply in_u_wadd|lia|].
  by rewrite (drained_offered q m heads heads' Hwf Ho Hd) in Hrun.
Qed.
End Avail.

(** ** Properties *)

Section AvailProperties.
Context {M : Type} `{GML : GuestMemoryLaws M}.
Implicit Types m : M.

(** C1: the iterator yields exactly the heads the driver has offered, in order and once, ends
    with the cursor at the driver's index and touches neither the memory nor another field. *)
Theorem iter_yields_offered q m heads :
  queue_wf q -> offered q m heads ->
  exists it, iter (q, m) = Some ((q, m), Ok it) /\
    drain (S (Z.to_nat (q_size q))) it (q, m) =
      Some ((consumed (Z.of_nat (length heads)) q, m), Ok (chain_of q <$> heads)).
Proof. apply offered_drain. Qed.

(** C34: whatever the driver has written, an iterator that [iter] returns ends within [size]
    steps; it yields at most [size] chains, made of the consecutive ring entries from the
    cursor on, moves the cursor by their number and never beyond the index it has loaded. *)
Theorem iter_bounded q m it :
  queue_wf q -> iter (q, m) = Some ((q, m), Ok it) ->
  exists heads,
    drain (S (Z.to_nat (q_size q))) it (q, m) =
      Some ((consumed (Z.of_nat (length heads)) q, m), Ok (chain_of q <$> heads)) /\
    Z.of_nat (length heads) <= pending q (it_last_index it) <= q_size q /\
    heads_at m q heads.
Proof.
  intros Hwf Hit. rewrite iter_spec in Hit. injection Hit as Hit.
  apply iter_result_ok in Hit as (idx & -> & Hi & Hp & _).
  destruct (drain_spec (S (Z.to_nat (q_size q))) q m idx Hwf Hi ltac:(lia))
    as (heads & [Hc Hh _] & Hr).
  by exists heads.
Qed.

(** The outcome of [iter] on every branch, in the order of its checks; it never changes the
    queue or the memory. *)
Theorem iter_outcome q m :
  iter (q, m) = Some ((q, m),
    if decide (q_ready q = true /\ q_avail_ring q <> 0) then
      if decide (q_avail_ring q + 2 < 2 ^ 64) then
        match gm_load16 m (q_avail_ring q + 2) with
        | Err e => Err (ErrGuestMemory e)
        | Ok idx => if decide (pending q idx <= q_size q) then Ok (iter_for q idx)
                    else Err InvalidAvailRingIndex
        end
      else Err AddressOverflow
    else Err QueueNotReady).
Proof. apply iter_spec. Qed.

(** Popping chains one at a time until none is left gives the same chains and the same
    final queue as iterating, and on a queue whose iterator cannot be made it gives none. *)
Theorem pop_all_is_iter q m fuel :
  queue_wf q -> q_size q < Z.of_nat fuel ->
  pop_all fuel (q, m) =
    match iter (q, m) with
    | Some (_, Ok it) => drain fuel it (q, m)
    | _ => Some ((q, m), Ok [])
    end.
Proof.
  intros Hwf Hf. rewrite iter_spec. destruct (iter_result q m) as [it|e] eqn:Hr.
  - destruct (iter_result_ok q m it Hr) as (idx & -> & Hi & Hp & _).
    apply pop_all_spec; try done. lia.
  - destruct fuel; [pose proof (queue_wf_size q Hwf); lia|].
    simpl. rewrite rm_bind_unfold, pop_spec by done. by rewrite Hr.
Qed.

(** [go_to_previous_position] undoes the consumption of a chain: the queue is the one from
    before the pop, so the same chain is popped again. *)
Theorem pop_undo q m q' c :
  queue_wf q -> pop_descriptor_chain (q, m) = Some ((q', m), Ok (Some c)) ->
  go_to_previous_position q' = q /\
  pop_descriptor_chain (go_to_previous_position q', m) = Some ((q', m), Ok (Some c)).
Proof.
  intros Hwf Hpop. assert (go_to_previous_position q' = q) as Hq; [|by rewrite Hq].
  rewrite pop_spec in Hpop by done. destruct (iter_result q m) as [it|] eqn:Hr; [|done].
  apply iter_result_ok in Hr as (idx & -> & Hi & _).
  rewrite avail_next_step in Hpop by done. case_decide; [done|].
  destruct (avail_entry _ _ _); [|done]. injection Hpop as <- <-.
  unfold go_to_previous_position, consumed. simpl. destruct Hwf.
  rewrite wsub_wadd by done. by destruct q.
Qed.
End AvailProperties.

(** ** Concrete runs *)

Module AvailExamples.
(** A queue of size 4 whose driver has offered the heads 2 and 0 at the
    sequence numbers 65535 and 0. *)
Definition store16s (m : FlatMem) (ws : list (Z * Z)) : FlatMem :=
  foldl (fun m w => fst (gm_store16 m (fst w) (snd w))) m ws.

Definition mem : FlatMem :=
  store16s (from_ranges [(0, 0x10000)]) [(0x2002, 1); (0x200a, 2); (0x2004, 0)].
Definition q4 : Queue :=
  mk_queue 16 65535 0 false 0 4 true 0x1000 0x2000 0x3000.

Lemma avail_q4_wf : queue_wf q4.
Proof. split; try (by vm_compute); split; try done; first [by exists 4 | by exists 2]. Qed.

Lemma avail_q4_offered : offered q4 mem [2; 0].
Proof.
  split; [done|done|by vm_compute|].
  intros [|[|k]] h Hk; simplify_eq/=; by vm_compute.
Qed.

(** The iterator for the index in memory. *)
Definition it : AvailIter := iter_for q4 1.
Lemma avail_q4_iter : iter (q4, mem) = Some ((q4, mem), Ok it).
Proof. by rewrite iter_spec; vm_compute. Qed.
End AvailExamples.
Import AvailExamples.

Lemma iter_yields_offered_witness :
  exists it, iter (q4, mem) = Some ((q4, mem), Ok it) /\
    drain 5 it (q4, mem) =
      Some ((consumed 2 q4, mem), Ok [chain_of q4 2; chain_of q4 0]).
Proof. exact (iter_yields_offered q4 mem [2; 0] avail_q4_wf avail_q4_offered). Defined.

Lemma iter_bounded_witness :
  exists heads, drain 5 it (q4, mem) =
      Some ((consumed (Z.of_nat (length heads)) q4, mem), Ok (chain_of q4 <$> heads)) /\
    Z.of_nat (length heads) <= 2 <= 4 /\ heads_at mem q4 heads.
Proof. exact (iter_bounded q4 mem it avail_q4_wf avail_q4_iter). Defined.

Lemma pop_all_is_iter_witness :
  pop_all 5 (q4, mem) = Some ((consumed 2 q4, mem), Ok [chain_of q4 2; chain_of q4 0]).
Proof.
  rewrite (pop_all_is_iter q4 mem 5 avail_q4_wf) by done. rewrite avail_q4_iter. by vm_compute.
Defined.

Lemma pop_undo_witness :
  pop_descriptor_chain (q4, mem) = Some ((consumed 1 q4, mem), Ok (Some (chain_of q4 2))) /\
  go_to_previous_position (consumed 1 q4) = q4.
Proof.
  assert (pop_descriptor_chain (q4, mem) =
    Some ((consumed 1 q4, mem), Ok (Some (chain_of q4 2)))) as Hp by (by vm_compute).
  split; [exact Hp|]. exact (proj1 (pop_undo q4 mem _ _ avail_q4_wf Hp)).
Defined.
