(* ===== verification/Notification.v ===== *)
(** * Notification suppression

    [needs_notification] of virtio-queue/src/queue.rs, the circular window it
    tests, and the proof harness of virtio-queue/src/queue/verification.rs. *)

From stdpp Require Import base numbers list option.
From S2P Require Import Prelude Bytes GuestMemory FlatMemory Descriptor Chain Queue.
From S2P Require Import QueueFacts AvailRing.

(** Addresses of the two event indices. *)
Definition used_event_addr (q : Queue) : Z :=
  q_avail_ring q + VIRTQ_AVAIL_RING_HEADER_SIZE + VIRTQ_AVAIL_ELEMENT_SIZE * q_size q.
Definition avail_event_addr (q : Queue) : Z :=
  q_used_ring q + VIRTQ_USED_RING_HEADER_SIZE + VIRTQ_USED_ELEMENT_SIZE * q_size q.

(** [i] is one of the last [n] sequence numbers before [cursor]. *)
Definition in_last (cursor n i : Z) : Prop :=
  exists k, 0 <= k < n /\ wsub 16 (wsub 16 cursor 1) k = i.

(** The circular comparison of the specification: [event] lies in
    [[old, new)]. *)
Definition need_event (event new old : u16) : bool :=
  wsub 16 (wsub 16 new event) 1 <? wsub 16 new old.

(** The proof harness [verify_spec_2_7_7_2] of virtio-queue/src/queue/verification.rs on one
    queue and memory: [false] is a failed assertion or a panic. *)
Definition verify_spec_2_7_7_2 {M} `{GuestMemory M} (q : Queue) (m : M) : bool :=
  let num_added_old := q_num_added q in
  match needs_notification (q, m) with
  | None => false
  | Some ((q, m), needs_notification) =>
      let assert_needed := match needs_notification with Ok b => b | Err _ => false end in
      if negb (q_event_idx_enabled q) then assert_needed
      else
        match used_event Relaxed (q, m) with
        | Some (_, Ok event) =>
            if (event =? wsub 16 (q_next_used q) 1) && (num_added_old >? 0)
            then assert_needed else true
        | _ => false
        end
  end.

Lemma wsub_wsub w a b c : 0 <= w -> wsub w (wsub w a b) c = wsub w a (b + c).
Proof. intros. unfold wsub, wrap. rewrite Zminus_mod_idemp_l. f_equal. lia. Qed.

Lemma wsub_wsub_r w a b : 0 <= w -> in_u w b -> wsub w a (wsub w a b) = b.
Proof.
  intros Hw Hb. unfold wsub, wrap. rewrite Zminus_mod_idemp_r.
  replace (a - (a - b)) with b by lia. by apply Z.mod_small.
Qed.

(** Going back from [a] by the distance to [e] and by anything else. *)
Lemma back_to w a e : 0 <= w -> in_u w e ->
  wsub w (wsub w a 1) (wsub w (wsub w a e) 1) = e.
Proof.
  intros Hw He. unfold wsub, wrap. rewrite Zminus_mod_idemp_l, Zminus_mod_idemp_r.
  replace (a - 1 - ((a - e) mod 2 ^ w - 1)) with (a - (a - e) mod 2 ^ w) by lia.
  rewrite Zminus_mod_idemp_r. replace (a - (a - e)) with e by lia. by apply Z.mod_small.
Qed.

Lemma distance_to w a k : 0 <= w -> in_u w k ->
  wsub w (wsub w a (wsub w (wsub w a 1) k)) 1 = k.
Proof.
  intros Hw Hk. unfold wsub, wrap. rewrite Zminus_mod_idemp_l.
  set (x := (a - 1) mod 2 ^ w - k).
  replace (a - x mod 2 ^ w - 1) with (a - 1 - x mod 2 ^ w) by lia.
  rewrite Zminus_mod_idemp_r. subst x.
  replace (a - 1 - ((a - 1) mod 2 ^ w - k)) with (a - 1 + k - (a - 1) mod 2 ^ w) by lia.
  rewrite Zminus_mod_idemp_r. replace (a - 1 + k - (a - 1)) with k by lia.
  by apply Z.mod_small.
Qed.

Lemma need_event_window cursor n event :
  in_u 16 n -> in_u 16 event ->
  need_event event cursor (wsub 16 cursor n) = true <-> in_last cursor n event.
Proof.
  intros Hn He. unfold need_event, in_last. rewrite wsub_wsub_r by done.
  rewrite Z.ltb_lt. split.
  - intros Hlt. exists (wsub 16 (wsub 16 cursor event) 1).
    pose proof (in_u_wsub 16 (wsub 16 cursor event) 1 ltac:(done)) as [? _].
    split; [lia|]. by apply back_to.
  - intros (k & Hk & <-). rewrite distance_to; unfold in_u in *; lia.
Qed.

Section Suppression.
Context {M : Type} `{GML : GuestMemoryLaws M}.
Implicit Types m : M.

(** [used_event] with an ordering [load] accepts. *)
Lemma used_event_spec q m o :
  load_order_ok o = true ->
  used_event o (q, m) =
    Some ((q, m), if decide (used_event_addr q < 2 ^ 64)
                  then map_err ErrGuestMemory (gm_load16 m (used_event_addr q))
                  else Err AddressOverflow).
Proof.
  intros Ho. unfold used_event. rm_unfold. unfold checked_add.
  replace (q_avail_ring q + (VIRTQ_AVAIL_RING_HEADER_SIZE + q_size q * VIRTQ_AVAIL_ELEMENT_SIZE))
    with (used_event_addr q) by (unfold used_event_addr; lia).
  case_decide.
  - rewrite (proj2 (Z.ltb_lt _ _)) by done. simpl. rewrite Ho. by case_match.
  - by rewrite (proj2 (Z.ltb_ge _ _)) by lia.
Qed.

(** [set_notification], as its one store. *)
Lemma set_notification_spec q m enable :
  set_notification enable (q, m) =
    match enable, q_event_idx_enabled q with
    | true, true =>
        if decide (avail_event_addr q < 2 ^ 64)
        then mem_store (q_next_avail q) (avail_event_addr q) Relaxed (q, m)
        else Some ((q, m), Err AddressOverflow)
    | true, false => mem_store 0 (q_used_ring q) Relaxed (q, m)
    | false, true => Some ((q, m), Ok tt)
    | false, false => mem_store 1 (q_used_ring q) Relaxed (q, m)
    end.
Proof.
  unfold set_notification. rm_unfold.
  destruct enable, (q_event_idx_enabled q) eqn:He; simpl; try done.
  - unfold set_avail_event. rm_unfold. unfold checked_add.
    replace (q_used_ring q + (VIRTQ_USED_RING_HEADER_SIZE + VIRTQ_USED_ELEMENT_SIZE * q_size q))
      with (avail_event_addr q) by (unfold avail_event_addr; lia).
    case_decide.
    + by rewrite (proj2 (Z.ltb_lt _ _)).
    + by rewrite (proj2 (Z.ltb_ge _ _)) by lia.
Qed.

Lemma mem_store_relaxed q m v a :
  mem_store v a Relaxed (q, m) =
    Some ((q, fst (gm_store16 m a v)), map_err ErrGuestMemory (snd (gm_store16 m a v))).
Proof. unfold mem_store. by destruct (gm_store16 m a v) as [m' [[]|e]]. Qed.

(** [needs_notification] on every branch. *)
Lemma needs_notification_spec q m :
  needs_notification (q, m) =
    if q_event_idx_enabled q then
      if decide (used_event_addr q < 2 ^ 64) then
        match gm_load16 m (used_event_addr q) with
        | Ok event =>
            Some ((with_num_added 0 q, m),
                  Ok (need_event event (q_next_used q) (wsub 16 (q_next_used q) (q_num_added q))))
        | Err e => Some ((q, m), Err (ErrGuestMemory e))
        end
      else Some ((q, m), Err AddressOverflow)
    else Some ((q, m), Ok true).
Proof.
  unfold needs_notification. rewrite rm_bind_unfold. simpl.
  destruct (q_event_idx_enabled q); [|done].
  rewrite rm_bind_unfold, used_event_spec by done. case_decide; [|done].
  by destruct (gm_load16 _ _).
Qed.
End Suppression.

(** ** Properties *)

Section NotificationProperties.
Context {M : Type} `{GML : GuestMemoryLaws M}.
Implicit Types m : M.

(** C7: with event indices negotiated, [needs_notification] answers true exactly when the
    driver's [used_event] is one of the entries added since the last answer, across the
    wrap-around of the 16-bit indices, and starts a new count; without them it always answers
    true. *)
Theorem needs_notification_window q m event :
  queue_wf q -> gm_load16 m (used_event_addr q) = Ok event ->
  exists q' b, needs_notification (q, m) = Some ((q', m), Ok b) /\
    if q_event_idx_enabled q
    then q' = with_num_added 0 q /\
         (b = true <-> in_last (q_next_used q) (q_num_added q) event)
    else q' = q /\ b = true.
Proof.
  intros Hwf Hl. rewrite needs_notification_spec.
  destruct (q_event_idx_enabled q); [|by eexists _, _].
  rewrite decide_True by (by apply load_addr in Hl as [_ ?]). rewrite Hl.
  eexists _, _. split; [done|]. split; [done|].
  apply law_load in Hl as [He _]. destruct Hwf. by apply need_event_window.
Qed.

(** The assertions of the proof harness for section 2.7.7.2 of the specification hold for queues
    of every size and state, not only those the harness bounds: without event indices the
    device always notifies, and with them it does when something was added and [used_event]
    names the entry written last. *)
Lemma spec_2_7_7_2_ok q m event :
  queue_wf q -> used_event_addr q < 2 ^ 64 -> gm_load16 m (used_event_addr q) = Ok event ->
  verify_spec_2_7_7_2 q m = true.
Proof.
  intros Hwf Ha Hl. unfold verify_spec_2_7_7_2. rewrite needs_notification_spec.
  destruct (q_event_idx_enabled q) eqn:He; [|by rewrite He].
  rewrite decide_True, Hl by done.
  cbn [q_event_idx_enabled with_num_added q_next_used]. rewrite He. cbn [negb].
  rewrite (used_event_spec (with_num_added 0 q)), decide_True by done.
  change (used_event_addr (with_num_added 0 q)) with (used_event_addr q). rewrite Hl.
  cbn [map_err q_next_used with_num_added].
  destruct (_ && _) eqn:Hc; [|done]. zbool. subst event.
  apply need_event_window; [by apply Hwf|by apply in_u_wsub|].
  exists 0. split; [lia|]. unfold wsub at 1. rewrite Z.sub_0_r.
  by apply wrap_small, in_u_wsub.
Qed.
End NotificationProperties.

(** ** Concrete runs *)

Module NotificationExamples.
(** Two elements were added across the wrap-around, at 65535 and 0; the driver
    waits for entry 65535. *)
Definition mem : FlatMem :=
  AvailExamples.store16s (from_ranges [(0, 0x10000)]) [(0x200c, 65535)].
Definition q4 : Queue := mk_queue 16 0 1 true 2 4 true 0x1000 0x2000 0x3000.

Lemma notif_q4_wf : queue_wf q4.
Proof. split; try (by vm_compute); split; try done; first [by exists 4 | by exists 2]. Qed.
End NotificationExamples.
Import NotificationExamples.

Lemma needs_notification_window_witness :
  exists q' b, needs_notification (q4, mem) = Some ((q', mem), Ok b) /\
    q' = with_num_added 0 q4 /\ (b = true <-> in_last 1 2 65535).
Proof. apply (needs_notification_window q4 mem 65535 notif_q4_wf). by vm_compute. Defined.
