(* ===== verification/Handshake.v ===== *)
(** * No lost wake-ups

    [enable_notification] arms a cell of the used ring and then loads the
    driver's index; the driver stores its index and then loads the cell.  The
    two sides run at the same time on the same memory.  The device is the code:
    the methods of Queue run unchanged, on a guest memory [SharedMem] in which the
    driver acts around each of their stores, following an arbitrary schedule.
    The driver is the environment, which follows the specification of virtio
    (2.7.10): with event indices it notifies when [avail_event] lies in the
    window of the entries it has just published, without them when the flags
    of the used ring do not say otherwise.  Loads that no store separates see
    one state of memory. *)

From stdpp Require Import base numbers list option.
From S2P Require Import Prelude Bytes GuestMemory FlatMemory Descriptor Chain Queue.
From S2P Require Import QueueFacts UsedRing AvailRing Notification.

(** ** The driver *)

(** Where the driver is: idle, or between publishing the index [new] over
    [old] and deciding whether to notify. *)
Inductive drv_pc : Type := DrvIdle | DrvPublished (old new : u16).

(** What the driver does between two accesses of the device: publish [n] new
    entries, decide whether to notify the device of them, or write elsewhere
    in memory (descriptors, ring entries, buffers). *)
Inductive action : Type :=
| Publish (n : u16)
| Decide
| Write (a : Z) (bs : list Z).

Definition avail_idx_addr (q : Queue) : Z := q_avail_ring q + 2.

(** The cell the device arms: [avail_event], or the flags of the used ring
    when event indices are not negotiated; and the value it stores there. *)
Definition notify_cell (q : Queue) : Z :=
  if q_event_idx_enabled q then avail_event_addr q else q_used_ring q.
Definition armed_value (q : Queue) : u16 :=
  if q_event_idx_enabled q then q_next_avail q else 0.

(** What the two sides have agreed on: the two cells and the mode. *)
Record agreement : Type := mk_agreement {
  ag_avail_idx : Z;
  ag_cell : Z;
  ag_event_idx : bool;
  ag_size : u16;
}.

Definition agreement_of (q : Queue) : agreement :=
  mk_agreement (avail_idx_addr q) (notify_cell q) (q_event_idx_enabled q) (q_size q).

(** Guest memory shared with a driver.  [sh_sched] says what the driver does
    around the coming stores of the device, one batch of actions before and
    one after each; [sh_kick] is a notification on its way to the device. *)
Record SharedMem (M : Type) : Type := mk_shared {
  sh_mem : M;
  sh_drv : drv_pc;
  sh_kick : bool;
  sh_ag : agreement;
  sh_sched : list (list action);
}.
Arguments mk_shared {M}.
Arguments sh_mem {M}.
Arguments sh_drv {M}.
Arguments sh_kick {M}.
Arguments sh_ag {M}.
Arguments sh_sched {M}.

Definition with_mem {M} (m : M) (s : SharedMem M) : SharedMem M :=
  mk_shared m (sh_drv s) (sh_kick s) (sh_ag s) (sh_sched s).
Definition with_sched {M} (l : list (list action)) (s : SharedMem M) : SharedMem M :=
  mk_shared (sh_mem s) (sh_drv s) (sh_kick s) (sh_ag s) l.
Definition with_kick {M} (k : bool) (s : SharedMem M) : SharedMem M :=
  mk_shared (sh_mem s) (sh_drv s) k (sh_ag s) (sh_sched s).

(** Whether a driver that replaced [old] by [new] notifies, given the content
    [x] of the cell. *)
Definition driver_notifies (event_idx : bool) (x old new : u16) : bool :=
  if event_idx then need_event x new old else Z.land x VRING_USED_F_NO_NOTIFY =? 0.

Section Driver.
Context {M : Type} `{GuestMemory M}.
Implicit Types s : SharedMem M.

Definition run_action (a : action) s : SharedMem M :=
  match a, sh_drv s with
  | Publish n, DrvIdle =>
      match gm_load16 (sh_mem s) (ag_avail_idx (sh_ag s)) with
      | Ok old =>
          match gm_store16 (sh_mem s) (ag_avail_idx (sh_ag s)) (wadd 16 old n) with
          | (m, Ok _) =>
              mk_shared m (DrvPublished old (wadd 16 old n)) (sh_kick s) (sh_ag s) (sh_sched s)
          | (_, Err _) => s
          end
      | Err _ => s
      end
  | Decide, DrvPublished old new =>
      match gm_load16 (sh_mem s) (ag_cell (sh_ag s)) with
      | Ok x =>
          mk_shared (sh_mem s) DrvIdle
            (sh_kick s || driver_notifies (ag_event_idx (sh_ag s)) x old new)
            (sh_ag s) (sh_sched s)
      | Err _ => s
      end
  | Write a bs, _ => with_mem (fst (gm_write (sh_mem s) a bs)) s
  | _, _ => s
  end.

Definition run_actions (l : list action) s : SharedMem M :=
  fold_left (fun s a => run_action a s) l s.

(** The driver's turn: the next batch of the schedule. *)
Definition interfere s : SharedMem M :=
  match sh_sched s with
  | [] => s
  | l :: rest => run_actions l (with_sched rest s)
  end.

(** The device's view of shared memory: the driver acts before and after each
    of its stores, hence also between a store and a load that follows it or
    precedes it. *)
Global Instance shared_GuestMemory : GuestMemory (SharedMem M) := {
  gm_read s := gm_read (sh_mem s);
  gm_write s a bs :=
    let s := interfere s in
    let '(m, r) := gm_write (sh_mem s) a bs in (interfere (with_mem m s), r);
  gm_load16 s := gm_load16 (sh_mem s);
  gm_store16 s a v :=
    let s := interfere s in
    let '(m, r) := gm_store16 (sh_mem s) a v in (interfere (with_mem m s), r);
  gm_in_range s := gm_in_range (sh_mem s);
  gm_find_region s := gm_find_region (sh_mem s);
  gm_get_slice s := gm_get_slice (sh_mem s);
  gm_offset s := gm_offset (sh_mem s);
  gm_subslice s := gm_subslice (sh_mem s);
}.

(** The driver publishes between one entry and a full queue, and its other
    writes stay away from the two cells. *)
Definition action_ok (ag : agreement) (a : action) : Prop :=
  match a with
  | Publish n => 0 < n <= ag_size ag
  | Decide => True
  | Write a bs => bytes_ok bs /\
      (ag_avail_idx ag + 2 <= a \/ a + Z.of_nat (length bs) <= ag_avail_idx ag) /\
      (ag_cell ag + 2 <= a \/ a + Z.of_nat (length bs) <= ag_cell ag)
  end.

Definition sched_ok (ag : agreement) (l : list (list action)) : Prop :=
  Forall (Forall (action_ok ag)) l.
End Driver.

(** ** The system *)

Record system (M : Type) : Type := mk_system {
  s_queue : Queue;
  s_shared : SharedMem M;
  s_asleep : bool;
}.
Arguments mk_system {M}.
Arguments s_queue {M}.
Arguments s_shared {M}.
Arguments s_asleep {M}.

(** The device's methods, as it calls them while awake.  It goes to sleep when
    [enable_notification] answers that nothing is pending. *)
Inductive dev_call : Type :=
| CallPop
| CallAddUsed (head_index : u16) (len : u32)
| CallDisable
| CallNeeds
| CallEnable.

Section System.
Context {M : Type} `{GuestMemory M}.

(** One call: the state it leaves and whether the device then sleeps. *)
Definition run_call (c : dev_call) (st : Queue * SharedMem M)
    : option ((Queue * SharedMem M) * bool) :=
  match c with
  | CallPop => '(st, _) ← pop_descriptor_chain st; Some (st, false)
  | CallAddUsed h l => '(st, _) ← add_used h l st; Some (st, false)
  | CallDisable => '(st, _) ← disable_notification st; Some (st, false)
  | CallNeeds => '(st, _) ← needs_notification st; Some (st, false)
  | CallEnable =>
      '(st, r) ← enable_notification st;
      Some (st, match r with Ok pending => negb pending | Err _ => false end)
  end.

(** The driver acts at any time; an awake device makes a call, during which
    the driver acts as scheduled; a notification wakes the device. *)
Inductive step : system M -> system M -> Prop :=
| step_driver q s z a :
    action_ok (agreement_of q) a ->
    step (mk_system q s z) (mk_system q (run_action a s) z)
| step_device q s c l q' s' z :
    sched_ok (agreement_of q) l ->
    run_call c (q, with_sched l s) = Some ((q', s'), z) ->
    step (mk_system q s false) (mk_system q' s' z)
| step_wake q s :
    sh_kick s = true ->
    step (mk_system q s true) (mk_system q (with_kick false s) false).

Inductive reachable (s0 : system M) : system M -> Prop :=
| reach_refl : reachable s0 s0
| reach_step s s' : reachable s0 s -> step s s' -> reachable s0 s'.

(** The two cells are accessible and do not overlap, and the driver knows
    where they are. *)
Record handshake_layout (q : Queue) (s : SharedMem M) : Prop := {
  hl_wf : queue_wf q;
  hl_ag : sh_ag s = agreement_of q;
  hl_avail_idx : acc16 (sh_mem s) (avail_idx_addr q);
  hl_cell : acc16 (sh_mem s) (notify_cell q);
  hl_disjoint : avail_idx_addr q + 2 <= notify_cell q \/
                notify_cell q + 2 <= avail_idx_addr q;
}.

(** While the device sleeps the cell is armed, and either nothing is pending
    or a notification has been sent or will be. *)
Definition asleep_ok (q : Queue) (s : SharedMem M) : Prop :=
  gm_load16 (sh_mem s) (notify_cell q) = Ok (armed_value q) /\
  (sh_kick s = true \/
   gm_load16 (sh_mem s) (avail_idx_addr q) = Ok (q_next_avail q) \/
   exists old new, sh_drv s = DrvPublished old new /\
     driver_notifies (q_event_idx_enabled q) (armed_value q) old new = true).

Definition handshake_inv (s : system M) : Prop :=
  handshake_layout (s_queue s) (s_shared s) /\
  (s_asleep s = true -> asleep_ok (s_queue s) (s_shared s)).
End System.

Section Handshake.
Context {M : Type} `{GML : GuestMemoryLaws M}.
Implicit Types m : M.

(** The two halves of [enable_notification]. *)
Lemma enable_notification_halves {N} `{GuestMemory N} q (m : N) :
  enable_notification (q, m) =
    match set_notification true (q, m) with
    | Some ((q1, m1), Ok _) =>
        match avail_idx Relaxed (q1, m1) with
        | Some ((q2, m2), Ok idx) => Some ((q2, m2), Ok (negb (idx =? q_next_avail q2)))
        | Some ((q2, m2), Err e) => Some ((q2, m2), Err e)
        | None => None
        end
    | Some ((q1, m1), Err e) => Some ((q1, m1), Err e)
    | None => None
    end.
Proof.
  unfold enable_notification. rewrite rm_bind_unfold.
  destruct (set_notification true (q, m)) as [[[q1 m1] [[]|e]]|]; [|done..].
  rewrite rm_bind_unfold. by destruct (avail_idx Relaxed (q1, m1)) as [[[q2 m2] [idx|e]]|].
Qed.

(** The driver's window: just published entries start at the old index. *)
Lemma need_event_old old n : 0 < n < 2 ^ 16 -> need_event old (wadd 16 old n) old = true.
Proof.
  intros Hn. unfold need_event. apply Z.ltb_lt.
  assert (wsub 16 (wadd 16 old n) old = n) as Hd.
  { unfold wsub, wadd, wrap. rewrite Zminus_mod_idemp_l, Z.add_simpl_l. by apply Z.mod_small; lia. }
  rewrite Hd. unfold wsub. rewrite wrap_small; [lia|]. unfold in_u. lia.
Qed.

(** *** What driver and device leave alone *)

(** [s'] comes from [s] by stores of either side. *)
Definition evolves (s s' : SharedMem M) : Prop :=
  sh_ag s' = sh_ag s /\ same_layout (sh_mem s) (sh_mem s').

Lemma evolves_refl s : evolves s s.
Proof. split; [done|apply same_layout_refl]. Qed.

Lemma evolves_trans s1 s2 s3 : evolves s1 s2 -> evolves s2 s3 -> evolves s1 s3.
Proof. intros [A1 L1] [A2 L2]. split; [congruence|by eapply same_layout_trans]. Qed.

Lemma layout_evolves q s s' : evolves s s' -> handshake_layout q s -> handshake_layout q s'.
Proof. intros [Ha Hl] []. split; [done|congruence| | |done]; by eapply same_layout_acc16. Qed.

Lemma run_action_evolves a s : action_ok (sh_ag s) a -> evolves s (run_action a s).
Proof.
  intros Hok. destruct a as [n| |b bs]; simpl; destruct (sh_drv s) as [|old new];
    try apply evolves_refl.
  - destruct (gm_load16 _ _) as [old|]; [|apply evolves_refl].
    destruct (gm_store16 _ _ _) as [m [[]|e]] eqn:Hst; [|apply evolves_refl].
    split; [done|]. eapply store_layout; [by apply in_u_wadd|done].
  - destruct (gm_load16 _ _) as [x|]; [|apply evolves_refl].
    split; [done|apply same_layout_refl].
  - split; [done|]. apply law_write_layout. by destruct Hok.
  - split; [done|]. apply law_write_layout. by destruct Hok.
Qed.

(** A predicate that every action of the driver keeps is kept by its turns. *)
Lemma run_actions_ind (P : SharedMem M -> Prop) ag l s :
  (forall a s, sh_ag s = ag -> action_ok ag a -> P s -> P (run_action a s)) ->
  sh_ag s = ag -> Forall (action_ok ag) l -> P s ->
  P (run_actions l s) /\ sh_ag (run_actions l s) = ag /\ sh_sched (run_actions l s) = sh_sched s.
Proof.
  intros HP Hag Hl. revert s Hag. induction Hl as [|a l Ha Hl IH]; intros s Hag Hs; [done|].
  destruct (IH (run_action a s)) as (? & ? & Hd).
  - rewrite <- Hag in Ha. by rewrite (proj1 (run_action_evolves a s Ha)).
  - by apply HP.
  - split_and!; [done|done|]. etrans; [exact Hd|].
    unfold run_action. by repeat case_match.
Qed.

Lemma interfere_ind (P : SharedMem M -> Prop) s :
  (forall a s', sh_ag s' = sh_ag s -> action_ok (sh_ag s) a -> P s' -> P (run_action a s')) ->
  (forall l s', P s' -> P (with_sched l s')) ->
  sched_ok (sh_ag s) (sh_sched s) -> P s ->
  P (interfere s) /\ sh_ag (interfere s) = sh_ag s /\
  sched_ok (sh_ag s) (sh_sched (interfere s)).
Proof.
  intros HP Hw Hok Hs. unfold interfere. destruct (sh_sched s) as [|l rest] eqn:Hsc.
  { rewrite Hsc. by split_and!. }
  apply Forall_cons_1 in Hok as [Hl Hrest].
  destruct (run_actions_ind P (sh_ag s) l (with_sched rest s)) as (? & ? & ->); auto.
Qed.

Lemma interfere_evolves s :
  sched_ok (sh_ag s) (sh_sched s) ->
  evolves s (interfere s) /\ sched_ok (sh_ag s) (sh_sched (interfere s)).
Proof.
  intros Hok. destruct (interfere_ind (evolves s) s) as (? & _ & ?); try done.
  - intros a s' Hag Ha He. eapply evolves_trans; [done|]. apply run_action_evolves.
    by rewrite Hag.
Qed.

(** A store of the device, with the driver's turns around it. *)
Lemma turn_evolves s m :
  sched_ok (sh_ag s) (sh_sched s) -> same_layout (sh_mem (interfere s)) m ->
  evolves s (interfere (with_mem m (interfere s))) /\
  sched_ok (sh_ag s) (sh_sched (interfere (with_mem m (interfere s)))).
Proof.
  intros Hok Hm. destruct (interfere_evolves s Hok) as [[Ha Hl] Hok1].
  destruct (interfere_evolves (with_mem m (interfere s))) as [He2 Hok2].
  { simpl. by rewrite Ha. }
  simpl in Hok2. rewrite Ha in Hok2. split; [|done].
  eapply evolves_trans; [|exact He2]. split; [done|]. by eapply same_layout_trans.
Qed.

Lemma shared_store_evolves s a v s' r :
  in_u 16 v -> sched_ok (sh_ag s) (sh_sched s) -> gm_store16 s a v = (s', r) ->
  evolves s s' /\ sched_ok (sh_ag s) (sh_sched s').
Proof.
  intros Hv Hok. simpl. destruct (gm_store16 (sh_mem _) a v) as [m r1] eqn:Hst.
  intros [= <- <-]. apply turn_evolves; [done|]. by eapply store_layout.
Qed.

Lemma shared_write_evolves s a bs s' r :
  bytes_ok bs -> sched_ok (sh_ag s) (sh_sched s) -> gm_write s a bs = (s', r) ->
  evolves s s' /\ sched_ok (sh_ag s) (sh_sched s').
Proof.
  intros Hv Hok. simpl. destruct (gm_write (sh_mem _) a bs) as [m r1] eqn:Hst.
  intros [= <- <-]. apply turn_evolves; [done|].
  pose proof (law_write_layout (sh_mem (interfere s)) a bs Hv) as Hl. by rewrite Hst in Hl.
Qed.

(** A write elsewhere, failed or not, does not disturb a load. *)
Lemma load_write_other m a bs c x :
  bytes_ok bs -> c + 2 <= a \/ a + Z.of_nat (length bs) <= c ->
  gm_load16 m c = Ok x -> gm_load16 (fst (gm_write m a bs)) c = Ok x.
Proof.
  intros Hb Hc. apply load_ext; [by apply law_write_layout|]. intros y Hy.
  destruct (gm_write m a bs) as [m' [[]|e]] eqn:Hw; simpl.
  - apply law_write in Hw; [|done]. eapply overwritten_peek_other; [done|lia].
  - eapply law_write_fail; [done|done|lia].
Qed.

(** *** The driver's actions *)

Lemma action_cell q s a x :
  handshake_layout q s -> action_ok (agreement_of q) a ->
  gm_load16 (sh_mem s) (notify_cell q) = Ok x ->
  gm_load16 (sh_mem (run_action a s)) (notify_cell q) = Ok x.
Proof.
  intros [Hwf Hag Hi Hc Hd] Hok Hx. destruct a as [n| |b bs]; simpl;
    destruct (sh_drv s) as [|old new]; try done; rewrite ?Hag;
    cbn [ag_avail_idx ag_cell agreement_of].
  - destruct (gm_load16 (sh_mem s) (avail_idx_addr q)) as [old|]; [|done].
    destruct (gm_store16 _ _ _) as [m [[]|e]] eqn:Hst; [|done]. simpl.
    assert (in_u 16 (wadd 16 old n)) as Hnew by (by apply in_u_wadd).
    eapply load_other; [by eapply law_store|by eapply store_layout| |done].
    rewrite length_le_bytes. lia.
  - by rewrite Hx.
  - apply load_write_other; [apply Hok|apply Hok|done].
  - apply load_write_other; [apply Hok|apply Hok|done].
Qed.

(** Publishing while the device sleeps with nothing pending leads the driver
    to a notification. *)
Lemma published_notifies q n :
  queue_wf q -> 0 < n <= q_size q ->
  driver_notifies (q_event_idx_enabled q) (armed_value q) (q_next_avail q)
    (wadd 16 (q_next_avail q) n) = true.
Proof.
  intros Hwf Hn. pose proof (queue_wf_size q Hwf) as [_ Hm]. unfold MAX_QUEUE_SIZE in Hm.
  unfold driver_notifies, armed_value. destruct (q_event_idx_enabled q); [|done].
  apply need_event_old. change (2 ^ 16) with 65536. lia.
Qed.

Lemma action_asleep q s a :
  handshake_layout q s -> action_ok (agreement_of q) a ->
  asleep_ok q s -> asleep_ok q (run_action a s).
Proof.
  intros Hl Hok [Hc Hp]. split; [by apply action_cell|].
  destruct Hl as [Hwf Hag Hi _ Hd]. destruct a as [n| |b bs]; simpl;
    destruct (sh_drv s) as [|old new] eqn:Hdrv; try (by rewrite Hdrv);
    rewrite ?Hag; cbn [ag_avail_idx ag_cell ag_event_idx agreement_of].
  - destruct (gm_load16 (sh_mem s) (avail_idx_addr q)) as [old|] eqn:Hold;
      [|by rewrite Hdrv, Hold].
    destruct (gm_store16 _ _ _) as [m [[]|e]] eqn:Hst; [|by rewrite Hdrv, Hold].
    simpl. destruct Hp as [?|[[= ->]|(? & ? & ? & _)]]; [by left| |done].
    right; right. eexists _, _. split; [done|]. by apply published_notifies.
  - rewrite Hc. simpl. destruct Hp as [->|[?|(? & ? & [= <- <-] & ->)]]; auto.
    left. apply orb_true_r.
  - destruct Hp as [?|[?|?]]; auto. right; left.
    apply load_write_other; [apply Hok|apply Hok|done].
  - destruct Hp as [?|[?|?]]; auto. right; left.
    apply load_write_other; [apply Hok|apply Hok|done].
Qed.

(** *** The device's calls *)

(** The configuration of the queue is not touched by the calls. *)
Lemma pop_config q s q' s' r :
  queue_wf q -> pop_descriptor_chain (M := SharedMem M) (q, s) = Some ((q', s'), r) ->
  (q' = q \/ q' = consumed 1 q) /\ s' = s.
Proof.
  intros Hwf Hp. rewrite pop_spec in Hp by done. unfold avail_next in Hp.
  repeat (case_match; simplify_eq/=; try (by split; [left|]); try (by split; [right|])).
Qed.

Lemma needs_config q s q' s' r :
  needs_notification (M := SharedMem M) (q, s) = Some ((q', s'), r) ->
  (q' = q \/ q' = with_num_added 0 q) /\ s' = s.
Proof.
  rewrite needs_notification_spec. intros Hn.
  repeat (case_match; simplify_eq/=; try (by split; [left|]); try (by split; [right|])).
Qed.

Lemma add_used_config q s q' s' h l r :
  queue_wf q -> sched_ok (sh_ag s) (sh_sched s) ->
  add_used (M := SharedMem M) h l (q, s) = Some ((q', s'), r) ->
  (q' = q \/ q' = bumped q) /\ evolves s s'.
Proof.
  intros Hwf Hok Ha. unfold add_used in Ha. rm_unfold. cbv [mem_write_obj mem_store] in Ha.
  simpl fst in Ha. destruct (h >=? q_size q); [simplify_eq; by split; [left|apply evolves_refl]|].
  destruct (checked_rem _ _) as [i|]; [|done]. cbn [unwrap] in Ha. cbn -[gm_store16 write_obj] in Ha.
  destruct (checked_add _ _ _) as [b|]; cbn -[gm_store16 write_obj] in Ha;
    [|simplify_eq; by split; [left|apply evolves_refl]].
  destruct (write_obj s _ b) as [s1 [[]|e]] eqn:Hw; unfold write_obj in Hw;
    apply shared_write_evolves in Hw as [He Hok1]; try done; try apply bv_encode_bytes;
    cbn -[gm_store16 write_obj] in Ha; [|simplify_eq; by split; [left|]].
  destruct (checked_add _ _ 2) as [b2|]; cbn -[gm_store16 write_obj] in Ha;
    [|simplify_eq; by split; [right|]].
  destruct (gm_store16 s1 b2 _) as [s2 r2] eqn:Hst.
  apply shared_store_evolves in Hst as [He2 _];
    [|by apply in_u_wadd|by rewrite (proj1 He)].
  destruct r2; simplify_eq; split; try (by right); by eapply evolves_trans.
Qed.

Lemma set_notification_config b q s q' s' r :
  queue_wf q -> sched_ok (sh_ag s) (sh_sched s) ->
  set_notification (M := SharedMem M) b (q, s) = Some ((q', s'), r) ->
  q' = q /\ evolves s s'.
Proof.
  intros Hwf Hok Hs. rewrite set_notification_spec in Hs. rewrite !mem_store_relaxed in Hs.
  assert (forall a v, in_u 16 v -> evolves s (fst (gm_store16 s a v))) as Hst.
  { intros a v Hv. destruct (gm_store16 s a v) as [s1 r1] eqn:Hst.
    by apply shared_store_evolves in Hst as [? _]. }
  pose proof (qw_next_avail q Hwf).
  repeat (case_match; simplify_eq); split; try done; try apply evolves_refl; by apply Hst.
Qed.

(** A successful store of the device to the cell survives the driver's turn. *)
Lemma arm_stores q s q' s' :
  handshake_layout q s -> sched_ok (sh_ag s) (sh_sched s) ->
  set_notification (M := SharedMem M) true (q, s) = Some ((q', s'), Ok tt) ->
  gm_load16 (sh_mem s') (notify_cell q) = Ok (armed_value q).
Proof.
  intros Hl Hok Hs. rewrite set_notification_spec in Hs. rewrite !mem_store_relaxed in Hs.
  assert (in_u 16 (armed_value q)) as Hv.
  { unfold armed_value. case_match; [by apply Hl|done]. }
  assert (gm_store16 s (notify_cell q) (armed_value q) = (s', Ok tt)) as Hst.
  { unfold notify_cell, armed_value. rewrite (surjective_pairing (gm_store16 _ _ _)).
    destruct (q_event_idx_enabled q); [case_decide; [|done]|];
      (destruct (snd _) as [[]|] eqn:Hr; [|done]); by injection Hs as <- <-. }
  clear Hs. simpl in Hst.
  destruct (interfere_evolves s Hok) as [He1 Hok1].
  destruct (gm_store16 (sh_mem (interfere s)) _ _) as [m r] eqn:Hm. injection Hst as <- ->.
  set (s1 := with_mem m (interfere s)).
  assert (evolves s s1) as He.
  { eapply evolves_trans; [exact He1|]. split; [done|]. by eapply store_layout. }
  apply (interfere_ind (fun s => handshake_layout q s /\
    gm_load16 (sh_mem s) (notify_cell q) = Ok (armed_value q)) s1).
  - intros a t Hag Ha [Hlt Hct].
    assert (action_ok (agreement_of q) a) as Ha'.
    { rewrite <- (hl_ag _ _ Hl), <- (proj1 He). done. }
    split; [|by apply action_cell]. eapply layout_evolves; [|done].
    apply run_action_evolves. by rewrite (hl_ag _ _ Hlt).
  - intros l t [Hlt Hct]. split; [|done]. eapply layout_evolves; [|done].
    split; [done|apply same_layout_refl].
  - subst s1. simpl. by rewrite (proj1 He1).
  - split; [by eapply layout_evolves|]. by eapply load_after_store.
Qed.

(** [enable_notification] puts the device to sleep only with the cell armed
    and nothing pending. *)
Lemma enable_sleeps q s q' s' r :
  handshake_layout q s -> sched_ok (sh_ag s) (sh_sched s) ->
  enable_notification (M := SharedMem M) (q, s) = Some ((q', s'), r) ->
  q' = q /\ evolves s s' /\ (r = Ok false -> asleep_ok q s').
Proof.
  intros Hl Hok Hn. rewrite enable_notification_halves in Hn.
  destruct (set_notification true (q, s)) as [[[q1 s1] r1]|] eqn:Hset; [|done].
  pose proof (set_notification_config _ _ _ _ _ _ (hl_wf _ _ Hl) Hok Hset) as [-> He].
  destruct r1 as [[]|e]; [|by simplify_eq].
  pose proof (arm_stores _ _ _ _ Hl Hok Hset) as Hc.
  rewrite avail_idx_spec in Hn by done. case_decide; [|by simplify_eq].
  destruct (gm_load16 s1 _) as [idx|e] eqn:Hidx; simpl in Hn; [|by simplify_eq].
  injection Hn as <- <- <-. split_and!; [done|done|]. intros Hb.
  injection Hb as Hb. zbool. subst idx. split; [done|]. by right; left.
Qed.

Lemma call_keeps_inv c q s q' s' z :
  handshake_layout q s -> sched_ok (sh_ag s) (sh_sched s) ->
  run_call c (q, s) = Some ((q', s'), z) -> handshake_inv (mk_system q' s' z).
Proof.
  intros Hl Hok Hr. pose proof (hl_wf _ _ Hl) as Hwf.
  assert (forall p t, queue_wf p -> agreement_of p = agreement_of q -> evolves s t ->
    handshake_layout p t) as Hkeep.
  { intros p t Hp Hag He. apply (layout_evolves q) in He; [|done]. destruct He.
    pose proof Hag as [= Hag1 Hag2 Hag3 Hag4].
    split; [done|congruence|by rewrite Hag1|by rewrite Hag2|by rewrite Hag1, Hag2]. }
  destruct c as [|h l| | |]; simpl in Hr; apply bind_Some in Hr as ([[q1 s1] r] & Hc & Hr);
    injection Hr as <- <- <-; (split; [|try done]); simpl.
  - destruct (pop_config _ _ _ _ _ Hwf Hc) as [[->| ->] ->]; [auto using evolves_refl|].
    apply Hkeep; [by apply consumed_wf|done|apply evolves_refl].
  - destruct (add_used_config _ _ _ _ _ _ _ Hwf Hok Hc) as [[->| ->] He]; [auto|].
    apply Hkeep; [by apply bumped_wf|done|done].
  - destruct (set_notification_config false _ _ _ _ _ Hwf Hok Hc) as [-> He]. auto.
  - destruct (needs_config _ _ _ _ _ Hc) as [[->| ->] ->]; [auto using evolves_refl|].
    apply Hkeep; [by apply with_num_added_wf|done|apply evolves_refl].
  - apply enable_sleeps in Hc as (-> & He & _); auto.
  - apply enable_sleeps in Hc as (-> & He & Hs); [|done..]. intros Hz. apply Hs.
    destruct r as [[]|]; done.
Qed.

Lemma handshake_step s s' : step s s' -> handshake_inv s -> handshake_inv s'.
Proof.
  intros Hs [Hl Ha]. destruct Hs as [q s z a Hok|q s c l q' s' z Hok Hr|q s Hk]; simpl in *.
  - split; simpl; [|intros Hz; by apply action_asleep; auto].
    eapply layout_evolves; [|done]. apply run_action_evolves. by rewrite (hl_ag _ _ Hl).
  - eapply call_keeps_inv; [| |exact Hr].
    + eapply layout_evolves; [|exact Hl]. split; [done|apply same_layout_refl].
    + simpl. by rewrite (hl_ag _ _ Hl).
  - split; simpl; [|done]. eapply layout_evolves; [|done]. split; [done|apply same_layout_refl].
Qed.

Lemma handshake_reachable s0 s : reachable s0 s -> handshake_inv s0 -> handshake_inv s.
Proof. induction 1; eauto using handshake_step. Qed.
End Handshake.

(** ** Properties *)

(** C4: no interleaving of the device's methods with the driver loses a wake-up, with event
    indices and without.  The device runs [enable_notification] and the other methods while the
    driver acts around each of their stores as it likes: it publishes entries, decides whether to
    notify the device, and writes elsewhere.  The device sleeps when [enable_notification] answers
    that nothing is pending.  Whenever it sleeps, no notification is on its way and the driver is
    done deciding, the driver's index is the device's cursor, that is, nothing is pending. *)
Theorem no_lost_wakeup {M} `{GML : GuestMemoryLaws M} q (sh : SharedMem M) s :
  handshake_layout q sh -> reachable (mk_system q sh false) s ->
  s_asleep s = true -> sh_drv (s_shared s) = DrvIdle -> sh_kick (s_shared s) = false ->
  gm_load16 (sh_mem (s_shared s)) (avail_idx_addr (s_queue s)) = Ok (q_next_avail (s_queue s)).
Proof.
  intros Hl Hr Hz Hv Hk. destruct (handshake_reachable _ _ Hr) as [_ Ha]; [by split|].
  destruct (Ha Hz) as [_ [?|[?|(? & ? & ? & _)]]]; congruence.
Qed.

(** [enable_notification] on an accessible queue arms the notification (it publishes the
    cursor as [avail_event], or clears the flags when no event index is negotiated) before it
    loads the driver's index, and answers whether entries are pending. *)
Theorem enable_notification_answers {M} `{GML : GuestMemoryLaws M} q (m : M) idx :
  let cell := if q_event_idx_enabled q then avail_event_addr q else q_used_ring q in
  queue_wf q -> acc16 m cell -> gm_load16 m (avail_idx_addr q) = Ok idx ->
  avail_idx_addr q + 2 <= cell \/ cell + 2 <= avail_idx_addr q ->
  exists m', enable_notification (q, m) = Some ((q, m'), Ok (bool_decide (pending q idx <> 0))) /\
    gm_load16 m' cell = Ok (if q_event_idx_enabled q then q_next_avail q else 0) /\
    overwritten m m' cell (le_bytes 2 (if q_event_idx_enabled q then q_next_avail q else 0)).
Proof.
  intros cell Hwf Hacc Hidx Hd.
  set (v := if q_event_idx_enabled q then q_next_avail q else 0).
  assert (in_u 16 v) as Hv by (subst v; case_match; [by apply Hwf|done]).
  pose proof (proj2 (law_store_success m cell v Hv) Hacc) as Hok.
  destruct (gm_store16 m cell v) as [m' r] eqn:Hst. simpl in Hok. subst r.
  pose proof (law_store _ _ _ _ Hv Hst) as Ho. pose proof (store_layout _ _ _ _ _ Hv Hst) as Hl.
  assert (gm_load16 m' (avail_idx_addr q) = Ok idx) as Hidx'.
  { eapply load_other; [done|done| |done]. rewrite length_le_bytes. lia. }
  exists m'. split; [|split; [by eapply load_after_store|done]].
  assert (set_notification true (q, m) = Some ((q, m'), Ok tt)) as Hset.
  { rewrite set_notification_spec. destruct Hacc as [x Hx]. apply load_addr in Hx as [_ Hx].
    subst cell v. destruct (q_event_idx_enabled q); [rewrite decide_True by done|];
      by rewrite mem_store_relaxed, Hst. }
  rewrite enable_notification_halves, Hset, avail_idx_spec by done.
  pose proof (load_addr _ _ _ Hidx) as [_ ?]. unfold avail_idx_addr in *.
  rewrite decide_True by done. rewrite Hidx'. simpl. do 2 f_equal. f_equal.
  apply law_load in Hidx as [Hi _]. pose proof (pending_0 q idx Hwf Hi) as H0.
  destruct (idx =? q_next_avail q) eqn:Heq; zbool; simpl; symmetry;
    [apply bool_decide_eq_false|apply bool_decide_eq_true]; rewrite H0; naive_solver.
Qed.

(** ** Concrete runs *)

Import NotificationExamples.

Definition sh4 : SharedMem FlatMem := mk_shared mem DrvIdle false (agreement_of q4) [].

Lemma q4_handshake : handshake_layout q4 sh4.
Proof. split; [apply notif_q4_wf|done|by exists 0|by exists 0|left; by vm_compute]. Qed.

(** The driver publishes an entry after the device has armed [avail_event]
    and before it loads the index: the device does not go to sleep.  The
    driver notifies it, it consumes the entry and sleeps, the notification
    wakes it, and it sleeps again. *)
Lemma no_lost_wakeup_witness :
  exists s1 s, reachable (mk_system q4 sh4 false) (mk_system q4 s1 false) /\
    sh_drv s1 = DrvPublished 0 1 /\ reachable (mk_system q4 s1 false) s /\
    s_asleep s = true /\
    gm_load16 (sh_mem (s_shared s)) (avail_idx_addr (s_queue s)) = Ok (q_next_avail (s_queue s)).
Proof.
  set (enabled q s := match run_call CallEnable (q, s) with
                      | Some ((_, s), _) => s | None => sh4 end).
  set (s1 := enabled q4 (with_sched [[]; [Publish 1]] sh4)).
  set (s2 := run_action Decide s1). set (p := consumed 1 q4).
  set (s3 := enabled p (with_sched [] (with_sched [] s2))).
  set (s4 := enabled p (with_sched [] (with_kick false s3))).
  assert (reachable (mk_system q4 sh4 false) (mk_system q4 s1 false)) as H1.
  { eapply reach_step; [apply reach_refl|].
    apply (step_device q4 sh4 CallEnable [[]; [Publish 1]]); [|by vm_compute].
    repeat constructor; by vm_compute. }
  assert (forall s0, reachable s0 (mk_system q4 s1 false) ->
    reachable s0 (mk_system p s4 true)) as H4.
  { intros s0 H0.
    apply (reach_step s0 (mk_system p (with_kick false s3) false));
      [apply (reach_step s0 (mk_system p s3 true));
        [apply (reach_step s0 (mk_system p (with_sched [] s2) false));
          [apply (reach_step s0 (mk_system q4 s2 false));
            [apply (reach_step s0 (mk_system q4 s1 false)); [exact H0|]|]|]|]|].
    - exact (step_driver q4 s1 false Decide I).
    - apply (step_device q4 s2 CallPop [] p (with_sched [] s2) false); [constructor|by vm_compute].
    - apply (step_device p (with_sched [] s2) CallEnable [] p s3 true);
        [constructor|by vm_compute].
    - apply (step_wake p s3). by vm_compute.
    - apply (step_device p (with_kick false s3) CallEnable [] p s4 true);
        [constructor|by vm_compute]. }
  exists s1, (mk_system p s4 true).
  split_and!; [exact H1|by vm_compute|apply H4, reach_refl|reflexivity|].
  apply (no_lost_wakeup q4 sh4 _ q4_handshake (H4 _ H1)); by vm_compute.
Defined.

Lemma enable_notification_answers_witness :
  exists m', enable_notification (q4, mem) = Some ((q4, m'), Ok false) /\
    gm_load16 m' 0x3024 = Ok 0.
Proof.
  destruct (enable_notification_answers q4 mem 0 notif_q4_wf) as (m' & Hr & Hl & _).
  - by exists 0.
  - by vm_compute.
  - left. by vm_compute.
  - exists m'. split; [exact Hr|exact Hl].
Defined.
