(* ===== verification/Processing.v ===== *)
(** * A device that processes a queue

    The loop every device of the workspace is built around:

<<
    while let Some(chain) = queue.pop_descriptor_chain(mem) {
        let len = /* handle the chain */;
        queue.add_used(mem, chain.head_index(), len)?;
    }
>>

    composed from [pop_descriptor_chain] and [add_used], with the handling of
    a chain as a parameter.  The theorem puts the two rings together: the
    heads the driver offered come back in the used ring, in order and once. *)

From stdpp Require Import base numbers list option.
From S2P Require Import Prelude Bytes GuestMemory FlatMemory Descriptor Chain Queue.
From S2P Require Import QueueFacts UsedRing AvailRing.

Section Processing.
Context {M : Type} `{GML : GuestMemoryLaws M}.
Context (handler : DescriptorChain -> M -> M * u32).
Implicit Types m : M.

Definition run_handler (c : DescriptorChain) : RM (Queue * M) Error u32 := fun '(q, m) =>
  let '(m, len) := handler c m in Some ((q, m), Ok len).

Fixpoint process (fuel : nat) : RM (Queue * M) Error unit :=
  match fuel with
  | O => panic
  | S fuel =>
      o ← pop_descriptor_chain;
      match o with
      | None => mret tt
      | Some c =>
          len ← run_handler c;
          _ ← add_used (head_index c) len;
          process fuel
      end
  end.

(** The parts of guest memory the rings occupy. *)
Definition in_avail_ring (q : Queue) (x : Z) : Prop :=
  q_avail_ring q <= x < q_avail_ring q + 4 + 2 * q_size q.
Definition in_used_ring (q : Queue) (x : Z) : Prop :=
  q_used_ring q <= x < q_used_ring q + 4 + 8 * q_size q.

(** Nothing of the two rings has changed. *)
Definition rings_kept (q : Queue) m m' : Prop :=
  same_layout m m' /\
  forall x, in_avail_ring q x \/ in_used_ring q x -> peek m' x = peek m x.

(** The handler writes buffers, not rings, and reports a 32-bit length. *)
Definition handler_ok (q : Queue) : Prop :=
  forall c m m' len, handler c m = (m', len) -> rings_kept q m m' /\ in_u 32 len.

Lemma avail_slot_in q i : queue_wf q -> forall x, avail_slot q i <= x < avail_slot q i + 2 ->
  in_avail_ring q x.
Proof.
  intros Hwf x Hx. pose proof (queue_wf_size q Hwf).
  pose proof (Z.mod_pos_bound i (q_size q) ltac:(lia)).
  unfold avail_slot, VIRTQ_AVAIL_RING_HEADER_SIZE, VIRTQ_AVAIL_ELEMENT_SIZE in Hx.
  unfold in_avail_ring. lia.
Qed.

(** What was offered stays offered while the available ring is not written. *)
Lemma offered_kept q m m' heads :
  queue_wf q -> same_layout m m' ->
  (forall x, in_avail_ring q x -> peek m' x = peek m x) ->
  offered q m heads -> offered q m' heads.
Proof.
  intros Hwf Hl Hk [Hr Hc Hi He]. pose proof (queue_wf_size q Hwf). split; [done|done| |].
  - eapply load_ext; [done| |done]. intros x Hx. apply Hk. unfold in_avail_ring. lia.
  - intros k h Hh. specialize (He k h Hh). unfold avail_entry in *.
    eapply load_ext; [done| |done]. intros x Hx. by eapply Hk, avail_slot_in.
Qed.

Lemma offered_tail q m h heads :
  queue_wf q -> offered q m (h :: heads) ->
  pop_descriptor_chain (q, m) = Some ((consumed 1 q, m), Ok (Some (chain_of q h))) /\
  offered (consumed 1 q) m heads.
Proof.
  intros Hwf Ho. destruct (offered_iter q m (h :: heads) Hwf Ho) as [Hr Hp].
  pose proof Ho as [Hrdy Hc Hi He]. split.
  - rewrite pop_spec, Hr by done. rewrite avail_next_step by done.
    rewrite decide_False.
    + specialize (He 0%nat h eq_refl). rewrite Z.add_0_r in He. by rewrite He.
    + rewrite <- pending_0; [rewrite Hp; simpl length; lia|done|by apply in_u_wadd].
  - split; [done|simpl length in Hc; simpl; lia| |].
    + change (q_avail_ring (consumed 1 q)) with (q_avail_ring q). rewrite Hi. f_equal.
      simpl. rewrite wadd_assoc by done. f_equal. lia.
    + intros k h' Hk. rewrite avail_entry_consumed by done.
      rewrite <- (He (S k) h' Hk). f_equal. lia.
Qed.

Lemma offered_bumped q m heads : offered q m heads -> offered (bumped q) m heads.
Proof. by intros []. Qed.

Lemma pop_empty q m :
  queue_wf q -> offered q m [] -> pop_descriptor_chain (q, m) = Some ((q, m), Ok None).
Proof.
  intros Hwf Ho. destruct (offered_iter q m [] Hwf Ho) as [Hr Hp].
  rewrite pop_spec, Hr, avail_next_step by done. rewrite decide_True; [done|].
  apply pending_0; [done|by apply in_u_wadd|done].
Qed.

Lemma used_view_kept b hist q m m' :
  queue_wf q -> same_layout m m' ->
  (forall x, in_used_ring q x -> peek m' x = peek m x) ->
  used_view b hist q m -> used_view b hist q m'.
Proof.
  intros Hwf Hl Hk (Hn & Hi & He). pose proof (queue_wf_size q Hwf). split_and!; [done| |].
  - intros Hne. eapply load_ext; [done| |by apply Hi]. intros x Hx. apply Hk.
    unfold in_used_ring. lia.
  - intros k e Hke Hle. specialize (He k e Hke Hle). unfold used_entry, read_obj in *.
    destruct (gm_read m _ _) eqn:Hg; [|done]. erewrite gm_read_ext; [done|simpl; lia| |done].
    intros x Hx. apply Hk. simpl in Hx.
    destruct (used_slot_bounds q (b + Z.of_nat k) Hwf). unfold in_used_ring. lia.
Qed.

Lemma used_ring_ready_kept q m m' :
  same_layout m m' -> used_ring_ready q m -> used_ring_ready q m'.
Proof. intros Hl [? ?]. split; eauto using same_layout_mapped, same_layout_acc16. Qed.

(** The rings do not overlap. *)
Definition rings_disjoint (q : Queue) : Prop :=
  forall x, in_avail_ring q x -> ~ in_used_ring q x.

(** The state between two iterations. *)
Record processing (b : Z) (hist : list VirtqUsedElem) (heads : list Z) (q : Queue) m : Prop := {
  pr_wf : queue_wf q;
  pr_used : used_ring_ready q m;
  pr_view : used_view b hist q m;
  pr_offered : offered q m heads;
  pr_heads : Forall (fun h => 0 <= h < q_size q) heads;
  pr_disjoint : rings_disjoint q;
  pr_handler : handler_ok q;
}.

(** One iteration of the loop. *)
Lemma process_step b hist h heads q m :
  processing b hist (h :: heads) q m ->
  exists e m', ue_id e = h /\
    processing b (hist ++ [e]) heads (bumped (consumed 1 q)) m' /\
    forall fuel, process (S fuel) (q, m) = process fuel (bumped (consumed 1 q), m').
Proof.
  intros [Hwf Hu Hv Ho Hh Hd Hok].
  inversion Hh as [|? ? Hh1 Hh2]; subst.
  destruct (offered_tail q m h heads Hwf Ho) as [Hpop Ho'].
  destruct (handler (chain_of q h) m) as [m1 len] eqn:Hhd.
  destruct (Hok _ _ _ _ Hhd) as [[Hl1 Hk1] Hlen].
  set (q1 := consumed 1 q) in *. assert (queue_wf q1) as Hwf1 by (by apply consumed_wf).
  set (e := used_elem_new h len).
  assert (used_view b hist q1 m1) as Hv1.
  { change (used_view b hist q m1). eapply used_view_kept; eauto. }
  assert (used_ring_ready q1 m1) as Hu1 by exact (used_ring_ready_kept q m m1 Hl1 Hu).
  destruct (add_used_appends b hist q1 m1 e Hwf1 Hu1 ltac:(done) Hv1)
    as (m2 & Hadd & Hv2 & Hl2 & Hfr).
  exists e, m2. split; [done|]. split.
  - split; try done.
    + by apply bumped_wf.
    + by eapply used_ring_ready_layout.
    + apply offered_bumped. apply (offered_kept q1 m m2); [done| | |done].
      * by eapply same_layout_trans.
      * intros x Hx. pose proof (Hd x Hx) as Hnx. unfold in_used_ring in Hnx.
        rewrite Hfr; [by apply Hk1; left| |].
        -- pose proof (queue_wf_size q Hwf). simpl. lia.
        -- destruct (used_slot_bounds q1 (q_next_used q1) Hwf1). simpl in *. lia.
  - intros fuel. cbn [process]. rewrite rm_bind_unfold, Hpop.
    rewrite rm_bind_unfold. unfold run_handler. rewrite Hhd.
    rewrite rm_bind_unfold. simpl head_index. change h with (ue_id e) at 1.
    change len with (ue_len e) at 1. by rewrite Hadd.
Qed.

Lemma process_spec heads fuel b hist q m :
  processing b hist heads q m -> (length heads < fuel)%nat ->
  exists es q' m', process fuel (q, m) = Some ((q', m'), Ok tt) /\
    ue_id <$> es = heads /\ processing b (hist ++ es) [] q' m' /\
    q_next_avail q' = wadd 16 (q_next_avail q) (Z.of_nat (length heads)) /\
    q_num_added q' = wadd 16 (q_num_added q) (Z.of_nat (length heads)).
Proof.
  revert fuel hist q m. induction heads as [|h heads IH]; intros fuel hist q m Hp Hf;
    (destruct fuel as [|fuel]; [simpl in Hf; lia|]).
  - exists [], q, m. rewrite app_nil_r. pose proof Hp as [Hwf _ _ Ho _ _ _].
    simpl length. rewrite !wadd_0_r by apply Hwf. split_and!; try done.
    cbn [process]. by rewrite rm_bind_unfold, pop_empty.
  - destruct (process_step b hist h heads q m Hp) as (e & m1 & He & Hp1 & Hrun).
    destruct (IH fuel (hist ++ [e]) _ m1 Hp1) as (es & q' & m' & Hr & Hes & Hp' & Hn & Hna);
      [simpl in Hf; lia|].
    exists (e :: es), q', m'. rewrite Hrun. split; [done|]. split; [by rewrite fmap_cons, He, Hes|].
    split; [by rewrite <- app_assoc in Hp'|]. rewrite Hn, Hna. simpl length.
    simpl. rewrite !wadd_assoc by done. split; f_equal; lia.
Qed.
End Processing.

(** ** Properties *)

(** C3: a device that pops, handles and returns chains until none is left gives back exactly
    the heads the driver has offered, in order and once: the loop ends, the used ring holds an
    element for each of them after the old cursor, and both cursors have moved by their
    number. *)
Theorem process_returns_offered {M} `{GML : GuestMemoryLaws M}
    (handler : DescriptorChain -> M -> M * u32) q m heads :
  queue_wf q -> used_ring_ready q m -> offered q m heads ->
  Forall (fun h => 0 <= h < q_size q) heads -> rings_disjoint q -> handler_ok handler q ->
  exists es q' m',
    process handler (S (Z.to_nat (q_size q))) (q, m) = Some ((q', m'), Ok tt) /\
    ue_id <$> es = heads /\ used_view (q_next_used q) es q' m' /\
    q_next_avail q' = wadd 16 (q_next_avail q) (Z.of_nat (length heads)) /\
    q_num_added q' = wadd 16 (q_num_added q) (Z.of_nat (length heads)).
Proof.
  intros Hwf Hu Ho Hh Hd Hok. pose proof (off_count _ _ _ Ho).
  destruct (process_spec handler heads (S (Z.to_nat (q_size q))) (q_next_used q) [] q m)
    as (es & q' & m' & Hr & Hes & Hp & Hn & Hna); [|lia|].
  - split; try done. split_and!; [|done|done]. rewrite Z.add_0_r. symmetry. apply wrap_small, Hwf.
  - exists es, q', m'. by destruct Hp.
Qed.

(** ** Concrete run *)

(** The handler that writes nothing and reports 512 bytes. *)
Lemma process_returns_offered_witness :
  exists es q' m',
    process (fun _ m => (m, 512)) 5 (AvailExamples.q4, AvailExamples.mem) =
      Some ((q', m'), Ok tt) /\
    ue_id <$> es = [2; 0] /\ used_view 0 es q' m'.
Proof.
  destruct (process_returns_offered (fun _ (m : FlatMem) => (m, 512)) AvailExamples.q4
    AvailExamples.mem [2; 0] AvailExamples.avail_q4_wf) as (es & q' & m' & Hr & Hes & Hv & _).
  - split; [|by exists 0].
    apply (fm_region_mapped _ 0x3000 0 0x10000); by vm_compute.
  - apply AvailExamples.avail_q4_offered.
  - repeat constructor; by vm_compute.
  - intros x. unfold in_avail_ring, in_used_ring. simpl. lia.
  - intros c m m' len [= <- <-]. split; [|by vm_compute]. split; [apply same_layout_refl|done].
  - exists es, q', m'. split; [exact Hr|]. by split.
Defined.
