(* ===== verification/DeviceLoop.v ===== *)
(** * The loop of a device

    The documentation of [Queue] in virtio-queue/src/queue.rs shows how a
    device is meant to use a queue: it disables notifications, takes every
    chain from the available ring, processes it, returns it through the used
    ring and notifies the driver when it asked for it, enables notifications
    again, and stops when nothing was offered in between.  The processing of a
    chain is a parameter, a step on the state of the device and guest memory. *)

From stdpp Require Import base numbers list option.
From S2P Require Import Prelude Bytes GuestMemory FlatMemory Descriptor Chain Queue.
From S2P Require Import QueueFacts UsedRing AvailRing Notification Handshake Processing.

Section Loop.
Context {D M : Type} `{GuestMemory M}.

(** Processing a chain: the bytes written to it, or [None] for a panic. *)
Context (handler : DescriptorChain -> D * M -> option ((D * M) * u32)).

(** The device, its queue and guest memory. *)
Abbreviation LM := (RM (D * (Queue * M)) Error).

Definition on_queue {A} (c : RM (Queue * M) Error A) : LM A := fun '(d, s) =>
  match c s with
  | None => None
  | Some (s, r) => Some ((d, s), r)
  end.

Definition handle (c : DescriptorChain) : LM u32 := fun '(d, (q, m)) =>
  match handler c (d, m) with
  | None => None
  | Some ((d, m), len) => Some ((d, (q, m)), Ok len)
  end.

(** [while let Some(chain) = queue.iter(&m).unwrap().next()]: the result is the
    answer of [needs_notification] after each chain. *)
Fixpoint consume_chains (fuel : nat) (signals : list bool) : LM (list bool) :=
  match fuel with
  | O => panic
  | S fuel =>
      it ← on_queue (unwrapped iter);
      o ← on_queue (avail_next it);
      match o with
      | None => mret signals
      | Some chain =>
          len ← handle chain;
          _ ← on_queue (unwrapped (add_used (head_index chain) len));
          notify ← on_queue (unwrapped needs_notification);
          consume_chains fuel (signals ++ [notify])
      end
  end.

Fixpoint event_loop (fuel : nat) (signals : list bool) : LM (list bool) :=
  match fuel with
  | O => panic
  | S fuel =>
      _ ← on_queue (unwrapped disable_notification);
      q ← gets (fun s => fst (snd s));
      signals ← consume_chains (S (Z.to_nat (q_size q))) signals;
      more ← on_queue (unwrapped enable_notification);
      if more : bool then event_loop fuel signals else mret signals
  end.
End Loop.

(** ** What the loop needs of the queue and of the handler *)

(** The parts of guest memory the driver and the device write. *)
Definition in_driver_area (q : Queue) (x : Z) : Prop :=
  q_avail_ring q <= x < q_avail_ring q + 6 + 2 * q_size q.
Definition in_device_area (q : Queue) (x : Z) : Prop :=
  q_used_ring q <= x < q_used_ring q + 6 + 8 * q_size q.

(** The cell through which the device asks for notifications. *)
Definition notify_cell (q : Queue) : Z :=
  if q_event_idx_enabled q then avail_event_addr q else q_used_ring q.

(** Nothing outside of the device area has changed. *)
Definition device_wrote {M} `{GuestMemory M} (q : Queue) (m m' : M) : Prop :=
  same_layout m m' /\ forall x, ~ in_device_area q x -> peek m' x = peek m x.

(** The rings are accessible and apart; [event] is the element the driver waits
    for when event indices are negotiated. *)
Record loop_ready {M} `{GuestMemory M} (q : Queue) (m : M) (event : u16) : Prop := {
  lr_wf : queue_wf q;
  lr_used : used_ring_ready q m;
  lr_notify : acc16 m (notify_cell q);
  lr_event : q_event_idx_enabled q = true ->
    gm_load16 m (used_event_addr q) = Ok event /\ q_num_added q = 0;
  lr_apart : forall x, in_driver_area q x -> ~ in_device_area q x;
}.

(** The configuration the proofs below rely on is that of [q]. *)
Definition same_rings (q q' : Queue) : Prop :=
  q_size q' = q_size q /\ q_avail_ring q' = q_avail_ring q /\ q_used_ring q' = q_used_ring q /\
  q_desc_table q' = q_desc_table q /\ q_event_idx_enabled q' = q_event_idx_enabled q.

(** A handler that serves the chains of [q]: [Inv es hs d m] says that the
    elements [es] have been returned and the heads [hs] are left.  Processing
    keeps the rings, and what the device stores in its area does not matter to
    it. *)
Record serves {D M} `{GuestMemory M} (handler : DescriptorChain -> D * M -> option ((D * M) * u32))
    (q : Queue) (Inv : list VirtqUsedElem -> list Z -> D -> M -> Prop) : Prop := {
  sv_step : forall es h hs d m, Inv es (h :: hs) d m ->
    exists d' m' len, handler (chain_of q h) (d, m) = Some ((d', m'), len) /\
      same_layout m m' /\
      (forall x, in_driver_area q x \/ in_device_area q x -> peek m' x = peek m x) /\
      in_u 32 len /\ Inv (es ++ [used_elem_new h len]) hs d' m';
  sv_stable : forall es hs d m m', Inv es hs d m -> device_wrote q m m' -> Inv es hs d m';
}.

(** The notifications of [n] chains returned from [cursor] on, for a driver
    that waits for [event]. *)
Definition signals_for (q : Queue) (event cursor : u16) (n : nat) : list bool :=
  (fun k : nat => if q_event_idx_enabled q then event =? wadd 16 cursor (Z.of_nat k) else true) <$> seq 0 n.

(** ** Lemmas *)

Section LoopFacts.
Context {D M : Type} `{GML : GuestMemoryLaws M}.
Context (handler : DescriptorChain -> D * M -> option ((D * M) * u32)).
Context (q0 : Queue) (Inv : list VirtqUsedElem -> list Z -> D -> M -> Prop).
Implicit Types (m : M) (d : D) (q : Queue).

(** The queue between two iterations: [es] has been returned since the cursor
    was [b], [heads] are offered, the driver waits for [event]. *)
Record looping (b : Z) (es : list VirtqUsedElem) (heads : list Z) (event : Z) q m : Prop := {
  lo_wf : queue_wf q;
  lo_same : same_rings q0 q;
  lo_used : used_ring_ready q m;
  lo_notify : acc16 m (notify_cell q);
  lo_view : used_view b es q m;
  lo_offered : offered q m heads;
  lo_heads : Forall (fun h => 0 <= h < q_size q) heads;
  lo_event : q_event_idx_enabled q = true ->
    gm_load16 m (used_event_addr q) = Ok event /\ q_num_added q = 0;
  lo_apart : forall x, in_driver_area q x -> ~ in_device_area q x;
}.

Lemma in_avail_driver q x : in_avail_ring q x -> in_driver_area q x.
Proof. unfold in_avail_ring, in_driver_area. lia. Qed.

Lemma used_event_driver q x : used_event_addr q <= x < used_event_addr q + 2 -> queue_wf q -> in_driver_area q x.
Proof.
  intros Hx Hwf. pose proof (queue_wf_size q Hwf).
  unfold used_event_addr, VIRTQ_AVAIL_RING_HEADER_SIZE, VIRTQ_AVAIL_ELEMENT_SIZE in Hx.
  unfold in_driver_area. lia.
Qed.

(** Only the driver's area and the published part of the used ring matter. *)
Lemma looping_mem b es heads event q m m' :
  looping b es heads event q m -> same_layout m m' ->
  (forall x, in_driver_area q x \/ q_used_ring q + 2 <= x < q_used_ring q + 4 + 8 * q_size q ->
     peek m' x = peek m x) ->
  looping b es heads event q m'.
Proof.
  intros [Hwf Hs Hu Hn Hv Ho Hh He Ha] Hl Hx. split; try done.
  - by eapply used_ring_ready_kept.
  - by eapply same_layout_acc16.
  - destruct Hv as (Hn1 & Hi & Hen). split; [done|]. split.
    + intros Hne. eapply load_ext; [done| |by apply Hi]. intros x Hr. apply Hx. right.
      pose proof (queue_wf_size q Hwf). lia.
    + intros k e Hk Hle. specialize (Hen k e Hk Hle). unfold used_entry, read_obj in *.
      destruct (gm_read m _ _) eqn:Hg; [|done]. erewrite gm_read_ext; [done|simpl; lia| |done].
      intros x Hr. apply Hx. right. simpl in Hr.
      destruct (used_slot_bounds q (b + Z.of_nat k) Hwf). lia.
  - eapply offered_kept; [done|done| |done]. intros x Hr. apply Hx. left. by apply in_avail_driver.
  - intros Hev. destruct (He Hev) as [Hld Hna]. split; [|done].
    eapply load_ext; [done| |done]. intros x Hr. apply Hx. left. by apply used_event_driver.
Qed.

Lemma need_event_last event old : in_u 16 event -> in_u 16 old ->
  need_event event (wadd 16 old 1) (wsub 16 (wadd 16 old 1) 1) = (event =? old).
Proof.
  intros He Ho. apply eq_true_iff_eq. rewrite need_event_window, Z.eqb_eq by done.
  assert (wsub 16 (wadd 16 old 1) 1 = old) as Hw.
  { unfold wsub, wadd, wrap. rewrite Zminus_mod_idemp_l, Z.add_simpl_r. by apply Z.mod_small. }
  unfold in_last. rewrite Hw. split.
  - intros (k & Hk & <-). replace k with 0 by lia. unfold wsub. rewrite Z.sub_0_r. by apply wrap_small.
  - intros ->. exists 0. split; [lia|]. unfold wsub. rewrite Z.sub_0_r. by apply wrap_small.
Qed.

(** The queue after the answer of [needs_notification]. *)
Definition answered q : Queue := if q_event_idx_enabled q then with_num_added 0 q else q.

Lemma answered_wf q : queue_wf q -> queue_wf (answered q).
Proof. unfold answered. intros []. by destruct (q_event_idx_enabled q). Qed.

(** [needs_notification] after one element has been added. *)
Lemma needs_notification_once q m event :
  queue_wf q -> (q_event_idx_enabled q = true ->
    gm_load16 m (used_event_addr q) = Ok event /\ q_num_added q = 0) ->
  needs_notification (bumped q, m) = Some ((answered (bumped q), m),
    Ok (if q_event_idx_enabled q then event =? q_next_used q else true)).
Proof.
  intros Hwf He. rewrite needs_notification_spec. unfold answered.
  change (q_event_idx_enabled (bumped q)) with (q_event_idx_enabled q).
  destruct (q_event_idx_enabled q); [|done]. destruct (He eq_refl) as [Hld Hn].
  change (used_event_addr (bumped q)) with (used_event_addr q).
  rewrite decide_True by (by apply load_addr in Hld as [_ ?]). rewrite Hld.
  cbn [bumped q_next_used q_num_added with_num_added with_next_used]. rewrite Hn.
  change (wadd 16 0 1) with 1. apply law_load in Hld as [Hu _].
  by rewrite need_event_last by (done || apply Hwf).
Qed.

Lemma iter_offered q m heads : queue_wf q -> offered q m heads ->
  exists it, iter (q, m) = Some ((q, m), Ok it) /\
    avail_next it (q, m) =
      match heads with
      | [] => Some ((q, m), Ok None)
      | h :: _ => Some ((consumed 1 q, m), Ok (Some (chain_of q h)))
      end.
Proof.
  intros Hwf Ho. destruct (offered_iter q m heads Hwf Ho) as [Hr Hp].
  eexists. rewrite iter_spec, Hr. split; [done|]. rewrite avail_next_step by done.
  destruct heads as [|h heads].
  - rewrite decide_True; [done|]. apply pending_0; [done|by apply in_u_wadd|done].
  - rewrite decide_False.
    + pose proof (off_entry _ _ _ Ho 0%nat h eq_refl) as He. rewrite Z.add_0_r in He. by rewrite He.
    + rewrite <- pending_0; [rewrite Hp; simpl length; lia|done|by apply in_u_wadd].
Qed.

(** The answer changes the count of added elements and nothing else. *)
Lemma answered_field {A} (f : Queue -> A) q :
  (forall n x, f (with_num_added n x) = f x) -> f (answered q) = f q.
Proof. intros Hf. unfold answered. by destruct (q_event_idx_enabled q). Qed.

Lemma used_event_kept q m m2 event :
  queue_wf q -> same_layout m m2 -> (forall x, in_driver_area q x -> peek m2 x = peek m x) ->
  gm_load16 m (used_event_addr q) = Ok event -> gm_load16 m2 (used_event_addr q) = Ok event.
Proof.
  intros Hwf Hl Hx Hld. eapply load_ext; [done| |done]. intros x Hr. by apply Hx, used_event_driver.
Qed.

(** The state after a chain has been taken and returned. *)
Lemma looping_advance b es e h heads event q m m2 :
  looping b es (h :: heads) event q m -> same_layout m m2 ->
  (forall x, in_driver_area q x -> peek m2 x = peek m x) ->
  used_view b (es ++ [e]) (bumped (consumed 1 q)) m2 ->
  looping b (es ++ [e]) heads event (answered (bumped (consumed 1 q))) m2.
Proof.
  intros [Hwf Hs Hu Hn _ Ho Hh He Ha] Hl Hdrv Hv. set (q1 := consumed 1 q) in *.
  assert (queue_wf q1) as Hwf1 by (by apply consumed_wf).
  destruct (offered_tail q m h heads Hwf Ho) as [_ Ho'].
  apply list.Forall_cons in Hh as [_ Hh].
  assert (offered (bumped q1) m2 heads) as Hob.
  { apply offered_bumped, (offered_kept q1 m m2); [done|done| |done].
    intros x Hx. by apply Hdrv, in_avail_driver. }
  split; unfold same_rings, used_ring_ready, notify_cell, avail_event_addr, used_event_addr,
    in_driver_area, in_device_area; rewrite ?answered_field by done; try done.
  - by apply answered_wf, bumped_wf.
  - by apply (used_ring_ready_kept q m m2).
  - by eapply same_layout_acc16.
  - unfold answered. by destruct (q_event_idx_enabled _), Hob.
  - intros Hq. destruct (He Hq) as [Hld _]. split; [by apply (used_event_kept q m m2)|].
    unfold answered. by rewrite Hq.
Qed.

(** One chain. *)
Lemma consume_step b es h heads event d q m :
  serves handler q0 Inv -> looping b es (h :: heads) event q m -> Inv es (h :: heads) d m ->
  exists e q' d' m', ue_id e = h /\ looping b (es ++ [e]) heads event q' m' /\
    Inv (es ++ [e]) heads d' m' /\ q_next_used q' = wadd 16 (q_next_used q) 1 /\
    q_next_avail q' = wadd 16 (q_next_avail q) 1 /\
    forall fuel sig, consume_chains handler (S fuel) sig (d, (q, m)) =
      consume_chains handler fuel
        (sig ++ [if q_event_idx_enabled q then event =? q_next_used q else true]) (d', (q', m')).
Proof.
  intros [Hstep Hstable] Hlo Hinv. pose proof Hlo as [Hwf Hs Hu Hn Hv Ho Hh He Ha].
  apply list.Forall_cons in Hh as [Hh _].
  destruct (iter_offered q m (h :: heads) Hwf Ho) as (it & Hit & Hnext).
  destruct (Hstep es h heads d m Hinv) as (d1 & m1 & len & Hhd & Hl1 & Hk1 & Hlen & Hinv1).
  pose proof Hs as (Hsz & Hav & Hus & Hdt & Hev).
  assert (chain_of q0 h = chain_of q h) as Hco by (unfold chain_of; by rewrite Hsz, Hdt).
  rewrite Hco in Hhd. pose proof (queue_wf_size q Hwf).
  assert (forall x, in_driver_area q x \/ in_device_area q x -> peek m1 x = peek m x) as Hk.
  { intros x. unfold in_driver_area, in_device_area. rewrite Hsz, Hav, Hus. apply Hk1. }
  destruct (looping_mem b es (h :: heads) event q m m1 Hlo Hl1) as [_ _ Hu1 _ Hv1 _ _ He1 _].
  { intros x [Hx|Hx]; apply Hk; [by left|right; unfold in_device_area; lia]. }
  set (q1 := consumed 1 q). assert (queue_wf q1) as Hwf1 by (by apply consumed_wf).
  set (e := used_elem_new h len).
  destruct (add_used_appends b es q1 m1 e Hwf1 Hu1 ltac:(done) Hv1) as (m2 & Hadd & Hv2 & Hl2 & Hfr).
  destruct (used_slot_bounds q1 (q_next_used q1) Hwf1) as [Hb1 Hb2].
  change (q_used_ring q1) with (q_used_ring q) in *. change (q_size q1) with (q_size q) in *.
  assert (device_wrote q0 m1 m2) as Hdw.
  { split; [done|]. intros x Hx. unfold in_device_area in Hx. rewrite <- Hus, <- Hsz in Hx.
    apply Hfr; lia. }
  assert (forall x, in_driver_area q x -> peek m2 x = peek m x) as Hdrv.
  { intros x Hx. pose proof (Ha x Hx) as Hnx. unfold in_device_area in Hnx.
    rewrite Hfr by lia. apply Hk. by left. }
  exists e, (answered (bumped q1)), d1, m2. split; [done|]. split; [|split; [by eapply Hstable|]].
  { eapply looping_advance; [done|by eapply same_layout_trans|done|done]. }
  rewrite !answered_field by done. split; [done|]. split; [done|].
  intros fuel sig. cbn [consume_chains]. rewrite rm_bind_unfold. unfold on_queue at 1, unwrapped at 1.
  rewrite Hit, rm_bind_unfold. unfold on_queue at 1. rewrite Hnext, rm_bind_unfold.
  fold q1. unfold handle. rewrite Hhd, rm_bind_unfold. unfold on_queue at 1, unwrapped at 1.
  simpl head_index. change h with (ue_id e) at 1. change len with (ue_len e) at 1.
  rewrite Hadd, rm_bind_unfold. unfold on_queue at 1, unwrapped at 1.
  rewrite (needs_notification_once q1 m2 event Hwf1); [done|].
  intros Hq. destruct (He1 Hq) as [Hld Hna]. split; [|done].
  apply (used_event_kept q m1 m2); [done|done| |done].
  intros x Hx. rewrite Hdrv, Hk by auto. done.
Qed.

Lemma signals_for_cons q event cursor n : in_u 16 cursor ->
  signals_for q event cursor (S n) =
    (if q_event_idx_enabled q then event =? cursor else true) ::
    signals_for q event (wadd 16 cursor 1) n.
Proof.
  intros Hc. unfold signals_for. cbn [seq]. rewrite fmap_cons, wadd_0_r by done. f_equal.
  rewrite <- fmap_S_seq, <- list_fmap_compose. apply list_fmap_ext. intros i k _. simpl.
  destruct (q_event_idx_enabled q); [|done]. rewrite wadd_assoc by done. do 2 f_equal. lia.
Qed.

Lemma signals_for_same q q' event cursor n :
  q_event_idx_enabled q' = q_event_idx_enabled q ->
  signals_for q' event cursor n = signals_for q event cursor n.
Proof. intros He. unfold signals_for. by rewrite He. Qed.

(** All chains. *)
Lemma consume_chains_spec heads : forall fuel b es event d q m sig,
  serves handler q0 Inv -> looping b es heads event q m -> Inv es heads d m ->
  (length heads < fuel)%nat ->
  exists es' q' d' m',
    consume_chains handler fuel sig (d, (q, m)) = Some ((d', (q', m')),
      Ok (sig ++ signals_for q0 event (q_next_used q) (length heads))) /\
    ue_id <$> es' = heads /\ looping b (es ++ es') [] event q' m' /\ Inv (es ++ es') [] d' m' /\
    q_next_avail q' = wadd 16 (q_next_avail q) (Z.of_nat (length heads)).
Proof.
  induction heads as [|h heads IH]; intros fuel b es event d q m sig Hsv Hlo Hinv Hf;
    (destruct fuel as [|fuel]; [simpl in Hf; lia|]).
  - exists [], q, d, m. pose proof Hlo as [Hwf _ _ _ _ Ho _ _ _].
    destruct (iter_offered q m [] Hwf Ho) as (it & Hit & Hnext).
    simpl length. rewrite !app_nil_r, wadd_0_r by apply Hwf. split_and!; try done.
    cbn [consume_chains]. rewrite rm_bind_unfold. unfold on_queue at 1, unwrapped. rewrite Hit, rm_bind_unfold.
    unfold on_queue. by rewrite Hnext.
  - destruct (consume_step b es h heads event d q m Hsv Hlo Hinv)
      as (e & q1 & d1 & m1 & He & Hlo1 & Hinv1 & Hnu & Hna & Hrun).
    destruct (IH fuel b (es ++ [e]) event d1 q1 m1
      (sig ++ [if q_event_idx_enabled q then event =? q_next_used q else true]) Hsv Hlo1 Hinv1)
      as (es' & q' & d' & m' & Hr & Hes & Hlo' & Hinv' & Hn); [simpl in Hf; lia|].
    pose proof Hlo as [Hwf (_ & _ & _ & _ & Hev) _ _ _ _ _ _ _].
    exists (e :: es'), q', d', m'. rewrite Hrun, Hr. simpl length.
    rewrite signals_for_cons, Hev, Hnu by apply Hwf. rewrite <- !app_assoc in *. split; [done|].
    split; [by rewrite fmap_cons, He, Hes|]. split; [done|]. split; [done|].
    rewrite Hn, Hna, wadd_assoc by done. f_equal. lia.
Qed.

Lemma notify_cell_device q x : queue_wf q ->
  notify_cell q <= x < notify_cell q + 2 ->
  in_device_area q x /\ ~ (q_used_ring q + 2 <= x < q_used_ring q + 4 + 8 * q_size q).
Proof.
  intros Hwf. pose proof (queue_wf_size q Hwf). unfold notify_cell, avail_event_addr,
    VIRTQ_USED_RING_HEADER_SIZE, VIRTQ_USED_ELEMENT_SIZE, in_device_area.
  destruct (q_event_idx_enabled q); lia.
Qed.

(** A store to that cell. *)
Lemma looping_notify b es heads event q m m' v :
  looping b es heads event q m -> overwritten m m' (notify_cell q) (le_bytes 2 v) -> same_layout m m' ->
  looping b es heads event q m' /\ device_wrote q0 m m'.
Proof.
  intros Hlo Ho Hl. pose proof Hlo as [Hwf (Hsz & _ & Hus & _) _ _ _ _ _ _ Ha].
  assert (forall x, ~ (notify_cell q <= x < notify_cell q + 2) -> peek m' x = peek m x) as Hout.
  { intros x Hx. by apply (overwritten_peek_other _ _ _ _ _ Ho). }
  split.
  - apply (looping_mem b es heads event q m m' Hlo Hl). intros x Hx. apply Hout. intros Hc.
    destruct (notify_cell_device q x Hwf Hc) as [Hd Hn]. destruct Hx as [Hx|Hx]; [by apply (Ha x)|done].
  - split; [done|]. intros x Hx. apply Hout. intros Hc. apply Hx.
    destruct (notify_cell_device q x Hwf Hc) as [Hd _]. unfold in_device_area in *. by rewrite Hsz, Hus in Hd.
Qed.

Lemma disable_spec b es heads event q m :
  looping b es heads event q m ->
  exists m', disable_notification (q, m) = Some ((q, m'), Ok tt) /\
    looping b es heads event q m' /\ device_wrote q0 m m'.
Proof.
  intros Hlo. pose proof Hlo as [Hwf _ _ Hn _ _ _ _ _]. unfold disable_notification.
  rewrite set_notification_spec. destruct (q_event_idx_enabled q) eqn:Hev.
  { exists m. split; [done|]. split; [done|]. split; [apply same_layout_refl|done]. }
  assert (notify_cell q = q_used_ring q) as Hcell by (unfold notify_cell; by rewrite Hev).
  rewrite <- Hcell, mem_store_relaxed.
  pose proof (proj2 (law_store_success m (notify_cell q) 1 ltac:(done)) Hn) as Hok.
  destruct (gm_store16 m (notify_cell q) 1) as [m' r] eqn:Hst. simpl in Hok. subst r.
  exists m'. split; [done|]. assert (in_u 16 1) as H1 by done.
  eapply looping_notify; [done|by apply (law_store _ _ _ _ H1)|by eapply (store_layout _ _ _ _ _ H1)].
Qed.

Lemma enable_spec b es event q m :
  looping b es [] event q m ->
  exists m', enable_notification (q, m) = Some ((q, m'), Ok false) /\
    looping b es [] event q m' /\ device_wrote q0 m m' /\
    gm_load16 m' (notify_cell q) = Ok (if q_event_idx_enabled q then q_next_avail q else 0).
Proof.
  intros Hlo. pose proof Hlo as [Hwf _ _ Hn _ Ho _ _ Ha]. pose proof (off_index _ _ _ Ho) as Hidx.
  simpl length in Hidx. rewrite wadd_0_r in Hidx by apply Hwf. pose proof (queue_wf_size q Hwf).
  destruct (enable_notification_answers q m (q_next_avail q) Hwf Hn Hidx) as (m' & Hr & Hld & Hov).
  { fold (notify_cell q). destruct (decide (avail_idx_addr q + 2 <= notify_cell q)); [by left|].
    destruct (decide (notify_cell q + 2 <= avail_idx_addr q)); [by right|]. exfalso.
    set (x := Z.max (avail_idx_addr q) (notify_cell q)).
    apply (Ha x); [unfold in_driver_area, avail_idx_addr in *; lia|].
    apply (notify_cell_device q x Hwf). lia. }
  fold (notify_cell q) in *. exists m'. rewrite bool_decide_false in Hr.
  - destruct (looping_notify _ _ _ _ _ _ _ _ Hlo Hov) as [Hlo' Hdw]; [|done].
    pose proof (enable_notification_safe q m Hwf) as (? & ? & ? & Hs & _ & Hl).
    rewrite Hr in Hs. by injection Hs as _ <- _.
  - intros Hne. apply Hne. by apply pending_0; [|apply Hwf|].
Qed.
End LoopFacts.

(** A condition on the heads joins what is known of their chains. *)
Lemma Forall2_with_l {A B} (P : A -> Prop) (R : A -> B -> Prop) l k :
  Forall P l -> Forall2 R l k -> Forall2 (fun x y => P x /\ R x y) l k.
Proof. intros Hl Hk. induction Hk; inversion Hl; constructor; auto. Qed.

(** The whole loop. *)
Lemma event_loop_serves {D M} `{GML : GuestMemoryLaws M}
    (handler : DescriptorChain -> D * M -> option ((D * M) * u32)) Inv q m d event heads fuel :
  loop_ready q m event -> offered q m heads -> Forall (fun h => 0 <= h < q_size q) heads ->
  serves handler q Inv -> Inv [] heads d m ->
  exists es q' d' m',
    event_loop handler (S fuel) [] (d, (q, m)) =
      Some ((d', (q', m')), Ok (signals_for q event (q_next_used q) (length heads))) /\
    ue_id <$> es = heads /\ used_view (q_next_used q) es q' m' /\ Inv es [] d' m' /\
    q_next_avail q' = wadd 16 (q_next_avail q) (Z.of_nat (length heads)) /\
    gm_load16 m' (notify_cell q') = Ok (if q_event_idx_enabled q then q_next_avail q' else 0).
Proof.
  intros [Hwf Hu Hn He Ha] Ho Hh Hsv Hinv.
  assert (looping q (q_next_used q) [] heads event q m) as Hlo.
  { split; try done. split_and!; [|done|done]. rewrite Z.add_0_r. symmetry. apply wrap_small, Hwf. }
  destruct (disable_spec q _ _ _ _ _ _ Hlo) as (m1 & Hdis & Hlo1 & Hdw1).
  destruct (consume_chains_spec handler q Inv heads (S (Z.to_nat (q_size q))) _ [] event d q m1 [] Hsv Hlo1)
    as (es & q2 & d2 & m2 & Hcons & Hes & Hlo2 & Hinv2 & Hna).
  { by eapply sv_stable. }
  { pose proof (off_count _ _ _ Ho). lia. }
  destruct (enable_spec q _ _ _ _ _ Hlo2) as (m3 & Hena & Hlo3 & Hdw3 & Hcell).
  destruct (lo_same _ _ _ _ _ _ _ Hlo2) as (_ & _ & _ & _ & Hev). rewrite Hev in Hcell.
  exists es, q2, d2, m3. split; [|split_and!; try done].
  - cbn [event_loop]. rewrite rm_bind_unfold. unfold on_queue at 1, unwrapped at 1.
    rewrite Hdis, rm_bind_unfold. cbn [gets]. unfold gets. cbn [fst snd].
    rewrite rm_bind_unfold, Hcons, rm_bind_unfold. unfold on_queue at 1, unwrapped. by rewrite Hena.
  - by destruct Hlo3.
  - by eapply sv_stable.
Qed.

(** ** Properties *)

(** C11: the documented device loop on a queue whose driver has offered [heads] processes and
    returns every chain, in order and once, whatever the handler does within its part of
    memory: the loop ends after one round, the used ring holds an element for each head after
    the old cursor, the available cursor has moved past all of them, the driver is notified
    for exactly the elements it waits for (the one at [event] with event indices, each of them
    without), notifications are enabled again, and the handler has seen all chains. *)
Theorem device_loop_serves {D M} `{GML : GuestMemoryLaws M}
    (handler : DescriptorChain -> D * M -> option ((D * M) * u32)) Inv q m d event heads fuel :
  loop_ready q m event -> offered q m heads -> Forall (fun h => 0 <= h < q_size q) heads ->
  serves handler q Inv -> Inv [] heads d m ->
  exists es q' d' m',
    event_loop handler (S fuel) [] (d, (q, m)) =
      Some ((d', (q', m')), Ok (signals_for q event (q_next_used q) (length heads))) /\
    ue_id <$> es = heads /\ used_view (q_next_used q) es q' m' /\ Inv es [] d' m' /\
    q_next_avail q' = wadd 16 (q_next_avail q) (Z.of_nat (length heads)) /\
    gm_load16 m' (notify_cell q') = Ok (if q_event_idx_enabled q then q_next_avail q' else 0).
Proof. apply event_loop_serves. Qed.

(** ** Concrete run *)

(** A device that counts the chains and reports 512 bytes for each. *)
Definition counting (c : DescriptorChain) (s : nat * FlatMem) : option ((nat * FlatMem) * u32) :=
  Some ((S (fst s), snd s), 512).

Lemma device_loop_serves_witness :
  exists es q' m',
    event_loop counting 1 [] (0%nat, (AvailExamples.q4, AvailExamples.mem)) =
      Some ((2%nat, (q', m')), Ok [true; true]) /\
    ue_id <$> es = [2; 0] /\ used_view 0 es q' m' /\ q_next_avail q' = 1.
Proof.
  destruct (device_loop_serves counting
    (fun es hs n _ => (n + length hs = 2)%nat) AvailExamples.q4 AvailExamples.mem 0%nat 0 [2; 0] 0)
    as (es & q' & n & m' & Hr & Hes & Hv & Hn & Ha & _).
  - split; [apply AvailExamples.avail_q4_wf| |by exists 0|done|].
    + split; [|by exists 0]. apply (fm_region_mapped _ 0x3000 0 0x10000); by vm_compute.
    + intros x. unfold in_driver_area, in_device_area. simpl. lia.
  - apply AvailExamples.avail_q4_offered.
  - repeat constructor; by vm_compute.
  - split; [|done]. intros es h hs n m Hn. eexists _, _, _. split; [done|].
    split; [apply same_layout_refl|]. split; [done|]. split; [by vm_compute|]. simpl in *. lia.
  - done.
  - simpl in Hn. replace n with 2%nat in Hr by lia. exists es, q', m'.
    split; [exact Hr|]. split; [exact Hes|]. by split.
Defined.

(** ** The example of the documentation *)

Definition documented_queue : result Error Queue :=
  match queue_new 1024 with
  | Err e => Err e
  | Ok q =>
      let q := queue_set_size 8 q in
      let q := set_desc_table_address (Some 0x1000) None q in
      let q := set_avail_ring_address (Some 0x2000) None q in
      let q := set_used_ring_address (Some 0x3000) None q in
      let q := set_event_idx true q in
      Ok (set_ready true q)
  end.

(** The example, with the answers of [needs_notification]; [None] is a failed
    assertion or a panic. *)
Definition documented_example : option (list bool) :=
  let m := from_ranges [(0, 0x10000)] in
  q ← to_option documented_queue;
  if negb (is_valid m q) then None
  else
    let m := fst (gm_write m 0x2002 (le_bytes 4 3)) in
    match event_loop (fun _ s => Some (s, 0x100)) 1 [] (tt, (q, m)) with
    | Some ((_, (q, _)), Ok signals) => if q_ready (reset q) then None else Some signals
    | _ => None
    end.

(** The example runs through: the driver, which waits for the first element, is notified once. *)
Theorem documented_example_runs : documented_example = Some [true; false; false].
Proof. vm_compute. reflexivity. Qed.
