(* ===== verification/QueueState.v ===== *)
(** * Saving and restoring a queue

    virtio-queue/src/state.rs: the plain-data state of a queue and the
    validation a restored queue goes through; virtio-queue-ser/src/state.rs:
    the serialisable copy of it; fuzz/common/src/virtio_queue_ser.rs: the copy
    the fuzzer uses.  The derived encoders (serde, versionize) are code of
    those libraries. *)

From stdpp Require Import base numbers list option.
From S2P Require Import Prelude Bytes GuestMemory FlatMemory Descriptor Chain Queue.
From S2P Require Import QueueFacts UsedRing.

Record QueueState : Type := mk_queue_state {
  st_max_size : u16;
  st_next_avail : u16;
  st_next_used : u16;
  st_event_idx_enabled : bool;
  st_size : u16;
  st_ready : bool;
  st_desc_table : u64;
  st_avail_ring : u64;
  st_used_ring : u64;
}.

Global Instance QueueState_eq_dec : EqDecision QueueState.
Proof. solve_decision. Defined.

(** [QueueState::default()]. *)
Definition queue_state_default : QueueState := mk_queue_state 0 0 0 false 0 false 0 0 0.

(** [Queue::state]. *)
Definition queue_state (q : Queue) : QueueState := {|
  st_max_size := q_max_size q;
  st_next_avail := q_next_avail q;
  st_next_used := q_next_used q;
  st_event_idx_enabled := q_event_idx_enabled q;
  st_size := q_size q;
  st_ready := q_ready q;
  st_desc_table := q_desc_table q;
  st_avail_ring := q_avail_ring q;
  st_used_ring := q_used_ring q;
|}.

(** [TryFrom<QueueState> for Queue]. *)
Definition queue_try_from (q_state : QueueState) : result Error Queue :=
  q ← queue_new (st_max_size q_state);
  let q := set_next_avail (st_next_avail q_state) q in
  let q := set_next_used (st_next_used q_state) q in
  let q := set_event_idx (st_event_idx_enabled q_state) q in
  q ← try_set_size (st_size q_state) q;
  let q := set_ready (st_ready q_state) q in
  q ← try_set_desc_table_address (st_desc_table q_state) q;
  q ← try_set_avail_ring_address (st_avail_ring q_state) q;
  q ← try_set_used_ring_address (st_used_ring q_state) q;
  mret q.

(** ** The serialisable copies *)

Record QueueStateSer : Type := mk_queue_state_ser {
  ser_max_size : u16;
  ser_next_avail : u16;
  ser_next_used : u16;
  ser_event_idx_enabled : bool;
  ser_size : u16;
  ser_ready : bool;
  ser_desc_table : u64;
  ser_avail_ring : u64;
  ser_used_ring : u64;
}.

Definition queue_state_of_ser (state : QueueStateSer) : QueueState := {|
  st_max_size := ser_max_size state;
  st_next_avail := ser_next_avail state;
  st_next_used := ser_next_used state;
  st_event_idx_enabled := ser_event_idx_enabled state;
  st_size := ser_size state;
  st_ready := ser_ready state;
  st_desc_table := ser_desc_table state;
  st_avail_ring := ser_avail_ring state;
  st_used_ring := ser_used_ring state;
|}.

Definition queue_state_ser_of (state : QueueState) : QueueStateSer := {|
  ser_max_size := st_max_size state;
  ser_next_avail := st_next_avail state;
  ser_next_used := st_next_used state;
  ser_event_idx_enabled := st_event_idx_enabled state;
  ser_size := st_size state;
  ser_ready := st_ready state;
  ser_desc_table := st_desc_table state;
  ser_avail_ring := st_avail_ring state;
  ser_used_ring := st_used_ring state;
|}.

Definition queue_state_ser_default : QueueStateSer := queue_state_ser_of queue_state_default.

Record FuzzingQueueState : Type := mk_fuzzing_queue_state {
  fz_max_size : u16;
  fz_next_avail : u16;
  fz_next_used : u16;
  fz_event_idx_enabled : bool;
  fz_size : u16;
  fz_ready : bool;
  fz_desc_table : u64;
  fz_avail_ring : u64;
  fz_used_ring : u64;
}.

Definition fuzzing_into_queue_state (s : FuzzingQueueState) : QueueState := {|
  st_max_size := fz_max_size s;
  st_next_avail := fz_next_avail s;
  st_next_used := fz_next_used s;
  st_event_idx_enabled := fz_event_idx_enabled s;
  st_size := fz_size s;
  st_ready := fz_ready s;
  st_desc_table := fz_desc_table s;
  st_avail_ring := fz_avail_ring s;
  st_used_ring := fz_used_ring s;
|}.

Definition queue_state_into_fuzzing (s : QueueState) : FuzzingQueueState := {|
  fz_max_size := st_max_size s;
  fz_next_avail := st_next_avail s;
  fz_next_used := st_next_used s;
  fz_event_idx_enabled := st_event_idx_enabled s;
  fz_size := st_size s;
  fz_ready := st_ready s;
  fz_desc_table := st_desc_table s;
  fz_avail_ring := st_avail_ring s;
  fz_used_ring := st_used_ring s;
|}.

(** ** Lemmas *)

(** The fields are integers of their width. *)
Record state_in_range (s : QueueState) : Prop := {
  sr_max_size : in_u 16 (st_max_size s);
  sr_next_avail : in_u 16 (st_next_avail s);
  sr_next_used : in_u 16 (st_next_used s);
  sr_size : in_u 16 (st_size s);
  sr_desc_table : in_u 64 (st_desc_table s);
  sr_avail_ring : in_u 64 (st_avail_ring s);
  sr_used_ring : in_u 64 (st_used_ring s);
}.

(** The checks of the validation, in its order. *)
Definition max_size_ok (s : QueueState) : Prop :=
  is_pow2 (st_max_size s) /\ st_max_size s <= MAX_QUEUE_SIZE.
Definition size_ok (s : QueueState) : Prop :=
  is_pow2 (st_size s) /\ st_size s <= st_max_size s.

(** The queue a valid state describes. *)
Definition queue_of_state (s : QueueState) : Queue :=
  mk_queue (st_max_size s) (st_next_avail s) (st_next_used s) (st_event_idx_enabled s) 0
    (st_size s) (st_ready s) (st_desc_table s) (st_avail_ring s) (st_used_ring s).

Lemma queue_new_outcome n :
  0 <= n ->
  (is_pow2 n /\ n <= MAX_QUEUE_SIZE /\
     queue_new n = Ok (mk_queue n 0 0 false 0 n false 0 0 0)) \/
  (~ (is_pow2 n /\ n <= MAX_QUEUE_SIZE) /\ queue_new n = Err InvalidMaxSize).
Proof.
  intros Hn. unfold queue_new. destruct (_ || _) eqn:Hc.
  - right. split; [|done]. intros [Hp Hle]. pose proof (is_pow2_pos n Hp).
    apply orb_true_iff in Hc as [Hc|Hc]; [apply orb_true_iff in Hc as [Hc|Hc]|]; zbool; try lia.
    apply Hc. by apply land_pred_pow2.
  - left. zbool. split_and!; [apply land_pred_pow2; [lia|done]|lia|done].
Qed.

Lemma try_set_size_outcome n q :
  0 <= n ->
  (is_pow2 n /\ n <= q_max_size q /\ try_set_size n q = Ok (with_size n q)) \/
  (~ (is_pow2 n /\ n <= q_max_size q) /\ try_set_size n q = Err InvalidSize).
Proof.
  intros Hn. destruct (try_set_size n q) as [q'|e] eqn:Ht.
  - left. apply try_set_size_ok in Ht as (? & ? & ->); [|done]. done.
  - right. split.
    + intros [Hp Hle].
      assert (try_set_size n q = Ok (with_size n q)) as Hok by (by apply try_set_size_ok).
      by rewrite Hok in Ht.
    + unfold try_set_size in Ht. case_match; simplify_eq. done.
Qed.

(** The alignment masks. *)
Lemma align_check a n : 0 <= n -> negb (Z.land a (2 ^ n - 1) =? 0) = negb (a mod 2 ^ n =? 0).
Proof. intros Hn. by rewrite land_ones_mod. Qed.

Lemma queue_of_state_wf s :
  state_in_range s -> max_size_ok s -> size_ok s ->
  st_desc_table s mod 16 = 0 -> st_avail_ring s mod 2 = 0 -> st_used_ring s mod 4 = 0 ->
  queue_wf (queue_of_state s).
Proof. intros [] [? ?] [? ?] ? ? ?. by split. Qed.

Lemma queue_state_of_state s : queue_state (queue_of_state s) = s.
Proof. by destruct s. Qed.

Lemma queue_state_ser_inv s : queue_state_of_ser (queue_state_ser_of s) = s.
Proof. by destruct s. Qed.

(** The outcome of the validation. *)
Lemma queue_try_from_outcome s :
  state_in_range s ->
  (~ max_size_ok s /\ queue_try_from s = Err InvalidMaxSize) \/
  (max_size_ok s /\ ~ size_ok s /\ queue_try_from s = Err InvalidSize) \/
  (max_size_ok s /\ size_ok s /\ queue_try_from s =
    if negb (st_desc_table s mod 16 =? 0) then Err InvalidDescTableAlign
    else if negb (st_avail_ring s mod 2 =? 0) then Err InvalidAvailRingAlign
    else if negb (st_used_ring s mod 4 =? 0) then Err InvalidUsedRingAlign
    else Ok (queue_of_state s)).
Proof.
  intros Hr. unfold queue_try_from.
  destruct (queue_new_outcome (st_max_size s)) as [(Hp & Hle & ->)|[Hn ->]]; [apply Hr| |by left].
  right. simpl. set (q := set_event_idx _ _).
  destruct (try_set_size_outcome (st_size s) q) as [(Hp' & Hle' & ->)|[Hn ->]];
    [apply Hr| |by left].
  right. split; [done|]. split; [done|]. simpl.
  unfold try_set_desc_table_address, try_set_avail_ring_address, try_set_used_ring_address.
  change 0xf with (2 ^ 4 - 1). change 0x1 with (2 ^ 1 - 1). change 0x3 with (2 ^ 2 - 1).
  rewrite !align_check by done. change (2 ^ 4) with 16. change (2 ^ 2) with 4. change (2 ^ 1) with 2.
  by repeat (case_match; simpl).
Qed.

(** ** Properties *)

(** C36: saving a queue, through the serialisable copy or not, and restoring it gives back the
    same queue, except that the count of elements added since the last notification restarts
    at zero. *)
Theorem save_restore q :
  queue_wf q ->
  queue_try_from (queue_state q) = Ok (with_num_added 0 q) /\
  queue_try_from (queue_state_of_ser (queue_state_ser_of (queue_state q))) =
    Ok (with_num_added 0 q) /\
  queue_try_from (fuzzing_into_queue_state (queue_state_into_fuzzing (queue_state q))) =
    Ok (with_num_added 0 q).
Proof.
  intros Hwf. rewrite queue_state_ser_inv.
  assert (queue_try_from (queue_state q) = Ok (with_num_added 0 q)) as H; [|by split_and!].
  pose proof (queue_wf_size q Hwf) as Hs. destruct Hwf as [[Hm1 Hm2] [Hs1 Hs2] ? ? ? [? Hd] [? Ha] [? Hu]].
  pose proof (is_pow2_pos _ Hm1). unfold MAX_QUEUE_SIZE in *.
  destruct (queue_try_from_outcome (queue_state q)) as [[Hn _]|[(_ & Hn & _)|(_ & _ & ->)]].
  - split; simpl; try done; unfold in_u; change (2 ^ 16) with 65536; lia.
  - by destruct Hn.
  - by destruct Hn.
  - simpl. by rewrite Hd, Ha, Hu.
Qed.

Lemma queue_try_from_wf s q : state_in_range s -> queue_try_from s = Ok q -> queue_wf q.
Proof.
  intros Hr Hq. destruct (queue_try_from_outcome s Hr) as [[_ He]|[(_ & _ & He)|(Hm & Hs & He)]];
    rewrite He in Hq; [done..|]. repeat (case_match; zbool); simplify_eq. by apply queue_of_state_wf.
Qed.

(** C37: a state from an untrusted source is accepted exactly when its sizes are powers of two
    within their bounds and its addresses are aligned; the accepted queue satisfies the
    invariant and has that state.  Each of the five errors is returned exactly when its check
    fails and the checks before it (maximal size, size, descriptor table, available ring, used
    ring) succeed. *)
Theorem restore_validates s :
  state_in_range s ->
  (forall q, queue_try_from s = Ok q <->
     max_size_ok s /\ size_ok s /\ st_desc_table s mod 16 = 0 /\ st_avail_ring s mod 2 = 0 /\
     st_used_ring s mod 4 = 0 /\ q = queue_of_state s) /\
  (forall q, queue_try_from s = Ok q -> queue_wf q /\ queue_state q = s) /\
  (queue_try_from s = Err InvalidMaxSize <-> ~ max_size_ok s) /\
  (queue_try_from s = Err InvalidSize <-> max_size_ok s /\ ~ size_ok s) /\
  (queue_try_from s = Err InvalidDescTableAlign <->
     max_size_ok s /\ size_ok s /\ st_desc_table s mod 16 <> 0) /\
  (queue_try_from s = Err InvalidAvailRingAlign <->
     max_size_ok s /\ size_ok s /\ st_desc_table s mod 16 = 0 /\ st_avail_ring s mod 2 <> 0) /\
  (queue_try_from s = Err InvalidUsedRingAlign <->
     max_size_ok s /\ size_ok s /\ st_desc_table s mod 16 = 0 /\ st_avail_ring s mod 2 = 0 /\
     st_used_ring s mod 4 <> 0).
Proof.
  intros Hr. destruct (queue_try_from_outcome s Hr) as [[Hn ->]|[(Hm & Hn & ->)|(Hm & Hs & ->)]].
  - naive_solver.
  - naive_solver.
  - repeat (case_match; zbool); (split_and!; [|intros q [=]; subst|..]); try (clear Hr; naive_solver).
    split; [by apply queue_of_state_wf|apply queue_state_of_state].
Qed.

(** ** Concrete runs *)

Lemma save_restore_witness :
  queue_try_from (queue_state_of_ser (queue_state_ser_of (queue_state UsedExamples.q4))) =
    Ok (with_num_added 0 UsedExamples.q4).
Proof. apply (save_restore UsedExamples.q4 UsedExamples.used_q4_wf). Defined.

(** A size that is not a power of two, and two misaligned rings of which the
    first is reported. *)
Lemma restore_validates_witness :
  queue_try_from (mk_queue_state 16 0 0 false 5 true 0 0 0) = Err InvalidSize /\
  queue_try_from (mk_queue_state 16 0 0 false 16 true 0 1 2) = Err InvalidAvailRingAlign.
Proof.
  split; apply restore_validates; try (by split; vm_compute).
  - split; [split; [by exists 4|by vm_compute]|].
    intros [(k & Hk & Heq) _]. simpl in Heq.
    assert (k < 3) by (apply (Z.pow_lt_mono_r_iff 2); lia).
    assert (k = 0 \/ k = 1 \/ k = 2) as [->|[->| ->]] by lia; done.
  - split_and!; [split; [by exists 4|by vm_compute]..|by vm_compute|by vm_compute].
Defined.
