(* ===== verification/QueueConfig.v ===== *)
(** * Configuring a queue

    The exact effect of the setters a transport calls on behalf of the driver
    ([set_size] and the three [set_*_address] of virtio-queue/src/queue.rs),
    and what [is_valid] checks. *)

From stdpp Require Import base numbers list option.
From S2P Require Import Prelude Bytes GuestMemory FlatMemory Descriptor Chain Queue.
From S2P Require Import QueueFacts UsedRing QueueState.

(** The address a setter is given: each half that is absent is the half of the
    old address. *)
Definition requested_address (old : u64) (low high : option u32) : Z :=
  default (old / 2 ^ 32) high * 2 ^ 32 + default (old mod 2 ^ 32) low.

Lemma join_address_requested old low high :
  in_u 64 old -> opt_u32 low -> opt_u32 high ->
  join_address old low high = requested_address old low high.
Proof.
  intros Ho Hl Hh. destruct (join_address_value old low high Ho Hl Hh) as [-> _].
  unfold requested_address. by rewrite Z.shiftr_div_pow2.
Qed.

(** A setter with an alignment mask of [n] bits. *)
Lemma masked_setter n a (q q' : Queue) e :
  0 <= n ->
  or_keep q (if negb (Z.land a (2 ^ n - 1) =? 0) then Err e else Ok q') =
    if decide (a mod 2 ^ n = 0) then q' else q.
Proof.
  intros Hn. rewrite align_check by done. case_decide as Ha.
  - by rewrite Ha.
  - by rewrite (proj2 (Z.eqb_neq _ _) Ha).
Qed.

(** Both halves of an address, as a transport or the mock passes them. *)
Lemma join_both_halves old a : in_u 64 a ->
  join_address old (Some (wrap 32 a)) (Some (wrap 32 (Z.shiftr a 32))) = a.
Proof.
  intros Hin. destruct (high_half a Hin) as [Hh Heq]. unfold join_address. cbn [default].
  rewrite (wrap_small 32 (Z.shiftr a 32)) by done. rewrite join_halves; [done| |done].
  by apply in_u_wrap.
Qed.

Section BothHalves.
Variables (q : Queue) (a : Z).
Hypothesis Ha : in_u 64 a.

Lemma set_desc_table_both :
  set_desc_table_address (Some (wrap 32 a)) (Some (wrap 32 (Z.shiftr a 32))) q =
    if decide (a mod 16 = 0) then with_desc_table a q else q.
Proof.
  unfold set_desc_table_address, try_set_desc_table_address. rewrite join_both_halves by done.
  by rewrite (masked_setter 4).
Qed.

Lemma set_avail_ring_both :
  set_avail_ring_address (Some (wrap 32 a)) (Some (wrap 32 (Z.shiftr a 32))) q =
    if decide (a mod 2 = 0) then with_avail_ring a q else q.
Proof.
  unfold set_avail_ring_address, try_set_avail_ring_address. rewrite join_both_halves by done.
  by rewrite (masked_setter 1).
Qed.

Lemma set_used_ring_both :
  set_used_ring_address (Some (wrap 32 a)) (Some (wrap 32 (Z.shiftr a 32))) q =
    if decide (a mod 4 = 0) then with_used_ring a q else q.
Proof.
  unfold set_used_ring_address, try_set_used_ring_address. rewrite join_both_halves by done.
  by rewrite (masked_setter 2).
Qed.
End BothHalves.

(** The address setters replace the given halves of the old address and store the result
    exactly when it is aligned as the specification requires (16, 2 and 4 bytes); otherwise the
    queue is unchanged. *)
Theorem set_addresses_exact q low high :
  queue_wf q -> opt_u32 low -> opt_u32 high ->
  (let a := requested_address (q_desc_table q) low high in
   set_desc_table_address low high q = if decide (a mod 16 = 0) then with_desc_table a q else q) /\
  (let a := requested_address (q_avail_ring q) low high in
   set_avail_ring_address low high q = if decide (a mod 2 = 0) then with_avail_ring a q else q) /\
  (let a := requested_address (q_used_ring q) low high in
   set_used_ring_address low high q = if decide (a mod 4 = 0) then with_used_ring a q else q).
Proof.
  intros Hwf Hl Hh. destruct Hwf as [_ _ _ _ _ [Hd _] [Ha _] [Hu _]]. split_and!.
  - unfold set_desc_table_address, try_set_desc_table_address.
    rewrite join_address_requested by done. by rewrite (masked_setter 4).
  - unfold set_avail_ring_address, try_set_avail_ring_address.
    rewrite join_address_requested by done. by rewrite (masked_setter 1).
  - unfold set_used_ring_address, try_set_used_ring_address.
    rewrite join_address_requested by done. by rewrite (masked_setter 2).
Qed.

(** [set_size] takes effect exactly for the powers of two up to the maximum size, and
    [new] accepts exactly the powers of two up to 32768. *)
Theorem set_size_exact q size :
  in_u 16 size ->
  ((is_pow2 size /\ size <= q_max_size q) /\ queue_set_size size q = with_size size q \/
   ~ (is_pow2 size /\ size <= q_max_size q) /\ queue_set_size size q = q) /\
  ((exists q', queue_new size = Ok q') <-> is_pow2 size /\ size <= MAX_QUEUE_SIZE).
Proof.
  intros [Hs _]. unfold queue_set_size. split.
  - destruct (try_set_size_outcome size q Hs) as [(? & ? & ->)|[? ->]]; naive_solver.
  - destruct (queue_new_outcome size Hs) as [(? & ? & ->)|[? ->]]; naive_solver.
Qed.

(** ** [is_valid] *)

Section Valid.
Context {M : Type} `{GML : GuestMemoryLaws M}.
Implicit Types m : M.

(** The address after the last byte of each part. *)
Definition desc_table_end (q : Queue) : Z := q_desc_table q + 16 * q_size q.
Definition avail_ring_end (q : Queue) : Z := q_avail_ring q + 6 + 2 * q_size q.
Definition used_ring_end (q : Queue) : Z := q_used_ring q + 6 + 8 * q_size q.

(** The bounds test: an address in guest memory is a 64-bit address. *)
Lemma out_of_bounds_spec m a n :
  match checked_add 64 a n with None => true | Some v => negb (gm_in_range m v) end = false <->
  mapped m (a + n).
Proof.
  unfold checked_add. destruct (_ <? _) eqn:Hc; simpl.
  - rewrite negb_false_iff. apply law_in_range.
  - split; [done|]. intros [b Hb]. apply law_byte in Hb as [_ [_ ?]]. zbool. lia.
Qed.

Lemma is_valid_spec m q :
  is_valid m q = true <->
  q_ready q = true /\ mapped m (desc_table_end q) /\ mapped m (avail_ring_end q) /\
  mapped m (used_ring_end q).
Proof.
  unfold is_valid, desc_table_end, avail_ring_end, used_ring_end.
  change (Z.of_nat (bv_size RawDescriptor)) with 16.
  unfold VIRTQ_AVAIL_RING_META_SIZE, VIRTQ_USED_RING_META_SIZE, VIRTQ_AVAIL_RING_HEADER_SIZE,
    VIRTQ_USED_RING_HEADER_SIZE, VIRTQ_AVAIL_ELEMENT_SIZE, VIRTQ_USED_ELEMENT_SIZE.
  replace (4 + 2 + 2 * q_size q) with (6 + 2 * q_size q) by lia.
  replace (4 + 2 + 8 * q_size q) with (6 + 8 * q_size q) by lia.
  rewrite <- !Z.add_assoc, <- !out_of_bounds_spec.
  destruct (q_ready q); simpl; [|naive_solver].
  repeat case_match; naive_solver.
Qed.
End Valid.

(** [is_valid] holds exactly when the queue is ready and the address just past each of its
    three parts lies in guest memory; the parts themselves are not looked at. *)
Theorem is_valid_exact {M} `{GML : GuestMemoryLaws M} (m : M) q :
  is_valid m q = true <->
  q_ready q = true /\ mapped m (desc_table_end q) /\ mapped m (avail_ring_end q) /\
  mapped m (used_ring_end q).
Proof. apply is_valid_spec. Qed.

(** So a queue can be valid although none of its used ring is guest memory, and a queue
    whose parts all lie in guest memory can be invalid, because one ends where memory ends. *)
Theorem is_valid_gap :
  exists (m m' : FlatMem) (q : Queue),
    queue_wf q /\ is_valid m q = true /\ ~ mapped m (q_used_ring q) /\
    range_mapped m' (q_desc_table q) (16 * q_size q) /\
    range_mapped m' (q_avail_ring q) (6 + 2 * q_size q) /\
    range_mapped m' (q_used_ring q) (6 + 8 * q_size q) /\ q_ready q = true /\
    is_valid m' q = false.
Proof.
  exists (from_ranges [(0, 0x3000); (0x3026, 0x1000)]), (from_ranges [(0, 0x3026)]),
    UsedExamples.q4.
  split_and!; [apply UsedExamples.used_q4_wf|by vm_compute| | | | |done|by vm_compute].
  - intros [b Hb]. by vm_compute in Hb.
  - apply (fm_region_mapped _ 0 0 0x3026); by vm_compute.
  - apply (fm_region_mapped _ 0 0 0x3026); by vm_compute.
  - apply (fm_region_mapped _ 0 0 0x3026); by vm_compute.
Qed.

(** ** Concrete runs *)

Lemma set_addresses_exact_witness :
  set_used_ring_address (Some 0x8000) (Some 1) UsedExamples.q4 =
    with_used_ring 0x100008000 UsedExamples.q4.
Proof.
  destruct (set_addresses_exact UsedExamples.q4 (Some 0x8000) (Some 1) UsedExamples.used_q4_wf)
    as (_ & _ & H).
  - intros v [= <-]. by vm_compute.
  - intros v [= <-]. by vm_compute.
  - exact H.
Defined.

Lemma set_size_exact_witness : queue_set_size 8 UsedExamples.q4 = with_size 8 UsedExamples.q4.
Proof.
  destruct (set_size_exact UsedExamples.q4 8 ltac:(by vm_compute)) as [[[_ H]|[Hn _]] _].
  - exact H.
  - exfalso. apply Hn. split; [by exists 3|by vm_compute].
Defined.

Lemma is_valid_exact_witness : is_valid UsedExamples.mem UsedExamples.q4 = true.
Proof.
  apply is_valid_exact. split; [reflexivity|]. repeat split; eexists; by vm_compute.
Defined.
