(* ===== verification/KaniHarness.v ===== *)
(** * The proof harness of the queue

    virtio-queue/src/queue/verification.rs: the queues and memories over which
    Kani checks [verify_spec_2_7_7_2] (the assertion itself is in
    Notification), and the single-region memory made for it.  A value of
    [kani::any] is an argument, a failed [kani::assume] is [None].  The region
    of vm-memory that the memory wraps is a parameter, and so are the methods
    that the trait [GuestMemory] of vm-memory provides on top of the ones the
    memory implements; the harness calls [address_in_range] and [load]. *)

From stdpp Require Import base numbers list option.
From S2P Require Import Prelude Bytes GuestMemory FlatMemory Descriptor Chain Queue.
From S2P Require Import QueueFacts UsedRing AvailRing Notification QueueState QueueConfig.

(** ** Memory of one region *)

(** The methods of [GuestRegionMmap] the harness calls. *)
Class GuestRegion (R : Type) : Type := {
  to_region_addr : R -> u64 -> option u64;
  checked_offset : R -> u64 -> usize -> option u64;
  (** [Bytes::load] of a 16-bit integer at an offset in the region. *)
  region_load16 : R -> u64 -> result GuestMemoryError u16;
}.

(** Their documentation: the offset of an address in the region, "the address
    plus the offset if it is in range", and a load at an aligned place inside
    the region succeeds. *)
Class GuestRegionLaws (R : Type) `{GuestRegion R} (r : R) (start len : Z) : Prop := {
  law_to_region_addr : forall a o,
    to_region_addr r a = Some o <-> start <= a < start + len /\ o = a - start;
  law_checked_offset : forall b n x,
    checked_offset r b n = Some x <-> b + n < len /\ x = b + n;
  law_region_load16 : forall o,
    0 <= o -> o + 2 <= len -> o mod 2 = 0 -> exists v, region_load16 r o = Ok v;
}.

Record SingleRegionGuestMemory (R : Type) : Type := mk_single_region { the_region : R }.
Arguments mk_single_region {R}.
Arguments the_region {R}.

Section SingleRegion.
Context {R : Type} `{GuestRegion R}.

Definition num_regions (m : SingleRegionGuestMemory R) : usize := 1.

Definition find_region (m : SingleRegionGuestMemory R) (addr : u64) : option R :=
  match to_region_addr (the_region m) addr with None => None | Some _ => Some (the_region m) end.

Definition single_iter (m : SingleRegionGuestMemory R) : list R := [the_region m].

Definition try_access (m : SingleRegionGuestMemory R) (count : usize) (addr : u64)
    (f : usize -> usize -> u64 -> R -> result GuestMemoryError usize)
    : result GuestMemoryError usize :=
  region_addr ← ok_or (InvalidGuestAddress addr) (to_region_addr (the_region m) addr);
  _ ← ok_or (InvalidGuestAddress addr) (checked_offset (the_region m) region_addr count);
  f 0 count region_addr (the_region m).
End SingleRegion.

(** The provided methods of the trait, as documented: an address is in range
    when a region has it, and a load goes to that region. *)
Class ProvidedMethods (R : Type) `{GuestRegion R} `{GuestMemory (SingleRegionGuestMemory R)} : Prop := {
  pm_in_range : forall (m : SingleRegionGuestMemory R) a,
    gm_in_range m a = true <-> is_Some (find_region m a);
  pm_load16 : forall (m : SingleRegionGuestMemory R) a r o,
    find_region m a = Some r -> to_region_addr r a = Some o -> gm_load16 m a = region_load16 r o;
}.

(** ** The layout *)

Definition GUEST_MEMORY_BASE : u64 := 0.
Definition KANI_MAX_QUEUE_SIZE : u16 := 4.
Definition QUEUE_BASE_ADDRESS : u64 := GUEST_MEMORY_BASE.
Definition MAX_START_AVAIL_RING_BASE_ADDRESS : u64 := QUEUE_BASE_ADDRESS + KANI_MAX_QUEUE_SIZE * 16.
Definition MAX_START_USED_RING_BASE_ADDRESS : u64 :=
  MAX_START_AVAIL_RING_BASE_ADDRESS + 6 + 2 * KANI_MAX_QUEUE_SIZE + 2.
Definition QUEUE_END : u64 := MAX_START_USED_RING_BASE_ADDRESS + 6 + 8 * KANI_MAX_QUEUE_SIZE.
Definition GUEST_MEMORY_SIZE : usize := QUEUE_END + 30.

(** ** The queues *)

(** The values [kani::any] yields, in order. *)
Record Arbitrary : Type := mk_arbitrary {
  any_desc_tbl_queue_size : u16;
  any_avail_ring_queue_size : u16;
  any_used_ring_queue_size : u16;
  any_next_avail : u16;
  any_next_used : u16;
  any_event_idx : bool;
  any_num_added : u16;
}.

Definition assume (b : bool) : option unit := if b then Some tt else None.

(** [ProofContext::any] for the memory [m]. *)
Definition proof_context {M} `{GuestMemory M} (v : Arbitrary) (m : M) : option (Queue * M) :=
  let desc_tbl_queue_size := any_desc_tbl_queue_size v in
  _ ← assume ((desc_tbl_queue_size <=? 16 * KANI_MAX_QUEUE_SIZE)
              && (Z.land desc_tbl_queue_size 0xF =? 0));
  let avail_ring_base_address := QUEUE_BASE_ADDRESS + desc_tbl_queue_size in
  let avail_ring_queue_size := any_avail_ring_queue_size v in
  _ ← assume ((avail_ring_queue_size <=? 6 + 2 * KANI_MAX_QUEUE_SIZE + 2)
              && (Z.land avail_ring_queue_size 0x1 =? 0));
  let used_ring_base_address := avail_ring_base_address + avail_ring_queue_size in
  let used_ring_queue_size := any_used_ring_queue_size v in
  _ ← assume ((avail_ring_queue_size <=? 6 + 8 * KANI_MAX_QUEUE_SIZE)
              && (Z.land used_ring_queue_size 0x3 =? 0));
  _ ← assume (QUEUE_END =? used_ring_base_address + used_ring_queue_size);
  let low a := Some (wrap 32 a) in
  let high a := Some (wrap 32 (Z.shiftr a 32)) in
  queue ← to_option (queue_new KANI_MAX_QUEUE_SIZE);
  let queue := with_ready true queue in
  let queue := set_desc_table_address (low QUEUE_BASE_ADDRESS) (high QUEUE_BASE_ADDRESS) queue in
  let queue :=
    set_avail_ring_address (low avail_ring_base_address) (high avail_ring_base_address) queue in
  let queue :=
    set_used_ring_address (low used_ring_base_address) (high used_ring_base_address) queue in
  let queue := set_next_avail (any_next_avail v) queue in
  let queue := set_next_used (any_next_used v) queue in
  let queue := set_event_idx (any_event_idx v) queue in
  let queue := with_num_added (any_num_added v) queue in
  _ ← assume (is_valid m queue);
  Some (queue, m).

(** The arbitrary values have their width. *)
Record arbitrary_ok (v : Arbitrary) : Prop := {
  ao_desc : in_u 16 (any_desc_tbl_queue_size v);
  ao_avail : in_u 16 (any_avail_ring_queue_size v);
  ao_used : in_u 16 (any_used_ring_queue_size v);
  ao_next_avail : in_u 16 (any_next_avail v);
  ao_next_used : in_u 16 (any_next_used v);
  ao_num_added : in_u 16 (any_num_added v);
}.

Lemma assume_bind {A} b (k : option A) x : (_ ← assume b; k) = Some x -> b = true /\ k = Some x.
Proof. by destruct b. Qed.

Section Harness.
Context {M : Type} `{GuestMemory M}.
Implicit Types m : M.

(** The queue of a context.  The layout ends at an address that is two modulo
    four, so the used ring is never aligned and its setter keeps the default. *)
Lemma proof_context_queue v m q m' :
  arbitrary_ok v -> proof_context v m = Some (q, m') ->
  m' = m /\ is_valid m q = true /\
  0 <= any_desc_tbl_queue_size v <= 64 /\ any_desc_tbl_queue_size v mod 16 = 0 /\
  q = mk_queue 4 (any_next_avail v) (any_next_used v) (any_event_idx v) (any_num_added v) 4 true
        0 (any_desc_tbl_queue_size v) DEFAULT_USED_RING_ADDR.
Proof.
  intros [[Hd0 _] [Ha0 _] [Hu0 _] _ _ _] Hc. unfold proof_context in Hc.
  cbv zeta in Hc. do 4 (apply assume_bind in Hc as [? Hc]).
  assert (queue_new KANI_MAX_QUEUE_SIZE = Ok (mk_queue 4 0 0 false 0 4 false 0 0 0)) as Hnew by reflexivity.
  rewrite Hnew in Hc. cbn [to_option] in Hc. apply bind_Some in Hc as (q0 & Hq0 & Hc). injection Hq0 as <-.
  apply assume_bind in Hc as [Hv Hc]. injection Hc as Hq <-. clear Hnew.
  revert Hv Hq. change KANI_MAX_QUEUE_SIZE with 4 in *. change QUEUE_BASE_ADDRESS with 0 in *.
  change QUEUE_END with 118 in *. rewrite !Z.add_0_l in *.
  set (d := any_desc_tbl_queue_size v) in *. set (a := any_avail_ring_queue_size v) in *.
  set (u := any_used_ring_queue_size v) in *. zbool.
  change 0xF with (2 ^ 4 - 1) in *. change 0x3 with (2 ^ 2 - 1) in *.
  rewrite !land_ones_mod in * by done. change (2 ^ 4) with 16 in *. change (2 ^ 2) with 4 in *.
  assert (in_u 64 d /\ in_u 64 (d + a)) as [Hd64 Ha64] by (unfold in_u; lia).
  assert (d mod 2 = 0 /\ (d + a) mod 4 <> 0) as [Hd2 Hda].
  { pose proof (Z.div_mod d 16 ltac:(lia)). pose proof (Z.div_mod u 4 ltac:(lia)).
    split; [apply Z.mod_divide; [lia|]; exists (8 * (d / 16)); lia|].
    intros Hm. apply Z.mod_divide in Hm as [k Hk]; [|lia]. lia. }
  rewrite set_avail_ring_both, set_used_ring_both by done.
  rewrite (decide_False (P := (d + a) mod 4 = 0)), decide_True by done.
  intros Hv <-. split_and!; [done|done|lia|lia|done|done].
Qed.

Lemma context_queue_wf v d :
  arbitrary_ok v -> 0 <= d <= 64 -> d mod 16 = 0 ->
  queue_wf (mk_queue 4 (any_next_avail v) (any_next_used v) (any_event_idx v) (any_num_added v) 4 true
    0 d DEFAULT_USED_RING_ADDR).
Proof.
  intros [_ _ _ ? ? ?] Hd Hm. split; simpl; try done; try (split; try done; by exists 2).
  split; [unfold in_u; lia|]. apply Z.mod_divide in Hm as [k ->]; [|lia].
  apply Z.mod_divide; [lia|]. exists (8 * k). lia.
Qed.
End Harness.

(** A load of an aligned word inside of the only region succeeds. *)
Lemma single_region_load16 {R} `{PM : ProvidedMethods R} (r : R) start len a :
  GuestRegionLaws R r start len -> start mod 2 = 0 -> a mod 2 = 0 ->
  start <= a -> a + 2 <= start + len -> exists v, gm_load16 (mk_single_region r) a = Ok v.
Proof.
  intros [Hto _ Hld] Hs Ha Hlo Hhi.
  assert (to_region_addr r a = Some (a - start)) as Ho by (apply Hto; lia).
  assert (find_region (mk_single_region r) a = Some r) as Hf.
  { unfold find_region. simpl. by rewrite Ho. }
  rewrite (pm_load16 _ _ _ _ Hf Ho). apply Hld; [lia|lia|].
  rewrite Zminus_mod, Hs, Ha. done.
Qed.

(** ** Properties *)

(** C24: the harness of the repository succeeds on its own memory: for all the values it makes
    arbitrary and every region of the size and base it maps, whatever the bytes, whenever its
    assumptions hold the queue is well formed, the loads it unwraps succeed and its assertions
    hold.  The region and the provided methods of the trait are those of vm-memory, used as
    documented. *)
Theorem kani_harness_passes {R} `{PM : ProvidedMethods R} v (r : R) q m' :
  arbitrary_ok v -> GuestRegionLaws R r GUEST_MEMORY_BASE GUEST_MEMORY_SIZE ->
  proof_context v (mk_single_region r) = Some (q, m') ->
  m' = mk_single_region r /\ queue_wf q /\ verify_spec_2_7_7_2 q m' = true.
Proof.
  intros Hv Hr Hc.
  destruct (proof_context_queue v (mk_single_region r) q m' Hv Hc) as (-> & _ & Hd & Hm & ->).
  pose proof (context_queue_wf v _ Hv Hd Hm) as Hwf. split; [done|]. split; [done|].
  destruct (single_region_load16 r GUEST_MEMORY_BASE GUEST_MEMORY_SIZE
    (any_desc_tbl_queue_size v + 12) Hr) as [event Hev].
  - done.
  - apply Z.mod_divide in Hm as [k ->]; [|lia]. apply Z.mod_divide; [lia|]. exists (8 * k + 6). lia.
  - change GUEST_MEMORY_BASE with 0. lia.
  - change (GUEST_MEMORY_BASE + GUEST_MEMORY_SIZE) with 148. lia.
  - apply (spec_2_7_7_2_ok _ _ event Hwf); unfold used_event_addr; simpl;
      unfold VIRTQ_AVAIL_RING_HEADER_SIZE, VIRTQ_AVAIL_ELEMENT_SIZE; [lia|].
    by rewrite <- Z.add_assoc.
Qed.

(** No queue of the harness has the used ring it lays out: the end of the layout is two
    modulo four while the size of the used ring is a multiple of four, so the address of the
    used ring is never aligned, its setter rejects it, and the ring stays at the default
    address 0, on top of the descriptor table. *)
Theorem kani_used_ring_is_default {M} `{GuestMemory M} v (m : M) q m' :
  arbitrary_ok v -> proof_context v m = Some (q, m') ->
  q_used_ring q = DEFAULT_USED_RING_ADDR /\ q_used_ring q = q_desc_table q.
Proof. intros Hv Hc. by destruct (proof_context_queue v m q m' Hv Hc) as (_ & _ & _ & _ & ->). Qed.

(** [try_access] of the memory made for the harness passes an access on, in one piece, exactly
    when its end lies inside of the region; an access that ends with the last byte of the
    region is refused, as is one that starts inside and ends outside. *)
Theorem single_region_access {R} `{GuestRegion R} (r : R) start len count addr f :
  GuestRegionLaws R r start len -> 0 <= count ->
  try_access (mk_single_region r) count addr f =
    if decide (start <= addr /\ addr + count < start + len)
    then f 0 count (addr - start) r else Err (InvalidGuestAddress addr).
Proof.
  intros [Hto Hoff _] Hc. unfold try_access. simpl. case_decide as Hd.
  - rewrite (proj2 (Hto addr (addr - start))) by lia. simpl.
    by rewrite (proj2 (Hoff (addr - start) count (addr - start + count))) by lia.
  - destruct (to_region_addr r addr) as [o|] eqn:Ht; simpl; [|done].
    apply Hto in Ht as [Ha ->]. destruct (checked_offset r _ count) as [x|] eqn:Hx; simpl; [|done].
    apply Hoff in Hx as [Hx _]. lia.
Qed.

(** ** Concrete runs *)

Module KaniExamples.
Definition any_values : Arbitrary := mk_arbitrary 64 14 40 65535 3 true 2.

Lemma any_values_ok : arbitrary_ok any_values.
Proof. split; by vm_compute. Qed.

(** A region as its start and its bytes. *)
Record ByteRegion : Type := mk_byte_region { br_start : Z; br_bytes : list Z }.

Definition br_len (r : ByteRegion) : Z := Z.of_nat (length (br_bytes r)).

Definition br_load16 (r : ByteRegion) (o : Z) : result GuestMemoryError u16 :=
  if decide (0 <= o /\ o + 2 <= br_len r /\ o mod 2 = 0)
  then Ok (le_value (take 2 (drop (Z.to_nat o) (br_bytes r))))
  else Err (OtherMemoryError 0).

Global Instance byte_region : GuestRegion ByteRegion := {|
  to_region_addr := fun r a =>
    if decide (br_start r <= a < br_start r + br_len r) then Some (a - br_start r) else None;
  checked_offset := fun r b n => if decide (b + n < br_len r) then Some (b + n) else None;
  region_load16 := br_load16;
|}.

Lemma byte_region_laws r : GuestRegionLaws ByteRegion r (br_start r) (br_len r).
Proof.
  split; simpl; intros.
  - case_decide; naive_solver.
  - case_decide; naive_solver.
  - unfold br_load16. rewrite decide_True by done. eauto.
Qed.

(** The provided methods on it: a read or a write is one access. *)
Definition single_bytes (m : SingleRegionGuestMemory ByteRegion) (a : Z) (n : nat)
    : result GuestMemoryError (list Z) :=
  _ ← try_access m (Z.of_nat n) a (fun _ count _ _ => Ok count);
  Ok (take n (drop (Z.to_nat (a - br_start (the_region m))) (br_bytes (the_region m)))).

Definition set_bytes (m : SingleRegionGuestMemory ByteRegion) (o : nat) (bs : list Z)
    : SingleRegionGuestMemory ByteRegion :=
  let r := the_region m in
  mk_single_region (mk_byte_region (br_start r)
    (take o (br_bytes r) ++ bs ++ drop (o + length bs) (br_bytes r))).

Definition at_region {A} (m : SingleRegionGuestMemory ByteRegion) (a : Z)
    (f : ByteRegion -> Z -> result GuestMemoryError A) : result GuestMemoryError A :=
  match find_region m a with
  | None => Err (InvalidGuestAddress a)
  | Some r => match to_region_addr r a with
              | None => Err (InvalidGuestAddress a)
              | Some o => f r o
              end
  end.

Global Instance single_memory : GuestMemory (SingleRegionGuestMemory ByteRegion) := {|
  gm_read := single_bytes;
  gm_write := fun m a bs =>
    match try_access m (Z.of_nat (length bs)) a (fun _ count _ _ => Ok count) with
    | Ok _ => (set_bytes m (Z.to_nat (a - br_start (the_region m))) bs, Ok tt)
    | Err e => (m, Err e)
    end;
  gm_load16 := fun m a => at_region m a br_load16;
  gm_store16 := fun m a v =>
    match at_region m a br_load16 with
    | Ok _ => (set_bytes m (Z.to_nat (a - br_start (the_region m))) (le_bytes 2 v), Ok tt)
    | Err e => (m, Err e)
    end;
  gm_in_range := fun m a => bool_decide (is_Some (find_region m a));
  gm_find_region := fun m a => (fun r => (br_start r, br_len r)) <$> find_region m a;
  gm_get_slice := fun m a n => at_region m a (fun r o =>
    if decide (o + n <= br_len r) then Ok {| vs_addr := a; vs_len := n |}
    else Err (OtherMemoryError 0));
  gm_offset := fun _ vs n =>
    if decide (0 <= n <= vs_len vs)
    then Ok {| vs_addr := vs_addr vs + n; vs_len := vs_len vs - n |} else Err 0;
  gm_subslice := fun _ vs o n =>
    if decide (0 <= o /\ 0 <= n /\ o + n <= vs_len vs)
    then Ok {| vs_addr := vs_addr vs + o; vs_len := n |} else Err 0;
|}.

Global Instance single_provided : ProvidedMethods ByteRegion.
Proof.
  split.
  - intros m a. apply bool_decide_eq_true.
  - intros m a r o Hf Ho. cbn [gm_load16 single_memory]. unfold at_region. by rewrite Hf, Ho.
Qed.

(** The memory of the harness, [used_event] of which is the entry written
    last. *)
Definition kani_region : ByteRegion :=
  mk_byte_region GUEST_MEMORY_BASE (replicate 76 0 ++ [2] ++ replicate 71 0).
End KaniExamples.
Import KaniExamples.

Lemma kani_harness_passes_witness :
  exists q, proof_context any_values (mk_single_region kani_region) =
      Some (q, mk_single_region kani_region) /\
    q_event_idx_enabled q = true /\
    used_event Relaxed (q, mk_single_region kani_region) =
      Some ((q, mk_single_region kani_region), Ok (wsub 16 (q_next_used q) 1)) /\
    verify_spec_2_7_7_2 q (mk_single_region kani_region) = true.
Proof.
  eexists. split; [vm_compute; reflexivity|]. split; [reflexivity|].
  split; [vm_compute; reflexivity|].
  eapply (kani_harness_passes any_values kani_region _ (mk_single_region kani_region) any_values_ok).
  - exact (byte_region_laws kani_region).
  - vm_compute. reflexivity.
Defined.

Lemma kani_used_ring_is_default_witness :
  exists q, proof_context any_values (mk_single_region kani_region) =
      Some (q, mk_single_region kani_region) /\ q_used_ring q = q_desc_table q.
Proof.
  eexists. split; [vm_compute; reflexivity|].
  eapply (kani_used_ring_is_default any_values (mk_single_region kani_region) _
    (mk_single_region kani_region) any_values_ok).
  vm_compute. reflexivity.
Defined.

(** The last byte of the memory of the harness cannot be accessed. *)
Lemma single_region_access_witness :
  try_access (mk_single_region kani_region) 1 147 (fun _ count _ _ => Ok count) =
    Err (InvalidGuestAddress 147).
Proof.
  apply (single_region_access kani_region 0 148 1 147 _ (byte_region_laws kani_region)). done.
Defined.
