(* ===== verification/QueueApi.v ===== *)
(** * The queue under arbitrary sequences of calls

    fuzz/common/src/lib.rs drives a queue through an arbitrary list of calls.
    The model has the same enumeration and dispatcher; what the fuzzer looks
    for, a panic or a loop that does not end, is shown not to exist. *)

From stdpp Require Import base numbers list option.
From S2P Require Import Prelude Bytes GuestMemory FlatMemory Descriptor Chain Queue.
From S2P Require Import QueueFacts UsedRing AvailRing QueueState.

Inductive LoadOrdering : Type := LoadRelaxed | LoadAcquire | LoadSeqCst.

Definition load_ordering_into (o : LoadOrdering) : Ordering :=
  match o with
  | LoadRelaxed => Relaxed
  | LoadAcquire => Acquire
  | LoadSeqCst => SeqCst
  end.

Record FuzzingDescriptor : Type := mk_fuzzing_descriptor {
  fd_addr : u64;
  fd_len : u32;
  fd_flags : u16;
  fd_next : u16;
}.

Definition fuzzing_descriptor_into (d : FuzzingDescriptor) : RawDescriptor :=
  raw_of_split (descriptor_new (fd_addr d) (fd_len d) (fd_flags d) (fd_next d)).

Inductive VirtioQueueFunction : Type :=
| FIsValid
| FReset
| FMaxSize
| FSize
| FSetSize (size : u16)
| FReady
| FSetReady (ready : bool)
| FSetDescTableAddress (low high : option u32)
| FSetAvailRingAddress (low high : option u32)
| FSetUsedRingAddress (low high : option u32)
| FSetEventIdx (enabled : bool)
| FAvailIdx (order : LoadOrdering)
| FUsedIdx (order : LoadOrdering)
| FAddUsed (head_index : u16) (len : u32)
| FEnableNotification
| FDisableNotification
| FNeedsNotification
| FNextAvail
| FSetNextAvail (next_avail : u16)
| FDescTable
| FNextUsed
| FSetNextUsed (next_used : u16)
| FAvailRing
| FUsedRing
| FEventIdxEnabled
| FPopDescriptorChain
| FPopDescriptorChainLoop
| FIter.

Global Instance LoadOrdering_eq_dec : EqDecision LoadOrdering.
Proof. solve_decision. Defined.
Global Instance VirtioQueueFunction_eq_dec : EqDecision VirtioQueueFunction.
Proof. solve_decision. Defined.

Section Calls.
Context {M : Type} `{GuestMemory M}.

(** [let _ = c]: the result is dropped, the effects stay. *)
Definition ignore {A} (c : RM (Queue * M) Error A) : RM (Queue * M) Error unit :=
  _ ← try (E := Error) c; mret tt.

(** A getter. *)
Definition get {A} (f : Queue -> A) : RM (Queue * M) Error unit :=
  _ ← gets (fun s => f (fst s)); mret tt.

(** The bound of the loop over [pop_descriptor_chain]; [pop_all] returns
    [None] if it were exceeded. *)
Definition pop_loop : RM (Queue * M) Error unit := fun s =>
  (_ ← pop_all (S (Z.to_nat (q_size (fst s)))); mret tt) s.

Definition call (f : VirtioQueueFunction) : RM (Queue * M) Error unit :=
  match f with
  | FIsValid => _ ← gets (fun '(q, m) => is_valid m q); mret tt
  | FReset => update_queue reset
  | FMaxSize => get q_max_size
  | FSize => get q_size
  | FSetSize size => update_queue (queue_set_size size)
  | FReady => get q_ready
  | FSetReady ready => update_queue (set_ready ready)
  | FSetDescTableAddress low high => update_queue (set_desc_table_address low high)
  | FSetAvailRingAddress low high => update_queue (set_avail_ring_address low high)
  | FSetUsedRingAddress low high => update_queue (set_used_ring_address low high)
  | FSetEventIdx enabled => update_queue (set_event_idx enabled)
  | FAvailIdx order => ignore (avail_idx (load_ordering_into order))
  | FUsedIdx order => ignore (used_idx (load_ordering_into order))
  | FAddUsed head_index len => ignore (add_used head_index len)
  | FEnableNotification => ignore enable_notification
  | FDisableNotification => ignore disable_notification
  | FNeedsNotification => ignore needs_notification
  | FNextAvail => get q_next_avail
  | FSetNextAvail next_avail => update_queue (set_next_avail next_avail)
  | FDescTable => get q_desc_table
  | FNextUsed => get q_next_used
  | FSetNextUsed next_used => update_queue (set_next_used next_used)
  | FAvailRing => get q_avail_ring
  | FUsedRing => get q_used_ring
  | FEventIdxEnabled => get q_event_idx_enabled
  | FPopDescriptorChain => ignore pop_descriptor_chain
  | FPopDescriptorChainLoop => pop_loop
  | FIter => ignore iter
  end.

(** [fuzz_funcs.iter().for_each(|f| f.call(&mut q, &m))]. *)
Fixpoint call_all (fs : list VirtioQueueFunction) : RM (Queue * M) Error unit :=
  match fs with
  | [] => mret tt
  | f :: fs => _ ← call f; call_all fs
  end.
End Calls.

(** [sanitize_virtio_queue_functions]: the closure of the filter keeps
    [has_desc_iter] between its calls. *)
Fixpoint sanitize_from (has_desc_iter : bool) (functions : list VirtioQueueFunction)
    : list VirtioQueueFunction :=
  match functions with
  | [] => []
  | func :: functions =>
      if decide (func = FPopDescriptorChainLoop \/ func = FIter) then
        if negb has_desc_iter then func :: sanitize_from true functions
        else sanitize_from has_desc_iter functions
      else func :: sanitize_from has_desc_iter functions
  end.

Definition sanitize_virtio_queue_functions (functions : list VirtioQueueFunction)
    : list VirtioQueueFunction := sanitize_from false functions.

(** The arguments are integers of their width. *)
Definition call_args_ok (f : VirtioQueueFunction) : Prop :=
  match f with
  | FSetSize v | FSetNextAvail v | FSetNextUsed v => in_u 16 v
  | FSetDescTableAddress low high | FSetAvailRingAddress low high
  | FSetUsedRingAddress low high => opt_u32 low /\ opt_u32 high
  | FAddUsed h l => in_u 16 h /\ in_u 32 l
  | _ => True
  end.

(** ** Lemmas *)

Section Safe.
Context {M : Type} `{GML : GuestMemoryLaws M}.
Implicit Types m : M.

Lemma safe_ignore {A} (c : RM (Queue * M) Error A) : safe c -> safe (ignore c).
Proof. intros Hc. unfold ignore. apply safe_try; [done|]. intros. apply safe_ret. Qed.

Lemma safe_get {A} (f : Queue -> A) : safe (get (M := M) f).
Proof. intros q m Hwf. eexists _, _, _. split; [reflexivity|]. eauto with virtio. Qed.

(** The loop ends: at most [size] chains can be popped. *)
Lemma pop_loop_safe : safe (pop_loop (M := M)).
Proof.
  intros q m Hwf. unfold pop_loop. simpl fst. rewrite rm_bind_unfold.
  pose proof (queue_wf_size q Hwf).
  assert (exists heads, pop_all (S (Z.to_nat (q_size q))) (q, m) =
    Some ((consumed (Z.of_nat (length heads)) q, m), Ok (chain_of q <$> heads))) as [hs ->].
  { destruct (iter_result q m) as [it|e] eqn:Hr.
    - destruct (iter_result_ok q m it Hr) as (idx & -> & Hi & Hp & _).
      rewrite (pop_all_spec _ q m idx) by (done || lia).
      destruct (drain_spec (S (Z.to_nat (q_size q))) q m idx Hwf Hi ltac:(lia)) as (heads & _ & ->).
      by exists heads.
    - exists []. simpl. rewrite rm_bind_unfold, pop_spec, Hr by done.
      by rewrite consumed_0. }
  eexists _, _, _. split; [reflexivity|]. split; [by apply consumed_wf|apply same_layout_refl].
Qed.

Lemma load_ordering_ok o : load_order_ok (load_ordering_into o) = true.
Proof. by destruct o. Qed.

Lemma call_safe f : call_args_ok f -> safe (call (M := M) f).
Proof.
  destruct f; simpl; intros Ha;
    first
      [ apply safe_get
      | apply safe_update; intros q Hwf;
        (done || by eauto with virtio || (apply queue_set_size_wf; [done|apply Ha]) ||
         (destruct Ha; by eauto with virtio))
      | apply safe_ignore;
        first [ apply avail_idx_safe, load_ordering_ok | apply used_idx_safe, load_ordering_ok
              | apply add_used_safe | apply enable_notification_safe
              | apply set_notification_safe | apply needs_notification_safe
              | apply pop_descriptor_chain_safe | apply iter_safe ]
      | apply pop_loop_safe ].
Qed.

Lemma call_all_safe fs : Forall call_args_ok fs -> safe (call_all (M := M) fs).
Proof.
  induction 1 as [|f fs Hf _ IH]; [apply safe_ret|].
  simpl. apply safe_bind; [by apply call_safe|done].
Qed.
End Safe.

Definition is_desc_iter (f : VirtioQueueFunction) : Prop :=
  f = FPopDescriptorChainLoop \/ f = FIter.
Global Instance is_desc_iter_dec f : Decision (is_desc_iter f).
Proof. unfold is_desc_iter. apply _. Defined.

Lemma sanitize_from_spec b fs :
  sublist (sanitize_from b fs) fs /\
  (length (filter is_desc_iter (sanitize_from b fs)) <= if b then 0 else 1)%nat /\
  filter (fun f => ~ is_desc_iter f) (sanitize_from b fs) = filter (fun f => ~ is_desc_iter f) fs.
Proof.
  revert b. induction fs as [|f fs IH]; intros b; simpl.
  { split_and!; [constructor|simpl; lia|done]. }
  fold (is_desc_iter f). case_decide as Hf.
  - destruct b; simpl.
    + destruct (IH true) as (? & ? & Hn). split_and!; [by constructor|done|].
      rewrite Hn, (filter_cons_False _ f) by naive_solver. done.
    + destruct (IH true) as (? & Hl & Hn). split_and!; [by constructor| |].
      * rewrite filter_cons_True by done. simpl. lia.
      * rewrite !(filter_cons_False _ f) by naive_solver. done.
  - destruct (IH b) as (? & Hl & Hn). split_and!; [by constructor| |].
    + by rewrite filter_cons_False.
    + rewrite !filter_cons_True by done. by rewrite Hn.
Qed.

(** ** Properties *)

(** C26: no sequence of calls on a queue panics or runs forever, whatever guest memory holds:
    from a queue that satisfies the invariant every call returns, the invariant holds again
    afterwards and guest memory keeps its layout. *)
Theorem calls_never_panic {M} `{GML : GuestMemoryLaws M} fs q (m : M) :
  queue_wf q -> Forall call_args_ok fs ->
  exists q' m' r, call_all fs (q, m) = Some ((q', m'), r) /\ queue_wf q' /\ same_layout m m'.
Proof. intros Hwf Hfs. by apply call_all_safe. Qed.

(** The sanitised list of calls keeps the order of the original, drops nothing but
    iterations over the available ring, and has at most one of those. *)
Theorem sanitize_one_iteration fs :
  sublist (sanitize_virtio_queue_functions fs) fs /\
  (length (filter is_desc_iter (sanitize_virtio_queue_functions fs)) <= 1)%nat /\
  filter (fun f => ~ is_desc_iter f) (sanitize_virtio_queue_functions fs) =
    filter (fun f => ~ is_desc_iter f) fs.
Proof. apply (sanitize_from_spec false). Qed.

(** ** Concrete run *)

Lemma calls_never_panic_witness :
  exists q' m' r,
    call_all [FSetSize 15; FAddUsed 1 16; FEnableNotification; FPopDescriptorChainLoop; FReset]
      (UsedExamples.q4, UsedExamples.mem) = Some ((q', m'), r) /\ queue_wf q'.
Proof.
  destruct (calls_never_panic
    [FSetSize 15; FAddUsed 1 16; FEnableNotification; FPopDescriptorChainLoop; FReset]
    UsedExamples.q4 UsedExamples.mem UsedExamples.used_q4_wf) as (q' & m' & r & Hr & Hwf & _).
  - repeat constructor; by vm_compute.
  - exists q', m', r. split; [exact Hr|exact Hwf].
Defined.
