(* ===== verification/Mock.v ===== *)
(** * The mock driver

    virtio-queue/src/mock.rs: the driver side of a queue, as the tests, the
    benchmarks and the fuzz targets use it.  It lays out the descriptor table
    and the rings in guest memory, builds descriptor chains and offers them.
    A [Ref] is the address of an object; its [load] and [store] unwrap. *)

From stdpp Require Import base numbers list option.
From S2P Require Import Prelude Bytes GuestMemory FlatMemory Descriptor Chain Queue.
From S2P Require Import QueueFacts AvailRing QueueState QueueConfig.

Inductive MockError : Type :=
| InvalidQueueParams (e : Error)
| InvalidIndex
| InvalidNextAvail
| GuestMem (e : GuestMemoryError).

(** ** References into guest memory *)

Section Refs.
Context {M : Type} `{GuestMemory M}.

(** [Ref::load] and [Ref::store]: [None] is the panic. *)
Definition ref_load (T : Type) `{BV : ByteValued T} (m : M) (addr : u64) : option T :=
  to_option (read_obj T m addr).
Definition ref_store {T : Type} `{BV : ByteValued T} (val : T) (addr : u64) (m : M) : option M :=
  match write_obj m val addr with (m', Ok _) => Some m' | (_, Err _) => None end.
End Refs.

Record ArrayRef : Type := mk_array_ref {
  ar_addr : u64;
  ar_len : usize;
}.

(** [ArrayRef::ref_at] for elements of [size] bytes; the outer [None] is the
    panic of the address computation. *)
Definition ref_at (size : usize) (a : ArrayRef) (index : usize) : option (result MockError u64) :=
  if index >=? ar_len a then Some (Err InvalidIndex)
  else match checked_add 64 (ar_addr a) (index * size) with
       | None => None
       | Some addr => Some (Ok addr)
       end.

(** ** The rings *)

Record SplitQueueRing : Type := mk_ring {
  ring_flags : u64;
  ring_idx : u64;
  ring_ring : ArrayRef;
  ring_event : u64;
}.

(** The integers of the rings. *)
Abbreviation u16_bv := (uint_bv 2).

Section Ring.
Context {M : Type} `{GuestMemory M}.

(** [SplitQueueRing::new], the same for both rings. *)
Definition ring_new (base : u64) (len : u16) (m : M) : option (SplitQueueRing * M) :=
  event_addr ← (a ← checked_add 64 base 4; checked_add 64 a (2 * len));
  idx_addr ← checked_add 64 base 2;
  ring_addr ← checked_add 64 base 4;
  let r := mk_ring base idx_addr (mk_array_ref ring_addr len) event_addr in
  m ← ref_store (BV := u16_bv) 0 (ring_flags r) m;
  m ← ref_store (BV := u16_bv) 0 (ring_idx r) m;
  m ← ref_store (BV := u16_bv) 0 (ring_event r) m;
  Some (r, m).
End Ring.

Definition ring_start (r : SplitQueueRing) : u64 := ar_addr (ring_ring r).
Definition ring_end (r : SplitQueueRing) : option u64 :=
  checked_add 64 (ring_start r) (ar_len (ring_ring r)).

(** ** The descriptor table *)

Record DescriptorTable : Type := mk_table {
  dt_table : ArrayRef;
  dt_len : u16;
  dt_free_descriptors : list u16;
}.

Definition table_new (addr : u64) (len : u16) : DescriptorTable :=
  mk_table (mk_array_ref addr len) len (rev (Z.of_nat <$> seq 0 (Z.to_nat len))).

Definition DESC_SIZE : usize := Z.of_nat (bv_size RawDescriptor).

Definition table_total_size (t : DescriptorTable) : u64 := dt_len t * DESC_SIZE.

Section Table.
Context {M : Type} `{GuestMemory M}.

Definition table_load (t : DescriptorTable) (index : u16) : RM M MockError RawDescriptor := fun m =>
  match ref_at DESC_SIZE (dt_table t) index with
  | None => None
  | Some (Err e) => Some (m, Err e)
  | Some (Ok addr) =>
      match ref_load RawDescriptor m addr with None => None | Some d => Some (m, Ok d) end
  end.

Definition table_store (t : DescriptorTable) (index : u16) (value : RawDescriptor)
    : RM M MockError unit := fun m =>
  match ref_at DESC_SIZE (dt_table t) index with
  | None => None
  | Some (Err e) => Some (m, Err e)
  | Some (Ok addr) =>
      match ref_store value addr m with None => None | Some m => Some (m, Ok tt) end
  end.

(** The descriptor [build_chain] stores, given the index of its successor. *)
Definition chain_desc (next : option u16) : Descriptor :=
  let desc := descriptor_new 0x1000 0x1000 0 0 in
  match next with
  | Some n => set_next n (set_flags (wrap 16 VRING_DESC_F_NEXT) desc)
  | None => set_flags 0 desc
  end.

Fixpoint store_chain (t : DescriptorTable) (indices : list u16) : RM M MockError unit :=
  match indices with
  | [] => mret tt
  | index_value :: rest =>
      _ ← table_store t index_value (raw_of_split (chain_desc (head rest)));
      store_chain t rest
  end.

(** [DescriptorTable::build_chain]; the free list is read and not updated. *)
Definition build_chain (t : DescriptorTable) (len : u16) : RM M MockError u16 :=
  let indices := take (Z.to_nat len) (rev (dt_free_descriptors t)) in
  if negb (Z.of_nat (length indices) =? len) then panic
  else
    _ ← store_chain t indices;
    unwrap (head indices).
End Table.

(** ** The queue *)

(** [GuestAddressExt::align_up]: the addition may overflow. *)
Definition align_up (a x : u64) : option u64 :=
  s ← checked_add 64 a (x - 1); Some (Z.land s (unot 64 (x - 1))).

Record MockSplitQueue : Type := mk_mock {
  mq_len : u16;
  mq_desc_table_addr : u64;
  mq_desc_table : DescriptorTable;
  mq_avail_addr : u64;
  mq_avail : SplitQueueRing;
  mq_used_addr : u64;
  mq_used : SplitQueueRing;
  mq_indirect_addr : u64;
}.

Definition with_indirect_addr (a : u64) (q : MockSplitQueue) : MockSplitQueue :=
  mk_mock (mq_len q) (mq_desc_table_addr q) (mq_desc_table q) (mq_avail_addr q) (mq_avail q)
    (mq_used_addr q) (mq_used q) a.

Section Mock.
Context {M : Type} `{GuestMemory M}.

(** [MockSplitQueue::create]. *)
Definition mock_create (start : u64) (len : u16) (m : M) : option (MockSplitQueue * M) :=
  let desc_table := table_new start len in
  table_end ← checked_add 64 start (16 * len);
  avail_addr ← align_up table_end 2;
  '(avail, m) ← ring_new avail_addr len m;
  avail_end ← ring_end avail;
  used_addr ← align_up avail_end 4;
  '(used, m) ← ring_new used_addr len m;
  Some (mk_mock len start desc_table avail_addr avail used_addr used 0x30000000, m).

Definition mock_new (len : u16) (m : M) : option (MockSplitQueue * M) := mock_create 0 len m.

Abbreviation MM := (RM (MockSplitQueue * M) MockError).

(** Run an operation on memory alone. *)
Definition on_mem {A} (c : RM M MockError A) : MM A := fun '(q, m) =>
  match c m with None => None | Some (m, r) => Some ((q, m), r) end.

(** The write of an object whose error is an error of the mock. *)
Definition mock_write_obj {T} `{BV : ByteValued T} (val : T) (addr : u64) : RM M MockError unit := fun m =>
  let '(m, r) := write_obj m val addr in Some (m, map_err GuestMem r).

Definition update_avail_idx (value : u16) : MM unit := fun '(q, m) =>
  match ref_load Z (BV := u16_bv) m (ring_idx (mq_avail q)) with
  | None => None
  | Some avail_idx =>
      match ref_at 2 (ring_ring (mq_avail q)) avail_idx with
      | None => None
      | Some (Err e) => Some ((q, m), Err e)
      | Some (Ok addr) =>
          match ref_store (BV := u16_bv) value addr m with
          | None => None
          | Some m =>
              match ref_store (BV := u16_bv) (wadd 16 avail_idx 1) (ring_idx (mq_avail q)) m with
              | None => None
              | Some m => Some ((q, m), Ok tt)
              end
          end
      end
  end.

Definition alloc_indirect_chain (len : u16) : MM u64 :=
  q ← gets fst;
  table_len ← unwrap (if len mod 16 =? 0 then Some len
                      else let n := 16 * (len / 16 + 1) in if n <? 2 ^ 16 then Some n else None);
  let table := table_new (mq_indirect_addr q) table_len in
  head_descriptor_index ← on_mem (build_chain table len);
  if negb (head_descriptor_index =? 0) then panic
  else
    let table_addr := mq_indirect_addr q in
    indirect_addr ← unwrap (checked_add 64 (mq_indirect_addr q) (table_total_size table));
    _ ← modify (fun '(q, m) => (with_indirect_addr indirect_addr q, m));
    mret table_addr.

Definition add_chain (len : u16) : MM unit :=
  q ← gets fst;
  head_idx ← on_mem (build_chain (mq_desc_table q) len);
  update_avail_idx head_idx.

Definition add_indirect_chain (len : u16) : MM unit :=
  q ← gets fst;
  head_idx ← on_mem (build_chain (mq_desc_table q) 1);
  indirect_addr ← alloc_indirect_chain len;
  desc ← on_mem (table_load (mq_desc_table q) head_idx);
  let desc := split_of_raw desc in
  let desc := set_flags (wrap 16 VRING_DESC_F_INDIRECT) desc in
  let desc := set_addr indirect_addr desc in
  let desc := set_len (len * wrap 32 DESC_SIZE) desc in
  _ ← on_mem (table_store (mq_desc_table q) head_idx (raw_of_split desc));
  update_avail_idx head_idx.

(** [create_queue] for [Queue]. *)
Definition create_queue (mq : MockSplitQueue) : result Error Queue :=
  q ← queue_new (mq_len mq);
  let halves a := (Some (wrap 32 a), Some (wrap 32 (Z.shiftr a 32))) in
  let q := queue_set_size (mq_len mq) q in
  let q := set_ready true q in
  let q := uncurry set_desc_table_address (halves (mq_desc_table_addr mq)) q in
  let q := uncurry set_avail_ring_address (halves (mq_avail_addr mq)) q in
  let q := uncurry set_used_ring_address (halves (mq_used_addr mq)) q in
  Ok q.

(** The loop of [add_desc_chains]: [prev] is the descriptor before. *)
Fixpoint add_descs (t : DescriptorTable) (avail_addr : u64) (avail_idx : u16) (i new_entries : u16)
    (prev : option Descriptor) (descs : list RawDescriptor) : RM M MockError u16 :=
  match descs with
  | [] => mret new_entries
  | desc :: descs =>
      _ ← table_store t i desc;
      let starts :=
        match prev with
        | None => true
        | Some p => negb (Z.land (d_flags p) (wrap 16 VRING_DESC_F_NEXT) =? 1)
        end in
      new_entries ←
        (if starts then
           pos ← unwrap (add_u 16 avail_idx new_entries);
           _ ← mock_write_obj (BV := u16_bv) i
                 (avail_addr + (VIRTQ_AVAIL_RING_HEADER_SIZE + pos * VIRTQ_AVAIL_ELEMENT_SIZE));
           unwrap (add_u 16 new_entries 1)
         else mret new_entries);
      match descs with
      | [] => mret new_entries
      | _ =>
          i ← unwrap (add_u 16 i 1);
          add_descs t avail_addr avail_idx i new_entries (Some (split_of_raw desc)) descs
      end
  end.

Definition add_desc_chains (descs : list RawDescriptor) (offset : u16) : MM unit :=
  q ← gets fst;
  on_mem
    (avail_idx ← (fun m => Some (m, map_err GuestMem (read_obj Z (H0 := u16_bv) m (mq_avail_addr q + 2))));
     new_entries ← add_descs (mq_desc_table q) (mq_avail_addr q) avail_idx offset 0 None descs;
     idx ← unwrap (add_u 16 avail_idx new_entries);
     mock_write_obj (BV := u16_bv) idx (mq_avail_addr q + 2)).

(** The first chain the iterator of a queue yields. *)
Definition first_chain (q : Queue) : MM DescriptorChain := fun '(mq, m) =>
  match iter (q, m) with
  | None => None
  | Some (_, Err e) => Some ((mq, m), Err (InvalidQueueParams e))
  | Some ((q, m), Ok it) =>
      match avail_next it (q, m) with
      | Some (_, Ok (Some c)) => Some ((mq, m), Ok c)
      | Some (_, Ok None) => Some ((mq, m), Err InvalidNextAvail)
      | Some (_, Err e) => Some ((mq, m), Err (InvalidQueueParams e))
      | None => None
      end
  end.

Definition build_multiple_desc_chains (descs : list RawDescriptor) : MM DescriptorChain :=
  _ ← add_desc_chains descs 0;
  mq ← gets fst;
  q ← of_result (map_err InvalidQueueParams (create_queue mq));
  first_chain q.

(** The descriptors with the [NEXT] flags and links of one chain; [idx] is
    the position of the first. *)
Fixpoint link_descs (idx : Z) (descs : list RawDescriptor) : option (list RawDescriptor) :=
  match descs with
  | [] => Some []
  | d :: rest =>
      let desc := split_of_raw d in
      '(flags, next) ←
        match rest with
        | [] => Some (Z.land (d_flags desc) (unot 16 (wrap 16 VRING_DESC_F_NEXT)), 0)
        | _ => next ← add_u 16 (wrap 16 idx) 1;
               Some (Z.lor (d_flags desc) (wrap 16 VRING_DESC_F_NEXT), next)
        end;
      linked ← link_descs (idx + 1) rest;
      Some (raw_of_split (descriptor_new (d_addr desc) (d_len desc) flags next) :: linked)
  end.

Definition build_desc_chain (descs : list RawDescriptor) : MM DescriptorChain :=
  modified_descs ← unwrap (link_descs 0 descs);
  build_multiple_desc_chains modified_descs.
End Mock.

(** ** The chains the mock builds *)

(** [link_descs] on the descriptors, without the overflow of the index. *)
Fixpoint linked (idx : Z) (ds : list Descriptor) : list Descriptor :=
  match ds with
  | [] => []
  | d :: rest =>
      let '(flags, next) :=
        match rest with
        | [] => (Z.land (d_flags d) (unot 16 (wrap 16 VRING_DESC_F_NEXT)), 0)
        | _ => (Z.lor (d_flags d) (wrap 16 VRING_DESC_F_NEXT), idx + 1)
        end in
      descriptor_new (d_addr d) (d_len d) flags next :: linked (idx + 1) rest
  end.

Lemma link_descs_linked idx raws :
  0 <= idx -> idx + Z.of_nat (length raws) <= 2 ^ 16 ->
  link_descs idx raws = Some (raw_of_split <$> linked idx (split_of_raw <$> raws)).
Proof.
  revert idx. induction raws as [|r raws IH]; intros idx Hi Hl; [done|].
  cbn [link_descs]. destruct raws as [|r2 raws]; [done|]. simpl length in Hl.
  rewrite (IH (idx + 1)) by (simpl length; lia). rewrite (wrap_small 16 idx) by (unfold in_u; lia).
  unfold add_u, checked_add. rewrite (proj2 (Z.ltb_lt _ _)) by lia. done.
Qed.

Lemma linked_cons idx d ds : exists e, linked idx (d :: ds) = e :: linked (idx + 1) ds.
Proof. destruct ds; eexists; reflexivity. Qed.

Lemma length_linked idx ds : length (linked idx ds) = length ds.
Proof.
  revert idx. induction ds as [|d ds IH]; intros idx; [done|]. cbn [linked].
  destruct ds; simpl in *; [done|]. by rewrite IH.
Qed.

(** Linking changes the [NEXT] bit and nothing else a device looks at. *)
Lemma linked_same idx ds :
  (fun d => (d_addr d, d_len d, is_write_only d, refers_to_indirect_table d)) <$> linked idx ds =
  (fun d => (d_addr d, d_len d, is_write_only d, refers_to_indirect_table d)) <$> ds.
Proof.
  revert idx. induction ds as [|d ds IH]; intros idx; [done|]. cbn [linked].
  change (wrap 16 VRING_DESC_F_NEXT) with 1. change (unot 16 1) with 65534.
  destruct ds as [|d2 ds].
  - cbn [fmap list_fmap linked]. rewrite !is_write_only_bit, !refers_to_indirect_table_bit.
    cbn [d_addr d_len d_flags descriptor_new]. rewrite !Z.land_spec.
    change (Z.testbit 65534 1) with true. change (Z.testbit 65534 2) with true.
    by rewrite !andb_true_r.
  - apply (f_equal2 cons); [|apply IH].
    rewrite !is_write_only_bit, !refers_to_indirect_table_bit.
    cbn [d_addr d_len d_flags descriptor_new]. rewrite !Z.lor_spec.
    change (Z.testbit 1 1) with false. change (Z.testbit 1 2) with false.
    by rewrite !orb_false_r.
Qed.

(** Linking keeps the address, the length and the kind of each descriptor. *)
Lemma linked_fields idx ds A (f : Z * Z * bool * bool -> A) :
  (fun x => f (d_addr x, d_len x, is_write_only x, refers_to_indirect_table x)) <$> linked idx ds =
  (fun x => f (d_addr x, d_len x, is_write_only x, refers_to_indirect_table x)) <$> ds.
Proof.
  pose proof (linked_same idx ds) as Hsame. apply (f_equal (fmap f)) in Hsame.
  by rewrite <- !list_fmap_compose in Hsame.
Qed.

Lemma linked_direct idx ds :
  Forall (fun d => refers_to_indirect_table d = false) ds ->
  Forall (fun d => refers_to_indirect_table d = false) (linked idx ds).
Proof.
  intros Hd. apply (Forall_fmap refers_to_indirect_table (fun b => b = false)).
  assert (refers_to_indirect_table <$> linked idx ds = refers_to_indirect_table <$> ds) as ->
    by exact (linked_fields idx ds _ snd).
  by apply Forall_fmap.
Qed.

Lemma linked_total_len idx ds : total_len (linked idx ds) = total_len ds.
Proof.
  assert (forall l, total_len l = foldr Z.add 0 (d_len <$> l)) as Htl
    by (induction l as [|x l IH]; [done|]; simpl; by rewrite IH).
  rewrite !Htl. f_equal. exact (linked_fields idx ds _ (fun x => snd (fst (fst x)))).
Qed.

Lemma linked_wf idx ds :
  0 <= idx -> idx + Z.of_nat (length ds) <= 2 ^ 16 -> Forall descriptor_wf ds ->
  Forall descriptor_wf (linked idx ds).
Proof.
  intros Hi Hl Hwf. revert idx Hi Hl. induction Hwf as [|d ds (Ha & Hn & Hf & _) Hwf IH];
    intros idx Hi Hl; [constructor|]. cbn [linked].
  change (wrap 16 VRING_DESC_F_NEXT) with 1. change (unot 16 1) with 65534.
  destruct ds as [|d2 ds]; constructor; try apply IH; simpl length in *; try lia.
  - split_and!; try done. by apply land_u.
  - split_and!; try done; cbn [d_flags d_next descriptor_new]; [|unfold in_u; lia]. by apply lor_u.
Qed.

Lemma linked_next idx d d2 ds :
  exists e, linked idx (d :: d2 :: ds) = e :: linked (idx + 1) (d2 :: ds) /\
    has_next e = true /\ d_next e = idx + 1.
Proof.
  eexists. split; [done|]. split; [|done]. rewrite has_next_bit. cbn [d_flags descriptor_new].
  change (wrap 16 VRING_DESC_F_NEXT) with 1. rewrite Z.lor_spec. apply orb_true_r.
Qed.

Lemma linked_last idx d :
  exists e, linked idx [d] = [e] /\ has_next e = false.
Proof.
  eexists. split; [done|]. rewrite has_next_bit. cbn [d_flags descriptor_new].
  change (unot 16 (wrap 16 VRING_DESC_F_NEXT)) with 65534. rewrite Z.land_spec. apply andb_false_r.
Qed.

Section MockFacts.
Context {M : Type} `{GML : GuestMemoryLaws M}.
Implicit Types (m : M) (ds : list Descriptor).

(** The table at [tbl] holds [ds] from entry [i] on. *)
Definition stored m (tbl i : Z) ds : Prop :=
  forall k d, ds !! k = Some d -> read_obj Descriptor m (tbl + 16 * (i + Z.of_nat k)) = Ok d.

Lemma stored_linked_chain m tbl n i ds :
  ds <> [] -> 0 <= i -> i + Z.of_nat (length ds) <= n -> stored m tbl i (linked i ds) ->
  Forall (fun d => refers_to_indirect_table d = false) (linked i ds) ->
  direct_chain m tbl n i (linked i ds).
Proof.
  intros Hne Hi Hn Hst Hind.
  assert (exists pre d, linked i ds = pre ++ [d] /\ path m tbl n i pre (i + Z.of_nat (length pre)) /\
    slot m tbl n (i + Z.of_nat (length pre)) d /\ refers_to_indirect_table d = false /\
    has_next d = false) as (pre & d & Heq & Hp & Hs & Hd & Hnx).
  2:{ exists pre, (i + Z.of_nat (length pre)), d. split_and!; try done. rewrite length_linked. lia. }
  revert i Hi Hn Hst Hind. induction ds as [|d ds IH]; intros i Hi Hn Hst Hind; [done|].
  destruct ds as [|d2 ds].
  - destruct (linked_last i d) as (e & He & Hnx). rewrite He in *. exists [], e.
    apply list.Forall_cons in Hind as [Hind _]. simpl in Hn. rewrite Z.add_0_r.
    split; [done|]. split; [constructor|]. split; [split; [lia|]|by split].
    rewrite <- (Z.add_0_r i). by apply (Hst 0%nat).
  - destruct (linked_next i d d2 ds) as (e & He & Hnx & Hnext). rewrite He in *.
    apply list.Forall_cons in Hind as [Hie Hind]. simpl length in Hn.
    destruct (IH ltac:(done) (i + 1)) as (pre & x & Heq & Hp & Hs & Hx & Hxn);
      [lia|simpl length; lia| |done|].
    { intros k y Hy. specialize (Hst (S k) y Hy). rewrite <- Hst. f_equal. lia. }
    exists (e :: pre), x. simpl length. rewrite Heq.
    replace (i + Z.of_nat (S (length pre))) with (i + 1 + Z.of_nat (length pre)) by lia.
    split; [done|]. split; [|by split_and!].
    eapply path_cons; [|done|done|by rewrite Hnext]. split; [lia|].
    rewrite <- (Z.add_0_r i). by apply (Hst 0%nat).
Qed.

(** Storing one descriptor. *)
Lemma table_store_spec m tbl n free i d :
  0 <= tbl -> 0 <= i < n -> tbl + 16 * n < 2 ^ 64 -> range_mapped m tbl (16 * n) -> descriptor_wf d ->
  exists m', table_store (mk_table (mk_array_ref tbl n) n free) i (raw_of_split d) m = Some (m', Ok tt) /\
    same_layout m m' /\ read_obj Descriptor m' (tbl + 16 * i) = Ok d /\
    forall x, ~ (tbl + 16 * i <= x < tbl + 16 * i + 16) -> peek m' x = peek m x.
Proof.
  intros Ht Hi H64 Hm Hd. unfold table_store, ref_at. cbn [dt_table ar_addr ar_len].
  rewrite Z.geb_leb, (proj2 (Z.leb_gt _ _)) by lia. change DESC_SIZE with 16.
  unfold checked_add. rewrite (proj2 (Z.ltb_lt _ _)) by lia. replace (i * 16) with (16 * i) by lia.
  unfold ref_store.
  assert (snd (write_obj m (raw_of_split d) (tbl + 16 * i)) = Ok tt) as Hok.
  { apply write_obj_success. intros x Hx. apply Hm. simpl in Hx. lia. }
  pose proof (write_obj_layout m (raw_of_split d) (tbl + 16 * i)) as Hly.
  destruct (write_obj m (raw_of_split d) (tbl + 16 * i)) as [m' r] eqn:Hw. cbn [fst snd] in *. subst r.
  exists m'. split; [done|]. split; [done|].
  assert (write_obj m d (tbl + 16 * i) = (m', Ok tt)) as Hw' by exact Hw.
  split; [eapply read_write_obj; [by apply descriptor_wf_bv|exact Hw']|].
  intros x Hx. apply write_obj_overwritten in Hw'. eapply overwritten_peek_other; [exact Hw'|].
  by rewrite bv_encode_length.
Qed.

Lemma read_descriptor_kept m m' a d :
  read_obj Descriptor m a = Ok d -> (forall x, a <= x < a + 16 -> peek m' x = peek m x) ->
  read_obj Descriptor m' a = Ok d.
Proof.
  unfold read_obj. intros Hr Hx. destruct (gm_read m a _) as [bs|] eqn:Hg; [|done].
  rewrite (gm_read_ext m m' a _ bs); [done|apply bv_size_pos|exact Hx|done].
Qed.

(** The loop of [add_desc_chains] inside of a linked chain: descriptors are
    stored and no new entry is made. *)
Lemma add_descs_linked tbl n free avail idx ds : forall i ne p m,
  0 <= tbl -> 0 <= i -> i + Z.of_nat (length ds) <= n -> n < 2 ^ 16 -> tbl + 16 * n < 2 ^ 64 ->
  range_mapped m tbl (16 * n) -> Forall descriptor_wf (linked i ds) -> has_next p = true ->
  exists m', add_descs (mk_table (mk_array_ref tbl n) n free) avail idx i ne (Some p)
      (raw_of_split <$> linked i ds) m = Some (m', Ok ne) /\
    same_layout m m' /\ stored m' tbl i (linked i ds) /\
    forall x, ~ (tbl + 16 * i <= x < tbl + 16 * (i + Z.of_nat (length ds))) -> peek m' x = peek m x.
Proof.
  induction ds as [|d ds IH]; intros i ne p m Ht Hi Hl Hn H64 Hm Hwf Hp.
  { exists m. split; [done|]. split; [apply same_layout_refl|]. split; [|done].
    intros k d Hk. destruct k; discriminate Hk. }
  simpl length in Hl. destruct (linked_cons i d ds) as [e He]. rewrite He in *.
  apply list.Forall_cons in Hwf as [Hwe Hwf].
  destruct (table_store_spec m tbl n free i e) as (m1 & Hst & Hly & Hrd & Hout); [done|lia|done|done|done|].
  assert (Z.land (d_flags p) (wrap 16 VRING_DESC_F_NEXT) = 1) as Hland.
  { change (wrap 16 VRING_DESC_F_NEXT) with (Z.ones 1). rewrite Z.land_ones by done.
    rewrite has_next_bit, Z.bit0_odd in Hp. change (2 ^ 1) with 2. rewrite Zmod_odd. by rewrite Hp. }
  rewrite fmap_cons. cbn [add_descs]. rewrite rm_bind_unfold, Hst, rm_bind_unfold, Hland. cbn [Z.eqb negb].
  change (Pos.eqb 1 1) with true. cbn [negb].
  unfold mret at 1, rm_ret at 1.
  destruct ds as [|d2 ds].
  - cbn [linked fmap list_fmap]. exists m1. split; [done|]. split; [done|]. split.
    + intros [|k] x Hx; simplify_eq/=. by rewrite Z.add_0_r.
    + intros x Hx. apply Hout. simpl length in Hx. lia.
  - assert (has_next e = true) as Hne.
    { destruct (linked_next i d d2 ds) as (e' & He' & ? & _). rewrite He in He'. by simplify_eq. }
    destruct (IH (i + 1) ne e m1) as (m2 & Hr & Hly2 & Hst2 & Hout2); try done; try lia.
    { by eapply same_layout_mapped. }
    destruct (linked_cons (i + 1) d2 ds) as [e2 He2]. rewrite He2 in *. rewrite fmap_cons in *.
    unfold add_u, checked_add. simpl length in Hl. rewrite (proj2 (Z.ltb_lt _ _)) by lia.
    rewrite rm_bind_unfold. cbn [unwrap]. exists m2.
    split; [by destruct e|].
    split; [by eapply same_layout_trans|]. split.
    + intros [|k] x Hx; simplify_eq/=.
      * rewrite Z.add_0_r. eapply read_descriptor_kept; [exact Hrd|]. intros y Hy. apply Hout2. lia.
      * specialize (Hst2 k x Hx). rewrite <- Hst2. f_equal. lia.
    + intros x Hx. simpl length in *. rewrite Hout2, Hout by lia. done.
Qed.

(** A queue laid out in memory with nothing offered yet. *)
Record mock_ready m (mq : MockSplitQueue) : Prop := {
  mr_len : is_pow2 (mq_len mq) /\ 0 < mq_len mq <= MAX_QUEUE_SIZE;
  mr_table : exists free, mq_desc_table mq =
    mk_table (mk_array_ref (mq_desc_table_addr mq) (mq_len mq)) (mq_len mq) free;
  mr_align : mq_desc_table_addr mq mod 16 = 0 /\ mq_avail_addr mq mod 2 = 0;
  mr_order : 0 <= mq_desc_table_addr mq /\
    mq_desc_table_addr mq + 16 * mq_len mq <= mq_avail_addr mq /\
    mq_avail_addr mq + 6 + 2 * mq_len mq < 2 ^ 64;
  mr_mapped : range_mapped m (mq_desc_table_addr mq) (16 * mq_len mq) /\
    range_mapped m (mq_avail_addr mq) (4 + 2 * mq_len mq);
  mr_atomic : acc16 m (mq_avail_addr mq + 2) /\ acc16 m (mq_avail_addr mq + 4);
  mr_idx : gm_read m (mq_avail_addr mq + 2) 2 = Ok (le_bytes 2 0);
}.

Lemma u16_write m a v :
  range_mapped m a 2 -> exists m', write_obj (H0 := u16_bv) m v a = (m', Ok tt) /\
    overwritten m m' a (le_bytes 2 v) /\ same_layout m m'.
Proof.
  intros Hm. pose proof (uint_bv_laws 2 ltac:(lia)) as HL.
  pose proof (proj2 (write_obj_success (BVL := HL) m v a) Hm) as Hok.
  pose proof (write_obj_layout (BVL := HL) m v a) as Hly.
  destruct (write_obj m v a) as [m' r] eqn:Hw. cbn [fst snd] in *. subst r.
  exists m'. split; [done|]. split; [|done]. by apply (write_obj_overwritten (BVL := HL)).
Qed.

Lemma load16_bytes m a v :
  in_u 16 v -> acc16 m a -> gm_read m a 2 = Ok (le_bytes 2 v) -> gm_load16 m a = Ok v.
Proof. intros Hv [w Hw] Hr. rewrite Hw. f_equal. by eapply gm_load16_value. Qed.

(** The first descriptor of a chain is offered, the others follow it. *)
Lemma add_descs_offer tbl n free avail d ds m :
  0 <= tbl -> Z.of_nat (length (d :: ds)) <= n -> n < 2 ^ 16 -> tbl + 16 * n <= avail ->
  avail + 6 < 2 ^ 64 -> range_mapped m tbl (16 * n) -> range_mapped m (avail + 4) 2 ->
  Forall descriptor_wf (linked 0 (d :: ds)) ->
  exists m', add_descs (mk_table (mk_array_ref tbl n) n free) avail 0 0 0 None
      (raw_of_split <$> linked 0 (d :: ds)) m = Some (m', Ok 1) /\
    same_layout m m' /\ stored m' tbl 0 (linked 0 (d :: ds)) /\
    gm_read m' (avail + 4) 2 = Ok (le_bytes 2 0) /\
    forall x, ~ (tbl <= x < avail + 6) -> peek m' x = peek m x.
Proof.
  intros Ht Hl Hn Hav H64 Hm Hm4 Hwf. simpl length in Hl.
  destruct (linked_cons 0 d ds) as [e He]. rewrite He in *. apply list.Forall_cons in Hwf as [Hwe Hwf].
  destruct (table_store_spec m tbl n free 0 e) as (m1 & Hst & Hly & Hrd & Hout); [done|lia|lia|done|done|].
  destruct (u16_write m1 (avail + 4) 0) as (m2 & Hw & Ho & Hly2); [by eapply same_layout_mapped|].
  assert (forall x, tbl + 16 * 0 <= x < tbl + 16 * n -> peek m2 x = peek m1 x) as H12.
  { intros x Hx. apply (overwritten_peek_other _ _ _ _ _ Ho). simpl length. lia. }
  rewrite fmap_cons. cbn [add_descs]. rewrite rm_bind_unfold, Hst, rm_bind_unfold.
  change (add_u 16 0 0) with (Some 0). rewrite rm_bind_unfold. cbn [unwrap]. rewrite rm_bind_unfold.
  change (avail + (VIRTQ_AVAIL_RING_HEADER_SIZE + 0 * VIRTQ_AVAIL_ELEMENT_SIZE)) with (avail + 4).
  unfold mock_write_obj at 1. rewrite Hw. cbn [map_err]. change (add_u 16 0 1) with (Some 1). cbn [unwrap].
  assert (read_obj Descriptor m2 (tbl + 16 * 0) = Ok e) as Hrd2
    by (eapply read_descriptor_kept; [exact Hrd|intros x Hx; apply H12; lia]).
  assert (same_layout m m2) as Hly02 by (by eapply same_layout_trans).
  pose proof (overwritten_read m1 m2 (avail + 4) (le_bytes 2 0) ltac:(done) Ho) as Hav2.
  assert (forall x, ~ (tbl <= x < avail + 6) -> peek m2 x = peek m x) as Hf2.
  { intros x Hx. rewrite (overwritten_peek_other _ _ _ _ _ Ho) by (simpl length; lia). apply Hout. lia. }
  destruct ds as [|d2 ds].
  - exists m2. split; [done|]. split; [done|]. split; [|split; [done|exact Hf2]].
    intros [|k] x Hx; simplify_eq/=. done.
  - destruct (linked_next 0 d d2 ds) as (e' & He' & Hnx & _). rewrite He in He'. injection He' as <-.
    destruct (add_descs_linked tbl n free avail 0 (d2 :: ds) 1 1 e m2)
      as (m3 & Hr & Hly3 & Hst3 & Hout3); try done; try lia.
    { by eapply same_layout_mapped. }
    destruct (linked_cons (0 + 1) d2 ds) as [e2 He2]. change (0 + 1) with 1 in *. rewrite He2 in *.
    rewrite fmap_cons in *. rewrite rm_bind_unfold. cbn [unwrap]. exists m3.
    split; [by destruct e|]. split; [by eapply same_layout_trans|]. split.
    + intros [|k] x Hx; simplify_eq/=.
      * eapply read_descriptor_kept; [exact Hrd2|]. intros y Hy. apply Hout3. simpl length. lia.
      * specialize (Hst3 k x Hx). rewrite <- Hst3. f_equal. lia.
    + split; [eapply gm_read_ext; [lia| |exact Hav2]; intros x Hx; apply Hout3; simpl length in *; lia|].
      intros x Hx. rewrite Hout3 by (simpl length in *; lia). by apply Hf2.
Qed.

Lemma add_desc_chains_offer m mq d ds :
  mock_ready m mq -> Z.of_nat (length (d :: ds)) <= mq_len mq ->
  Forall descriptor_wf (linked 0 (d :: ds)) ->
  exists m', add_desc_chains (raw_of_split <$> linked 0 (d :: ds)) 0 (mq, m) =
      Some ((mq, m'), Ok tt) /\
    stored m' (mq_desc_table_addr mq) 0 (linked 0 (d :: ds)) /\
    gm_load16 m' (mq_avail_addr mq + 2) = Ok 1 /\ gm_load16 m' (mq_avail_addr mq + 4) = Ok 0 /\
    same_layout m m' /\
    forall x, ~ (mq_desc_table_addr mq <= x < mq_avail_addr mq + 6) -> peek m' x = peek m x.
Proof.
  intros [[_ Hlen] [free Htab] _ (Ht & Hav & H64) [Hmt Hma] [Ha2 Ha4] Hidx] Hl Hwf.
  unfold MAX_QUEUE_SIZE in Hlen.
  destruct (add_descs_offer (mq_desc_table_addr mq) (mq_len mq) free (mq_avail_addr mq) d ds m)
    as (m1 & Hr & Hly & Hst & Hrd & Hfr); try done; try lia.
  { intros x Hx. apply Hma. lia. }
  destruct (u16_write m1 (mq_avail_addr mq + 2) 1) as (m2 & Hw & Ho & Hly2).
  { eapply same_layout_mapped; [done|]. intros x Hx. apply Hma. lia. }
  exists m2. unfold add_desc_chains. rewrite rm_bind_unfold. cbn [gets fst]. unfold on_mem.
  rewrite rm_bind_unfold, Htab. unfold read_obj at 1. change (@bv_size Z u16_bv) with 2%nat.
  rewrite Hidx. cbn [map_err]. change (@bv_decode Z u16_bv (le_bytes 2 0)) with 0.
  rewrite rm_bind_unfold, Hr, rm_bind_unfold. change (add_u 16 0 1) with (Some 1). cbn [unwrap].
  unfold mock_write_obj. rewrite Hw. split; [done|]. split; [|split; [|split; [|split]]].
  - intros k x Hx. pose proof (lookup_lt_Some _ _ _ Hx) as Hk. rewrite length_linked in Hk.
    eapply read_descriptor_kept; [by apply Hst|]. intros y Hy.
    apply (overwritten_peek_other _ _ _ _ _ Ho). simpl length in *. lia.
  - apply load16_bytes; [done|do 2 (eapply same_layout_acc16; [done|]); done|].
    by apply (overwritten_read m1 m2 (mq_avail_addr mq + 2) (le_bytes 2 1)).
  - apply load16_bytes; [done|do 2 (eapply same_layout_acc16; [done|]); done|].
    eapply overwritten_read_other; [| |right|exact Hrd]; [lia|done|simpl length; lia].
  - by eapply same_layout_trans.
  - intros x Hx. rewrite (overwritten_peek_other _ _ _ _ _ Ho) by (simpl length; lia).
    by apply Hfr.
Qed.

(** The queue the mock creates. *)
Lemma create_queue_spec m mq : mock_ready m mq ->
  exists q, create_queue mq = Ok q /\ q_size q = mq_len mq /\ q_ready q = true /\
    q_next_avail q = 0 /\ q_desc_table q = mq_desc_table_addr mq /\ q_avail_ring q = mq_avail_addr mq.
Proof.
  intros [[Hp Hlen] _ [Hd Ha] (Ht & Hav & H64) _ _ _]. unfold create_queue.
  destruct (queue_new_outcome (mq_len mq)) as [(_ & _ & Hnew)|[Hn _]]; [lia| |destruct Hn; split; [done|apply Hlen]].
  rewrite Hnew. cbn [mbind result_bind]. unfold queue_set_size.
  destruct (try_set_size_outcome (mq_len mq) (mk_queue (mq_len mq) 0 0 false 0 (mq_len mq) false 0 0 0))
    as [(_ & _ & ->)|[Hn _]]; [lia| |destruct Hn; split; [done|simpl; lia]].
  eexists. split; [reflexivity|].
  unfold MAX_QUEUE_SIZE in Hlen. cbn [uncurry fst snd].
  rewrite set_desc_table_both, set_avail_ring_both by (unfold in_u; lia).
  rewrite !decide_True by done. unfold set_used_ring_address, try_set_used_ring_address.
  by destruct (negb _).
Qed.

Lemma first_chain_spec m mq q :
  q_size q = mq_len mq -> 0 < mq_len mq <= MAX_QUEUE_SIZE -> q_ready q = true -> q_next_avail q = 0 ->
  q_desc_table q = mq_desc_table_addr mq -> q_avail_ring q = mq_avail_addr mq ->
  0 < mq_avail_addr mq -> mq_avail_addr mq + 4 < 2 ^ 64 ->
  gm_load16 m (mq_avail_addr mq + 2) = Ok 1 -> gm_load16 m (mq_avail_addr mq + 4) = Ok 0 ->
  first_chain q (mq, m) = Some ((mq, m), Ok (chain_new (mq_desc_table_addr mq) (mq_len mq) 0)).
Proof.
  intros Hs Hlen Hr Hn Hd Ha H0 H64 H2 H4. unfold MAX_QUEUE_SIZE in Hlen. unfold first_chain.
  rewrite iter_spec. unfold iter_result. rewrite Ha, decide_True by (split; [done|lia]).
  rewrite decide_True, H2 by lia. unfold pending. rewrite Hn, Hs.
  change (wsub 16 1 0) with 1. rewrite decide_True by lia. unfold avail_next.
  cbn [iter_for it_last_index it_queue_size it_avail_ring it_desc_table]. rewrite Hn, Hs, Hd, Ha.
  change (0 =? 1) with false. unfold checked_rem. rewrite (proj2 (Z.eqb_neq _ _)) by lia.
  rewrite Z.mod_0_l by lia. unfold checked_add. change (VIRTQ_AVAIL_RING_HEADER_SIZE + 0 * VIRTQ_AVAIL_ELEMENT_SIZE) with 4.
  rewrite (proj2 (Z.ltb_lt _ _)) by lia. by rewrite H4.
Qed.

(** [align_up] rounds up to a multiple of a power of two. *)
Lemma align_up_spec a k b :
  0 <= k < 64 -> 0 <= a -> align_up a (2 ^ k) = Some b ->
  b mod 2 ^ k = 0 /\ a <= b < a + 2 ^ k.
Proof.
  intros Hk Ha. unfold align_up. destruct (checked_add _ _ _) as [s|] eqn:Hs; [|done].
  apply checked_add_Some in Hs as [H64 ->]. cbn [mbind option_bind]. intros [= <-].
  pose proof (pow2_pos k ltac:(lia)). assert (2 ^ k <= 2 ^ 64) by (apply Z.pow_le_mono_r; lia).
  set (s := a + (2 ^ k - 1)) in *.
  assert (Z.land s (unot 64 (2 ^ k - 1)) = 2 ^ k * (s / 2 ^ k)) as ->.
  { assert (in_u 64 (2 ^ k * (s / 2 ^ k))) as Hin.
    { pose proof (Z.mul_div_le s (2 ^ k) ltac:(lia)). pose proof (Z.div_pos s (2 ^ k)). unfold in_u. nia. }
    rewrite unot_lnot by (unfold in_u; lia). unfold wrap. rewrite <- Z.land_ones by lia.
    replace (2 ^ k - 1) with (Z.ones k) by (rewrite Z.ones_equiv; lia).
    rewrite Z.land_assoc, <- Z.ldiff_land, Z.ldiff_ones_r, Z.shiftl_mul_pow2, Z.shiftr_div_pow2 by lia.
    rewrite Z.land_ones by lia. rewrite (Z.mul_comm (_ / _)). by apply Z.mod_small. }
  split; [rewrite Z.mul_comm; by apply Z.mod_mul; lia|].
  pose proof (Z.div_mod s (2 ^ k) ltac:(lia)). pose proof (Z.mod_pos_bound s (2 ^ k) ltac:(lia)).
  subst s. lia.
Qed.

Lemma align_up_succeeds a x : a + (x - 1) < 2 ^ 64 -> exists b, align_up a x = Some b.
Proof. intros Hx. unfold align_up, checked_add. rewrite (proj2 (Z.ltb_lt _ _)) by lia. by eexists. Qed.

(** A ring is created with its flags, its index and its event field zero. *)
Lemma ring_new_spec base len m :
  0 <= base -> 0 <= len -> base + 6 + 2 * len <= 2 ^ 64 -> range_mapped m base (6 + 2 * len) ->
  exists m', ring_new base len m =
      Some (mk_ring base (base + 2) (mk_array_ref (base + 4) len) (base + 4 + 2 * len), m') /\
    same_layout m m' /\ gm_read m' (base + 2) 2 = Ok (le_bytes 2 0) /\
    forall x, ~ (base <= x < base + 6 + 2 * len) -> peek m' x = peek m x.
Proof.
  intros Hb Hl H64 Hm. unfold ring_new, checked_add.
  rewrite (proj2 (Z.ltb_lt (base + 4) _)) by lia. cbn [mbind option_bind].
  rewrite (proj2 (Z.ltb_lt (base + 4 + 2 * len) _)), (proj2 (Z.ltb_lt (base + 2) _)) by lia.
  cbn [mbind option_bind ring_flags ring_idx ring_event].
  destruct (u16_write m base 0) as (m1 & Hw1 & Ho1 & Hl1); [intros x Hx; apply Hm; lia|].
  destruct (u16_write m1 (base + 2) 0) as (m2 & Hw2 & Ho2 & Hl2).
  { eapply same_layout_mapped; [done|]. intros x Hx. apply Hm. lia. }
  destruct (u16_write m2 (base + 4 + 2 * len) 0) as (m3 & Hw3 & Ho3 & Hl3).
  { do 2 (eapply same_layout_mapped; [done|]). intros x Hx. apply Hm. lia. }
  unfold ref_store. rewrite Hw1. cbn [mbind option_bind]. rewrite Hw2. cbn [mbind option_bind].
  rewrite Hw3. cbn [mbind option_bind]. exists m3. split; [done|].
  split; [by do 2 (eapply same_layout_trans; [done|])|]. split.
  - eapply overwritten_read_other; [|exact Ho3|left|]; [lia|lia|].
    by apply (overwritten_read m1 m2 (base + 2) (le_bytes 2 0)).
  - intros x Hx. rewrite (overwritten_peek_other _ _ _ _ _ Ho3) by (simpl length; lia).
    rewrite (overwritten_peek_other _ _ _ _ _ Ho2) by (simpl length; lia).
    apply (overwritten_peek_other _ _ _ _ _ Ho1). simpl length. lia.
Qed.

(** [create] lays out a queue that is ready, at an aligned address in backed
    memory. *)
Lemma mock_create_ready start len m :
  0 <= start -> start mod 16 = 0 -> is_pow2 len -> 0 < len <= MAX_QUEUE_SIZE ->
  start + 19 * len + 20 <= 2 ^ 64 -> range_mapped m start (19 * len + 20) ->
  acc16 m (start + 16 * len + 2) -> acc16 m (start + 16 * len + 4) ->
  exists mq m', mock_create start len m = Some (mq, m') /\ mq_len mq = len /\
    mq_desc_table_addr mq = start /\ mq_avail_addr mq = start + 16 * len /\
    mq_used_addr mq < mq_avail_addr mq + len + 8 /\ same_layout m m' /\ mock_ready m' mq /\
    forall x, ~ (start <= x < start + 19 * len + 20) -> peek m' x = peek m x.
Proof.
  intros Hs Hal Hp Hlen H64 Hm Ha2 Ha4. pose proof Hlen as Hlen'. unfold MAX_QUEUE_SIZE in Hlen'.
  unfold mock_create. unfold checked_add at 1. rewrite (proj2 (Z.ltb_lt _ _)) by lia.
  cbn [mbind option_bind].
  destruct (align_up_succeeds (start + 16 * len) 2) as [av Hav]; [lia|]. rewrite Hav.
  apply (align_up_spec _ 1) in Hav as [Hav2 Havr]; [|lia|lia]. change (2 ^ 1) with 2 in *.
  assert (av = start + 16 * len) as ->.
  { pose proof (Z.div_mod start 16 ltac:(lia)). pose proof (Z.div_mod av 2 ltac:(lia)). lia. }
  cbn [mbind option_bind].
  destruct (ring_new_spec (start + 16 * len) len m) as (m1 & Hr1 & Hl1 & Hi1 & Hout1); [lia|lia|lia| |].
  { intros x Hx. apply Hm. lia. }
  rewrite Hr1. cbn [mbind option_bind]. unfold ring_end, ring_start. cbn [ring_ring ar_addr ar_len].
  unfold checked_add at 1. rewrite (proj2 (Z.ltb_lt _ _)) by lia. cbn [mbind option_bind].
  destruct (align_up_succeeds (start + 16 * len + 4 + len) 4) as [us Hus]; [lia|]. rewrite Hus.
  apply (align_up_spec _ 2) in Hus as [_ Husr]; [|lia|lia]. change (2 ^ 2) with 4 in *.
  cbn [mbind option_bind].
  destruct (ring_new_spec us len m1) as (m2 & Hr2 & Hl2 & _ & Hout); [lia|lia|lia| |].
  { eapply same_layout_mapped; [done|]. intros x Hx. apply Hm. lia. }
  rewrite Hr2. cbn [mbind option_bind]. assert (same_layout m m2) as Hl by (by eapply same_layout_trans).
  eexists _, m2. split; [done|]. split; [done|]. split; [done|]. split; [done|].
  split; [simpl; lia|]. split; [done|].
  split; [|by intros x Hx; rewrite Hout, Hout1 by lia].
  split; cbn [mq_len mq_desc_table_addr mq_desc_table mq_avail_addr]; try done.
  - by eexists.
  - lia.
  - split; (eapply same_layout_mapped; [done|]); intros x Hx; apply Hm; lia.
  - split; by eapply same_layout_acc16.
  - eapply gm_read_ext; [lia| |exact Hi1]. intros x Hx. apply Hout. lia.
Qed.
(** The mock driver offers a chain of direct descriptors, and writes nothing outside of its
    queue. *)
Lemma driver_offers_chain m start len descs :
  0 <= start -> start mod 16 = 0 -> is_pow2 len -> 0 < len <= MAX_QUEUE_SIZE ->
  start + 19 * len + 20 <= 2 ^ 64 -> range_mapped m start (19 * len + 20) ->
  acc16 m (start + 16 * len + 2) -> acc16 m (start + 16 * len + 4) ->
  descs <> [] -> Z.of_nat (length descs) <= len ->
  Forall (fun d => descriptor_wf d /\ refers_to_indirect_table d = false) descs ->
  total_len descs < 2 ^ 32 ->
  exists mq m1 m2, mock_create start len m = Some (mq, m1) /\
    build_desc_chain (raw_of_split <$> descs) (mq, m1) = Some ((mq, m2), Ok (chain_new start len 0)) /\
    chain_descriptors m2 (chain_new start len 0) = linked 0 descs /\ same_layout m m2 /\
    forall x, ~ (start <= x < start + 19 * len + 20) -> peek m2 x = peek m x.
Proof.
  intros Hs Hal Hp Hlen H64 Hm Ha2 Ha4 Hne Hl Hwf Htot.
  destruct (mock_create_ready start len m) as (mq & m1 & Hc & Hml & Hmt & Hma & _ & Hl1 & Hrdy & Hfr1);
    [done..|]. pose proof Hlen as Hlen'. unfold MAX_QUEUE_SIZE in Hlen'.
  assert (split_of_raw <$> (raw_of_split <$> descs) = descs) as Hraw.
  { rewrite <- list_fmap_compose. erewrite list_fmap_ext; [apply list_fmap_id|]. by intros ? []. }
  destruct descs as [|d ds]; [done|].
  assert (Forall descriptor_wf (linked 0 (d :: ds))) as Hlwf.
  { apply linked_wf; [lia|lia|]. eapply list.Forall_impl; [exact Hwf|]. by intros ? []. }
  destruct (add_desc_chains_offer m1 mq d ds Hrdy) as (m2 & Hadd & Hst & H2 & H4 & Hl2 & Hfr2);
    [lia|done|].
  destruct (create_queue_spec m1 mq Hrdy) as (q & Hq & Hqs & Hqr & Hqn & Hqd & Hqa).
  exists mq, m1, m2. split; [done|]. split; [|split; [|split; [by eapply same_layout_trans|]]].
  - unfold build_desc_chain. rewrite rm_bind_unfold.
    rewrite link_descs_linked, Hraw by (rewrite ?length_fmap; lia). cbn [unwrap].
    unfold build_multiple_desc_chains. rewrite rm_bind_unfold, Hadd, rm_bind_unfold. cbn [gets fst].
    rewrite rm_bind_unfold, Hq. cbn [of_result map_err].
    rewrite (first_chain_spec m2 mq q) by (rewrite ?Hml; try done; lia). by rewrite Hmt, Hml.
  - erewrite (direct_chain_walk m2 start len 0 (linked 0 (d :: ds)) (chain_new start len 0)); try done.
    + apply stored_linked_chain; [done|lia|lia|by rewrite <- Hmt|]. apply linked_direct.
      eapply list.Forall_impl; [exact Hwf|]. by intros ? [].
    + apply chain_new_wf; unfold in_u; lia.
    + by rewrite linked_total_len.
  - intros x Hx. rewrite Hfr2 by lia. by apply Hfr1.
Qed.
End MockFacts.

(** ** Properties *)

Section MockProperties.
Context {M : Type} `{GML : GuestMemoryLaws M}.
Implicit Types (m : M) (ds : list Descriptor).

(** C8: what the driver offers is what the device walks: on a freshly laid out queue, building
    a chain of direct descriptors succeeds without panic, and the device's iterator finds
    that chain and yields the descriptors in order, with the addresses, lengths and
    directions the driver gave, for any number of descriptors up to the size of the queue. *)
Theorem driver_device_roundtrip m start len descs :
  0 <= start -> start mod 16 = 0 -> is_pow2 len -> 0 < len <= MAX_QUEUE_SIZE ->
  start + 19 * len + 20 <= 2 ^ 64 -> range_mapped m start (19 * len + 20) ->
  acc16 m (start + 16 * len + 2) -> acc16 m (start + 16 * len + 4) ->
  descs <> [] -> Z.of_nat (length descs) <= len ->
  Forall (fun d => descriptor_wf d /\ refers_to_indirect_table d = false) descs ->
  total_len descs < 2 ^ 32 ->
  exists mq m1 m2 c, mock_create start len m = Some (mq, m1) /\
    build_desc_chain (raw_of_split <$> descs) (mq, m1) = Some ((mq, m2), Ok c) /\
    (fun d => (d_addr d, d_len d, is_write_only d)) <$> chain_descriptors m2 c =
    (fun d => (d_addr d, d_len d, is_write_only d)) <$> descs.
Proof.
  intros Hs Hal Hp Hlen H64 Hm Ha2 Ha4 Hne Hl Hwf Htot.
  destruct (driver_offers_chain m start len descs) as (mq & m1 & m2 & Hc & Hb & Hd & _); [done..|].
  exists mq, m1, m2, (chain_new start len 0). split; [done|]. split; [done|].
  rewrite Hd. apply (linked_fields 0 descs _ fst).
Qed.

(** The rings of the mock overlap: [end] counts elements and not bytes, so for queues of
    16 and more the used ring starts inside the entries of the available ring. *)
Theorem mock_rings_overlap m start len :
  0 <= start -> start mod 16 = 0 -> is_pow2 len -> 16 <= len <= MAX_QUEUE_SIZE ->
  start + 19 * len + 20 <= 2 ^ 64 -> range_mapped m start (19 * len + 20) ->
  acc16 m (start + 16 * len + 2) -> acc16 m (start + 16 * len + 4) ->
  exists mq m', mock_create start len m = Some (mq, m') /\
    mq_used_addr mq < mq_avail_addr mq + 4 + 2 * mq_len mq.
Proof.
  intros Hs Hal Hp Hlen H64 Hm Ha2 Ha4.
  destruct (mock_create_ready start len m) as (mq & m1 & Hc & Hml & _ & _ & Hu & _); [done|done|done|lia|done|done|done|done|].
  exists mq, m1. split; [done|]. lia.
Qed.
End MockProperties.

(** ** Concrete runs *)

Module MockExamples.
Definition mem : FlatMem := from_ranges [(0, 0x10000)].
Definition descs : list Descriptor := [
  descriptor_new 0x5000 16 0 7;
  descriptor_new 0x6000 512 VRING_DESC_F_WRITE 0;
  descriptor_new 0x7000 1 VRING_DESC_F_WRITE 3].

Lemma mem_mapped a n : 0 <= a -> a + n <= 0x10000 -> range_mapped mem a n.
Proof. intros Ha Hn. apply (fm_region_mapped mem 0 0 0x10000); [reflexivity|lia|lia]. Qed.

Lemma mem_acc16 a : fm_acc16 mem a = true -> acc16 mem a.
Proof. apply fm_acc16_spec. Qed.

Lemma descs_ok : Forall (fun d => descriptor_wf d /\ refers_to_indirect_table d = false) descs.
Proof. by repeat constructor. Qed.
End MockExamples.

Lemma driver_device_roundtrip_witness :
  exists mq m1 m2 c, mock_create 0x1000 16 MockExamples.mem = Some (mq, m1) /\
    build_desc_chain (raw_of_split <$> MockExamples.descs) (mq, m1) = Some ((mq, m2), Ok c) /\
    (fun d => (d_addr d, d_len d, is_write_only d)) <$> chain_descriptors m2 c =
      [(0x5000, 16, false); (0x6000, 512, true); (0x7000, 1, true)].
Proof.
  destruct (driver_device_roundtrip MockExamples.mem 0x1000 16 MockExamples.descs)
    as (mq & m1 & m2 & c & Hc & Hb & Hd).
  - lia.
  - reflexivity.
  - exists 4. split; [lia|reflexivity].
  - unfold MAX_QUEUE_SIZE. lia.
  - lia.
  - apply MockExamples.mem_mapped; lia.
  - apply MockExamples.mem_acc16. reflexivity.
  - apply MockExamples.mem_acc16. reflexivity.
  - discriminate.
  - simpl. lia.
  - exact MockExamples.descs_ok.
  - reflexivity.
  - exists mq, m1, m2, c. split; [exact Hc|]. split; [exact Hb|]. rewrite Hd. reflexivity.
Defined.

Lemma mock_rings_overlap_witness :
  exists mq m', mock_create 0x1000 16 MockExamples.mem = Some (mq, m') /\
    mq_used_addr mq < mq_avail_addr mq + 4 + 2 * mq_len mq.
Proof.
  apply (mock_rings_overlap MockExamples.mem 0x1000 16).
  - lia.
  - reflexivity.
  - exists 4. split; [lia|reflexivity].
  - unfold MAX_QUEUE_SIZE. lia.
  - lia.
  - apply MockExamples.mem_mapped; lia.
  - apply MockExamples.mem_acc16. reflexivity.
  - apply MockExamples.mem_acc16. reflexivity.
Defined.
