(* ===== verification/Benches.v ===== *)
(** * The chains of the mock driver and the benchmarks

    virtio-queue/benches/queue/mod.rs: queues filled with [add_chain] and
    [add_indirect_chain] of the mock driver and walked by the device, and a
    queue to which used elements are added.  The benchmarks assert what the
    walk counts; the theorems show that these assertions hold, and what
    [add_chain] makes of chains of different lengths. *)

From stdpp Require Import base numbers list option.
From S2P Require Import Prelude Bytes GuestMemory FlatMemory Descriptor Chain Queue.
From S2P Require Import QueueFacts UsedRing AvailRing Mock.

(** ** The benchmarks *)

Section Benches.
Context {M : Type} `{GuestMemory M}.

(** The closure of [chain.for_each], which counts the descriptors. *)
Definition count_descriptors (ds : list Descriptor) (num_descriptors : usize) : option usize :=
  foldl (fun n _ => n ≫= fun n => add_u 64 n 1) (Some num_descriptors) ds.

(** The loop of [walk_queue]; [fuel] bounds the chains of one iterator. *)
Fixpoint walk_loop (fuel : nat) (it : AvailIter) (num_chains num_descriptors : usize)
    : RM (Queue * M) Error (usize * usize) :=
  match fuel with
  | O => panic
  | S fuel =>
      o ← avail_next it;
      match o with
      | None => mret (num_chains, num_descriptors)
      | Some chain =>
          num_chains ← unwrap (add_u 64 num_chains 1);
          m ← gets snd;
          num_descriptors ← unwrap (count_descriptors (chain_descriptors m chain) num_descriptors);
          walk_loop fuel it num_chains num_descriptors
      end
  end.

Definition walk_queue : RM (Queue * M) Error (usize * usize) :=
  q ← gets fst;
  it ← unwrapped iter;
  walk_loop (S (Z.to_nat (q_size q))) it 0 0.

Fixpoint add_chains (num_chains : nat) (len : u16) (indirect : bool)
    : RM (MockSplitQueue * M) MockError unit :=
  match num_chains with
  | O => mret tt
  | S num_chains =>
      _ ← unwrapped (if indirect then add_indirect_chain len else add_chain len);
      add_chains num_chains len indirect
  end.

Definition queue_with_chains (num_chains : nat) (len : u16) (indirect : bool) (m : M)
    : option (Queue * M) :=
  x ← mock_new 256 m;
  y ← add_chains num_chains len indirect x;
  q ← to_option (create_queue (fst (fst y)));
  Some (q, snd (fst y)).

Definition empty_queue (m : M) : option (Queue * M) :=
  x ← mock_new 256 m;
  q ← to_option (create_queue (fst x));
  Some (q, snd x).

(** The routine that walks a queue and asserts its counts. *)
Definition bench_walk (setup : M -> option (Queue * M)) (num_chains num_descriptors : usize) (m : M)
    : option M :=
  x ← setup m;
  y ← walk_queue x;
  match y with
  | (_, m, Ok (n, k)) => if (n =? num_chains) && (k =? num_descriptors) then Some m else None
  | (_, Err _) => None
  end.

Fixpoint add_used_times (n : nat) : RM (Queue * M) Error unit :=
  match n with
  | O => mret tt
  | S n => _ ← unwrapped (add_used 123 0x1000); add_used_times n
  end.

Definition bench_add_used (m : M) : option M :=
  x ← empty_queue m;
  y ← add_used_times 128 x;
  Some (snd (fst y)).

(** The benchmarks [benchmark_queue] registers. *)
Inductive Bench : Type :=
| SingleChain (indirect : bool)
| MultipleChains (indirect : bool)
| AddUsed.

(** One iteration of a benchmark: its setup and its routine. *)
Definition bench_queue (b : Bench) (m : M) : option M :=
  match b with
  | SingleChain indirect => bench_walk (queue_with_chains 1 128 indirect) 1 128 m
  | MultipleChains indirect => bench_walk (queue_with_chains 128 1 indirect) 128 128 m
  | AddUsed => bench_add_used m
  end.
End Benches.

(** ** The chains [build_chain] stores *)

(** The descriptors of a chain of [len]: constant buffers, linked. *)
Definition blank : Descriptor := descriptor_new 0x1000 0x1000 0 0.
Definition blank_chain (i : Z) (len : nat) : list Descriptor := linked i (replicate len blank).

Lemma length_blank_chain i len : length (blank_chain i len) = len.
Proof. unfold blank_chain. by rewrite length_linked, length_replicate. Qed.

Lemma blank_chain_total i len : total_len (blank_chain i len) = 0x1000 * Z.of_nat len.
Proof.
  unfold blank_chain. rewrite linked_total_len. induction len as [|len IH]; [done|].
  cbn [replicate]. unfold total_len in *. cbn [foldr]. rewrite IH. cbn [d_len blank descriptor_new]. lia.
Qed.

Lemma blank_chain_wf i len : 0 <= i -> i + Z.of_nat len <= 2 ^ 16 ->
  Forall descriptor_wf (blank_chain i len).
Proof. intros Hi Hl. apply linked_wf; [done|by rewrite length_replicate|by apply Forall_replicate]. Qed.

Lemma blank_chain_cons i len :
  blank_chain i (S len) =
    chain_desc (match len with O => None | S _ => Some (i + 1) end) :: blank_chain (i + 1) len.
Proof. by destruct len. Qed.

Section ChainFacts.
Context {M : Type} `{GML : GuestMemoryLaws M}.
Implicit Types (m : M) (mq : MockSplitQueue).

Lemma stored_kept m m' tbl i ds :
  stored m tbl i ds ->
  (forall x, tbl + 16 * i <= x < tbl + 16 * (i + Z.of_nat (length ds)) -> peek m' x = peek m x) ->
  stored m' tbl i ds.
Proof.
  intros Hs Hx k d Hk. eapply read_descriptor_kept; [by apply Hs|]. intros x Hr. apply Hx.
  pose proof (lookup_lt_Some _ _ _ Hk). lia.
Qed.

Lemma store_chain_blank tbl n free len : forall i m,
  0 <= tbl -> 0 <= i -> i + Z.of_nat len <= n -> n < 2 ^ 16 -> tbl + 16 * n < 2 ^ 64 ->
  range_mapped m tbl (16 * n) ->
  exists m', store_chain (mk_table (mk_array_ref tbl n) n free)
      (Z.of_nat <$> seq (Z.to_nat i) len) m = Some (m', Ok tt) /\
    same_layout m m' /\ stored m' tbl i (blank_chain i len) /\
    forall x, ~ (tbl + 16 * i <= x < tbl + 16 * (i + Z.of_nat len)) -> peek m' x = peek m x.
Proof.
  induction len as [|len IH]; intros i m Ht Hi Hl Hn H64 Hm.
  { exists m. split; [done|]. split; [apply same_layout_refl|]. split; [|done].
    intros k d Hk. destruct k; discriminate Hk. }
  rewrite blank_chain_cons. set (d := chain_desc _).
  assert (descriptor_wf d) as Hd.
  { pose proof (blank_chain_wf i (S len) Hi ltac:(lia)) as Hw. rewrite blank_chain_cons in Hw. by inversion Hw. }
  destruct (table_store_spec m tbl n free i d) as (m1 & Hst & Hly & Hrd & Hout); [done|lia|lia|done|done|].
  destruct (IH (i + 1) m1) as (m2 & Hr & Hly2 & Hst2 & Hout2); try done; try lia.
  { by eapply same_layout_mapped. }
  exists m2. cbn [seq]. rewrite fmap_cons, Z2Nat.id by done. cbn [store_chain].
  assert (chain_desc (head (Z.of_nat <$> seq (S (Z.to_nat i)) len)) = d) as ->.
  { destruct len; [done|]. cbn [seq]. rewrite fmap_cons. cbn [head]. unfold d. do 2 f_equal. lia. }
  rewrite rm_bind_unfold, Hst. replace (S (Z.to_nat i)) with (Z.to_nat (i + 1)) by lia.
  split; [done|]. split; [by eapply same_layout_trans|]. split.
  - intros [|k] x Hx; simplify_eq/=.
    + rewrite Z.add_0_r. eapply read_descriptor_kept; [exact Hrd|]. intros y Hy. apply Hout2. lia.
    + specialize (Hst2 k x Hx). rewrite <- Hst2. f_equal. lia.
  - intros x Hx. rewrite Hout2, Hout by lia. done.
Qed.

(** [build_chain] on a new table stores the chain from entry 0 on. *)
Lemma build_chain_blank tbl n len m :
  0 <= tbl -> 0 < len <= n -> n < 2 ^ 16 -> tbl + 16 * n < 2 ^ 64 -> range_mapped m tbl (16 * n) ->
  exists m', build_chain (table_new tbl n) len m = Some (m', Ok 0) /\
    same_layout m m' /\ stored m' tbl 0 (blank_chain 0 (Z.to_nat len)) /\
    forall x, ~ (tbl <= x < tbl + 16 * len) -> peek m' x = peek m x.
Proof.
  intros Ht Hl Hn H64 Hm. unfold build_chain, table_new. cbn [dt_free_descriptors].
  rewrite rev_involutive, <- fmap_take, take_seq, Nat.min_l by lia.
  rewrite length_fmap, length_seq, Z2Nat.id, Z.eqb_refl by lia. cbn [negb].
  destruct (store_chain_blank tbl n (rev (Z.of_nat <$> seq 0 (Z.to_nat n))) (Z.to_nat len) 0 m)
    as (m' & Hr & Hly & Hst & Hout); try done; try lia.
  exists m'. change (Z.to_nat 0) with 0%nat in Hr. rewrite rm_bind_unfold, Hr.
  split; [|split; [done|split; [done|intros x Hx; apply Hout; lia]]].
  destruct (Z.to_nat len) eqn:He; [lia|]. done.
Qed.

(** ** Offering a chain *)

(** A mock queue whose first [k] available entries name descriptor 0, where
    [ds] is stored, with [room] bytes left for indirect tables. *)
Record offering m mq (k : nat) (ds : list Descriptor) (room : Z) : Prop := {
  of_table : mq_desc_table mq = table_new (mq_desc_table_addr mq) (mq_len mq);
  of_avail : exists ev, mq_avail mq =
    mk_ring (mq_avail_addr mq) (mq_avail_addr mq + 2)
      (mk_array_ref (mq_avail_addr mq + 4) (mq_len mq)) ev;
  of_len : 0 < mq_len mq <= MAX_QUEUE_SIZE;
  of_order : 0 <= mq_desc_table_addr mq /\
    mq_desc_table_addr mq + 16 * mq_len mq <= mq_avail_addr mq /\
    mq_avail_addr mq + 4 + 2 * mq_len mq <= mq_indirect_addr mq /\
    0 <= room /\ mq_indirect_addr mq + room < 2 ^ 64;
  of_mapped : range_mapped m (mq_desc_table_addr mq) (16 * mq_len mq) /\
    range_mapped m (mq_avail_addr mq) (4 + 2 * mq_len mq) /\
    range_mapped m (mq_indirect_addr mq) room;
  of_atomic : forall i, 0 <= i <= mq_len mq -> acc16 m (mq_avail_addr mq + 2 + 2 * i);
  of_count : Z.of_nat k <= mq_len mq;
  of_idx : gm_load16 m (mq_avail_addr mq + 2) = Ok (Z.of_nat k);
  of_entries : forall i : nat, (i < k)%nat ->
    gm_load16 m (mq_avail_addr mq + 4 + 2 * Z.of_nat i) = Ok 0;
  of_chain : (0 < k)%nat ->
    direct_chain m (mq_desc_table_addr mq) (mq_len mq) 0 ds \/
    indirect_chain m (mq_desc_table_addr mq) (mq_len mq) 0 ds;
}.

Lemma u16_store m a v : in_u 16 v -> acc16 m a ->
  exists m', ref_store (BV := u16_bv) v a m = Some m' /\ same_layout m m' /\
    gm_load16 m' a = Ok v /\ forall x, ~ (a <= x < a + 2) -> peek m' x = peek m x.
Proof.
  intros Hv Ha. destruct (u16_write m a v) as (m' & Hw & Ho & Hly).
  { destruct Ha as [w Hw]. apply law_load in Hw as [_ Hr]. apply law_read in Hr as [_ Hp]; [|lia].
    intros x Hx. specialize (Hp (Z.to_nat (x - a)) ltac:(lia)). rewrite Z2Nat.id, Zplus_minus in Hp by lia.
    unfold mapped. rewrite Hp. apply lookup_lt_is_Some_2. rewrite length_le_bytes. lia. }
  exists m'. unfold ref_store. rewrite Hw. split; [done|]. split; [done|]. split.
  - apply load16_bytes; [done|by eapply same_layout_acc16|].
    by apply (overwritten_read m m' a (le_bytes 2 v)).
  - intros x Hx. by apply (overwritten_peek_other _ _ _ _ _ Ho).
Qed.

(** [update_avail_idx] makes the next entry name descriptor 0. *)
Lemma update_avail_idx_spec m mq k ds room :
  offering m mq k ds room -> Z.of_nat k < mq_len mq ->
  exists m', update_avail_idx 0 (mq, m) = Some ((mq, m'), Ok tt) /\ same_layout m m' /\
    gm_load16 m' (mq_avail_addr mq + 2) = Ok (Z.of_nat (S k)) /\
    (forall i : nat, (i < S k)%nat -> gm_load16 m' (mq_avail_addr mq + 4 + 2 * Z.of_nat i) = Ok 0) /\
    (forall x, ~ (mq_avail_addr mq <= x < mq_avail_addr mq + 4 + 2 * mq_len mq) -> peek m' x = peek m x).
Proof.
  intros [_ [ev Hav] Hlen (Ht & Htv & Hvi & Hroom0 & H64) _ Hacc _ Hidx Hent _] Hk. unfold MAX_QUEUE_SIZE in Hlen.
  unfold update_avail_idx. rewrite Hav. cbn [ring_idx ring_ring].
  assert (ref_load Z (BV := u16_bv) m (mq_avail_addr mq + 2) = Some (Z.of_nat k)) as ->.
  { pose proof (law_load _ _ _ Hidx) as [Hu Hr]. unfold ref_load, read_obj.
    change (@bv_size Z u16_bv) with 2%nat. rewrite Hr. cbn [to_option]. f_equal.
    pose proof (uint_bv_laws 2 ltac:(lia)) as HL. by apply (bv_decode_encode (T := Z) (BV := u16_bv)). }
  unfold ref_at. cbn [ar_len ar_addr]. rewrite Z.geb_leb, (proj2 (Z.leb_gt _ _)) by lia.
  unfold checked_add. rewrite (proj2 (Z.ltb_lt _ _)) by lia. replace (Z.of_nat k * 2) with (2 * Z.of_nat k) by lia.
  destruct (u16_store m (mq_avail_addr mq + 4 + 2 * Z.of_nat k) 0) as (m1 & -> & Hl1 & Hv1 & Ho1); [done| |].
  { replace (mq_avail_addr mq + 4 + 2 * Z.of_nat k) with (mq_avail_addr mq + 2 + 2 * (Z.of_nat k + 1)) by lia.
    apply Hacc. lia. }
  unfold wadd. rewrite wrap_small by (unfold in_u; lia). replace (Z.of_nat k + 1) with (Z.of_nat (S k)) by lia.
  destruct (u16_store m1 (mq_avail_addr mq + 2) (Z.of_nat (S k))) as (m2 & -> & Hl2 & Hv2 & Ho2);
    [unfold in_u; lia|eapply same_layout_acc16; [done|by eexists]|].
  exists m2. split; [done|]. split; [by eapply same_layout_trans|]. split; [done|]. split.
  - intros i Hi. apply (load_ext m1 m2); [done|intros x Hx; apply Ho2; lia|].
    destruct (decide (i = k)) as [->|Hne]; [done|].
    apply (load_ext m m1); [done|intros x Hx; apply Ho1; lia|]. apply Hent. lia.
  - intros x Hx. rewrite Ho2, Ho1 by lia. done.
Qed.

(** What both ways to add a chain end with: descriptor 0 has been given a chain
    that the available ring does not overlap. *)
Lemma offer_chain m m1 mq mq1 k ds ds1 room room1 :
  offering m mq k ds room -> Z.of_nat k < mq_len mq -> same_layout m m1 ->
  mq1 = with_indirect_addr (mq_indirect_addr mq1) mq -> 0 <= room1 ->
  mq_indirect_addr mq <= mq_indirect_addr mq1 ->
  mq_indirect_addr mq1 + room1 = mq_indirect_addr mq + room ->
  (forall x, mq_avail_addr mq <= x < mq_avail_addr mq + 4 + 2 * mq_len mq -> peek m1 x = peek m x) ->
  (forall m2, (forall x, ~ (mq_avail_addr mq <= x < mq_avail_addr mq + 4 + 2 * mq_len mq) ->
      peek m2 x = peek m1 x) ->
    direct_chain m2 (mq_desc_table_addr mq) (mq_len mq) 0 ds1 \/
    indirect_chain m2 (mq_desc_table_addr mq) (mq_len mq) 0 ds1) ->
  exists m2, update_avail_idx 0 (mq1, m1) = Some ((mq1, m2), Ok tt) /\
    offering m2 mq1 (S k) ds1 room1 /\ same_layout m m2.
Proof.
  intros Hof Hk Hl Hmq Hr1 Hi1 Hroom Hx Hchain.
  assert (offering m1 mq1 k ds1 room1) as Hof1.
  { destruct Hof as [Htb Hav Hlen (Ht & Htv & Hvi & Hroom0 & H64) (Hm1 & Hm2 & Hm3) Hacc Hc Hidx Hent _].
    rewrite Hmq. split; cbn [with_indirect_addr mq_desc_table mq_desc_table_addr mq_len mq_avail
      mq_avail_addr mq_indirect_addr]; try done.
    - lia.
    - split_and!; try (by eapply same_layout_mapped). eapply same_layout_mapped; [done|].
      intros x Hin. apply Hm3. lia.
    - intros i Hi. eapply same_layout_acc16; eauto.
    - eapply load_ext; [done| |done]. intros x Hin. apply Hx. lia.
    - intros i Hi. eapply load_ext; [done| |by apply Hent]. intros x Hin. apply Hx. lia.
    - intros _. by apply Hchain. }
  rewrite Hmq in Hof1. cbn [with_indirect_addr mq_avail_addr mq_len] in Hof1.
  destruct (update_avail_idx_spec _ _ _ _ _ Hof1 Hk) as (m2 & Hr & Hl2 & Hidx & Hent & Hout).
  rewrite <- Hmq in Hr, Hof1. exists m2. split; [done|]. split; [|by eapply same_layout_trans].
  rewrite Hmq in Hof1 |- *. destruct Hof1 as [Htb Hav Hlen Hord (Hm1 & Hm2 & Hm3) Hacc Hc _ _ _].
  split; cbn [with_indirect_addr mq_desc_table mq_desc_table_addr mq_len mq_avail
      mq_avail_addr mq_indirect_addr] in *; try done.
  - split_and!; by eapply same_layout_mapped.
  - intros i Hi. eapply same_layout_acc16; eauto.
  - lia.
  - intros _. by apply Hchain.
Qed.

Lemma blank_chain_direct m tbl n len :
  0 < len <= n -> stored m tbl 0 (blank_chain 0 (Z.to_nat len)) ->
  direct_chain m tbl n 0 (blank_chain 0 (Z.to_nat len)).
Proof.
  intros Hl Hs. apply stored_linked_chain; try done.
  - intros Hn. apply (f_equal length) in Hn. rewrite length_replicate in Hn. simpl in Hn. lia.
  - rewrite length_replicate. lia.
  - apply linked_direct. by apply Forall_replicate.
Qed.

(** [add_chain]: descriptor 0 starts a chain of [len], and is offered once
    more. *)
Lemma add_chain_spec m mq k ds room len :
  offering m mq k ds room -> Z.of_nat k < mq_len mq -> 0 < len <= mq_len mq ->
  exists m', add_chain len (mq, m) = Some ((mq, m'), Ok tt) /\ same_layout m m' /\
    offering m' mq (S k) (blank_chain 0 (Z.to_nat len)) room.
Proof.
  intros Hof Hk Hl. pose proof Hof as [Htb _ Hlen (Ht & Htv & Hvi & Hroom0 & H64) (Hm & _) _ _ _ _ _].
  unfold MAX_QUEUE_SIZE in Hlen.
  destruct (build_chain_blank (mq_desc_table_addr mq) (mq_len mq) len m) as (m1 & Hb & Hl1 & Hst & Hout);
    [lia|lia|lia|lia|done|].
  destruct (offer_chain m m1 mq mq k ds (blank_chain 0 (Z.to_nat len)) room room Hof Hk Hl1)
    as (m2 & Hu & Hof2 & Hl2); try done; try lia; [by destruct mq| | |].
  - intros x Hx. apply Hout. lia.
  - intros m2 Hx. left. apply blank_chain_direct; [done|]. eapply stored_kept; [done|].
    rewrite length_blank_chain. intros x Hin. apply Hx. lia.
  - exists m2. split; [|done]. unfold add_chain. rewrite rm_bind_unfold. cbn [gets fst].
    rewrite rm_bind_unfold. unfold on_mem. rewrite Htb, Hb. exact Hu.
Qed.

(** The length of the table [alloc_indirect_chain] makes. *)
Definition indirect_len (len : u16) : Z := if len mod 16 =? 0 then len else 16 * (len / 16 + 1).

Lemma indirect_len_bounds len : 0 <= len -> len <= indirect_len len < len + 16.
Proof.
  intros Hl. unfold indirect_len. pose proof (Z.div_mod len 16 ltac:(lia)).
  pose proof (Z.mod_pos_bound len 16 ltac:(lia)). destruct (Z.eqb_spec (len mod 16) 0); lia.
Qed.

Lemma alloc_indirect_chain_spec m mq room len :
  0 < len -> len + 16 <= 2 ^ 16 -> 16 * indirect_len len <= room -> 0 <= mq_indirect_addr mq ->
  mq_indirect_addr mq + room < 2 ^ 64 -> range_mapped m (mq_indirect_addr mq) room ->
  exists m', alloc_indirect_chain len (mq, m) =
      Some ((with_indirect_addr (mq_indirect_addr mq + 16 * indirect_len len) mq, m'),
            Ok (mq_indirect_addr mq)) /\
    same_layout m m' /\ stored m' (mq_indirect_addr mq) 0 (blank_chain 0 (Z.to_nat len)) /\
    forall x, ~ (mq_indirect_addr mq <= x < mq_indirect_addr mq + room) -> peek m' x = peek m x.
Proof.
  intros Hl0 Hl16 Hroom Ha H64 Hm. pose proof (indirect_len_bounds len ltac:(lia)) as Hil.
  destruct (build_chain_blank (mq_indirect_addr mq) (indirect_len len) len m) as (m1 & Hb & Hl1 & Hst & Hout);
    [done|lia|lia|lia|intros x Hx; apply Hm; lia|].
  exists m1. split; [|split; [done|split; [done|intros x Hx; apply Hout; lia]]].
  unfold alloc_indirect_chain. rewrite rm_bind_unfold. cbn [gets fst]. rewrite rm_bind_unfold.
  assert ((if len mod 16 =? 0 then Some len
           else if 16 * (len / 16 + 1) <? 2 ^ 16 then Some (16 * (len / 16 + 1)) else None) =
          Some (indirect_len len)) as ->.
  { unfold indirect_len in *. destruct (len mod 16 =? 0); [done|].
    by rewrite (proj2 (Z.ltb_lt _ _)) by lia. }
  cbn [unwrap]. rewrite rm_bind_unfold. unfold on_mem. rewrite Hb. change (negb (0 =? 0)) with false.
  cbn iota. rewrite rm_bind_unfold. unfold table_total_size, table_new. cbn [dt_len].
  change DESC_SIZE with 16. unfold checked_add. rewrite (proj2 (Z.ltb_lt _ _)) by lia.
  cbn [unwrap]. rewrite rm_bind_unfold. cbn [modify]. unfold mret, rm_ret. do 4 f_equal.
  by replace (indirect_len len * 16) with (16 * indirect_len len) by lia.
Qed.

Lemma table_load_spec m tbl n free i d :
  0 <= i < n -> tbl + 16 * n < 2 ^ 64 -> read_obj Descriptor m (tbl + 16 * i) = Ok d ->
  table_load (mk_table (mk_array_ref tbl n) n free) i m = Some (m, Ok (raw_of_split d)).
Proof.
  intros Hi H64 Hr. unfold table_load, ref_at. cbn [dt_table ar_addr ar_len].
  rewrite Z.geb_leb, (proj2 (Z.leb_gt _ _)) by lia. change DESC_SIZE with 16.
  unfold checked_add. rewrite (proj2 (Z.ltb_lt _ _)) by lia. replace (i * 16) with (16 * i) by lia.
  unfold ref_load, read_obj in *. change (bv_size RawDescriptor) with (bv_size Descriptor).
  destruct (gm_read m _ _) as [bs|]; [|done]. injection Hr as <-. done.
Qed.

(** The descriptor that refers to an indirect table. *)
Definition indirect_desc (addr : u64) (len : u16) : Descriptor :=
  descriptor_new addr (16 * len) VRING_DESC_F_INDIRECT 0.

Lemma blank_chain_indirect m tbl n addr len :
  0 < n -> 0 < len <= 65535 -> read_obj Descriptor m (tbl + 16 * 0) = Ok (indirect_desc addr len) ->
  stored m addr 0 (blank_chain 0 (Z.to_nat len)) ->
  indirect_chain m tbl n 0 (blank_chain 0 (Z.to_nat len)).
Proof.
  intros Hn Hl Hd Hs. exists [], 0, (indirect_desc addr len), (blank_chain 0 (Z.to_nat len)), len.
  split; [done|]. split; [constructor|]. split; [split; [lia|exact Hd]|]. split; [done|].
  split; [simpl; lia|]. split; [done|]. split; [lia|]. apply blank_chain_direct; [lia|done].
Qed.

(** [add_indirect_chain]: descriptor 0 refers to a new table with a chain of
    [len], and is offered once more. *)
Lemma add_indirect_chain_spec m mq k ds room len :
  offering m mq k ds room -> Z.of_nat k < mq_len mq -> 0 < len -> len + 16 <= 2 ^ 16 ->
  16 * indirect_len len <= room ->
  exists m', add_indirect_chain len (mq, m) =
      Some ((with_indirect_addr (mq_indirect_addr mq + 16 * indirect_len len) mq, m'), Ok tt) /\
    same_layout m m' /\
    offering m' (with_indirect_addr (mq_indirect_addr mq + 16 * indirect_len len) mq) (S k)
      (blank_chain 0 (Z.to_nat len)) (room - 16 * indirect_len len).
Proof.
  intros Hof Hk Hl Hl16 Hroom.
  pose proof Hof as [Htb _ Hlen (Ht & Htv & Hvi & Hroom0 & H64) (Hm & _ & Hmi) _ _ _ _ _].
  unfold MAX_QUEUE_SIZE in Hlen. pose proof (indirect_len_bounds len ltac:(lia)) as Hil.
  destruct (build_chain_blank (mq_desc_table_addr mq) (mq_len mq) 1 m) as (m1 & Hb & Hl1 & Hst1 & Ho1);
    [lia|lia|lia|lia|done|].
  destruct (alloc_indirect_chain_spec m1 mq room len) as (m2 & Ha & Hl2 & Hst2 & Ho2);
    [lia|lia|lia|lia|lia|by eapply same_layout_mapped|].
  assert (read_obj Descriptor m2 (mq_desc_table_addr mq + 16 * 0) = Ok (chain_desc None)) as Hd2.
  { eapply read_descriptor_kept; [by apply (Hst1 0%nat)|]. intros x Hx. apply Ho2. lia. }
  destruct (table_store_spec m2 (mq_desc_table_addr mq) (mq_len mq)
    (rev (Z.of_nat <$> seq 0 (Z.to_nat (mq_len mq)))) 0 (indirect_desc (mq_indirect_addr mq) len))
    as (m3 & Hs3 & Hl3 & Hd3 & Ho3); [lia|lia|lia|by do 2 (eapply same_layout_mapped; [done|])| |].
  { split_and!; try done; unfold in_u; cbn [d_addr d_len indirect_desc descriptor_new]; lia. }
  set (mq1 := with_indirect_addr (mq_indirect_addr mq + 16 * indirect_len len) mq).
  destruct (offer_chain m m3 mq mq1 k ds (blank_chain 0 (Z.to_nat len)) room
    (room - 16 * indirect_len len) Hof Hk) as (m4 & Hu & Hof4 & Hl4); try done;
    try (cbn [mq1 with_indirect_addr mq_indirect_addr]; lia).
  - by do 2 (eapply same_layout_trans; [done|]).
  - intros x Hx. rewrite Ho3, Ho2, Ho1 by lia. done.
  - intros m4 Hx. right. apply (blank_chain_indirect m4 _ _ (mq_indirect_addr mq)); [lia|lia| |].
    + eapply read_descriptor_kept; [exact Hd3|]. intros x Hin. apply Hx. lia.
    + eapply stored_kept; [exact Hst2|]. rewrite length_blank_chain. intros x Hin.
      rewrite Hx, Ho3 by lia. done.
  - exists m4. split; [|done]. unfold add_indirect_chain. rewrite rm_bind_unfold. cbn [gets fst].
    rewrite rm_bind_unfold. unfold on_mem at 1. rewrite Htb, Hb, rm_bind_unfold, Ha, rm_bind_unfold.
    unfold on_mem at 1, table_new. rewrite (table_load_spec m2 _ _ _ 0 (chain_desc None)), rm_bind_unfold by (done || lia).
    unfold on_mem at 1. change (wrap 32 DESC_SIZE) with 16. rewrite (Z.mul_comm len 16).
    change (split_of_raw _) with (chain_desc None).
    change (set_len (16 * len) _) with (indirect_desc (mq_indirect_addr mq) len).
    rewrite Hs3. exact Hu.
Qed.

(** Adding chains of one length. *)
Definition room_for (n : nat) (len : u16) (indirect : bool) : Z :=
  if indirect then Z.of_nat n * (16 * indirect_len len) else 0.

Lemma add_chains_spec n len indirect : forall m mq k ds room,
  offering m mq k ds room -> Z.of_nat k + Z.of_nat n <= mq_len mq -> 0 < len <= mq_len mq ->
  room_for n len indirect <= room ->
  exists mq' m' ds' room', add_chains n len indirect (mq, m) = Some ((mq', m'), Ok tt) /\
    same_layout m m' /\ offering m' mq' (k + n) ds' room' /\
    ds' = (match n with O => ds | S _ => blank_chain 0 (Z.to_nat len) end) /\
    mq' = with_indirect_addr (mq_indirect_addr mq') mq.
Proof.
  induction n as [|n IH]; intros m mq k ds room Hof Hk Hl Hr.
  { exists mq, m, ds, room. rewrite Nat.add_0_r. split_and!; try done. by destruct mq. }
  assert (exists mq1 m1 room1, (if indirect then add_indirect_chain len else add_chain len) (mq, m) =
      Some ((mq1, m1), Ok tt) /\ same_layout m m1 /\
      offering m1 mq1 (S k) (blank_chain 0 (Z.to_nat len)) room1 /\
      mq1 = with_indirect_addr (mq_indirect_addr mq1) mq /\ room_for n len indirect <= room1)
    as (mq1 & m1 & room1 & Hr1 & Hl1 & Hof1 & Hmq & Hroom).
  { pose proof (of_len _ _ _ _ _ Hof) as Hlen. unfold MAX_QUEUE_SIZE in Hlen.
    pose proof (indirect_len_bounds len ltac:(lia)). unfold room_for in *. destruct indirect.
    - destruct (add_indirect_chain_spec m mq k ds room len Hof) as (m1 & Ha & Hl1 & Hof1); [nia..|].
      eexists _, m1, _. split; [exact Ha|]. split_and!; try done. nia.
    - destruct (add_chain_spec m mq k ds room len Hof) as (m1 & Ha & Hl1 & Hof1); [lia|lia|].
      eexists _, m1, _. split; [exact Ha|]. split_and!; try done. by destruct mq. }
  destruct (IH m1 mq1 (S k) _ _ Hof1) as (mq' & m' & ds' & room' & Hr2 & Hl2 & Hof2 & Hds & Hmq2);
    [rewrite Hmq; cbn [with_indirect_addr mq_len]; lia|by rewrite Hmq|done|].
  exists mq', m', ds', room'. cbn [add_chains]. rewrite rm_bind_unfold. unfold unwrapped. rewrite Hr1, Hr2.
  split; [done|]. split; [by eapply same_layout_trans|].
  replace (k + S n)%nat with (S k + n)%nat by lia. split; [done|]. split; [by destruct n|].
  rewrite Hmq in Hmq2. exact Hmq2.
Qed.

(** ** Walking the queue *)

Lemma count_descriptors_spec ds : forall n,
  0 <= n -> n + Z.of_nat (length ds) < 2 ^ 64 ->
  count_descriptors ds n = Some (n + Z.of_nat (length ds)).
Proof.
  unfold count_descriptors. induction ds as [|d ds IH]; intros n Hn Hl.
  - simpl. f_equal. lia.
  - cbn [foldl length mbind option_bind] in *. unfold add_u, checked_add in *.
    rewrite (proj2 (Z.ltb_lt _ _)) by lia. rewrite IH by lia. f_equal. lia.
Qed.

Definition descriptors_of m (cs : list DescriptorChain) : Z :=
  foldr (fun c n => Z.of_nat (length (chain_descriptors m c)) + n) 0 cs.

Lemma descriptors_of_nonneg m cs : 0 <= descriptors_of m cs.
Proof. induction cs as [|c cs IH]; simpl; lia. Qed.

Lemma avail_next_memory it q m q' m' o : avail_next it (q, m) = Some ((q', m'), o) -> m' = m.
Proof. unfold avail_next. intros Hn. by repeat case_match; simplify_eq. Qed.

(** The loop counts the chains an iterator yields and their descriptors. *)
Lemma walk_loop_drain fuel it : forall q m q' m' cs nc nd,
  drain fuel it (q, m) = Some ((q', m'), Ok cs) -> 0 <= nc -> 0 <= nd ->
  nc + Z.of_nat (length cs) < 2 ^ 64 -> nd + descriptors_of m cs < 2 ^ 64 ->
  walk_loop fuel it nc nd (q, m) =
    Some ((q', m'), Ok (nc + Z.of_nat (length cs), nd + descriptors_of m cs)).
Proof.
  induction fuel as [|fuel IH]; intros q m q' m' cs nc nd Hd Hnc Hnd Hc Hs; [done|].
  cbn [drain walk_loop] in *. rewrite rm_bind_unfold in Hd. rewrite rm_bind_unfold.
  destruct (avail_next it (q, m)) as [[[q1 m1] [[c|]|e]]|] eqn:Hn; try done.
  2:{ injection Hd as <- <- <-. cbn [length descriptors_of foldr]. by rewrite !Z.add_0_r. }
  apply avail_next_memory in Hn as ->. rewrite rm_bind_unfold in Hd.
  destruct (drain fuel it (q1, m)) as [[[q2 m2] [cs1|e]]|] eqn:Hd1; try done.
  injection Hd as <- <- <-. cbn [length descriptors_of foldr] in Hc, Hs |- *.
  pose proof (descriptors_of_nonneg m cs1). fold (descriptors_of m cs1) in *.
  rewrite rm_bind_unfold. unfold add_u, checked_add. rewrite (proj2 (Z.ltb_lt _ _)) by lia.
  cbn [unwrap]. rewrite rm_bind_unfold. cbn [gets snd]. rewrite rm_bind_unfold.
  rewrite count_descriptors_spec by lia. cbn [unwrap]. rewrite (IH _ _ _ _ _ _ _ Hd1) by lia.
  do 3 f_equal. f_equal; lia.
Qed.

(** What an offering is to the device. *)
Lemma offering_offered m mq k ds room q :
  offering m mq k ds room -> 0 < mq_desc_table_addr mq + 16 * mq_len mq ->
  q_ready q = true -> q_next_avail q = 0 -> q_size q = mq_len mq -> q_avail_ring q = mq_avail_addr mq ->
  offered q m (replicate k 0).
Proof.
  intros [_ _ Hlen (Ht & Htv & _) _ _ Hc Hidx Hent _] Hpos Hr Hn Hs Ha. unfold MAX_QUEUE_SIZE in Hlen.
  split; rewrite ?length_replicate, ?Ha, ?Hs, ?Hn; try done.
  - split; [done|lia].
  - rewrite Hidx. f_equal. unfold wadd. rewrite wrap_small; [lia|unfold in_u; lia].
  - intros i h Hi. apply lookup_replicate in Hi as [-> Hi]. unfold avail_entry, avail_slot.
    rewrite Ha, Hs, Z.add_0_l, Z.mod_small by lia.
    unfold VIRTQ_AVAIL_RING_HEADER_SIZE, VIRTQ_AVAIL_ELEMENT_SIZE.
    by rewrite <- (Hent i Hi), (Z.mul_comm 2).
Qed.

Lemma descriptors_of_replicate m c k :
  descriptors_of m (replicate k c) = Z.of_nat k * Z.of_nat (length (chain_descriptors m c)).
Proof. induction k as [|k IH]; [done|]. cbn [replicate descriptors_of foldr]. unfold descriptors_of in IH. lia. Qed.

(** The device counts every offer, each time with the chain of descriptor 0. *)
Lemma offering_walk m mq k ds room q :
  offering m mq k ds room -> 0 < mq_desc_table_addr mq + 16 * mq_len mq ->
  queue_wf q -> q_ready q = true -> q_next_avail q = 0 -> q_size q = mq_len mq ->
  q_avail_ring q = mq_avail_addr mq -> q_desc_table q = mq_desc_table_addr mq ->
  total_len ds < 2 ^ 32 -> Z.of_nat (length ds) < 2 ^ 32 ->
  walk_queue (q, m) =
    Some ((consumed (Z.of_nat k) q, m), Ok (Z.of_nat k, Z.of_nat k * Z.of_nat (length ds))).
Proof.
  intros Hof Hpos Hwf Hr Hn Hs Ha Hd Htot Hlds.
  pose proof (offering_offered _ _ _ _ _ q Hof Hpos Hr Hn Hs Ha) as Ho.
  destruct (offered_drain q m _ Hwf Ho) as (it & Hit & Hdr).
  rewrite length_replicate in Hdr. rewrite fmap_replicate in Hdr.
  pose proof (of_len _ _ _ _ _ Hof) as Hlen. unfold MAX_QUEUE_SIZE in Hlen.
  pose proof (of_count _ _ _ _ _ Hof) as Hk.
  assert (descriptors_of m (replicate k (chain_of q 0)) = Z.of_nat k * Z.of_nat (length ds)) as Hsum.
  { rewrite descriptors_of_replicate. destruct k as [|k]; [done|]. do 2 f_equal.
    pose proof (queue_wf_size q Hwf). destruct (qw_desc_table _ Hwf).
    change (chain_of q 0) with (chain_new (q_desc_table q) (q_size q) 0).
    assert (chain_wf (chain_new (q_desc_table q) (q_size q) 0)) as Hcw
      by (apply chain_new_wf; [done| |done]; unfold in_u; lia). f_equal.
    rewrite Hd, Hs in *. destruct (of_chain _ _ _ _ _ Hof ltac:(lia)).
    - by eapply direct_chain_walk.
    - by eapply indirect_chain_walk. }
  unfold walk_queue. rewrite rm_bind_unfold. cbn [gets fst]. rewrite rm_bind_unfold.
  unfold unwrapped. rewrite Hit.
  rewrite (walk_loop_drain _ _ _ _ _ _ _ 0 0 Hdr); rewrite ?length_replicate, ?Hsum; try nia.
  by rewrite !Z.add_0_l.
Qed.
End ChainFacts.

(** ** The queue of the benchmarks *)

(** Four gibibytes of memory from address 0 on. *)
Record bench_memory {M} `{GuestMemory M} (m : M) : Prop := {
  bm_mapped : range_mapped m 0 (2 ^ 32);
  bm_atomic : forall a, 0 <= a -> a + 2 <= 2 ^ 32 -> a mod 2 = 0 -> acc16 m a;
}.

(** The mock queue of 256 entries at address 0. *)
Definition bench_mock : MockSplitQueue :=
  mk_mock 256 0 (table_new 0 256)
    4096 (mk_ring 4096 4098 (mk_array_ref 4100 256) 4612)
    4356 (mk_ring 4356 4358 (mk_array_ref 4360 256) 4872) 0x30000000.

Section BenchFacts.
Context {M : Type} `{GML : GuestMemoryLaws M}.
Implicit Types m : M.

Lemma bench_memory_layout m m' : same_layout m m' -> bench_memory m -> bench_memory m'.
Proof.
  intros Hl [Hm Ha]. split; [by eapply same_layout_mapped|].
  intros a H1 H2 H3. eapply same_layout_acc16; eauto.
Qed.

Lemma ring_new_shape base len m r m' : ring_new base len m = Some (r, m') ->
  r = mk_ring base (base + 2) (mk_array_ref (base + 4) len) (base + 4 + 2 * len).
Proof.
  unfold ring_new, checked_add. intros H.
  destruct (base + 4 <? 2 ^ 64); [|done]. cbn [mbind option_bind] in H.
  destruct (base + 4 + 2 * len <? 2 ^ 64); [|done]. cbn [mbind option_bind] in H.
  destruct (base + 2 <? 2 ^ 64); [|done]. cbn [mbind option_bind] in H.
  by repeat (destruct (ref_store _ _ _); [|done]; cbn [mbind option_bind] in H); injection H.
Qed.

Lemma mock_create_bench m mq m' : mock_create 0 256 m = Some (mq, m') -> mq = bench_mock.
Proof.
  unfold mock_create. change (checked_add 64 0 (16 * 256)) with (Some 4096). cbn [mbind option_bind].
  change (align_up 4096 2) with (Some 4096). cbn [mbind option_bind].
  destruct (ring_new 4096 256 m) as [[r1 m1]|] eqn:H1; [|done].
  apply ring_new_shape in H1 as ->. cbn [mbind option_bind].
  change (ring_end _) with (Some 4356). cbn [mbind option_bind].
  change (align_up 4356 4) with (Some 4356). cbn [mbind option_bind].
  destruct (ring_new 4356 256 m1) as [[r2 m2]|] eqn:H2; [|done].
  apply ring_new_shape in H2 as ->. by intros [= <- _].
Qed.

(** A new queue offers nothing. *)
Lemma bench_mock_new m : bench_memory m ->
  exists m', mock_new 256 m = Some (bench_mock, m') /\ same_layout m m' /\
    offering m' bench_mock 0 [] (2 ^ 32 - 0x30000000).
Proof.
  intros Hb. pose proof Hb as [Hm Ha].
  destruct (mock_create_ready 0 256 m) as (mq & m' & Hc & _ & _ & _ & _ & Hl & [_ _ _ _ _ _ Hidx] & _);
    try done; try (by apply Ha); [exists 8; split; [lia|done]|intros x Hx; apply Hm; lia|].
  pose proof (mock_create_bench _ _ _ Hc) as ->. exists m'. split; [done|]. split; [done|].
  destruct (bench_memory_layout _ _ Hl Hb) as [Hm' Ha'].
  split; cbn [bench_mock mq_desc_table mq_desc_table_addr mq_len mq_avail mq_avail_addr
    mq_indirect_addr] in *; try done; try lia.
  - by eexists.
  - split_and!; intros x Hx; apply Hm'; lia.
  - intros i Hi. apply Ha'; [lia|lia|]. replace (4096 + 2 + 2 * i) with ((2049 + i) * 2) by lia.
    apply Z.mod_mul. lia.
  - apply load16_bytes; [done|by apply Ha'|done].
Qed.

Lemma bench_create : exists q, create_queue bench_mock = Ok q /\ queue_wf q /\ q_ready q = true /\
  q_next_avail q = 0 /\ q_next_used q = 0 /\ q_size q = 256 /\ q_desc_table q = 0 /\
  q_avail_ring q = 4096 /\ q_used_ring q = 4356.
Proof.
  eexists. split; [vm_compute; reflexivity|]. split_and!; try reflexivity.
  split; cbn; try done; (split; [by exists 8|done]).
Qed.

(** Setting up and walking a queue of chains of one length. *)
Lemma queue_with_chains_spec m n len indirect :
  bench_memory m -> (n <= 256)%nat -> 0 < len <= 256 ->
  exists q m1, queue_with_chains n len indirect m = Some (q, m1) /\ same_layout m m1 /\
    walk_queue (q, m1) =
      Some ((consumed (Z.of_nat n) q, m1), Ok (Z.of_nat n, Z.of_nat n * len)).
Proof.
  intros Hb Hn Hl. destruct (bench_mock_new m Hb) as (m0 & Hm0 & Hl0 & Hof).
  destruct (add_chains_spec n len indirect m0 bench_mock 0 [] _ Hof)
    as (mq & m1 & ds & room & Ha & Hl1 & Hof1 & Hds & Hmq);
    [cbn [bench_mock mq_len]; lia|exact Hl| |].
  { unfold room_for. pose proof (indirect_len_bounds len ltac:(lia)). destruct indirect; nia. }
  destruct bench_create as (q & Hq & Hwf & Hr & Hna & _ & Hs & Hd & Hav & _).
  exists q, m1. split.
  - unfold queue_with_chains. rewrite Hm0. cbn [mbind option_bind]. rewrite Ha. cbn [mbind option_bind fst snd].
    rewrite Hmq. change (create_queue (with_indirect_addr _ _)) with (create_queue bench_mock).
    by rewrite Hq.
  - split; [by eapply same_layout_trans|].
    assert (Z.of_nat n * Z.of_nat (length ds) = Z.of_nat n * len /\ total_len ds < 2 ^ 32 /\
      Z.of_nat (length ds) < 2 ^ 32) as (<- & Htot & Hlds).
    { rewrite Hds. destruct n; [done|]. rewrite blank_chain_total, length_blank_chain. lia. }
    rewrite Hmq in Hof1. by eapply offering_walk.
Qed.

(** The elements of the benchmark are all stored. *)
Lemma add_used_times_spec n : forall b hist q m,
  queue_wf q -> 123 < q_size q -> used_ring_ready q m -> used_view b hist q m ->
  exists q' m', add_used_times n (q, m) = Some ((q', m'), Ok tt) /\ same_layout m m' /\
    used_view b (hist ++ replicate n (used_elem_new 123 0x1000)) q' m'.
Proof.
  induction n as [|n IH]; intros b hist q m Hwf Hs Hu Hv.
  { exists q, m. rewrite app_nil_r. split_and!; try done. }
  destruct (add_used_appends b hist q m (used_elem_new 123 0x1000) Hwf Hu) as (m1 & Ha & Hv1 & Hl1 & _);
    [by split; simpl; [lia|]|done|].
  destruct (IH b _ (bumped q) m1 (bumped_wf _ Hwf) Hs (used_ring_ready_layout _ _ _ Hl1 Hu) Hv1)
    as (q' & m' & Hr & Hl2 & Hv2).
  exists q', m'. cbn [add_used_times]. rewrite rm_bind_unfold. unfold unwrapped.
  cbn [ue_id ue_len used_elem_new] in Ha. rewrite Ha, Hr.
  split; [done|]. split; [by eapply same_layout_trans|]. by rewrite <- app_assoc in Hv2.
Qed.

Lemma bench_add_used_passes m : bench_memory m ->
  exists m', bench_add_used m = Some m' /\ same_layout m m'.
Proof.
  intros Hb. destruct (bench_mock_new m Hb) as (m0 & Hm0 & Hl0 & _).
  destruct (bench_memory_layout _ _ Hl0 Hb) as [Hm Ha].
  destruct bench_create as (q & Hq & Hwf & _ & _ & Hn & Hs & _ & _ & Hus).
  destruct (add_used_times_spec 128 0 [] q m0 Hwf) as (q' & m' & Hr & Hl & _); [lia| | |].
  - split; rewrite Hus; [|by apply Ha]. rewrite Hs. intros x Hx. apply Hm.
    change (VIRTQ_USED_RING_META_SIZE + VIRTQ_USED_ELEMENT_SIZE * 256) with 2054 in Hx. lia.
  - split_and!; [by rewrite Hn|done|by intros [] ? [=]].
  - exists m'. unfold bench_add_used, empty_queue. rewrite Hm0. cbn [mbind option_bind fst snd].
    rewrite Hq. cbn [to_option mbind option_bind]. rewrite Hr. split; [done|].
    by eapply same_layout_trans.
Qed.

Lemma bench_walk_passes m n len indirect :
  bench_memory m -> (n <= 256)%nat -> 0 < len <= 256 ->
  exists m', bench_walk (queue_with_chains n len indirect) (Z.of_nat n) (Z.of_nat n * len) m = Some m' /\
    same_layout m m'.
Proof.
  intros Hb Hn Hl. destruct (queue_with_chains_spec m n len indirect Hb Hn Hl) as (q & m1 & Hq & Hl1 & Hw).
  exists m1. unfold bench_walk. rewrite Hq. cbn [mbind option_bind]. rewrite Hw. cbn [mbind option_bind].
  by rewrite !Z.eqb_refl.
Qed.

Lemma bench_passes b m : bench_memory m -> exists m', bench_queue b m = Some m' /\ same_layout m m'.
Proof.
  intros Hb. destruct b as [indirect|indirect|]; cbn [bench_queue].
  - apply (bench_walk_passes m 1 128); [done|lia|lia].
  - apply (bench_walk_passes m 128 1); [done|lia|lia].
  - by apply bench_add_used_passes.
Qed.
End BenchFacts.

(** ** Properties *)

Section BenchProperties.
Context {M : Type} `{GML : GuestMemoryLaws M}.

(** The assertions of the benchmarks hold: in four gibibytes of memory, whatever it
    contains, any sequence of iterations of the benchmarks sets up its queues with
    [add_chain] and [add_indirect_chain], counts the chains and descriptors it asserts and
    adds its used elements without a panic. *)
Theorem benchmarks_pass bs (m : M) : bench_memory m ->
  exists m', foldl (fun o b => o ≫= bench_queue b) (Some m) bs = Some m'.
Proof.
  revert m. induction bs as [|b bs IH]; intros m Hb; [by exists m|].
  destruct (bench_passes b m Hb) as (m1 & Hr & Hl).
  cbn [foldl mbind option_bind]. rewrite Hr. apply IH. by eapply bench_memory_layout.
Qed.

(** The walk counts what was added, for any number of chains up to the size of the queue and
    any length. *)
Theorem added_chains_walk (m : M) n len indirect :
  bench_memory m -> (n <= 256)%nat -> 0 < len <= 256 ->
  exists q m1 st, queue_with_chains n len indirect m = Some (q, m1) /\
    walk_queue (q, m1) = Some (st, Ok (Z.of_nat n, Z.of_nat n * len)).
Proof.
  intros Hb Hn Hl. destruct (queue_with_chains_spec m n len indirect Hb Hn Hl) as (q & m1 & Hq & _ & Hw).
  by eexists q, m1, _.
Qed.

(** [build_chain] takes descriptors from the free list and leaves them there, so every chain
    of a queue starts at descriptor 0: after chains of different lengths have been added,
    the device finds the last of them twice. *)
Theorem added_chains_share (m : M) len1 len2 :
  bench_memory m -> 0 < len1 <= 256 -> 0 < len2 <= 256 ->
  exists q m0 m1 m2 st, mock_new 256 m = Some (bench_mock, m0) /\
    add_chain len1 (bench_mock, m0) = Some ((bench_mock, m1), Ok tt) /\
    add_chain len2 (bench_mock, m1) = Some ((bench_mock, m2), Ok tt) /\
    create_queue bench_mock = Ok q /\ walk_queue (q, m2) = Some (st, Ok (2, 2 * len2)).
Proof.
  intros Hb H1 H2. destruct (bench_mock_new m Hb) as (m0 & Hm0 & _ & Hof0).
  destruct (add_chain_spec _ _ _ _ _ len1 Hof0) as (m1 & Ha1 & _ & Hof1); [done|done|].
  destruct (add_chain_spec _ _ _ _ _ len2 Hof1) as (m2 & Ha2 & _ & Hof2); [done|done|].
  destruct bench_create as (q & Hq & Hwf & Hr & Hn & _ & Hs & Hd & Hav & _).
  eexists q, m0, m1, m2, _. split; [done|]. split; [done|]. split; [done|]. split; [done|].
  rewrite (offering_walk _ _ _ _ _ q Hof2); try done; rewrite ?blank_chain_total, ?length_blank_chain, ?Z2Nat.id by lia;
    try done; lia.
Qed.
End BenchProperties.

(** ** Concrete run *)

Module BenchExamples.
Definition bench_mem : FlatMem := from_ranges [(0, 2 ^ 32)].

Lemma bench_mem_ok : bench_memory bench_mem.
Proof.
  split.
  - apply (fm_region_mapped bench_mem 0 0 (2 ^ 32)); [reflexivity|lia|lia].
  - intros a Ha Hl Hm. apply fm_acc16_spec. unfold fm_acc16. rewrite Hm.
    unfold fm_region. cbn [bench_mem from_ranges fm_regions List.find].
    rewrite (proj2 (region_has_spec a (0, 2 ^ 32))) by (simpl; lia).
    rewrite (proj2 (Z.leb_le _ _)) by lia. done.
Qed.
End BenchExamples.
Import BenchExamples.

Lemma benchmarks_pass_witness :
  exists m', foldl (fun o b => o ≫= bench_queue b) (Some bench_mem)
    [SingleChain false; MultipleChains true; AddUsed] = Some m'.
Proof. exact (benchmarks_pass [SingleChain false; MultipleChains true; AddUsed] bench_mem bench_mem_ok). Defined.
