(* ===== verification/QueueSync.v ===== *)
(** * Queues as an interface, and the queue behind a mutex

    The trait [QueueT] of virtio-queue/src/lib.rs as a class, its two
    implementations, [Queue] itself and [QueueSync]
    (virtio-queue/src/queue_sync.rs), which keeps a queue in an
    [Arc<Mutex<Queue>>], and what a client of the trait may rely on.  A
    method runs with the lock taken: the mutex of the standard library lets
    one call in at a time, so calls of several threads are a sequence of calls,
    and the client here is any such sequence. *)

From stdpp Require Import base numbers list option.
From S2P Require Import Prelude Bytes GuestMemory FlatMemory Descriptor Chain Queue.
From S2P Require Import QueueFacts UsedRing QueueConfig Mock.

(** ** The trait *)

Class QueueT (Q M : Type) : Type := {
  qt_new : u16 -> result Error Q;
  (** [lock()]: what is done with the guard until it is dropped. *)
  qt_lock : forall A, RM (Queue * M) Error A -> RM (Q * M) Error A;
  qt_is_valid : RM (Q * M) Error bool;
  qt_reset : RM (Q * M) Error unit;
  qt_max_size : RM (Q * M) Error u16;
  qt_size : RM (Q * M) Error u16;
  qt_set_size : u16 -> RM (Q * M) Error unit;
  qt_ready : RM (Q * M) Error bool;
  qt_set_ready : bool -> RM (Q * M) Error unit;
  qt_set_desc_table_address : option u32 -> option u32 -> RM (Q * M) Error unit;
  qt_set_avail_ring_address : option u32 -> option u32 -> RM (Q * M) Error unit;
  qt_set_used_ring_address : option u32 -> option u32 -> RM (Q * M) Error unit;
  qt_set_event_idx : bool -> RM (Q * M) Error unit;
  qt_avail_idx : Ordering -> RM (Q * M) Error u16;
  qt_used_idx : Ordering -> RM (Q * M) Error u16;
  qt_add_used : u16 -> u32 -> RM (Q * M) Error unit;
  qt_enable_notification : RM (Q * M) Error bool;
  qt_disable_notification : RM (Q * M) Error unit;
  qt_needs_notification : RM (Q * M) Error bool;
  qt_next_avail : RM (Q * M) Error u16;
  qt_set_next_avail : u16 -> RM (Q * M) Error unit;
  qt_next_used : RM (Q * M) Error u16;
  qt_set_next_used : u16 -> RM (Q * M) Error unit;
  qt_desc_table : RM (Q * M) Error u64;
  qt_avail_ring : RM (Q * M) Error u64;
  qt_used_ring : RM (Q * M) Error u64;
  qt_event_idx_enabled : RM (Q * M) Error bool;
  qt_pop_descriptor_chain : RM (Q * M) Error (option DescriptorChain);
}.

(** ** The two implementations *)

(** [Mutex<Queue>]: the queue, and whether a thread panicked while it held
    the lock. *)
Record QueueSync : Type := mk_queue_sync {
  qs_data : Queue;
  qs_poisoned : bool;
}.

Definition with_data (q : Queue) (s : QueueSync) : QueueSync := mk_queue_sync q (qs_poisoned s).

(** [self.state.lock().unwrap()] when no other thread holds the lock. *)
Definition lock_state (s : QueueSync) : option Queue :=
  if qs_poisoned s then None else Some (qs_data s).

Section Instances.
Context {M : Type} `{GuestMemory M}.

(** A getter of the queue. *)
Definition getter {A} (f : Queue -> A) : RM (Queue * M) Error A := gets (fun s => f (fst s)).

Global Instance Queue_QueueT : QueueT Queue M := {|
  qt_new := queue_new;
  qt_lock := fun A c => c;
  qt_is_valid := gets (fun '(q, m) => is_valid m q);
  qt_reset := update_queue reset;
  qt_max_size := getter q_max_size;
  qt_size := getter q_size;
  qt_set_size := fun size => update_queue (queue_set_size size);
  qt_ready := getter q_ready;
  qt_set_ready := fun ready => update_queue (set_ready ready);
  qt_set_desc_table_address := fun low high => update_queue (set_desc_table_address low high);
  qt_set_avail_ring_address := fun low high => update_queue (set_avail_ring_address low high);
  qt_set_used_ring_address := fun low high => update_queue (set_used_ring_address low high);
  qt_set_event_idx := fun enabled => update_queue (set_event_idx enabled);
  qt_avail_idx := avail_idx;
  qt_used_idx := used_idx;
  qt_add_used := add_used;
  qt_enable_notification := enable_notification;
  qt_disable_notification := disable_notification;
  qt_needs_notification := needs_notification;
  qt_next_avail := getter q_next_avail;
  qt_set_next_avail := fun next_avail => update_queue (set_next_avail next_avail);
  qt_next_used := getter q_next_used;
  qt_set_next_used := fun next_used => update_queue (set_next_used next_used);
  qt_desc_table := getter q_desc_table;
  qt_avail_ring := getter q_avail_ring;
  qt_used_ring := getter q_used_ring;
  qt_event_idx_enabled := getter q_event_idx_enabled;
  qt_pop_descriptor_chain := pop_descriptor_chain;
|}.

(** Run [c] on the queue under the lock; the guard is dropped at the end. *)
Definition with_lock {A} (c : RM (Queue * M) Error A) : RM (QueueSync * M) Error A := fun '(s, m) =>
  match lock_state s with
  | None => None
  | Some q =>
      match c (q, m) with
      | None => None
      | Some ((q, m), r) => Some ((with_data q s, m), r)
      end
  end.

Definition sync_new (max_size : u16) : result Error QueueSync :=
  q ← queue_new max_size; Ok (mk_queue_sync q false).

Global Instance QueueSync_QueueT : QueueT QueueSync M := {|
  qt_new := sync_new;
  qt_lock := fun A c => with_lock c;
  qt_is_valid := with_lock qt_is_valid;
  qt_reset := with_lock qt_reset;
  qt_max_size := with_lock qt_max_size;
  qt_size := with_lock qt_size;
  qt_set_size := fun size => with_lock (qt_set_size size);
  qt_ready := with_lock qt_ready;
  qt_set_ready := fun ready => with_lock (qt_set_ready ready);
  qt_set_desc_table_address := fun low high => with_lock (qt_set_desc_table_address low high);
  qt_set_avail_ring_address := fun low high => with_lock (qt_set_avail_ring_address low high);
  qt_set_used_ring_address := fun low high => with_lock (qt_set_used_ring_address low high);
  qt_set_event_idx := fun enabled => with_lock (qt_set_event_idx enabled);
  qt_avail_idx := fun order => with_lock (qt_avail_idx order);
  qt_used_idx := fun order => with_lock (qt_used_idx order);
  qt_add_used := fun head_index len => with_lock (qt_add_used head_index len);
  qt_enable_notification := with_lock qt_enable_notification;
  qt_disable_notification := with_lock qt_disable_notification;
  qt_needs_notification := with_lock qt_needs_notification;
  qt_next_avail := with_lock qt_next_avail;
  qt_set_next_avail := fun next_avail => with_lock (qt_set_next_avail next_avail);
  qt_next_used := with_lock qt_next_used;
  qt_set_next_used := fun next_used => with_lock (qt_set_next_used next_used);
  qt_desc_table := with_lock qt_desc_table;
  qt_avail_ring := with_lock qt_avail_ring;
  qt_used_ring := with_lock qt_used_ring;
  qt_event_idx_enabled := with_lock qt_event_idx_enabled;
  qt_pop_descriptor_chain := with_lock qt_pop_descriptor_chain;
|}.
End Instances.

(** ** Clients of the trait *)

Inductive QueueCall : Type -> Type :=
| QIsValid : QueueCall bool
| QReset : QueueCall unit
| QMaxSize : QueueCall u16
| QSize : QueueCall u16
| QSetSize (size : u16) : QueueCall unit
| QReady : QueueCall bool
| QSetReady (ready : bool) : QueueCall unit
| QSetDescTableAddress (low high : option u32) : QueueCall unit
| QSetAvailRingAddress (low high : option u32) : QueueCall unit
| QSetUsedRingAddress (low high : option u32) : QueueCall unit
| QSetEventIdx (enabled : bool) : QueueCall unit
| QAvailIdx (order : Ordering) : QueueCall u16
| QUsedIdx (order : Ordering) : QueueCall u16
| QAddUsed (head_index : u16) (len : u32) : QueueCall unit
| QEnableNotification : QueueCall bool
| QDisableNotification : QueueCall unit
| QNeedsNotification : QueueCall bool
| QNextAvail : QueueCall u16
| QSetNextAvail (next_avail : u16) : QueueCall unit
| QNextUsed : QueueCall u16
| QSetNextUsed (next_used : u16) : QueueCall unit
| QDescTable : QueueCall u64
| QAvailRing : QueueCall u64
| QUsedRing : QueueCall u64
| QEventIdxEnabled : QueueCall bool
| QPopDescriptorChain : QueueCall (option DescriptorChain).

Definition qt_call {Q M} `{QueueT Q M} {A} (c : QueueCall A) : RM (Q * M) Error A :=
  match c with
  | QIsValid => qt_is_valid
  | QReset => qt_reset
  | QMaxSize => qt_max_size
  | QSize => qt_size
  | QSetSize size => qt_set_size size
  | QReady => qt_ready
  | QSetReady ready => qt_set_ready ready
  | QSetDescTableAddress low high => qt_set_desc_table_address low high
  | QSetAvailRingAddress low high => qt_set_avail_ring_address low high
  | QSetUsedRingAddress low high => qt_set_used_ring_address low high
  | QSetEventIdx enabled => qt_set_event_idx enabled
  | QAvailIdx order => qt_avail_idx order
  | QUsedIdx order => qt_used_idx order
  | QAddUsed head_index len => qt_add_used head_index len
  | QEnableNotification => qt_enable_notification
  | QDisableNotification => qt_disable_notification
  | QNeedsNotification => qt_needs_notification
  | QNextAvail => qt_next_avail
  | QSetNextAvail next_avail => qt_set_next_avail next_avail
  | QNextUsed => qt_next_used
  | QSetNextUsed next_used => qt_set_next_used next_used
  | QDescTable => qt_desc_table
  | QAvailRing => qt_avail_ring
  | QUsedRing => qt_used_ring
  | QEventIdxEnabled => qt_event_idx_enabled
  | QPopDescriptorChain => qt_pop_descriptor_chain
  end.

(** What is done with a guard: calls that may depend on earlier results. *)
Inductive calls (A : Type) : Type :=
| Ret (a : A)
| Call {B} (c : QueueCall B) (k : result Error B -> calls A).
Arguments Ret {A} a.
Arguments Call {A B} c k.

(** A program that uses a queue: it calls methods of the trait and takes
    guards. *)
Inductive client (A : Type) : Type :=
| CRet (a : A)
| CCall {B} (c : QueueCall B) (k : result Error B -> client A)
| CLocked {B} (body : calls B) (k : B -> client A).
Arguments CRet {A} a.
Arguments CCall {A B} c k.
Arguments CLocked {A B} body k.

Section Run.
Context {M : Type} `{GuestMemory M}.

Fixpoint run_calls {A} (p : calls A) (s : Queue * M) : option ((Queue * M) * A) :=
  match p with
  | Ret a => Some (s, a)
  | Call c k =>
      match qt_call c s with
      | None => None
      | Some (s, r) => run_calls (k r) s
      end
  end.

Definition guarded {A} (p : calls A) : RM (Queue * M) Error A := fun s =>
  match run_calls p s with None => None | Some (s, a) => Some (s, Ok a) end.

Fixpoint run_client {Q} `{QueueT Q M} {A} (p : client A) (s : Q * M) : option ((Q * M) * A) :=
  match p with
  | CRet a => Some (s, a)
  | CCall c k =>
      match qt_call c s with
      | None => None
      | Some (s, r) => run_client (k r) s
      end
  | CLocked body k =>
      match qt_lock _ (guarded body) s with
      | None => None
      | Some (s, Ok b) => run_client (k b) s
      | Some (s, Err _) => None
      end
  end.

(** The setters of [MockSplitQueue::create_queue], for any queue. *)
Definition configure (mq : MockSplitQueue) : client unit :=
  let low a := Some (wrap 32 a) in
  let high a := Some (wrap 32 (Z.shiftr a 32)) in
  CCall (QSetSize (mq_len mq)) (fun _ =>
  CCall (QSetReady true) (fun _ =>
  CCall (QSetDescTableAddress (low (mq_desc_table_addr mq)) (high (mq_desc_table_addr mq))) (fun _ =>
  CCall (QSetAvailRingAddress (low (mq_avail_addr mq)) (high (mq_avail_addr mq))) (fun _ =>
  CCall (QSetUsedRingAddress (low (mq_used_addr mq)) (high (mq_used_addr mq))) (fun _ =>
  CRet tt))))).

Definition create_queue_as (Q : Type) `{QueueT Q M} (mq : MockSplitQueue) (m : M)
    : option (M * result Error Q) :=
  match qt_new (mq_len mq) with
  | Err e => Some (m, Err e)
  | Ok q =>
      match run_client (configure mq) (q, m) with
      | None => None
      | Some ((q, m), _) => Some (m, Ok q)
      end
  end.
End Run.

(** ** What a client may rely on *)

(** The queue behind an implementation, when it can be used. *)
Class QueueView (Q : Type) : Type := queue_view : Q -> option Queue.

Global Instance Queue_view : QueueView Queue := fun q => Some q.
Global Instance QueueSync_view : QueueView QueueSync := lock_state.

(** [c] does to the queue behind [Q] what [d] does to a queue. *)
Definition refines {Q M A} `{QueueView Q} (c : RM (Q * M) Error A) (d : RM (Queue * M) Error A)
    : Prop :=
  forall q q0 m, queue_view q = Some q0 ->
    match d (q0, m) with
    | None => c (q, m) = None
    | Some ((q1, m'), r) => exists q', c (q, m) = Some ((q', m'), r) /\ queue_view q' = Some q1
    end.

Class QueueTLaws (Q M : Type) `{GM : GuestMemory M} `{QT : QueueT Q M} `{QV : QueueView Q}
    : Prop := {
  law_new : forall n, match queue_new n with
    | Err e => qt_new n = Err e
    | Ok q0 => exists q, qt_new n = Ok q /\ queue_view q = Some q0
    end;
  law_call : forall A (c : QueueCall A), refines (qt_call (Q := Q) c) (qt_call (Q := Queue) c);
  law_lock : forall A (c : RM (Queue * M) Error A), refines (qt_lock A c) c;
}.

Section Refinement.
Context {M : Type} `{GM : GuestMemory M}.

Lemma with_lock_refines {A} (c : RM (Queue * M) Error A) : refines (with_lock c) c.
Proof.
  intros s q0 m Hv. unfold with_lock. unfold queue_view, QueueSync_view in Hv. rewrite Hv.
  destruct (c (q0, m)) as [[[q1 m'] r]|]; [|done]. eexists. split; [done|].
  unfold queue_view, QueueSync_view, lock_state in *. simpl. by destruct (qs_poisoned s).
Qed.

Global Instance Queue_laws : QueueTLaws Queue M.
Proof.
  split.
  - intros n. simpl. destruct (queue_new n) as [q|e]; [by exists q|done].
  - intros A c q q0 m [= ->]. destruct (qt_call c (q0, m)) as [[[q1 m'] r]|]; [by exists q1|done].
  - intros A c q q0 m [= ->]. simpl. destruct (c (q0, m)) as [[[q1 m'] r]|]; [by exists q1|done].
Qed.

Global Instance QueueSync_laws : QueueTLaws QueueSync M.
Proof.
  split.
  - intros n. simpl. unfold sync_new. simpl. destruct (queue_new n) as [q|e]; [|done]. by eexists.
  - intros A c. destruct c; apply with_lock_refines.
  - intros A c. apply with_lock_refines.
Qed.

(** The outcome of a program on the queue behind [Q]. *)
Definition same_outcome {Q A} `{QueueView Q} (o : option ((Q * M) * A))
    (o0 : option ((Queue * M) * A)) : Prop :=
  match o0 with
  | None => o = None
  | Some ((q1, m'), a) => exists q', o = Some ((q', m'), a) /\ queue_view q' = Some q1
  end.

Context {Q : Type} `{QL : QueueTLaws Q M (GM := GM)}.

Lemma run_client_refines {A} (p : client A) q q0 m :
  queue_view q = Some q0 -> same_outcome (run_client p (q, m)) (run_client p (q0, m)).
Proof.
  revert q q0 m. induction p as [a|B c k IH|B body k IH]; intros q q0 m Hv; cbn [run_client].
  - by exists q.
  - pose proof (law_call _ c q q0 m Hv) as Hc.
    destruct (qt_call c (q0, m)) as [[[q1 m'] r]|]; [|by rewrite Hc].
    destruct Hc as (q' & -> & Hv'). by apply IH.
  - pose proof (law_lock _ (guarded body) q q0 m Hv) as Hc.
    change (qt_lock B (guarded body) (q0, m)) with (guarded body (q0, m)).
    destruct (guarded body (q0, m)) as [[[q1 m'] r]|]; [|by rewrite Hc].
    destruct Hc as (q' & -> & Hv'). destruct r; [by apply IH|done].
Qed.

Lemma create_queue_refines mq m :
  match create_queue mq with
  | Err e => create_queue_as Q mq m = Some (m, Err e)
  | Ok q0 => exists q, create_queue_as Q mq m = Some (m, Ok q) /\ queue_view q = Some q0
  end.
Proof.
  unfold create_queue, create_queue_as. pose proof (law_new (mq_len mq)) as Hn.
  destruct (queue_new (mq_len mq)) as [q0|e]; cbn [mbind result_bind]; [|by rewrite Hn].
  destruct Hn as (q & -> & Hv). destruct (run_client_refines (configure mq) q q0 m Hv) as (q' & -> & Hv').
  by exists q'.
Qed.
End Refinement.

(** ** Properties *)

(** C18: a [QueueSync] is a [Queue] to every client of the trait: whatever methods a program
    calls on it, directly or through a guard, and however later calls depend on earlier
    results, it returns what it returns on a plain queue, leaves the same queue behind and
    the same memory, and panics exactly when the plain queue does. *)
Theorem sync_refines_queue {M} `{GuestMemory M} {A} (p : client A) q (m : M) :
  run_client p (mk_queue_sync q false, m) =
    match run_client p (q, m) with
    | None => None
    | Some ((q', m'), a) => Some ((mk_queue_sync q' false, m'), a)
    end.
Proof.
  pose proof (run_client_refines p (mk_queue_sync q false) q m eq_refl) as Hr.
  unfold same_outcome in Hr. destruct (run_client p (q, m)) as [[[q' m'] a]|]; [|exact Hr].
  destruct Hr as ([q1 []] & -> & Hv); [done|]. by injection Hv as ->.
Qed.

(** [MockSplitQueue::create_queue] configures any implementation of the trait as it configures
    a plain queue. *)
Theorem create_queue_any {Q M} `{QL : QueueTLaws Q M} mq (m : M) :
  match create_queue mq with
  | Err e => create_queue_as Q mq m = Some (m, Err e)
  | Ok q0 => exists q, create_queue_as Q mq m = Some (m, Ok q) /\ queue_view q = Some q0
  end.
Proof. apply create_queue_refines. Qed.
