(* ===== verification/DescriptorUtils.v ===== *)
(** * Readers and writers over a descriptor chain

    virtio-queue/src/descriptor_utils.rs: a chain's readable or writable
    descriptors as a list of volatile slices that is consumed from the front.
    The abstract specification of a consumer is the list of the guest
    addresses that are left, see [cells]. *)

From stdpp Require Import base numbers list option.
From S2P Require Import Prelude Bytes GuestMemory FlatMemory Descriptor Chain.

(** [std::io::Error], as far as the code makes or passes it. *)
Inductive IoError : Type :=
| IoInvalidData (e : Error)
| IoUnexpectedEof
| IoWriteZero
| IoOther (code : Z).

Record DescriptorChainConsumer : Type := mk_consumer {
  dc_buffers : list VolatileSlice;
  dc_bytes_consumed : usize;
}.

Definition available_bytes (c : DescriptorChainConsumer) : usize :=
  foldl (fun count vs => count + vs_len vs) 0 (dc_buffers c).

Definition bytes_consumed (c : DescriptorChainConsumer) : usize := dc_bytes_consumed c.

(** The slices [consume] hands to its callback. *)
Fixpoint select_bufs (count buflen : usize) (buffers : list VolatileSlice) : list VolatileSlice :=
  match buffers with
  | [] => []
  | vs :: buffers =>
      if buflen >=? count then []
      else
        let rem := count - buflen in
        vs :: select_bufs count (if rem <? vs_len vs then buflen + rem else buflen + vs_len vs)
                buffers
  end.

Section Utils.
Context {M : Type} `{GuestMemory M}.

(** The loop that removes [rem] bytes from the front; [None] is the [unwrap]
    of a failing [offset]. *)
Fixpoint drop_front (m : M) (rem : usize) (buffers : list VolatileSlice)
    : option (list VolatileSlice) :=
  match buffers with
  | [] => Some []
  | vs :: buffers =>
      if rem <? vs_len vs then
        match gm_offset m vs rem with
        | Ok vs => Some (vs :: buffers)
        | Err _ => None
        end
      else drop_front m (rem - vs_len vs) buffers
  end.

(** [consume]: the callback runs on the memory and returns the number of
    bytes beside a value of its own ([none] when it is not called). *)
Definition consume {A} (none : A) (count : usize)
    (f : list VolatileSlice -> M -> M * result IoError (A * usize))
    : RM (DescriptorChainConsumer * M) IoError (A * usize) := fun '(c, m) =>
  let bufs := select_bufs count 0 (dc_buffers c) in
  match bufs with
  | [] => Some ((c, m), Ok (none, 0))
  | _ =>
      match f bufs m with
      | (m, Err e) => Some ((c, m), Err e)
      | (m, Ok (a, n)) =>
          match checked_add 64 (dc_bytes_consumed c) n with
          | None => Some ((c, m), Err (IoInvalidData DescriptorChainOverflow))
          | Some total_bytes_consumed =>
              match drop_front m n (dc_buffers c) with
              | None => None
              | Some buffers => Some ((mk_consumer buffers total_bytes_consumed, m), Ok (a, n))
              end
          end
      end
  end.

(** [position]: the index of the slice that holds byte [rem], and what is left
    of [rem] there or at the end. *)
Fixpoint find_pos (rem : usize) (at_ : nat) (buffers : list VolatileSlice) : option nat * usize :=
  match buffers with
  | [] => (None, rem)
  | vs :: buffers =>
      if rem <? vs_len vs then (Some at_, rem) else find_pos (rem - vs_len vs) (S at_) buffers
  end.

(** [split_at] returns the second part and leaves the first in [self]. *)
Definition split_at (m : M) (offset : usize)
    : RM DescriptorChainConsumer Error DescriptorChainConsumer := fun c =>
  match find_pos offset 0 (dc_buffers c) with
  | (Some at_, rem) =>
      let self := take at_ (dc_buffers c) in
      let other := drop at_ (dc_buffers c) in
      if rem >? 0 then
        match other with
        | [] => None
        | front :: other =>
            match gm_subslice m front 0 rem with
            | Err e => Some (mk_consumer self (dc_bytes_consumed c), Err (VolatileMemoryError e))
            | Ok head =>
                let self := self ++ [head] in
                match gm_offset m front rem with
                | Err e => Some (mk_consumer self (dc_bytes_consumed c), Err (VolatileMemoryError e))
                | Ok tail =>
                    Some (mk_consumer self (dc_bytes_consumed c), Ok (mk_consumer (tail :: other) 0))
                end
            end
        end
      else Some (mk_consumer self (dc_bytes_consumed c), Ok (mk_consumer other 0))
  | (None, rem) =>
      if rem =? 0 then Some (c, Ok (mk_consumer [] 0))
      else Some (c, Err (SplitOutOfBounds offset))
  end.

(** The closure that [Reader::new] and [Writer::new] map over the
    descriptors; [None] is the [unwrap] of a failing [checked_sub]. *)
Definition descriptor_slice (m : M) (total_len : usize) (desc : Descriptor)
    : option (result Error (usize * VolatileSlice)) :=
  match checked_add 64 total_len (d_len desc) with
  | None => Some (Err DescriptorChainOverflow)
  | Some total_len =>
      match gm_find_region m (d_addr desc) with
      | None => Some (Err FindMemoryRegion)
      | Some (start, _) =>
          match checked_sub (d_addr desc) start with
          | None => None
          | Some offset =>
              match gm_get_slice m (start + offset) (d_len desc) with
              | Err e => Some (Err (ErrGuestMemoryError e))
              | Ok vs => Some (Ok (total_len, vs))
              end
          end
      end
  end.

(** [collect] stops at the first error. *)
Fixpoint collect_slices (m : M) (total_len : usize) (descs : list Descriptor)
    : option (result Error (list VolatileSlice)) :=
  match descs with
  | [] => Some (Ok [])
  | desc :: descs =>
      match descriptor_slice m total_len desc with
      | None => None
      | Some (Err e) => Some (Err e)
      | Some (Ok (total_len, vs)) =>
          match collect_slices m total_len descs with
          | None => None
          | Some (Err e) => Some (Err e)
          | Some (Ok buffers) => Some (Ok (vs :: buffers))
          end
      end
  end.

Definition consumer_of (r : option (result Error (list VolatileSlice)))
    : option (result Error DescriptorChainConsumer) :=
  match r with
  | None => None
  | Some (Err e) => Some (Err e)
  | Some (Ok buffers) => Some (Ok (mk_consumer buffers 0))
  end.

(** [Reader::new] and [Writer::new]. *)
Definition reader_new (m : M) (c : DescriptorChain) : option (result Error DescriptorChainConsumer) :=
  consumer_of (collect_slices m 0 (rw_descriptors m (readable c))).
Definition writer_new (m : M) (c : DescriptorChain) : option (result Error DescriptorChainConsumer) :=
  consumer_of (collect_slices m 0 (rw_descriptors m (writable c))).

(** The first [n] bytes of a slice. *)
Definition slice_bytes (m : M) (vs : VolatileSlice) (n : nat) : list Z :=
  (fun i => default 0 (peek m (vs_addr vs + Z.of_nat i))) <$> seq 0 n.

(** The callback of [Reader::read]: fill a buffer of [rem] bytes. *)
Fixpoint copy_from (m : M) (rem : usize) (bufs : list VolatileSlice) : list Z :=
  match bufs with
  | [] => []
  | vs :: bufs =>
      let copy_len := Z.min rem (vs_len vs) in
      slice_bytes m vs (Z.to_nat copy_len) ++ copy_from m (rem - copy_len) bufs
  end.

(** [Read::read] into a buffer of [len] bytes: the bytes and their number. *)
Definition reader_read (len : usize) : RM (DescriptorChainConsumer * M) IoError (list Z * usize) :=
  consume [] len (fun bufs m =>
    let bs := copy_from m len bufs in (m, Ok (bs, Z.of_nat (length bs)))).

(** The callback of [Writer::write]. *)
Fixpoint copy_to (m : M) (rem : list Z) (bufs : list VolatileSlice) : M * usize :=
  match bufs with
  | [] => (m, 0)
  | vs :: bufs =>
      let copy_len := Z.min (Z.of_nat (length rem)) (vs_len vs) in
      let m := fst (gm_write m (vs_addr vs) (take (Z.to_nat copy_len) rem)) in
      let '(m, total) := copy_to m (drop (Z.to_nat copy_len) rem) bufs in
      (m, copy_len + total)
  end.

(** [Write::write]. *)
Definition writer_write (buf : list Z) : RM (DescriptorChainConsumer * M) IoError (unit * usize) :=
  consume tt (Z.of_nat (length buf)) (fun bufs m =>
    let '(m, total) := copy_to m buf bufs in (m, Ok (tt, total))).

(** [Read::read_exact] and [Write::write_all] of the standard library: call
    until the buffer is done; a call that moves no byte is the end.  Every
    other call moves at least one byte, so [len + 1] calls are enough. *)
Fixpoint read_exact_fuel (fuel : nat) (len : usize)
    : RM (DescriptorChainConsumer * M) IoError (list Z) :=
  match fuel with
  | O => panic
  | S fuel =>
      if len =? 0 then mret []
      else
        r ← reader_read len;
        if snd r =? 0 then throw IoUnexpectedEof
        else rest ← read_exact_fuel fuel (len - snd r); mret (fst r ++ rest)
  end.

Definition read_exact (len : usize) : RM (DescriptorChainConsumer * M) IoError (list Z) :=
  read_exact_fuel (S (Z.to_nat len)) len.

Fixpoint write_all_fuel (fuel : nat) (buf : list Z)
    : RM (DescriptorChainConsumer * M) IoError unit :=
  match fuel with
  | O => panic
  | S fuel =>
      if decide (buf = []) then mret tt
      else
        r ← writer_write buf;
        if snd r =? 0 then throw IoWriteZero
        else write_all_fuel fuel (drop (Z.to_nat (snd r)) buf)
  end.

Definition write_all (buf : list Z) : RM (DescriptorChainConsumer * M) IoError unit :=
  write_all_fuel (S (length buf)) buf.

Definition reader_read_obj (T : Type) `{ByteValued T}
    : RM (DescriptorChainConsumer * M) IoError T :=
  bs ← read_exact (Z.of_nat (bv_size T)); mret (bv_decode bs).

Definition writer_write_obj {T : Type} `{ByteValued T} (val : T)
    : RM (DescriptorChainConsumer * M) IoError unit := write_all (bv_encode val).
End Utils.

(** ** The guest addresses a consumer covers *)

Definition vs_cells (vs : VolatileSlice) : list Z :=
  (fun i => vs_addr vs + Z.of_nat i) <$> seq 0 (Z.to_nat (vs_len vs)).

Fixpoint slices_cells (bufs : list VolatileSlice) : list Z :=
  match bufs with
  | [] => []
  | vs :: bufs => vs_cells vs ++ slices_cells bufs
  end.

Definition cells (c : DescriptorChainConsumer) : list Z := slices_cells (dc_buffers c).

Definition slices_ok (bufs : list VolatileSlice) : Prop := Forall (fun vs => 0 <= vs_len vs) bufs.

(** The invariant: lengths are lengths, and counting what is left cannot
    overflow. *)
Record consumer_wf (c : DescriptorChainConsumer) : Prop := {
  cs_slices : slices_ok (dc_buffers c);
  cs_consumed : 0 <= dc_bytes_consumed c;
  cs_total : dc_bytes_consumed c + Z.of_nat (length (cells c)) < 2 ^ 64;
}.

Lemma length_vs_cells vs : length (vs_cells vs) = Z.to_nat (vs_len vs).
Proof. unfold vs_cells. by rewrite length_fmap, length_seq. Qed.

Lemma vs_cells_in vs x : 0 <= vs_len vs -> x ∈ vs_cells vs <-> vs_addr vs <= x < vs_addr vs + vs_len vs.
Proof.
  intros Hl. unfold vs_cells. rewrite list_elem_of_fmap. split.
  - intros (i & -> & Hi). apply elem_of_seq in Hi. lia.
  - intros Hx. exists (Z.to_nat (x - vs_addr vs)). rewrite elem_of_seq. lia.
Qed.

Lemma vs_cells_lookup vs i x : vs_cells vs !! i = Some x ->
  x = vs_addr vs + Z.of_nat i /\ (i < Z.to_nat (vs_len vs))%nat.
Proof.
  intros Hx. pose proof (lookup_lt_Some _ _ _ Hx) as Hl. rewrite length_vs_cells in Hl.
  unfold vs_cells in Hx. rewrite list_lookup_fmap, lookup_seq_lt in Hx by done.
  by injection Hx as <-.
Qed.

Lemma slices_cells_app b1 b2 : slices_cells (b1 ++ b2) = slices_cells b1 ++ slices_cells b2.
Proof. induction b1 as [|vs b1 IH]; simpl; [done|]. by rewrite IH, (assoc_L (++)). Qed.

Lemma slices_total n bufs :
  slices_ok bufs ->
  foldl (fun count vs => count + vs_len vs) n bufs = n + Z.of_nat (length (slices_cells bufs)).
Proof.
  intros Hok. revert n. induction Hok as [|vs bufs Hvs _ IH]; intros n; simpl; [lia|].
  rewrite IH, length_app, length_vs_cells. lia.
Qed.

Lemma available_bytes_cells c :
  slices_ok (dc_buffers c) -> available_bytes c = Z.of_nat (length (cells c)).
Proof. intros Hok. unfold available_bytes, cells. rewrite slices_total by done. lia. Qed.

(** Cutting a slice in two. *)
Lemma vs_cells_cut vs n :
  0 <= n <= vs_len vs ->
  vs_cells vs = vs_cells {| vs_addr := vs_addr vs; vs_len := n |} ++
    vs_cells {| vs_addr := vs_addr vs + n; vs_len := vs_len vs - n |}.
Proof.
  intros Hn. unfold vs_cells. cbn [vs_addr vs_len].
  replace (Z.to_nat (vs_len vs)) with (Z.to_nat n + Z.to_nat (vs_len vs - n))%nat by lia.
  rewrite seq_app, fmap_app. f_equal. simpl plus.
  rewrite <- (Nat.add_0_r (Z.to_nat n)), <- fmap_add_seq at 1.
  rewrite <- list_fmap_compose. apply list_fmap_ext. intros i x _. simpl. lia.
Qed.

Lemma slices_cells_cut vs bufs n :
  0 <= n <= vs_len vs ->
  drop (Z.to_nat n) (slices_cells (vs :: bufs)) =
    slices_cells ({| vs_addr := vs_addr vs + n; vs_len := vs_len vs - n |} :: bufs).
Proof.
  intros Hn. simpl. rewrite (vs_cells_cut vs n) by done. rewrite <- (assoc_L (++)).
  rewrite drop_app_length'; [done|]. by rewrite length_vs_cells.
Qed.

Section Facts.
Context {M : Type} `{GML : GuestMemoryLaws M}.
Implicit Types m : M.

Lemma drop_front_spec m rem bufs :
  0 <= rem -> slices_ok bufs ->
  exists bufs', drop_front m rem bufs = Some bufs' /\ slices_ok bufs' /\
    slices_cells bufs' = drop (Z.to_nat rem) (slices_cells bufs).
Proof.
  intros Hr Hok. revert rem Hr. induction Hok as [|vs bufs Hvs Hok IH]; intros rem Hr.
  - exists []. split_and!; [done|constructor|]. simpl. by rewrite drop_nil.
  - cbn [drop_front]. destruct (rem <? vs_len vs) eqn:Hlt; zbool.
    + rewrite law_offset by lia. eexists. split; [done|]. split.
      * constructor; [simpl; lia|done].
      * by rewrite slices_cells_cut by lia.
    + destruct (IH (rem - vs_len vs)) as (bufs' & Hd & Hok' & Hc); [lia|].
      exists bufs'. split; [done|]. split; [done|]. rewrite Hc. simpl.
      rewrite drop_app_ge by (rewrite length_vs_cells; lia).
      rewrite length_vs_cells. f_equal. lia.
Qed.

(** The selected slices hold the first [count] addresses. *)
Lemma select_bufs_take count buflen bufs :
  slices_ok bufs -> buflen <= count ->
  take (Z.to_nat (count - buflen)) (slices_cells (select_bufs count buflen bufs)) =
  take (Z.to_nat (count - buflen)) (slices_cells bufs).
Proof.
  intros Hok. revert buflen. induction Hok as [|vs bufs Hvs Hok IH]; intros buflen Hle; [done|].
  cbn [select_bufs]. rewrite Z.geb_leb. destruct (count <=? buflen) eqn:Hc; zbool.
  { by replace (count - buflen) with 0 by lia. }
  cbn [slices_cells]. rewrite !take_app, length_vs_cells. f_equal.
  destruct (count - buflen <? vs_len vs) eqn:Hl; zbool.
  - by replace (Z.to_nat (count - buflen) - Z.to_nat (vs_len vs))%nat with 0%nat by lia.
  - specialize (IH (buflen + vs_len vs) ltac:(lia)).
    by replace (Z.to_nat (count - buflen) - Z.to_nat (vs_len vs))%nat
      with (Z.to_nat (count - (buflen + vs_len vs))) by lia.
Qed.

Lemma select_bufs_prefix count buflen bufs : select_bufs count buflen bufs `prefix_of` bufs.
Proof.
  revert buflen. induction bufs as [|vs bufs IH]; intros; simpl; [done|].
  case_match; [apply prefix_nil|]. by apply prefix_cons.
Qed.

Lemma select_bufs_nil count bufs :
  0 <= count -> select_bufs count 0 bufs = [] -> count = 0 \/ bufs = [].
Proof. intros Hc. destruct bufs as [|vs bufs]; [by right|]. simpl. case_match; zbool; [lia|done]. Qed.

(** The byte at an address; every address of a consumer is backed. *)
Definition byte_at m (a : Z) : Z := default 0 (peek m a).

Lemma slice_bytes_cells m vs n :
  slice_bytes m vs n = byte_at m <$> take n (vs_cells {| vs_addr := vs_addr vs; vs_len := Z.of_nat n |}).
Proof.
  rewrite take_ge by (rewrite length_vs_cells; simpl; lia).
  unfold slice_bytes, vs_cells. cbn [vs_addr vs_len]. rewrite Nat2Z.id.
  rewrite <- list_fmap_compose. done.
Qed.

Lemma slice_bytes_take m vs n :
  0 <= n <= vs_len vs ->
  slice_bytes m vs (Z.to_nat n) = byte_at m <$> take (Z.to_nat n) (vs_cells vs).
Proof.
  intros Hn. rewrite slice_bytes_cells, (vs_cells_cut vs n) by done. rewrite Z2Nat.id by lia.
  rewrite take_app_le by (rewrite length_vs_cells; simpl; lia). done.
Qed.

Lemma copy_from_spec m rem bufs :
  0 <= rem -> slices_ok bufs ->
  copy_from m rem bufs = byte_at m <$> take (Z.to_nat rem) (slices_cells bufs).
Proof.
  intros Hr Hok. revert rem Hr. induction Hok as [|vs bufs Hvs Hok IH]; intros rem Hr.
  { simpl. by rewrite take_nil. }
  cbn [copy_from slices_cells]. rewrite slice_bytes_take, IH by lia.
  rewrite take_app, fmap_app, length_vs_cells. f_equal.
  - f_equal. destruct (Z.min_spec rem (vs_len vs)) as [[? ->]|[? ->]]; [done|].
    rewrite !take_ge; [done|rewrite length_vs_cells; lia..].
  - do 2 f_equal. lia.
Qed.

(** One call of [consume] with a callback that moves as many bytes as it can. *)
Lemma consume_spec {A} (none : A) n f m c (P : M -> A -> Prop) :
  consumer_wf c -> 0 <= n ->
  (Z.min n (Z.of_nat (length (cells c))) = 0 -> P m none) ->
  (forall bufs, bufs `prefix_of` dc_buffers c ->
     take (Z.to_nat n) (slices_cells bufs) = take (Z.to_nat n) (cells c) ->
     exists m' a, f bufs m = (m', Ok (a, Z.min n (Z.of_nat (length (cells c))))) /\ P m' a) ->
  exists c' m' a, consume none n f (c, m) =
      Some ((c', m'), Ok (a, Z.min n (Z.of_nat (length (cells c))))) /\ P m' a /\
    consumer_wf c' /\ cells c' = drop (Z.to_nat n) (cells c) /\
    bytes_consumed c' = bytes_consumed c + Z.min n (Z.of_nat (length (cells c))).
Proof.
  intros Hwf Hn Hnone Hf. pose proof Hwf as [Hok Hc Ht]. unfold consume.
  destruct (select_bufs n 0 (dc_buffers c)) as [|vs bufs] eqn:Hs.
  { assert (drop (Z.to_nat n) (cells c) = cells c /\
      Z.min n (Z.of_nat (length (cells c))) = 0) as [-> H0].
    { unfold cells. destruct (select_bufs_nil _ _ Hn Hs) as [->| ->].
      - split; [done|lia].
      - split; [apply drop_nil|simpl; lia]. }
    exists c, m, none. rewrite H0. split_and!; try done; [by apply Hnone|lia]. }
  rewrite <- Hs.
  pose proof (select_bufs_take n 0 (dc_buffers c) Hok Hn) as Htk. rewrite Z.sub_0_r in Htk.
  destruct (Hf _ (select_bufs_prefix n 0 (dc_buffers c)) Htk) as (m' & a & -> & HP).
  unfold checked_add. rewrite (proj2 (Z.ltb_lt _ _)) by lia.
  destruct (drop_front_spec m' (Z.min n (Z.of_nat (length (cells c)))) (dc_buffers c))
    as (bufs' & -> & Hok' & Hcells); [lia|done|].
  assert (slices_cells bufs' = drop (Z.to_nat n) (cells c)) as Hcells'.
  { rewrite Hcells. fold (cells c).
    destruct (Z.min_spec n (Z.of_nat (length (cells c)))) as [[? ->]|[? ->]]; [done|].
    rewrite !drop_ge by lia. done. }
  eexists _, m', a. split; [done|]. split; [done|]. split; [|by split].
  split; simpl; [done|lia|].
  change (cells (mk_consumer bufs' _)) with (slices_cells bufs'). rewrite Hcells', length_drop. lia.
Qed.

(** One [read]. *)
Lemma reader_read_spec m c n :
  consumer_wf c -> 0 <= n ->
  exists c', reader_read n (c, m) =
      Some ((c', m), Ok (byte_at m <$> take (Z.to_nat n) (cells c),
                         Z.min n (Z.of_nat (length (cells c))))) /\
    consumer_wf c' /\ cells c' = drop (Z.to_nat n) (cells c) /\
    bytes_consumed c' = bytes_consumed c + Z.min n (Z.of_nat (length (cells c))).
Proof.
  intros Hwf Hn.
  destruct (consume_spec [] n (fun bufs m => let bs := copy_from m n bufs in
      (m, Ok (bs, Z.of_nat (length bs)))) m c
    (fun m' bs => m' = m /\ bs = byte_at m <$> take (Z.to_nat n) (cells c)) Hwf Hn)
    as (c' & m' & bs & Hr & [-> ->] & Hrest).
  - intros H0. split; [done|]. symmetry. apply nil_length_inv. rewrite length_fmap, length_take. lia.
  - intros bufs [tl Hpre] Htk.
    assert (slices_ok bufs) as Hok.
    { destruct Hwf as [Hok _ _]. rewrite Hpre in Hok. by apply Forall_app in Hok as [? _]. }
    eexists _, _. split; [|done]. cbv zeta. rewrite copy_from_spec, Htk by done.
    rewrite length_fmap, length_take. do 3 f_equal. lia.
  - by exists c'.
Qed.

(** The bytes [bs] have been stored at the addresses [cs], and nothing else. *)
Record written m m' (cs bs : list Z) : Prop := {
  wr_layout : same_layout m m';
  wr_outside : forall x, x ∉ cs -> peek m' x = peek m x;
  wr_value : NoDup cs ->
    forall i x b, cs !! i = Some x -> bs !! i = Some b -> peek m' x = Some b;
}.

(** A write to backed memory, also of nothing. *)
Lemma gm_write_overwritten m a bs :
  bytes_ok bs -> range_mapped m a (Z.of_nat (length bs)) ->
  overwritten m (fst (gm_write m a bs)) a bs /\ same_layout m (fst (gm_write m a bs)).
Proof.
  intros Hb Hm. split; [|by apply law_write_layout].
  destruct (gm_write m a bs) as [m' r] eqn:Hw. simpl. destruct (decide (bs = [])) as [->|Hne].
  - intros x. rewrite decide_False by (simpl; lia). destruct r as [[]|e].
    + rewrite (law_write _ _ _ _ Hb Hw x). rewrite decide_False by (simpl; lia). done.
    + apply (law_write_fail _ _ _ _ _ Hb Hw). simpl. lia.
  - pose proof (proj2 (law_write_success m a bs Hne Hb) Hm) as Hok. rewrite Hw in Hok.
    simpl in Hok. subst r. by apply law_write.
Qed.

(** Writing one slice and then the others. *)
Lemma written_app m m1 m2 vs bs1 cs2 bs2 :
  overwritten m m1 (vs_addr vs) bs1 -> same_layout m m1 ->
  Z.of_nat (length bs1) <= vs_len vs ->
  written m1 m2 cs2 bs2 ->
  written m m2 (take (length bs1) (vs_cells vs) ++ cs2) (bs1 ++ bs2).
Proof.
  intros Ho Hl Hlen [Hl2 Hout Hval].
  assert (forall i x, take (length bs1) (vs_cells vs) !! i = Some x ->
    x = vs_addr vs + Z.of_nat i /\ (i < length bs1)%nat) as Hin.
  { intros i x Hx. apply lookup_take_Some in Hx as [Hx ?]. by apply vs_cells_lookup in Hx as [? _]. }
  split.
  - by eapply same_layout_trans.
  - intros x Hx. rewrite not_elem_of_app in Hx. destruct Hx as [Hx1 Hx2].
    rewrite Hout by done. rewrite (overwritten_peek_other _ _ _ _ _ Ho); [done|].
    intros Hr. apply Hx1. apply list_elem_of_lookup. exists (Z.to_nat (x - vs_addr vs)).
    rewrite lookup_take_lt by lia. unfold vs_cells. rewrite list_lookup_fmap, lookup_seq_lt by lia.
    simpl. f_equal. lia.
  - intros Hnd i x b Hx Hb. apply list.NoDup_app in Hnd as (_ & Hdis & Hnd2).
    assert (length (take (length bs1) (vs_cells vs)) = length bs1) as Hl1.
    { rewrite length_take, length_vs_cells. lia. }
    destruct (decide (i < length bs1)%nat) as [Hi|Hi].
    + rewrite lookup_app_l in Hx, Hb by lia. destruct (Hin i x Hx) as [-> _].
      rewrite Hout by (apply Hdis; by eapply list_elem_of_lookup_2).
      rewrite Ho, decide_True by lia. by replace (Z.to_nat _) with i by lia.
    + rewrite lookup_app_r in Hx, Hb by lia. rewrite Hl1 in Hx. by eapply Hval.
Qed.

Lemma copy_to_spec m bs bufs :
  bytes_ok bs -> slices_ok bufs -> Forall (mapped m) (slices_cells bufs) ->
  exists m', copy_to m bs bufs =
      (m', Z.min (Z.of_nat (length bs)) (Z.of_nat (length (slices_cells bufs)))) /\
    written m m' (take (length bs) (slices_cells bufs)) bs.
Proof.
  intros Hb Hok. revert m bs Hb. induction Hok as [|vs bufs Hvs Hok IH]; intros m bs Hb Hm.
  { exists m. split; [simpl; f_equal; lia|]. simpl. rewrite take_nil.
    split; [apply same_layout_refl|done|done]. }
  cbn [copy_to slices_cells] in *. apply Forall_app in Hm as [Hm1 Hm2].
  set (k := Z.min (Z.of_nat (length bs)) (vs_len vs)).
  assert (length (take (Z.to_nat k) bs) = Z.to_nat k) as Hk by (rewrite length_take; lia).
  destruct (gm_write_overwritten m (vs_addr vs) (take (Z.to_nat k) bs)) as [Ho Hl].
  { by apply Forall_take. }
  { intros x Hx. rewrite Hk in Hx. rewrite list.Forall_forall in Hm1. apply Hm1.
    apply vs_cells_in; lia. }
  set (m1 := fst _) in *.
  destruct (IH m1 (drop (Z.to_nat k) bs)) as (m2 & -> & Hw).
  { by apply Forall_drop. }
  { eapply list.Forall_impl; [exact Hm2|]. intros x Hx. by apply Hl. }
  exists m2. split.
  - f_equal. rewrite length_drop, length_app, length_vs_cells. lia.
  - pose proof (written_app m m1 m2 vs _ _ _ Ho Hl ltac:(lia) Hw) as Hw'.
    rewrite take_drop, Hk in Hw'. rewrite take_app, length_vs_cells.
    replace (length bs - Z.to_nat (vs_len vs))%nat with (length (drop (Z.to_nat k) bs))
      by (rewrite length_drop; lia).
    replace (take (length bs) (vs_cells vs)) with (take (Z.to_nat k) (vs_cells vs)); [done|].
    subst k. destruct (Z.min_spec (Z.of_nat (length bs)) (vs_len vs)) as [[? ->]|[? ->]].
    + by rewrite Nat2Z.id.
    + rewrite !take_ge; [done|rewrite length_vs_cells; lia..].
Qed.

(** One [write]. *)
Lemma writer_write_spec m c bs :
  consumer_wf c -> bytes_ok bs -> Forall (mapped m) (cells c) ->
  exists c' m', writer_write bs (c, m) =
      Some ((c', m'), Ok (tt, Z.min (Z.of_nat (length bs)) (Z.of_nat (length (cells c))))) /\
    written m m' (take (length bs) (cells c)) bs /\
    consumer_wf c' /\ cells c' = drop (length bs) (cells c) /\
    bytes_consumed c' =
      bytes_consumed c + Z.min (Z.of_nat (length bs)) (Z.of_nat (length (cells c))).
Proof.
  intros Hwf Hb Hm.
  destruct (consume_spec tt (Z.of_nat (length bs)) (fun bufs m =>
      let '(m, total) := copy_to m bs bufs in (m, Ok (tt, total))) m c
    (fun m' _ => written m m' (take (length bs) (cells c)) bs) Hwf ltac:(lia))
    as (c' & m' & [] & Hr & Hw & Hwf' & Hc & Hn).
  - intros H0. replace (take (length bs) (cells c)) with (@nil Z).
    + split; [apply same_layout_refl|done|done].
    + symmetry. apply nil_length_inv. rewrite length_take. lia.
  - intros bufs [tl Hpre] Htk. rewrite Nat2Z.id in Htk.
    destruct Hwf as [Hok _ _]. unfold cells in Hm. rewrite Hpre in Hok, Hm.
    apply Forall_app in Hok as [Hok _]. rewrite slices_cells_app in Hm.
    apply Forall_app in Hm as [Hm _].
    destruct (copy_to_spec m bs bufs Hb Hok Hm) as (m' & -> & Hw). rewrite Htk in Hw.
    exists m', tt. split; [|done]. do 3 f_equal.
    pose proof (f_equal length Htk) as Hle. rewrite !length_take in Hle. lia.
  - rewrite Nat2Z.id in Hc. by exists c', m'.
Qed.

(** [read_exact] returns the bytes asked for, or consumes everything. *)
Lemma read_exact_spec m c n :
  consumer_wf c -> 0 <= n ->
  exists c', consumer_wf c' /\ cells c' = drop (Z.to_nat n) (cells c) /\
    bytes_consumed c' = bytes_consumed c + Z.min n (Z.of_nat (length (cells c))) /\
    read_exact n (c, m) = Some ((c', m),
      if decide (n <= Z.of_nat (length (cells c)))
      then Ok (byte_at m <$> take (Z.to_nat n) (cells c)) else Err IoUnexpectedEof).
Proof.
  intros Hwf Hn. unfold read_exact. cbn [read_exact_fuel].
  destruct (n =? 0) eqn:H0; zbool.
  { subst n. exists c. rewrite decide_True by lia. split_and!; try done. simpl. lia. }
  destruct (reader_read_spec m c n Hwf Hn) as (c' & Hr & Hwf' & Hc & Hb).
  rewrite rm_bind_unfold, Hr. cbn [fst snd].
  destruct (Z.min n (Z.of_nat (length (cells c))) =? 0) eqn:Hz; zbool.
  { exists c'. rewrite decide_False by lia. by split_and!. }
  case_decide as Hle.
  { exists c'. split_and!; try done. replace (Z.to_nat n) with (S (Z.to_nat (n - 1))) at 1 by lia.
    cbn [read_exact_fuel]. rewrite (proj2 (Z.eqb_eq _ _)) by lia.
    rewrite rm_bind_unfold. simpl. by rewrite app_nil_r. }
  destruct (reader_read_spec m c' (n - Z.min n (Z.of_nat (length (cells c)))) Hwf' ltac:(lia))
    as (c'' & Hr' & Hwf'' & Hc' & Hb').
  assert (length (cells c') = 0%nat) as Hz' by (rewrite Hc, length_drop; lia).
  exists c''. replace (Z.to_nat n) with (S (Z.to_nat (n - 1))) at 2 by lia.
  cbn [read_exact_fuel]. rewrite (proj2 (Z.eqb_neq _ _)) by lia.
  rewrite !rm_bind_unfold, Hr'. cbn [fst snd]. rewrite (proj2 (Z.eqb_eq _ _)) by lia.
  split_and!; [done| |lia|done].
  rewrite Hc', Hc, drop_drop, !drop_ge; [done|lia..].
Qed.

(** [write_all] stores all the bytes, or fails. *)
Lemma write_all_spec m c bs :
  consumer_wf c -> bytes_ok bs -> Forall (mapped m) (cells c) ->
  exists c' m', consumer_wf c' /\ cells c' = drop (length bs) (cells c) /\
    bytes_consumed c' =
      bytes_consumed c + Z.min (Z.of_nat (length bs)) (Z.of_nat (length (cells c))) /\
    written m m' (take (length bs) (cells c)) bs /\
    write_all bs (c, m) = Some ((c', m'),
      if decide (length bs <= length (cells c))%nat then Ok tt else Err IoWriteZero).
Proof.
  intros Hwf Hb Hm. unfold write_all. cbn [write_all_fuel].
  case_decide as H0.
  { subst bs. exists c, m. rewrite decide_True by (simpl; lia). split_and!; try done.
    simpl. lia. }
  assert (0 < length bs)%nat by (destruct bs; simpl; [done|lia]).
  destruct (writer_write_spec m c bs Hwf Hb Hm) as (c' & m' & Hr & Hw & Hwf' & Hc & Hn).
  rewrite rm_bind_unfold, Hr. cbn [fst snd].
  destruct (Z.min (Z.of_nat (length bs)) (Z.of_nat (length (cells c))) =? 0) eqn:Hz; zbool.
  { exists c', m'. rewrite decide_False by lia. by split_and!. }
  destruct (length bs) as [|k] eqn:Hlen; [lia|]. cbn [write_all_fuel].
  set (bs2 := drop _ bs). case_decide as H2.
  { exists c', m'. apply (f_equal length) in H2. subst bs2. rewrite length_drop in H2.
    simpl in H2. rewrite decide_True by lia. by split_and!. }
  assert (length (cells c) < length bs)%nat as Hlt.
  { destruct (decide (length (cells c) < length bs)%nat) as [|Hge]; [done|]. exfalso. apply H2.
    subst bs2. apply drop_ge. lia. }
  assert (cells c' = []) as Hnil by (rewrite Hc; apply drop_ge; lia).
  destruct (writer_write_spec m' c' bs2 Hwf') as (c'' & m'' & Hr' & Hw' & Hwf'' & Hc' & Hn').
  { by apply Forall_drop. } { rewrite Hnil. constructor. }
  rewrite rm_bind_unfold, Hr', Hnil. cbn [fst snd]. rewrite (proj2 (Z.eqb_eq _ _)) by (simpl; lia).
  rewrite Hnil, take_nil in Hw'. rewrite Hnil, drop_nil in Hc'. rewrite Hnil in Hn'. simpl in Hn'.
  exists c'', m''. rewrite decide_False by lia. split_and!; [done|congruence|lia| |done].
  destruct Hw as [Hl Ho Hv], Hw' as [Hl' Ho' _]. split; [by eapply same_layout_trans| |].
  - intros x Hx. rewrite Ho' by apply not_elem_of_nil. by apply Ho.
  - intros Hnd i x b Hx Hbx. rewrite Ho' by apply not_elem_of_nil. by eapply Hv.
Qed.

(** ** Splitting *)

Lemma find_pos_spec rem at_ bufs :
  slices_ok bufs -> 0 <= rem ->
  match find_pos rem at_ bufs with
  | (Some k, r) => exists b1 vs b2, bufs = b1 ++ vs :: b2 /\ k = (at_ + length b1)%nat /\
      0 <= r < vs_len vs /\ rem = Z.of_nat (length (slices_cells b1)) + r
  | (None, r) => 0 <= r /\ rem = Z.of_nat (length (slices_cells bufs)) + r
  end.
Proof.
  intros Hok. revert rem at_. induction Hok as [|vs bufs Hvs Hok IH]; intros rem at_ Hr.
  - simpl. lia.
  - cbn [find_pos]. destruct (rem <? vs_len vs) eqn:Hlt; zbool.
    + exists [], vs, bufs. simpl. split_and!; try done; lia.
    + specialize (IH (rem - vs_len vs) (S at_) ltac:(lia)).
      destruct (find_pos _ _ bufs) as [[k|] r].
      * destruct IH as (b1 & vs' & b2 & -> & -> & Hr' & Hrem). exists (vs :: b1), vs', b2.
        simpl. rewrite length_app, length_vs_cells. split_and!; try done; lia.
      * simpl. rewrite length_app, length_vs_cells. lia.
Qed.

Lemma consumer_wf_part c bufs n :
  consumer_wf c -> slices_ok bufs -> (length (slices_cells bufs) <= length (cells c))%nat ->
  0 <= n <= dc_bytes_consumed c -> consumer_wf (mk_consumer bufs n).
Proof. intros [Hok Hc Ht] Hb Hle Hn. split; [done|simpl; lia|]. unfold cells at 1. simpl. lia. Qed.

(** The two parts are consumers of their own. *)
Lemma split_parts_wf c b1 b2 n :
  consumer_wf c -> slices_ok b1 -> slices_ok b2 ->
  slices_cells b1 = take n (cells c) -> slices_cells b2 = drop n (cells c) ->
  consumer_wf (mk_consumer b1 (dc_bytes_consumed c)) /\ consumer_wf (mk_consumer b2 0).
Proof.
  intros Hwf H1 H2 Hc1 Hc2. pose proof (cs_consumed c Hwf). split.
  - apply (consumer_wf_part c); [done|done| |lia]. rewrite Hc1, length_take. lia.
  - apply (consumer_wf_part c); [done|done| |lia]. rewrite Hc2, length_drop. lia.
Qed.

(** Cutting the list of slices inside one of them. *)
Lemma slices_cells_split b1 vs b2 r :
  0 <= r <= vs_len vs ->
  let n := (length (slices_cells b1) + Z.to_nat r)%nat in
  slices_cells (b1 ++ [{| vs_addr := vs_addr vs + 0; vs_len := r |}]) =
    take n (slices_cells (b1 ++ vs :: b2)) /\
  slices_cells ({| vs_addr := vs_addr vs + r; vs_len := vs_len vs - r |} :: b2) =
    drop n (slices_cells (b1 ++ vs :: b2)).
Proof.
  intros Hr n. subst n. rewrite !slices_cells_app, take_app_add, drop_app_add. cbn [slices_cells].
  rewrite Z.add_0_r, app_nil_r, (vs_cells_cut vs r), <- (assoc_L (++)) by done.
  rewrite take_app_length', drop_app_length' by (by rewrite length_vs_cells). done.
Qed.

Lemma split_at_spec m c offset :
  consumer_wf c -> 0 <= offset <= Z.of_nat (length (cells c)) ->
  exists c1 c2, split_at m offset c = Some (c1, Ok c2) /\
    cells c1 = take (Z.to_nat offset) (cells c) /\ cells c2 = drop (Z.to_nat offset) (cells c) /\
    consumer_wf c1 /\ consumer_wf c2 /\ bytes_consumed c1 = bytes_consumed c /\
    bytes_consumed c2 = 0.
Proof.
  intros Hwf Ho. pose proof Hwf as [Hok Hc Ht]. unfold split_at.
  pose proof (find_pos_spec offset 0 (dc_buffers c) Hok ltac:(lia)) as Hf.
  destruct (find_pos offset 0 (dc_buffers c)) as [[k|] r].
  - destruct Hf as (b1 & vs & b2 & Hb & -> & Hr & Hrem). simpl plus.
    rewrite Hb, take_app_length, drop_app_length. rewrite Hb in Hok.
    apply Forall_app in Hok as [Hok1 Hok2]. pose proof Hok2 as Hok2'.
    apply list.Forall_cons in Hok2' as [Hvs Hok3].
    assert (cells c = slices_cells (b1 ++ vs :: b2)) as Hcells by (unfold cells; by rewrite Hb).
    replace (Z.to_nat offset) with (length (slices_cells b1) + Z.to_nat r)%nat by lia.
    rewrite Z.gtb_ltb. destruct (0 <? r) eqn:Hr0; zbool.
    + rewrite law_subslice, law_offset by lia.
      destruct (slices_cells_split b1 vs b2 r ltac:(lia)) as [H1 H2]. rewrite <- Hcells in H1, H2.
      assert (slices_ok (b1 ++ [{| vs_addr := vs_addr vs + 0; vs_len := r |}])) as Hp1.
      { apply Forall_app. split; [done|]. repeat constructor. simpl. lia. }
      assert (slices_ok ({| vs_addr := vs_addr vs + r; vs_len := vs_len vs - r |} :: b2)) as Hp2.
      { constructor; [simpl; lia|done]. }
      destruct (split_parts_wf c _ _ _ Hwf Hp1 Hp2 H1 H2). by eexists _, _.
    + replace (Z.to_nat r) with 0%nat by lia. rewrite Nat.add_0_r.
      assert (slices_cells b1 = take (length (slices_cells b1)) (cells c) /\
        slices_cells (vs :: b2) = drop (length (slices_cells b1)) (cells c)) as [H1 H2].
      { rewrite Hcells, slices_cells_app. by rewrite take_app_length, drop_app_length. }
      destruct (split_parts_wf c _ _ _ Hwf Hok1 Hok2 H1 H2). by eexists _, _.
  - destruct Hf as [Hr Hrem]. fold (cells c) in Hrem. rewrite (proj2 (Z.eqb_eq _ _)) by lia.
    exists c, (mk_consumer [] 0). split; [done|].
    rewrite take_ge, drop_ge by lia. split_and!; try done.
    apply (consumer_wf_part c); [done|constructor|simpl; lia|lia].
Qed.

Lemma split_at_out_of_bounds m c offset :
  consumer_wf c -> Z.of_nat (length (cells c)) < offset ->
  split_at m offset c = Some (c, Err (SplitOutOfBounds offset)).
Proof.
  intros [Hok _ _] Ho. unfold split_at.
  pose proof (find_pos_spec offset 0 (dc_buffers c) Hok ltac:(lia)) as Hf.
  destruct (find_pos offset 0 (dc_buffers c)) as [[k|] r].
  - destruct Hf as (b1 & vs & b2 & Hb & -> & Hr & Hrem). exfalso.
    unfold cells in Ho. rewrite Hb, slices_cells_app, length_app in Ho. simpl in Ho.
    rewrite length_app, length_vs_cells in Ho. lia.
  - destruct Hf as [Hr Hrem]. fold (cells c) in Hrem. by rewrite (proj2 (Z.eqb_neq _ _)) by lia.
Qed.

(** ** Making a consumer from a chain *)

(** The guest addresses a descriptor covers. *)
Definition desc_slice (d : Descriptor) : VolatileSlice :=
  {| vs_addr := d_addr d; vs_len := d_len d |}.
Definition desc_cells (ds : list Descriptor) : list Z := slices_cells (desc_slice <$> ds).

Lemma collect_slices_spec m n ds :
  0 <= n -> Forall descriptor_wf ds -> n + total_len ds < 2 ^ 64 ->
  (collect_slices m n ds = Some (Ok (desc_slice <$> ds)) /\ Forall (mapped m) (desc_cells ds)) \/
  collect_slices m n ds = Some (Err FindMemoryRegion) \/
  (exists e, collect_slices m n ds = Some (Err (ErrGuestMemoryError e))).
Proof.
  intros Hn Hds. revert n Hn. induction Hds as [|d ds Hd Hds IH]; intros n Hn Ht.
  { left. split; [done|constructor]. }
  cbn [collect_slices]. simpl in Ht. pose proof (total_len_nonneg ds Hds).
  assert (0 <= d_len d) by (apply Hd). unfold descriptor_slice.
  unfold checked_add. rewrite (proj2 (Z.ltb_lt _ _)) by lia.
  destruct (gm_find_region m (d_addr d)) as [[s l]|] eqn:Hr; [|by right; left].
  apply law_region in Hr as [Hin _]. unfold checked_sub. rewrite (proj2 (Z.leb_le _ _)) by lia.
  replace (s + (d_addr d - s)) with (d_addr d) by lia.
  destruct (gm_get_slice m (d_addr d) (d_len d)) as [vs|e] eqn:Hg; [|by right; right; exists e].
  apply law_slice in Hg as [-> Hm].
  destruct (IH (n + d_len d)) as [[-> Hc]|[->|[e ->]]]; [lia|lia| |by right; left|
    by right; right; exists e].
  left. split; [done|]. unfold desc_cells in *. simpl. apply Forall_app. split; [|done].
  apply list.Forall_forall. intros x Hx. apply vs_cells_in in Hx; [|done]. by apply Hm.
Qed.

Lemma length_desc_cells ds :
  Forall descriptor_wf ds -> Z.of_nat (length (desc_cells ds)) = total_len ds.
Proof.
  induction 1 as [|d ds Hd _ IH]; [done|]. unfold desc_cells in *. rewrite fmap_cons.
  cbn [slices_cells total_len foldr]. fold (total_len ds). rewrite length_app, length_vs_cells.
  simpl vs_len. assert (0 <= d_len d) by (apply Hd). lia.
Qed.

Lemma total_len_filter (P : Descriptor -> Prop) `{forall d, Decision (P d)} ds :
  Forall descriptor_wf ds -> total_len (filter P ds) <= total_len ds.
Proof.
  induction 1 as [|d ds Hd _ IH]; [done|]. rewrite filter_cons. simpl.
  assert (0 <= d_len d) by (apply Hd). case_decide; simpl; lia.
Qed.

(** A consumer of a restriction of a chain. *)
Lemma consumer_of_spec m c w :
  chain_wf c ->
  let ds := filter (fun d => is_write_only d = w) (chain_descriptors m c) in
  (exists c', consumer_of (collect_slices m 0 ds) = Some (Ok c') /\ consumer_wf c' /\
     cells c' = desc_cells ds /\ Forall (mapped m) (cells c') /\ bytes_consumed c' = 0) \/
  consumer_of (collect_slices m 0 ds) = Some (Err FindMemoryRegion) \/
  (exists e, consumer_of (collect_slices m 0 ds) = Some (Err (ErrGuestMemoryError e))).
Proof.
  intros Hwf ds.
  assert (Forall descriptor_wf (chain_descriptors m c)) as Hall.
  { eapply list.Forall_impl; [by apply chain_descriptors_direct|]. by intros d [_ ?]. }
  assert (Forall descriptor_wf ds) as Hds.
  { apply list.Forall_forall. intros d Hd. apply list_elem_of_filter in Hd as [_ Hd].
    rewrite list.Forall_forall in Hall. by apply Hall. }
  assert (total_len ds < 2 ^ 32) as Ht.
  { pose proof (chain_descriptors_total m c Hwf). destruct Hwf as [_ _ _ _ [? _]].
    pose proof (total_len_filter (fun d => is_write_only d = w) _ Hall). subst ds. lia. }
  change (2 ^ 32) with 4294967296 in Ht.
  destruct (collect_slices_spec m 0 ds) as [[-> Hm]|[->|[e ->]]]; [lia|done| | |by right; left|].
  - change (2 ^ 64) with 18446744073709551616. lia.
  - left. eexists. split; [done|]. split; [|done]. split; [|done|].
    + apply list.Forall_fmap. eapply list.Forall_impl; [exact Hds|]. intros d Hd. apply Hd.
    + unfold cells. simpl. fold (desc_cells ds). rewrite length_desc_cells by done.
      change (2 ^ 64) with 18446744073709551616. lia.
  - right; right. by exists e.
Qed.
End Facts.

(** ** Properties *)

Section UtilsProperties.
Context {M : Type} `{GML : GuestMemoryLaws M}.
Implicit Types m : M.

(** A reader or writer over any chain either covers exactly the guest memory of the
    chain's readable, respectively writable, descriptors, in their order, all of it backed and
    its size below overflow, or reports that a descriptor is not in one region of guest memory;
    the sum of the lengths never overflows and no [unwrap] fails. *)
Theorem reader_writer_new_cells m c w :
  chain_wf c ->
  let new := if w : bool then writer_new m c else reader_new m c in
  (exists b, new = Some (Ok b) /\ consumer_wf b /\ bytes_consumed b = 0 /\
     cells b = desc_cells (filter (fun d => is_write_only d = w) (chain_descriptors m c)) /\
     Forall (mapped m) (cells b)) \/
  new = Some (Err FindMemoryRegion) \/ (exists e, new = Some (Err (ErrGuestMemoryError e))).
Proof.
  intros Hwf new.
  assert (new = consumer_of (collect_slices m 0
    (filter (fun d => is_write_only d = w) (chain_descriptors m c)))) as ->.
  { subst new. destruct w; [unfold writer_new|unfold reader_new]; by rewrite rw_descriptors_filter. }
  destruct (consumer_of_spec m c w Hwf) as [(b & Hb & ? & ? & ? & ?)|[H|H]]; [|auto..].
  left. by exists b.
Qed.

(** C32: a reader is the list of its guest addresses: [read] and [read_exact] return the bytes
    at the first addresses, leave the rest and count what they took; [read] is short only at
    the end, where [read_exact] fails. *)
Theorem reader_reads_cells m c n :
  consumer_wf c -> 0 <= n ->
  (exists c', consumer_wf c' /\ cells c' = drop (Z.to_nat n) (cells c) /\
     bytes_consumed c' = bytes_consumed c + Z.min n (available_bytes c) /\
     reader_read n (c, m) =
       Some ((c', m), Ok (byte_at m <$> take (Z.to_nat n) (cells c), Z.min n (available_bytes c)))) /\
  (exists c', consumer_wf c' /\ cells c' = drop (Z.to_nat n) (cells c) /\
     read_exact n (c, m) = Some ((c', m),
       if decide (n <= available_bytes c)
       then Ok (byte_at m <$> take (Z.to_nat n) (cells c)) else Err IoUnexpectedEof)).
Proof.
  intros Hwf Hn. rewrite available_bytes_cells by apply Hwf. split.
  - destruct (reader_read_spec m c n Hwf Hn) as (c' & ? & ? & ? & ?). by exists c'.
  - destruct (read_exact_spec m c n Hwf Hn) as (c' & ? & ? & ? & ?). by exists c'.
Qed.

(** C33: a writer stores the bytes at its first addresses and nowhere else, in order when the
    addresses are distinct, leaves the rest and counts what it took; [write_all] fails exactly
    when there is not enough room. *)
Theorem writer_writes_cells m c bs :
  consumer_wf c -> bytes_ok bs -> Forall (mapped m) (cells c) ->
  exists c' m', consumer_wf c' /\ cells c' = drop (length bs) (cells c) /\
    bytes_consumed c' = bytes_consumed c + Z.min (Z.of_nat (length bs)) (available_bytes c) /\
    written m m' (take (length bs) (cells c)) bs /\
    write_all bs (c, m) = Some ((c', m'),
      if decide (Z.of_nat (length bs) <= available_bytes c) then Ok tt else Err IoWriteZero).
Proof.
  intros Hwf Hb Hm. rewrite available_bytes_cells by apply Hwf.
  destruct (write_all_spec m c bs Hwf Hb Hm) as (c' & m' & ? & ? & ? & ? & Hr).
  exists c', m'. split_and!; try done. rewrite Hr. by repeat case_decide; try lia.
Qed.

(** [split_at] cuts the addresses at the offset: the first part keeps the count, the second
    starts a new one, and together they are what was there; an offset beyond the end is an
    error that changes nothing. *)
Theorem split_at_partitions m c offset :
  consumer_wf c -> 0 <= offset ->
  (offset <= available_bytes c ->
   exists c1 c2, split_at m offset c = Some (c1, Ok c2) /\ cells c1 ++ cells c2 = cells c /\
     available_bytes c1 = offset /\ consumer_wf c1 /\ consumer_wf c2 /\
     bytes_consumed c1 = bytes_consumed c /\ bytes_consumed c2 = 0) /\
  (available_bytes c < offset ->
   split_at m offset c = Some (c, Err (SplitOutOfBounds offset))).
Proof.
  intros Hwf Ho. rewrite (available_bytes_cells c) by apply Hwf. split; intros Hle.
  - destruct (split_at_spec m c offset Hwf ltac:(lia)) as (c1 & c2 & Hs & Hc1 & Hc2 & Hw1 & Hw2 & ? & ?).
    exists c1, c2. rewrite available_bytes_cells by apply Hw1. rewrite Hc1, Hc2.
    split_and!; try done; [by rewrite take_drop|rewrite length_take; lia].
  - by apply split_at_out_of_bounds.
Qed.

(** An object written through a writer is read back through a reader over the same guest
    memory, however the buffers are cut into descriptors. *)
Theorem write_read_obj_roundtrip {T} `{BVL : ByteValuedLaws T} m cw cr (v : T) :
  consumer_wf cw -> consumer_wf cr -> cells cw = cells cr -> NoDup (cells cw) ->
  Forall (mapped m) (cells cw) -> bv_wf v -> Z.of_nat (bv_size T) <= available_bytes cw ->
  exists cw' cr' m', writer_write_obj v (cw, m) = Some ((cw', m'), Ok tt) /\
    reader_read_obj T (cr, m') = Some ((cr', m'), Ok v).
Proof.
  intros Hww Hwr Hc Hnd Hm Hv Hsz. rewrite available_bytes_cells in Hsz by apply Hww.
  pose proof (bv_encode_length v) as Hlen.
  destruct (write_all_spec m cw (bv_encode v) Hww (bv_encode_bytes v) Hm)
    as (cw' & m' & _ & _ & _ & [_ _ Hval] & Hw).
  rewrite decide_True in Hw by lia. rewrite Hlen in Hval.
  destruct (read_exact_spec m' cr (Z.of_nat (bv_size T (ByteValued := BV))) Hwr ltac:(lia))
    as (cr' & _ & _ & _ & Hr).
  rewrite <- Hc, decide_True, Nat2Z.id in Hr by lia.
  exists cw', cr', m'. split; [done|]. unfold reader_read_obj. rewrite rm_bind_unfold, Hr.
  assert (byte_at m' <$> take (bv_size T) (cells cw) = bv_encode v) as ->;
    [|simpl; by rewrite bv_decode_encode].
  apply list_eq_same_length with (bv_size T); [done|rewrite length_fmap, length_take; lia|].
  intros i x y Hi Hx Hy. rewrite list_lookup_fmap in Hx.
  destruct (take (bv_size T) (cells cw) !! i) as [a|] eqn:Ha; [|done]. simpl in Hx.
  injection Hx as <-. unfold byte_at. erewrite Hval; [done| |done|done].
  rewrite <- (take_drop (bv_size T) (cells cw)) in Hnd. by apply list.NoDup_app in Hnd as [? _].
Qed.
End UtilsProperties.

(** ** Concrete runs *)

Module UtilsExamples.
(** The reader over the sample chain covers 256 bytes, the writer 768. *)
Definition chain : DescriptorChain := chain_new 0x1000 4 0.
Definition rd : DescriptorChainConsumer :=
  mk_consumer [{| vs_addr := 0x5000; vs_len := 0x100 |}] 0.
Definition wr : DescriptorChainConsumer :=
  mk_consumer [{| vs_addr := 0x6000; vs_len := 3 |}; {| vs_addr := 0x7000; vs_len := 5 |}] 0.

Lemma sample_chain_wf : chain_wf chain.
Proof. apply chain_new_wf; by vm_compute. Qed.
Lemma rd_wf : consumer_wf rd.
Proof. split; [by repeat constructor|done|by vm_compute]. Qed.
Lemma wr_wf : consumer_wf wr.
Proof. split; [by repeat constructor|done|by vm_compute]. Qed.
Lemma wr_mapped : Forall (mapped sample_memory) (cells wr).
Proof. repeat constructor; eexists; by vm_compute. Qed.
End UtilsExamples.
Import UtilsExamples.

Lemma reader_writer_new_cells_witness :
  exists b, reader_new sample_memory chain = Some (Ok b) /\ consumer_wf b.
Proof.
  destruct (reader_writer_new_cells sample_memory chain false sample_chain_wf)
    as [(b & Hb & Hwf & _)|[H|[e H]]].
  - exists b. split; [exact Hb|exact Hwf].
  - by vm_compute in H.
  - by vm_compute in H.
Defined.

Lemma reader_reads_cells_witness :
  exists c', read_exact 16 (rd, sample_memory) = Some ((c', sample_memory), Ok (replicate 16 0)).
Proof.
  destruct (reader_reads_cells sample_memory rd 16 rd_wf ltac:(lia)) as [_ (c' & _ & _ & Hr)].
  exists c'. rewrite Hr. by vm_compute.
Defined.

Lemma writer_writes_cells_witness :
  exists c' m', write_all [1; 2; 3; 4] (wr, sample_memory) = Some ((c', m'), Ok tt) /\
    written sample_memory m' [0x6000; 0x6001; 0x6002; 0x7000] [1; 2; 3; 4].
Proof.
  destruct (writer_writes_cells sample_memory wr [1; 2; 3; 4] wr_wf)
    as (c' & m' & _ & _ & _ & Hw & Hr).
  - repeat constructor; by vm_compute.
  - apply wr_mapped.
  - exists c', m'. split; [exact Hr|exact Hw].
Defined.

Lemma split_at_partitions_witness :
  exists c1 c2, split_at sample_memory 4 wr = Some (c1, Ok c2) /\ cells c1 ++ cells c2 = cells wr.
Proof.
  destruct (split_at_partitions sample_memory wr 4 wr_wf ltac:(lia)) as [H _].
  destruct H as (c1 & c2 & Hs & Hc & _); [by vm_compute|]. exists c1, c2. split; [exact Hs|exact Hc].
Defined.

(** A used-ring element written across the two buffers. *)
Lemma write_read_obj_roundtrip_witness :
  exists cw' cr' m', writer_write_obj (used_elem_new 7 512) (wr, sample_memory) =
      Some ((cw', m'), Ok tt) /\
    reader_read_obj VirtqUsedElem (wr, m') = Some ((cr', m'), Ok (used_elem_new 7 512)).
Proof.
  apply (write_read_obj_roundtrip sample_memory wr wr (used_elem_new 7 512) wr_wf wr_wf);
    [reflexivity| |apply wr_mapped|apply used_elem_wf; by vm_compute|by vm_compute].
  apply (bool_decide_unpack _). by vm_compute.
Defined.
