(* ===== verification/VirtioDevice.v ===== *)
(** * Virtio devices: status, features and configuration space

    virtio-device/src/lib.rs (the [VirtioDevice] and [WithDriverSelect]
    traits with their default methods) and virtio-device/src/virtio_config.rs
    (their implementation for everything that holds a [VirtioConfig]).

    What a concrete device adds, activation and reset logic, is the class
    [VirtioDeviceImpl]; what the theorems need of it is [DeviceContract]. *)

From stdpp Require Import base numbers list option.
From S2P Require Import Prelude Bytes GuestMemory Descriptor Chain Queue QueueFacts.

(** [mod status]. *)
Definition RESET : u8 := 0.
Definition ACKNOWLEDGE : u8 := 1.
Definition DRIVER : u8 := 2.
Definition FAILED : u8 := 128.
Definition FEATURES_OK : u8 := 8.
Definition DRIVER_OK : u8 := 4.
Definition DEVICE_NEEDS_RESET : u8 := 64.

Definition VIRTIO_F_RING_EVENT_IDX : u64 := 29.

Record VirtioConfig : Type := mk_config {
  v_device_features : u64;
  v_driver_features : u64;
  v_device_features_select : u32;
  v_driver_features_select : u32;
  v_device_status : u8;
  v_queue_select : u16;
  v_queues : list Queue;
  v_config_generation : u8;
  v_config_space : list u8;
  v_device_activated : bool;
  v_interrupt_status : u8;
}.

(** [VirtioConfig::new]. *)
Definition virtio_config_new (device_features : u64) (queues : list Queue) (config_space : list u8)
    : VirtioConfig := {|
  v_device_features := device_features;
  v_driver_features := 0;
  v_device_features_select := 0;
  v_driver_features_select := 0;
  v_device_status := 0;
  v_queue_select := 0;
  v_queues := queues;
  v_config_generation := 0;
  v_config_space := config_space;
  v_device_activated := false;
  v_interrupt_status := 0;
|}.

(** Field assignments. *)
Definition with_driver_features v c :=
  mk_config (v_device_features c) v (v_device_features_select c) (v_driver_features_select c)
    (v_device_status c) (v_queue_select c) (v_queues c) (v_config_generation c)
    (v_config_space c) (v_device_activated c) (v_interrupt_status c).
Definition with_device_features_select v c :=
  mk_config (v_device_features c) (v_driver_features c) v (v_driver_features_select c)
    (v_device_status c) (v_queue_select c) (v_queues c) (v_config_generation c)
    (v_config_space c) (v_device_activated c) (v_interrupt_status c).
Definition with_driver_features_select v c :=
  mk_config (v_device_features c) (v_driver_features c) (v_device_features_select c) v
    (v_device_status c) (v_queue_select c) (v_queues c) (v_config_generation c)
    (v_config_space c) (v_device_activated c) (v_interrupt_status c).
Definition with_status v c :=
  mk_config (v_device_features c) (v_driver_features c) (v_device_features_select c)
    (v_driver_features_select c) v (v_queue_select c) (v_queues c) (v_config_generation c)
    (v_config_space c) (v_device_activated c) (v_interrupt_status c).
Definition with_queue_select v c :=
  mk_config (v_device_features c) (v_driver_features c) (v_device_features_select c)
    (v_driver_features_select c) (v_device_status c) v (v_queues c) (v_config_generation c)
    (v_config_space c) (v_device_activated c) (v_interrupt_status c).
Definition with_queues v c :=
  mk_config (v_device_features c) (v_driver_features c) (v_device_features_select c)
    (v_driver_features_select c) (v_device_status c) (v_queue_select c) v (v_config_generation c)
    (v_config_space c) (v_device_activated c) (v_interrupt_status c).
Definition with_config_space v c :=
  mk_config (v_device_features c) (v_driver_features c) (v_device_features_select c)
    (v_driver_features_select c) (v_device_status c) (v_queue_select c) (v_queues c)
    (v_config_generation c) v (v_device_activated c) (v_interrupt_status c).
Definition with_interrupt_status v c :=
  mk_config (v_device_features c) (v_driver_features c) (v_device_features_select c)
    (v_driver_features_select c) (v_device_status c) (v_queue_select c) (v_queues c)
    (v_config_generation c) (v_config_space c) (v_device_activated c) v.

(** What a device type [D] provides: [Borrow] and [BorrowMut] of its
    configuration, [VirtioDeviceType], [VirtioDeviceActions] (the boolean is
    [is_ok()]) and the notification callback of the MMIO transport. *)
Class VirtioDeviceImpl (D : Type) : Type := {
  borrow : D -> VirtioConfig;
  borrow_mut : (VirtioConfig -> VirtioConfig) -> D -> D;
  device_type : D -> u32;
  activate : D -> D * bool;
  device_reset : D -> D * bool;
  queue_notify : u32 -> D -> D;
}.

Section Device.
Context {D : Type} `{VirtioDeviceImpl D}.
Implicit Types d : D.

Definition num_queues d : u16 := wrap 16 (Z.of_nat (length (v_queues (borrow d)))).
Definition queue d (index : u16) : option Queue := v_queues (borrow d) !! Z.to_nat index.

(** [queue_mut(index)] followed by an update; [None] for an invalid index. *)
Definition queue_mut (index : u16) (f : Queue -> Queue) d : option D :=
  match queue d index with
  | None => None
  | Some q =>
      Some (borrow_mut (fun c => with_queues (<[Z.to_nat index := f q]> (v_queues c)) c) d)
  end.

Definition device_features d : u64 := v_device_features (borrow d).
Definition driver_features d : u64 := v_driver_features (borrow d).
Definition device_status d : u8 := v_device_status (borrow d).
Definition set_device_status (status : u8) d : D := borrow_mut (with_status status) d.
Definition interrupt_status d : u8 := v_interrupt_status (borrow d).
Definition config_generation d : u8 := v_config_generation (borrow d).

Definition set_driver_features (page value : u32) d : D :=
  let features := driver_features d in
  borrow_mut (with_driver_features
    (if page =? 0 then wrap 64 (Z.shiftl (Z.shiftr features 32) 32) + value
     else if page =? 1 then Z.shiftr (wrap 64 (Z.shiftl features 32)) 32 + wrap 64 (Z.shiftl value 32)
     else features)) d.

Definition check_device_status (set cleared : u8) d : bool :=
  Z.land (device_status d) (Z.lor set cleared) =? set.

(** [for i in 0..self.num_queues()]: [None] is the [unwrap] of a missing
    queue. *)
Fixpoint set_event_idx_from (count : nat) (i : u16) d : option D :=
  match count with
  | O => Some d
  | S count =>
      match queue_mut i (set_event_idx true) d with
      | None => None
      | Some d => set_event_idx_from count (i + 1) d
      end
  end.

Definition ack_device_status (status : u8) d : option D :=
  let current_status := device_status d in
  let changed := Z.land (unot 8 current_status) status in
  if (changed =? ACKNOWLEDGE) && (current_status =? RESET) then
    Some (set_device_status status d)
  else if (changed =? DRIVER) && (current_status =? ACKNOWLEDGE) then
    Some (set_device_status status d)
  else if (changed =? FEATURES_OK) && (current_status =? Z.lor ACKNOWLEDGE DRIVER) then
    if negb (Z.land (unot 64 (device_features d)) (driver_features d) =? 0) then Some d
    else
      let d' :=
        if negb (Z.land (driver_features d) (Z.shiftl 1 VIRTIO_F_RING_EVENT_IDX) =? 0)
        then set_event_idx_from (Z.to_nat (num_queues d)) 0 d
        else Some d in
      match d' with
      | None => None
      | Some d => Some (set_device_status status d)
      end
  else if (changed =? DRIVER_OK) &&
          (current_status =? Z.lor (Z.lor ACKNOWLEDGE DRIVER) FEATURES_OK) then
    let '(d, is_ok) := activate d in
    Some (if is_ok : bool then set_device_status status d else d)
  else if negb (Z.land status FAILED =? 0) then
    Some (set_device_status (Z.lor current_status FAILED) d)
  else if status =? 0 then Some (fst (device_reset d))
  else Some d.

(** [read_config] fills the front of [data]. *)
Definition read_config d (offset : usize) (data : list u8) : list u8 :=
  let config_space := v_config_space (borrow d) in
  let config_len := Z.of_nat (length config_space) in
  if offset >=? config_len then data
  else
    let end_ := Z.min (saturating_add 64 offset (Z.of_nat (length data))) config_len in
    let read_len := end_ - offset in
    take (Z.to_nat read_len) (drop (Z.to_nat offset) config_space) ++ drop (Z.to_nat read_len) data.

Definition write_config (offset : usize) (data : list u8) d : D :=
  let config_space := v_config_space (borrow d) in
  let config_len := Z.of_nat (length config_space) in
  if offset >=? config_len then d
  else
    let end_ := Z.min (saturating_add 64 offset (Z.of_nat (length data))) config_len in
    let write_len := end_ - offset in
    borrow_mut (with_config_space
      (take (Z.to_nat offset) config_space ++ take (Z.to_nat write_len) data ++
       drop (Z.to_nat end_) config_space)) d.

(** [WithDriverSelect]. *)
Definition queue_select d : u16 := v_queue_select (borrow d).
Definition set_queue_select (value : u16) d : D := borrow_mut (with_queue_select value) d.
Definition selected_queue d : option Queue := queue d (queue_select d).
Definition selected_queue_mut (f : Queue -> Queue) d : option D := queue_mut (queue_select d) f d.
Definition device_features_select d : u32 := v_device_features_select (borrow d).
Definition set_device_features_select (value : u32) d : D :=
  borrow_mut (with_device_features_select value) d.
Definition driver_features_select d : u32 := v_driver_features_select (borrow d).
Definition set_driver_features_select (value : u32) d : D :=
  borrow_mut (with_driver_features_select value) d.
End Device.

(** The parts of the configuration that only the driver's accesses change. *)
Definition keeps_negotiation (c c' : VirtioConfig) : Prop :=
  v_device_status c' = v_device_status c /\ v_device_features c' = v_device_features c /\
  v_driver_features c' = v_driver_features c /\
  (Forall queue_wf (v_queues c) -> Forall queue_wf (v_queues c')).

(** What the code relies on: the borrows are of one configuration, activation
    and the notification callback leave the status and the features alone, and
    so does reset unless it returns the status to 0. *)
Class DeviceContract (D : Type) `{VDI : VirtioDeviceImpl D} : Prop := {
  law_borrow_mut : forall f d, borrow (borrow_mut f d) = f (borrow d);
  law_activate : forall d, keeps_negotiation (borrow d) (borrow (fst (activate d)));
  law_reset : forall d,
    keeps_negotiation (borrow d) (borrow (fst (device_reset d))) \/
    (v_device_status (borrow (fst (device_reset d))) = 0 /\
     v_device_features (borrow (fst (device_reset d))) = v_device_features (borrow d) /\
     in_u 64 (v_driver_features (borrow (fst (device_reset d)))) /\
     (Forall queue_wf (v_queues (borrow d)) ->
      Forall queue_wf (v_queues (borrow (fst (device_reset d))))));
  law_queue_notify : forall v d, keeps_negotiation (borrow d) (borrow (queue_notify v d));
}.

(** ** Lemmas *)

Section DeviceFacts.
Context {D : Type} `{DC : DeviceContract D}.
Implicit Types d : D.

(** The feature bits the driver has acknowledged were all offered. *)
Definition features_offered (c : VirtioConfig) : Prop :=
  Z.land (unot 64 (v_device_features c)) (v_driver_features c) = 0.

(** Bit [n] of the status. *)
Definition status_bit (c : VirtioConfig) (n : Z) : bool := Z.testbit (v_device_status c) n.

(** The invariant of a device: integers of their width, well-formed queues,
    and no feature accepted that was not offered. *)
Record device_inv (c : VirtioConfig) : Prop := {
  di_status : in_u 8 (v_device_status c);
  di_device_features : in_u 64 (v_device_features c);
  di_driver_features : in_u 64 (v_driver_features c);
  di_queues : Forall queue_wf (v_queues c);
  di_features : status_bit c 3 = true -> features_offered c;
}.

Lemma keeps_negotiation_refl c : keeps_negotiation c c.
Proof. by split_and!. Qed.

Lemma keeps_negotiation_trans c1 c2 c3 :
  keeps_negotiation c1 c2 -> keeps_negotiation c2 c3 -> keeps_negotiation c1 c3.
Proof.
  intros (A1 & B1 & C1 & E1) (A2 & B2 & C2 & E2). split_and!; [congruence..|auto].
Qed.

Lemma device_inv_keeps c c' : keeps_negotiation c c' -> device_inv c -> device_inv c'.
Proof.
  intros (Hs & Hd & Hr & Hq) []. split.
  - by rewrite Hs.
  - by rewrite Hd.
  - by rewrite Hr.
  - by apply Hq.
  - unfold status_bit, features_offered in *. by rewrite Hs, Hd, Hr.
Qed.

(** Queue updates through [queue_mut]. *)
Lemma queue_mut_spec i f d d' :
  queue_mut i f d = Some d' ->
  exists q, queue d i = Some q /\
    borrow d' = with_queues (<[Z.to_nat i := f q]> (v_queues (borrow d))) (borrow d).
Proof.
  unfold queue_mut. intros Hq. destruct (queue d i) as [q|] eqn:Hl; [|done].
  injection Hq as <-. exists q. split; [done|]. by rewrite law_borrow_mut.
Qed.

Lemma queue_mut_keeps i f d d' :
  (forall q, queue_wf q -> queue_wf (f q)) -> queue_mut i f d = Some d' ->
  keeps_negotiation (borrow d) (borrow d').
Proof.
  intros Hf Hq. apply queue_mut_spec in Hq as (q & Hl & ->). split_and!; try done.
  intros Hwf. simpl. apply list.Forall_insert; [done|]. apply Hf.
  by eapply list.Forall_lookup_1.
Qed.

(** The loop over the queues: every queue from [i] on gets its flag. *)
Lemma set_event_idx_from_spec count i d :
  0 <= i -> (Z.to_nat i + count <= length (v_queues (borrow d)))%nat ->
  exists d', set_event_idx_from count i d = Some d' /\
    keeps_negotiation (borrow d) (borrow d') /\
    forall k, v_queues (borrow d') !! k =
      if decide (Z.to_nat i <= k < Z.to_nat i + count)%nat
      then set_event_idx true <$> v_queues (borrow d) !! k else v_queues (borrow d) !! k.
Proof.
  revert i d. induction count as [|count IH]; intros i d Hi Hle.
  { exists d. split; [done|]. split; [apply keeps_negotiation_refl|].
    intros k. by rewrite decide_False by lia. }
  cbn [set_event_idx_from].
  destruct (lookup_lt_is_Some_2 (v_queues (borrow d)) (Z.to_nat i)) as [q Hq]; [lia|].
  destruct (queue_mut i (set_event_idx true) d) as [d1|] eqn:Hm.
  2:{ unfold queue_mut, queue in Hm. by rewrite Hq in Hm. }
  pose proof (queue_mut_keeps _ _ _ _ (fun q Hw => set_event_idx_wf q Hw true) Hm) as Hk1.
  apply queue_mut_spec in Hm as (q' & Hq' & Hb). unfold queue in Hq'.
  rewrite Hq in Hq'. injection Hq' as <-.
  destruct (IH (i + 1) d1) as (d' & Hr & Hk & Hqs); [lia|rewrite Hb; simpl; rewrite length_insert; lia|].
  exists d'. split; [done|]. split; [by eapply keeps_negotiation_trans|].
  intros k. rewrite Hqs, Hb. simpl. destruct (decide (k = Z.to_nat i)) as [->|Hne].
  - rewrite decide_False, decide_True by lia. rewrite list_lookup_insert_eq by lia. by rewrite Hq.
  - rewrite list_lookup_insert_ne by done. repeat case_decide; try lia; done.
Qed.

Lemma num_queues_le d : (Z.to_nat (num_queues d) <= length (v_queues (borrow d)))%nat.
Proof.
  unfold num_queues, wrap.
  pose proof (Z.mod_le (Z.of_nat (length (v_queues (borrow d)))) (2 ^ 16) ltac:(lia) ltac:(done)).
  pose proof (Z.mod_pos_bound (Z.of_nat (length (v_queues (borrow d)))) (2 ^ 16) ltac:(done)).
  lia.
Qed.

Lemma set_status_borrow s d : borrow (set_device_status s d) = with_status s (borrow d).
Proof. unfold set_device_status. by rewrite law_borrow_mut. Qed.

(** The accepted values of a status: the bits of [changed] and any of the
    current ones. *)
Lemma land_unot_cases cur status ch :
  in_u 8 cur -> in_u 8 status -> Z.land (unot 8 cur) status = ch ->
  forall n, 0 <= n < 8 -> Z.testbit status n = true -> Z.testbit cur n = true \/ Z.testbit ch n = true.
Proof.
  intros Hc Hs <- n Hn Hb. destruct (Z.testbit cur n) eqn:Hcn; [by left|right].
  rewrite Z.land_spec, Hb, andb_true_r. rewrite unot_lnot by (unfold in_u in *; lia).
  unfold wrap. rewrite Z.mod_pow2_bits_low by lia. by rewrite Z.lnot_spec, Hcn by lia.
Qed.

Lemma in_u_lor w a b : 0 <= w -> in_u w a -> in_u w b -> in_u w (Z.lor a b).
Proof.
  intros Hw Ha Hb. rewrite <- (wrap_small w a), <- (wrap_small w b) by done.
  unfold wrap. rewrite <- !Z.land_ones, <- Z.land_lor_distr_l, Z.land_ones by done.
  by apply in_u_wrap.
Qed.

(** Setting a status that brings no FEATURES_OK of its own. *)
Lemma with_status_inv c status :
  device_inv c -> in_u 8 status ->
  (Z.testbit status 3 = true -> status_bit c 3 = true \/ features_offered c) ->
  device_inv (with_status status c).
Proof.
  intros [? ? ? ? Hf] Hs Hb. split; try done.
  unfold status_bit in *. simpl. intros H3. destruct (Hb H3) as [?|?]; [by apply Hf|done].
Qed.

(** A transition whose new bits do not include FEATURES_OK. *)
Lemma plain_transition status d ch :
  device_inv (borrow d) -> in_u 8 status ->
  Z.land (unot 8 (device_status d)) status = ch -> Z.testbit ch 3 = false ->
  device_inv (borrow (set_device_status status d)) /\
  v_device_features (borrow (set_device_status status d)) = v_device_features (borrow d).
Proof.
  intros Hinv Hs Hch Hn. rewrite set_status_borrow. split; [|done].
  apply with_status_inv; [done|done|]. intros H3. left.
  destruct (land_unot_cases (device_status d) status ch (di_status _ Hinv) Hs Hch 3 ltac:(lia) H3);
    [done|congruence].
Qed.

(** The update of the queues when the driver has acknowledged EVENT_IDX. *)
Lemma event_idx_update d :
  exists d', (if negb (Z.land (driver_features d) (Z.shiftl 1 VIRTIO_F_RING_EVENT_IDX) =? 0)
      then set_event_idx_from (Z.to_nat (num_queues d)) 0 d else Some d) = Some d' /\
    keeps_negotiation (borrow d) (borrow d') /\
    forall k, v_queues (borrow d') !! k =
      if decide (Z.testbit (driver_features d) VIRTIO_F_RING_EVENT_IDX = true /\
                 (k < Z.to_nat (num_queues d))%nat)
      then set_event_idx true <$> v_queues (borrow d) !! k else v_queues (borrow d) !! k.
Proof.
  rewrite Z.shiftl_1_l, flag_test by done.
  destruct (Z.testbit (driver_features d) VIRTIO_F_RING_EVENT_IDX); simpl.
  - destruct (set_event_idx_from_spec (Z.to_nat (num_queues d)) 0 d) as (d' & Hr & Hk & Hq);
      [done|apply num_queues_le|].
    exists d'. split; [done|]. split; [done|]. intros k. rewrite Hq. simpl.
    repeat case_decide; naive_solver lia.
  - exists d. split; [done|]. split; [apply keeps_negotiation_refl|].
    done.
Qed.

(** What [ack_device_status] does: it returns, and keeps the invariant and the
    offered features. *)
Lemma ack_device_status_inv status d :
  device_inv (borrow d) -> in_u 8 status ->
  exists d', ack_device_status status d = Some d' /\ device_inv (borrow d') /\
    v_device_features (borrow d') = v_device_features (borrow d).
Proof.
  intros Hinv Hs. unfold ack_device_status.
  destruct (_ && _) eqn:H1; zbool.
  { eexists. split; [done|]. by eapply plain_transition. }
  clear H1. destruct (_ && _) eqn:H2; zbool.
  { eexists. split; [done|]. by eapply plain_transition. }
  clear H2. destruct (_ && _) eqn:H3; zbool.
  { destruct (negb (_ =? 0)) eqn:Hf; zbool.
    { exists d. done. }
    destruct (event_idx_update d) as (d' & -> & Hk & _).
    eexists. split; [done|]. rewrite set_status_borrow. split; [|apply Hk].
    apply with_status_inv; [by eapply device_inv_keeps|done|]. intros _. right.
    destruct Hk as (_ & Hd & Hr & _). unfold features_offered. by rewrite Hd, Hr. }
  clear H3. destruct (_ && _) eqn:H4; zbool.
  { pose proof (law_activate d) as Hk. destruct (activate d) as [d1 ok]. simpl in Hk.
    eexists. split; [done|].
    assert (device_inv (borrow d1)) as Hinv1 by (by eapply device_inv_keeps).
    destruct ok; [|split; [done|apply Hk]]. rewrite set_status_borrow. split; [|apply Hk].
    apply with_status_inv; [done|done|]. intros _. left. unfold status_bit.
    destruct Hk as (-> & _). fold (device_status d). by rewrite H0. }
  clear H4. destruct (negb (Z.land status FAILED =? 0)).
  { eexists. split; [done|]. rewrite set_status_borrow. split; [|done].
    apply with_status_inv; [done|apply in_u_lor; [done|apply Hinv|done]|]. rewrite Z.lor_spec, orb_false_r.
    intros Hb. left. exact Hb. }
  destruct (status =? 0); [|by exists d].
  eexists. split; [done|]. destruct (law_reset d) as [Hk|(H0 & Hd & Hr & Hq)].
  - split; [by eapply device_inv_keeps|apply Hk].
  - split; [|done]. destruct Hinv. split; try (rewrite ?H0, ?Hd; done).
    + by apply Hq.
    + unfold status_bit. by rewrite H0.
Qed.
End DeviceFacts.

(** ** Properties *)

Section DeviceProperties.
Context {D : Type} `{DC : DeviceContract D}.
Implicit Types d : D.

(** C28: a device gets DRIVER_OK only through a successful activation, which runs only after the
    driver has set ACKNOWLEDGE, DRIVER and FEATURES_OK and with no feature accepted that was
    not offered. *)
Theorem driver_ok_after_activation status d d' :
  device_inv (borrow d) -> in_u 8 status -> ack_device_status status d = Some d' ->
  status_bit (borrow d) 2 = false -> status_bit (borrow d') 2 = true ->
  device_status d = Z.lor (Z.lor ACKNOWLEDGE DRIVER) FEATURES_OK /\
  snd (activate d) = true /\ features_offered (borrow d).
Proof.
  intros Hinv Hs Hack Hb Hb'. unfold ack_device_status in Hack.
  assert (forall ch, Z.land (unot 8 (device_status d)) status = ch -> Z.testbit ch 2 = false ->
    Z.testbit status 2 = false) as Hbit.
  { intros ch Hch Hc. destruct (Z.testbit status 2) eqn:H2; [|done].
    destruct (land_unot_cases (device_status d) status ch (di_status _ Hinv) Hs Hch 2 ltac:(lia) H2);
      unfold status_bit, device_status in *; congruence. }
  assert (forall s x, Z.testbit s 2 = false ->
    status_bit (borrow (set_device_status s x)) 2 = false) as Hset.
  { intros s x Hx. by rewrite set_status_borrow. }
  destruct (_ && _) eqn:H1; zbool.
  { injection Hack as <-. rewrite Hset in Hb'; [done|by eapply Hbit]. }
  clear H1. destruct (_ && _) eqn:H2; zbool.
  { injection Hack as <-. rewrite Hset in Hb'; [done|by eapply Hbit]. }
  clear H2. destruct (_ && _) eqn:H3; zbool.
  { case_match; [congruence|]. case_match; [|done]. injection Hack as <-.
    rewrite Hset in Hb'; [done|by eapply Hbit]. }
  clear H3. destruct (_ && _) eqn:H4; zbool.
  { pose proof (law_activate d) as (Hk & _). destruct (activate d) as [d1 ok].
    injection Hack as <-. destruct ok.
    - split; [done|]. split; [done|]. apply Hinv. unfold status_bit. fold (device_status d).
      by rewrite H0.
    - unfold status_bit in Hb', Hb. simpl in Hk. congruence. }
  clear H4. destruct (negb (Z.land status FAILED =? 0)).
  { injection Hack as <-. rewrite Hset in Hb'; [done|]. by rewrite Z.lor_spec, orb_false_r. }
  destruct (status =? 0); injection Hack as <-; [|congruence].
  unfold status_bit in *. destruct (law_reset d) as [(Hk & _)|(H0 & _)].
  - congruence.
  - by rewrite H0 in Hb'.
Qed.

(** The driver's request for FEATURES_OK after ACKNOWLEDGE and DRIVER: with only offered
    features it is granted, and then, and only if EVENT_IDX is among them, every queue (up to
    65535 of them) uses event indices; with another feature nothing changes at all. *)
Theorem features_ok_outcome d :
  device_status d = Z.lor ACKNOWLEDGE DRIVER ->
  exists d', ack_device_status (Z.lor (Z.lor ACKNOWLEDGE DRIVER) FEATURES_OK) d = Some d' /\
    (~ features_offered (borrow d) -> d' = d) /\
    (features_offered (borrow d) ->
       device_status d' = Z.lor (Z.lor ACKNOWLEDGE DRIVER) FEATURES_OK /\
       driver_features d' = driver_features d /\
       forall k, v_queues (borrow d') !! k =
         if decide (Z.testbit (driver_features d) VIRTIO_F_RING_EVENT_IDX = true /\
                    (k < Z.to_nat (num_queues d))%nat)
         then set_event_idx true <$> v_queues (borrow d) !! k
         else v_queues (borrow d) !! k).
Proof.
  intros Hst. unfold ack_device_status. rewrite Hst.
  change (Z.land (unot 8 (Z.lor ACKNOWLEDGE DRIVER))
    (Z.lor (Z.lor ACKNOWLEDGE DRIVER) FEATURES_OK)) with FEATURES_OK.
  change ((FEATURES_OK =? ACKNOWLEDGE) && (Z.lor ACKNOWLEDGE DRIVER =? RESET)) with false.
  change ((FEATURES_OK =? DRIVER) && (Z.lor ACKNOWLEDGE DRIVER =? ACKNOWLEDGE)) with false.
  change ((FEATURES_OK =? FEATURES_OK) && (Z.lor ACKNOWLEDGE DRIVER =? Z.lor ACKNOWLEDGE DRIVER))
    with true. cbv beta iota.
  destruct (negb (_ =? 0)) eqn:Hf; zbool.
  - exists d. split; [done|]. split; [done|]. intros Ho. by unfold features_offered in Ho.
  - destruct (event_idx_update d) as (d' & -> & Hk & Hq).
    eexists. split; [done|]. split; [intros Hn; by destruct Hn|]. intros _.
    unfold device_status, driver_features. rewrite set_status_borrow. simpl.
    destruct Hk as (_ & _ & Hr & _). by split_and!.
Qed.

(** The two 32-bit pages of the acknowledged features are written independently, and
    another page changes nothing. *)
Theorem set_driver_features_pages d page value :
  in_u 64 (driver_features d) -> in_u 32 value ->
  driver_features (set_driver_features page value d) =
    let high := driver_features d / 2 ^ 32 in
    let low := driver_features d mod 2 ^ 32 in
    if decide (page = 0) then high * 2 ^ 32 + value
    else if decide (page = 1) then value * 2 ^ 32 + low
    else driver_features d.
Proof.
  intros Hf Hv. cbv zeta. unfold set_driver_features, driver_features at 1.
  rewrite law_borrow_mut. simpl. set (f := driver_features d) in *.
  rewrite !Z.shiftl_mul_pow2, !Z.shiftr_div_pow2 by done.
  repeat case_decide; subst.
  - rewrite (wrap_small 64); [done|]. destruct (high_half f Hf) as [_ H].
    rewrite Z.shiftr_div_pow2 in H by done. unfold wrap, in_u in *.
    pose proof (Z.mod_pos_bound f (2 ^ 32) ltac:(done)). split; [|lia].
    apply Z.mul_nonneg_nonneg; [apply Z.div_pos; lia|done].
  - simpl. rewrite (wrap_small 64 (value * 2 ^ 32)).
    2:{ unfold in_u in *. change (2 ^ 64) with (2 ^ 32 * 2 ^ 32). nia. }
    rewrite Z.add_comm. f_equal. unfold wrap. change (2 ^ 64) with (2 ^ 32 * 2 ^ 32).
    rewrite Z.mul_mod_distr_r by done. by rewrite Z.div_mul.
  - rewrite !(proj2 (Z.eqb_neq _ _)) by done. done.
Qed.

(** Reading the configuration space returns what was last written there: a write and a read
    at the same offset give the written bytes, as far as the space reaches, and a write at an
    offset outside changes nothing. *)
Theorem config_space_roundtrip d offset data buf :
  0 <= offset -> length buf = length data ->
  Z.of_nat (length (v_config_space (borrow d))) < 2 ^ 64 ->
  let n := Z.to_nat (Z.of_nat (length (v_config_space (borrow d))) - offset) in
  read_config (write_config offset data d) offset buf = take n data ++ drop n buf /\
  length (v_config_space (borrow (write_config offset data d))) =
    length (v_config_space (borrow d)).
Proof.
  intros Ho Hl H64 n. unfold read_config, write_config. rewrite !Z.geb_leb.
  set (cs := v_config_space (borrow d)) in *.
  destruct (Z.of_nat (length cs) <=? offset) eqn:Hle; zbool.
  { fold cs. rewrite (proj2 (Z.leb_le _ _) Hle). by replace n with 0%nat by lia. }
  rewrite law_borrow_mut. simpl.
  set (e := Z.min (saturating_add 64 offset (Z.of_nat (length data))) (Z.of_nat (length cs))).
  assert (e = Z.min (offset + Z.of_nat (length data)) (Z.of_nat (length cs))) as He.
  { subst e. unfold saturating_add. case_match; zbool; lia. }
  assert (length (take (Z.to_nat offset) cs) = Z.to_nat offset) as Hl1 by (rewrite length_take; lia).
  assert (length (take (Z.to_nat (e - offset)) data) = Z.to_nat (e - offset)) as Hl2
    by (rewrite length_take; lia).
  assert (length (take (Z.to_nat offset) cs ++ take (Z.to_nat (e - offset)) data ++
    drop (Z.to_nat e) cs) = length cs) as Hlen.
  { rewrite !length_app, Hl1, Hl2, length_drop. lia. }
  rewrite Hlen, (proj2 (Z.leb_gt _ _)) by done. split; [|done].
  rewrite Hl. fold e. rewrite drop_app_length' by (by rewrite Hl1).
  rewrite take_app_length' by done. subst n.
  destruct (Z.le_gt_cases (offset + Z.of_nat (length data)) (Z.of_nat (length cs))) as [Hc|Hc].
  - rewrite !(take_ge data), !(drop_ge buf) by lia. done.
  - by replace (e - offset) with (Z.of_nat (length cs) - offset) by lia.
Qed.
End DeviceProperties.

(** ** The device of the crate's tests *)

Module DummyDevice.
Record Dummy : Type := mk_dummy {
  dm_cfg : VirtioConfig;
  dm_device_type : u32;
  dm_activate_count : u64;
  dm_reset_count : u64;
  dm_last_queue_notify : u32;
}.

Definition dummy_new (q : Queue) (device_type : u32) (features : u64) (config_space : list u8)
    : Dummy :=
  mk_dummy (virtio_config_new features [q] config_space) device_type 0 0 0.

#[export] Instance Dummy_impl : VirtioDeviceImpl Dummy := {|
  borrow := dm_cfg;
  borrow_mut := fun f d => mk_dummy (f (dm_cfg d)) (dm_device_type d) (dm_activate_count d)
    (dm_reset_count d) (dm_last_queue_notify d);
  device_type := dm_device_type;
  activate := fun d => (mk_dummy (dm_cfg d) (dm_device_type d) (dm_activate_count d + 1)
    (dm_reset_count d) (dm_last_queue_notify d), true);
  device_reset := fun d => (mk_dummy (dm_cfg d) (dm_device_type d) (dm_activate_count d)
    (dm_reset_count d + 1) (dm_last_queue_notify d), true);
  queue_notify := fun v d => mk_dummy (dm_cfg d) (dm_device_type d) (dm_activate_count d)
    (dm_reset_count d) v;
|}.

#[export] Instance Dummy_contract : DeviceContract Dummy.
Proof.
  split; [done|intros; apply keeps_negotiation_refl| |intros; apply keeps_negotiation_refl].
  intros. left. apply keeps_negotiation_refl.
Qed.

(** One queue of 256 entries, EVENT_IDX offered, a configuration space of
    eight bytes. *)
Definition q256 : Queue := mk_queue 256 0 0 false 0 256 false 0 0 0.
Definition start : Dummy := dummy_new q256 2 (2 ^ 29) (replicate 8 0).
Definition with_config (f : VirtioConfig -> VirtioConfig) (d : Dummy) : Dummy := borrow_mut f d.
Definition negotiating : Dummy :=
  with_config (fun c => with_driver_features (2 ^ 29) (with_status 3 c)) start.
Definition negotiated : Dummy := with_config (with_status 11) negotiating.

Lemma q256_wf : queue_wf q256.
Proof. split; try (by vm_compute); split; try done; by exists 8. Qed.

Lemma negotiated_inv : device_inv (borrow negotiated).
Proof.
  split; try (by vm_compute). constructor; [apply q256_wf|constructor].
Qed.
End DummyDevice.
Import DummyDevice.

(** ** Concrete runs *)

Lemma driver_ok_after_activation_witness :
  device_status negotiated = 11 /\ snd (activate negotiated) = true /\
  features_offered (borrow negotiated).
Proof.
  apply (driver_ok_after_activation 15 negotiated (set_device_status 15 (fst (activate negotiated)))
    negotiated_inv); by vm_compute.
Defined.

Lemma features_ok_outcome_witness :
  exists d', ack_device_status 11 negotiating = Some d' /\ device_status d' = 11.
Proof.
  destruct (features_ok_outcome negotiating) as (d' & Ha & _ & Ho); [reflexivity|].
  exists d'. split; [exact Ha|]. apply Ho. reflexivity.
Defined.

Lemma set_driver_features_pages_witness :
  driver_features (set_driver_features 1 5 negotiated) = 5 * 2 ^ 32 + 2 ^ 29.
Proof.
  rewrite (set_driver_features_pages negotiated 1 5) by (by vm_compute). by vm_compute.
Defined.

Lemma config_space_roundtrip_witness :
  read_config (write_config 6 [1; 2; 3] negotiated) 6 [0; 0; 0] = [1; 2; 0].
Proof.
  destruct (config_space_roundtrip negotiated 6 [1; 2; 3] [0; 0; 0]) as [-> _];
    [lia|reflexivity|by vm_compute|reflexivity].
Defined.
