(* ===== verification/Mmio.v ===== *)
(** * The MMIO transport

    virtio-device/src/mmio.rs: the driver's reads and writes of the device
    registers and of the configuration space, with the guards on the device
    status. *)

From stdpp Require Import base numbers list option.
From S2P Require Import Prelude Bytes GuestMemory FlatMemory Descriptor Chain Queue.
From S2P Require Import QueueFacts QueueConfig VirtioDevice.

(** Register offsets (virtio-bindings, virtio_mmio.rs). *)
Definition VIRTIO_MMIO_MAGIC_VALUE : u32 := 0.
Definition VIRTIO_MMIO_VERSION : u32 := 4.
Definition VIRTIO_MMIO_DEVICE_ID : u32 := 8.
Definition VIRTIO_MMIO_VENDOR_ID : u32 := 12.
Definition VIRTIO_MMIO_DEVICE_FEATURES : u32 := 16.
Definition VIRTIO_MMIO_DEVICE_FEATURES_SEL : u32 := 20.
Definition VIRTIO_MMIO_DRIVER_FEATURES : u32 := 32.
Definition VIRTIO_MMIO_DRIVER_FEATURES_SEL : u32 := 36.
Definition VIRTIO_MMIO_QUEUE_SEL : u32 := 48.
Definition VIRTIO_MMIO_QUEUE_NUM_MAX : u32 := 52.
Definition VIRTIO_MMIO_QUEUE_NUM : u32 := 56.
Definition VIRTIO_MMIO_QUEUE_READY : u32 := 68.
Definition VIRTIO_MMIO_QUEUE_NOTIFY : u32 := 80.
Definition VIRTIO_MMIO_INTERRUPT_STATUS : u32 := 96.
Definition VIRTIO_MMIO_INTERRUPT_ACK : u32 := 100.
Definition VIRTIO_MMIO_STATUS : u32 := 112.
Definition VIRTIO_MMIO_QUEUE_DESC_LOW : u32 := 128.
Definition VIRTIO_MMIO_QUEUE_DESC_HIGH : u32 := 132.
Definition VIRTIO_MMIO_QUEUE_AVAIL_LOW : u32 := 144.
Definition VIRTIO_MMIO_QUEUE_AVAIL_HIGH : u32 := 148.
Definition VIRTIO_MMIO_QUEUE_USED_LOW : u32 := 160.
Definition VIRTIO_MMIO_QUEUE_USED_HIGH : u32 := 164.
Definition VIRTIO_MMIO_CONFIG_GENERATION : u32 := 252.
Definition VIRTIO_MMIO_CONFIG : u64 := 256.

Definition MMIO_MAGIC_VALUE : u32 := 0x74726976.
Definition MMIO_VERSION : u32 := 2.
Definition VENDOR_ID : u32 := 0.

Section Mmio.
Context {D : Type} `{VirtioDeviceImpl D}.
Implicit Types d : D.

Definition update_queue_field (f : Queue -> Queue) d : D :=
  if check_device_status FEATURES_OK (Z.lor DRIVER_OK FAILED) d then
    match selected_queue_mut f d with
    | Some d => d
    | None => d
    end
  else d.

(** The value of a register, [None] for an unknown one. *)
Definition read_register d (offset : u32) : option u32 :=
  if offset =? VIRTIO_MMIO_MAGIC_VALUE then Some MMIO_MAGIC_VALUE
  else if offset =? VIRTIO_MMIO_VERSION then Some MMIO_VERSION
  else if offset =? VIRTIO_MMIO_DEVICE_ID then Some (device_type d)
  else if offset =? VIRTIO_MMIO_VENDOR_ID then Some VENDOR_ID
  else if offset =? VIRTIO_MMIO_DEVICE_FEATURES then
    Some (if device_features_select d =? 0 then wrap 32 (device_features d)
          else if device_features_select d =? 1 then wrap 32 (Z.shiftr (device_features d) 32)
          else 0)
  else if offset =? VIRTIO_MMIO_QUEUE_NUM_MAX then
    Some (match selected_queue d with Some q => q_max_size q | None => 0 end)
  else if offset =? VIRTIO_MMIO_QUEUE_READY then
    Some (Z.b2z (match selected_queue d with Some q => q_ready q | None => false end))
  else if offset =? VIRTIO_MMIO_INTERRUPT_STATUS then Some (interrupt_status d)
  else if offset =? VIRTIO_MMIO_STATUS then Some (device_status d)
  else if offset =? VIRTIO_MMIO_CONFIG_GENERATION then Some (config_generation d)
  else None.

(** [VirtioMmioDevice::read]: the new contents of [data]. *)
Definition mmio_read d (offset : u64) (data : list u8) : list u8 :=
  if (0 <=? offset) && (offset <=? 0xff) && (Z.of_nat (length data) =? 4) then
    match read_register d (wrap 32 offset) with
    | Some v => le_bytes 4 v
    | None => data
    end
  else if (VIRTIO_MMIO_CONFIG <=? offset) && (offset <=? 0xfff) then
    read_config d (offset - 0x100) data
  else data.

(** A write of [v] to a register. *)
Definition write_register (offset v : u32) d : option D :=
  if offset =? VIRTIO_MMIO_DEVICE_FEATURES_SEL then Some (set_device_features_select v d)
  else if offset =? VIRTIO_MMIO_DRIVER_FEATURES then
    if check_device_status DRIVER (Z.lor FEATURES_OK FAILED) d
    then Some (set_driver_features (driver_features_select d) v d)
    else Some d
  else if offset =? VIRTIO_MMIO_DRIVER_FEATURES_SEL then Some (set_driver_features_select v d)
  else if offset =? VIRTIO_MMIO_QUEUE_SEL then Some (set_queue_select (wrap 16 v) d)
  else if offset =? VIRTIO_MMIO_QUEUE_NUM then
    Some (update_queue_field (queue_set_size (wrap 16 v)) d)
  else if offset =? VIRTIO_MMIO_QUEUE_READY then
    Some (update_queue_field (set_ready (v =? 1)) d)
  else if offset =? VIRTIO_MMIO_QUEUE_NOTIFY then Some (queue_notify v d)
  else if offset =? VIRTIO_MMIO_INTERRUPT_ACK then
    Some (if check_device_status DRIVER_OK 0 d
          then borrow_mut (fun c => with_interrupt_status
                 (Z.land (v_interrupt_status c) (unot 8 (wrap 8 v))) c) d
          else d)
  else if offset =? VIRTIO_MMIO_STATUS then ack_device_status (wrap 8 v) d
  else if offset =? VIRTIO_MMIO_QUEUE_DESC_LOW then
    Some (update_queue_field (set_desc_table_address (Some v) None) d)
  else if offset =? VIRTIO_MMIO_QUEUE_DESC_HIGH then
    Some (update_queue_field (set_desc_table_address None (Some v)) d)
  else if offset =? VIRTIO_MMIO_QUEUE_AVAIL_LOW then
    Some (update_queue_field (set_avail_ring_address (Some v) None) d)
  else if offset =? VIRTIO_MMIO_QUEUE_AVAIL_HIGH then
    Some (update_queue_field (set_avail_ring_address None (Some v)) d)
  else if offset =? VIRTIO_MMIO_QUEUE_USED_LOW then
    Some (update_queue_field (set_used_ring_address (Some v) None) d)
  else if offset =? VIRTIO_MMIO_QUEUE_USED_HIGH then
    Some (update_queue_field (set_used_ring_address None (Some v)) d)
  else Some d.

(** [VirtioMmioDevice::write]; [None] is a panic. *)
Definition mmio_write (offset : u64) (data : list u8) d : option D :=
  if (0 <=? offset) && (offset <=? 0xff) && (Z.of_nat (length data) =? 4) then
    write_register (wrap 32 offset) (le_value data) d
  else if (VIRTIO_MMIO_CONFIG <=? offset) && (offset <=? 0xfff) then
    Some (if check_device_status DRIVER FAILED d then write_config (offset - 0x100) data d else d)
  else Some d.

(** A driver's sequence of writes. *)
Fixpoint mmio_writes (ws : list (u64 * list u8)) d : option D :=
  match ws with
  | [] => Some d
  | (offset, data) :: ws =>
      match mmio_write offset data d with
      | Some d => mmio_writes ws d
      | None => None
      end
  end.
End Mmio.

(** ** Lemmas *)

Section MmioFacts.
Context {D : Type} `{DC : DeviceContract D}.
Implicit Types d : D.

Lemma borrow_mut_keeps f d :
  keeps_negotiation (borrow d) (f (borrow d)) ->
  keeps_negotiation (borrow d) (borrow (borrow_mut f d)).
Proof. by rewrite law_borrow_mut. Qed.

Lemma update_queue_field_keeps f d :
  (forall q, queue_wf q -> queue_wf (f q)) ->
  keeps_negotiation (borrow d) (borrow (update_queue_field f d)).
Proof.
  intros Hf. unfold update_queue_field, selected_queue_mut.
  case_match; [|apply keeps_negotiation_refl].
  destruct (queue_mut _ _ _) eqn:Hm; [|apply keeps_negotiation_refl].
  by eapply queue_mut_keeps.
Qed.

Lemma write_config_keeps offset data d :
  keeps_negotiation (borrow d) (borrow (write_config offset data d)).
Proof.
  unfold write_config. case_match; [apply keeps_negotiation_refl|].
  apply borrow_mut_keeps. by split_and!.
Qed.

Lemma opt_u32_some v : in_u 32 v -> opt_u32 (Some v).
Proof. by intros Hv x [= <-]. Qed.

Lemma opt_u32_none : opt_u32 None.
Proof. done. Qed.
Hint Resolve opt_u32_some opt_u32_none : virtio.

Lemma wrap16_nonneg v : 0 <= wrap 16 v.
Proof. apply (in_u_wrap 16 v). lia. Qed.
Hint Resolve wrap16_nonneg : virtio.

(** The new features stay 64 bits wide. *)
Lemma set_driver_features_range page value d :
  in_u 64 (driver_features d) -> in_u 32 value ->
  in_u 64 (v_driver_features (borrow (set_driver_features page value d))).
Proof.
  intros Hf Hv. unfold set_driver_features. rewrite law_borrow_mut. simpl.
  set (f := driver_features d) in *.
  assert (0 <= Z.shiftr f 32 < 2 ^ 32) as Hsh by (by apply (high_half f)).
  assert (0 <= Z.shiftr (wrap 64 (Z.shiftl f 32)) 32 < 2 ^ 32) as Hsh'
    by (by apply (high_half (wrap 64 (Z.shiftl f 32))), in_u_wrap).
  assert (forall x, 0 <= x < 2 ^ 32 -> wrap 64 (Z.shiftl x 32) = x * 2 ^ 32) as Hw.
  { intros x Hx. rewrite Z.shiftl_mul_pow2 by done. apply wrap_small. unfold in_u.
    change (2 ^ 64) with (2 ^ 32 * 2 ^ 32). nia. }
  unfold in_u in *. repeat case_match; [| |done].
  - rewrite Hw by done. change (2 ^ 64) with (2 ^ 32 * 2 ^ 32). nia.
  - rewrite (Hw value) by done. set (lo := Z.shiftr _ 32) in *.
    change (2 ^ 64) with (2 ^ 32 * 2 ^ 32). nia.
Qed.

Lemma set_driver_features_inv page value d :
  device_inv (borrow d) -> in_u 32 value -> status_bit (borrow d) 3 = false ->
  device_inv (borrow (set_driver_features page value d)).
Proof.
  intros [? ? Hf ? ?] Hv Hb. pose proof (set_driver_features_range page value d Hf Hv) as Hr.
  unfold set_driver_features in *. rewrite law_borrow_mut in *. split; try done.
  unfold status_bit in *. cbn [v_device_status with_driver_features]. intros. congruence.
Qed.

(** The guards test bits. *)
Lemma check_status_bits set cleared d n :
  check_device_status set cleared d = true -> Z.testbit cleared n = true ->
  Z.testbit set n = false -> status_bit (borrow d) n = false.
Proof.
  unfold check_device_status, status_bit, device_status. intros Hc Hcl Hs. zbool.
  apply (f_equal (fun z => Z.testbit z n)) in Hc.
  rewrite Z.land_spec, Z.lor_spec, Hcl, Hs, orb_true_r, andb_true_r in Hc. done.
Qed.

Lemma write_register_inv offset v d :
  device_inv (borrow d) -> in_u 32 v ->
  exists d', write_register offset v d = Some d' /\ device_inv (borrow d') /\
    v_device_features (borrow d') = v_device_features (borrow d).
Proof.
  intros Hinv Hv.
  assert (forall d', keeps_negotiation (borrow d) (borrow d') ->
    exists d'', Some d' = Some d'' /\ device_inv (borrow d'') /\
      v_device_features (borrow d'') = v_device_features (borrow d)) as Hkeep.
  { intros d' Hk. exists d'. split; [done|]. split; [by eapply device_inv_keeps|apply Hk]. }
  unfold write_register.
  repeat (case_match; [first
    [ apply Hkeep, borrow_mut_keeps; by split_and!
    | apply Hkeep, update_queue_field_keeps; intros; by auto with virtio
    | apply Hkeep, law_queue_notify
    | apply Hkeep, keeps_negotiation_refl
    | idtac ]|]); try by apply Hkeep, keeps_negotiation_refl.
  - eexists. split; [done|]. split.
    + apply set_driver_features_inv; [done|done|]. by eapply check_status_bits.
    + unfold set_driver_features. by rewrite law_borrow_mut.
  - apply ack_device_status_inv; [done|by apply in_u_wrap].
Qed.

Lemma le_value_u32 data : bytes_ok data -> Z.of_nat (length data) = 4 -> in_u 32 (le_value data).
Proof.
  intros Hb Hl. pose proof (le_value_range data Hb) as Hr.
  unfold in_u. by rewrite Hl in Hr.
Qed.

Lemma mmio_write_inv offset data d :
  device_inv (borrow d) -> bytes_ok data ->
  exists d', mmio_write offset data d = Some d' /\ device_inv (borrow d') /\
    v_device_features (borrow d') = v_device_features (borrow d).
Proof.
  intros Hinv Hb. unfold mmio_write. case_match eqn:Hc; zbool.
  { apply write_register_inv; [done|by apply le_value_u32]. }
  case_match; [|by exists d]. case_match; [|by exists d].
  eexists. split; [done|]. pose proof (write_config_keeps (offset - 256) data d) as Hk.
  split; [by eapply device_inv_keeps|apply Hk].
Qed.

(** A closed gate. *)
Lemma update_queue_field_closed f d :
  status_bit (borrow d) 2 = true \/ status_bit (borrow d) 7 = true -> update_queue_field f d = d.
Proof.
  intros Hb. unfold update_queue_field. case_match eqn:Hc; [exfalso|done].
  destruct Hb as [Hb|Hb].
  - by rewrite (check_status_bits _ _ _ 2 Hc) in Hb.
  - by rewrite (check_status_bits _ _ _ 7 Hc) in Hb.
Qed.

Lemma update_queue_field_locked f d :
  (status_bit (borrow d) 2 = true \/ status_bit (borrow d) 7 = true ->
   v_queues (borrow (update_queue_field f d)) = v_queues (borrow d)) /\
  (status_bit (borrow d) 3 = true ->
   driver_features (update_queue_field f d) = driver_features d).
Proof.
  split; [by intros ?; rewrite update_queue_field_closed|]. intros _.
  unfold update_queue_field, selected_queue_mut, driver_features.
  destruct (check_device_status _ _ _); [|done].
  destruct (queue_mut _ _ _) eqn:Hm; [|done]. by apply queue_mut_spec in Hm as (? & _ & ->).
Qed.
End MmioFacts.

(** ** Properties *)

Section MmioProperties.
Context {D : Type} `{DC : DeviceContract D}.
Implicit Types d : D.

(** C27: whatever sequence of register and configuration writes the driver makes, the device
    handles it without a panic and keeps its invariant: every queue stays well formed, and
    FEATURES_OK is never set over a feature that was not offered. *)
Theorem mmio_writes_keep_inv ws d :
  device_inv (borrow d) -> Forall (fun w => bytes_ok (snd w)) ws ->
  exists d', mmio_writes ws d = Some d' /\ device_inv (borrow d') /\
    v_device_features (borrow d') = v_device_features (borrow d).
Proof.
  intros Hinv Hws. revert d Hinv.
  induction Hws as [|[offset data] ws Hw _ IH]; intros d Hinv; simpl in *; [by exists d|].
  destruct (mmio_write_inv offset data d Hinv Hw) as (d1 & -> & Hinv1 & Hd1).
  destruct (IH d1 Hinv1) as (d2 & Hr & Hinv2 & Hd2). exists d2. split; [done|].
  split; [done|congruence].
Qed.

(** The queues are locked once the device runs or has failed: with DRIVER_OK or FAILED set,
    a write to any register but Status and QueueNotify leaves every queue as it is; and with
    FEATURES_OK set it leaves the acknowledged features as they are. *)
Theorem mmio_write_locked offset data d d' :
  mmio_write offset data d = Some d' ->
  offset <> VIRTIO_MMIO_STATUS -> offset <> VIRTIO_MMIO_QUEUE_NOTIFY ->
  (status_bit (borrow d) 2 = true \/ status_bit (borrow d) 7 = true ->
   v_queues (borrow d') = v_queues (borrow d)) /\
  (status_bit (borrow d) 3 = true -> driver_features d' = driver_features d).
Proof.
  intros Hw Hns Hnn. unfold mmio_write in Hw. destruct (_ && _) eqn:Hc; zbool.
  2:{ case_match; [|by simplify_eq]. case_match; simplify_eq; [|done].
      unfold write_config, driver_features. case_match; [done|]. by rewrite law_borrow_mut. }
  rewrite (wrap_small 32) in Hw by (unfold in_u; change (2 ^ 32) with 4294967296; lia).
  unfold write_register in Hw.
  repeat (destruct (_ =? _) eqn:?; zbool; [first
    [ done | (injection Hw as <-; apply update_queue_field_locked)
    | idtac ]|]); simplify_eq;
    try (unfold set_device_features_select, set_driver_features_select, set_queue_select,
      driver_features; by rewrite law_borrow_mut).
  - destruct (check_device_status _ _ _) eqn:Hg; simplify_eq; [|done]. split.
    + intros _. unfold set_driver_features. by rewrite law_borrow_mut.
    + intros Hb. by rewrite (check_status_bits _ _ _ 3 Hg) in Hb.
  - destruct (check_device_status _ _ _); [|done]. unfold driver_features. by rewrite law_borrow_mut.
  - done.
Qed.
End MmioProperties.

Import DummyDevice.

(** The four bytes of a register write. *)
Definition reg (v : Z) : list Z := le_bytes 4 v.

(** A status write may clear bits the driver has set before, and the device accepts it:
    writing DRIVER and DRIVER_OK over ACKNOWLEDGE, DRIVER and FEATURES_OK activates the device
    and clears FEATURES_OK, after which a feature that was never offered can be acknowledged
    on the running device. *)
Theorem status_bits_can_be_cleared :
  exists d1 d2 : Dummy,
    mmio_write VIRTIO_MMIO_STATUS (reg (Z.lor DRIVER DRIVER_OK)) negotiated = Some d1 /\
    dm_activate_count d1 = 1 /\ device_status d1 = Z.lor DRIVER DRIVER_OK /\
    mmio_write VIRTIO_MMIO_DRIVER_FEATURES (reg 1) d1 = Some d2 /\
    status_bit (borrow d2) 2 = true /\ ~ features_offered (borrow d2).
Proof.
  set (d1 := set_device_status 6 (fst (activate negotiated))).
  exists d1, (set_driver_features 0 1 d1).
  split_and!; [by vm_compute..|]. intros Ho. by vm_compute in Ho.
Qed.

(** ** Concrete runs *)

Lemma mmio_writes_keep_inv_witness :
  exists d', mmio_writes [(VIRTIO_MMIO_QUEUE_SEL, reg 0); (VIRTIO_MMIO_QUEUE_NUM, reg 16);
      (VIRTIO_MMIO_QUEUE_DESC_LOW, reg 0x1000); (VIRTIO_MMIO_STATUS, reg 15)] negotiated = Some d' /\
    device_inv (borrow d').
Proof.
  destruct (mmio_writes_keep_inv [(VIRTIO_MMIO_QUEUE_SEL, reg 0); (VIRTIO_MMIO_QUEUE_NUM, reg 16);
      (VIRTIO_MMIO_QUEUE_DESC_LOW, reg 0x1000); (VIRTIO_MMIO_STATUS, reg 15)] negotiated
      negotiated_inv) as (d' & Hr & Hi & _).
  - repeat (constructor; [apply le_bytes_ok|]). constructor.
  - exists d'. split; [exact Hr|exact Hi].
Defined.

Lemma mmio_write_locked_witness :
  exists d', mmio_write VIRTIO_MMIO_QUEUE_NUM (reg 16) (set_device_status 15 negotiated) = Some d' /\
    v_queues (borrow d') = [q256].
Proof.
  eexists. split; [vm_compute; reflexivity|].
  destruct (mmio_write_locked VIRTIO_MMIO_QUEUE_NUM (reg 16) (set_device_status 15 negotiated)
    (set_device_status 15 negotiated)) as [H _]; [by vm_compute..|].
  apply H. left. reflexivity.
Defined.
