(* ===== verification/MmioInit.v ===== *)
(** * Initialising a device over MMIO

    The register writes with which a driver brings up a device (the sequence
    of the virtio specification, 3.1.1 and 4.2.3.2, which the registers of
    virtio-device/src/mmio.rs and the status machine of
    virtio-device/src/virtio_config.rs implement), and what the device is
    configured with when it is activated. *)

From stdpp Require Import base numbers list option.
From S2P Require Import Prelude Bytes GuestMemory FlatMemory Descriptor Chain Queue.
From S2P Require Import QueueFacts UsedRing QueueState QueueConfig VirtioDevice Mmio.
Import DummyDevice.

(** What the driver chooses for a queue. *)
Record queue_config : Type := mk_queue_config {
  qc_size : u16;
  qc_desc_table : u64;
  qc_avail_ring : u64;
  qc_used_ring : u64;
}.

Definition low_half (a : u64) : u32 := wrap 32 a.
Definition upper_half (a : u64) : u32 := wrap 32 (Z.shiftr a 32).

Definition found_status : u8 := Z.lor ACKNOWLEDGE DRIVER.
Definition negotiated_status : u8 := Z.lor (Z.lor ACKNOWLEDGE DRIVER) FEATURES_OK.
Definition running_status : u8 := Z.lor (Z.lor (Z.lor ACKNOWLEDGE DRIVER) FEATURES_OK) DRIVER_OK.

(** The two pages of the features [f]. *)
Definition features_writes (f : u64) : list (u64 * list u8) := [
  (VIRTIO_MMIO_DRIVER_FEATURES_SEL, reg 0);
  (VIRTIO_MMIO_DRIVER_FEATURES, reg (low_half f));
  (VIRTIO_MMIO_DRIVER_FEATURES_SEL, reg 1);
  (VIRTIO_MMIO_DRIVER_FEATURES, reg (upper_half f))].

(** The writes that negotiate the features [f]. *)
Definition negotiate_writes (f : u64) : list (u64 * list u8) :=
  [(VIRTIO_MMIO_STATUS, reg ACKNOWLEDGE); (VIRTIO_MMIO_STATUS, reg found_status)] ++
  features_writes f ++ [(VIRTIO_MMIO_STATUS, reg negotiated_status)].

(** The writes to the fields of the selected queue. *)
Definition field_writes (c : queue_config) : list (u64 * list u8) := [
  (VIRTIO_MMIO_QUEUE_NUM, reg (qc_size c));
  (VIRTIO_MMIO_QUEUE_DESC_LOW, reg (low_half (qc_desc_table c)));
  (VIRTIO_MMIO_QUEUE_DESC_HIGH, reg (upper_half (qc_desc_table c)));
  (VIRTIO_MMIO_QUEUE_AVAIL_LOW, reg (low_half (qc_avail_ring c)));
  (VIRTIO_MMIO_QUEUE_AVAIL_HIGH, reg (upper_half (qc_avail_ring c)));
  (VIRTIO_MMIO_QUEUE_USED_LOW, reg (low_half (qc_used_ring c)));
  (VIRTIO_MMIO_QUEUE_USED_HIGH, reg (upper_half (qc_used_ring c)));
  (VIRTIO_MMIO_QUEUE_READY, reg 1)].

Fixpoint queues_writes (i : nat) (cfgs : list queue_config) : list (u64 * list u8) :=
  match cfgs with
  | [] => []
  | c :: cfgs =>
      (VIRTIO_MMIO_QUEUE_SEL, reg (Z.of_nat i)) :: field_writes c ++ queues_writes (S i) cfgs
  end.

(** The whole sequence. *)
Definition init_writes (f : u64) (cfgs : list queue_config) : list (u64 * list u8) :=
  negotiate_writes f ++ queues_writes 0 cfgs ++ [(VIRTIO_MMIO_STATUS, reg running_status)].

(** A choice the queue accepts. *)
Definition config_ok (q : Queue) (c : queue_config) : Prop :=
  in_u 16 (qc_size c) /\ is_pow2 (qc_size c) /\ qc_size c <= q_max_size q /\
  (in_u 64 (qc_desc_table c) /\ qc_desc_table c mod 16 = 0) /\
  (in_u 64 (qc_avail_ring c) /\ qc_avail_ring c mod 2 = 0) /\
  (in_u 64 (qc_used_ring c) /\ qc_used_ring c mod 4 = 0).

(** The queue with these choices. *)
Definition configured (c : queue_config) (q : Queue) : Queue :=
  mk_queue (q_max_size q) (q_next_avail q) (q_next_used q) (q_event_idx_enabled q) (q_num_added q)
    (qc_size c) true (qc_desc_table c) (qc_avail_ring c) (qc_used_ring c).

(** What negotiation and configuration make of queue [j]. *)
Definition brought_up (f : u64) (cfgs : list queue_config) (j : nat) (q : Queue) : Queue :=
  let q := if Z.testbit f VIRTIO_F_RING_EVENT_IDX then set_event_idx true q else q in
  match cfgs !! j with Some c => configured c q | None => q end.

(** ** Lemmas *)

(** An address written in two halves, low half first. *)
Lemma two_halves old a : in_u 64 old -> in_u 64 a ->
  let b := join_address old (Some (low_half a)) None in
  in_u 64 b /\ b mod 2 ^ 32 = a mod 2 ^ 32 /\ join_address b None (Some (upper_half a)) = a.
Proof.
  intros Ho Ha b. assert (in_u 32 (low_half a)) as Hl by (by apply in_u_wrap).
  assert (in_u 32 (upper_half a)) as Hh by (by apply in_u_wrap).
  destruct (join_address_value old (Some (low_half a)) None Ho) as [Hb Hbu]; [by intros ? [= <-]|done|].
  fold b in Hb, Hbu. simpl in Hb.
  assert (b mod 2 ^ 32 = a mod 2 ^ 32) as Hm.
  { rewrite Hb, Z.add_comm, Z_mod_plus_full. unfold low_half, wrap. by rewrite Z.mod_mod. }
  split; [done|]. split; [done|].
  destruct (join_address_value b None (Some (upper_half a)) Hbu) as [-> _]; [done|by intros ? [= <-]|].
  simpl. unfold wrap at 1. rewrite Hm. destruct (high_half a Ha) as [Hu Heq].
  unfold upper_half. by rewrite wrap_small.
Qed.

Lemma mod_low_bits a b n : 0 <= n <= 32 -> b mod 2 ^ 32 = a mod 2 ^ 32 -> a mod 2 ^ n = 0 -> b mod 2 ^ n = 0.
Proof.
  intros Hn Hm Ha.
  assert ((2 ^ n | 2 ^ 32)) as Hd.
  { exists (2 ^ (32 - n)). rewrite <- Z.pow_add_r by lia. f_equal. lia. }
  rewrite <- (Z.mod_mod_divide b (2 ^ 32)), Hm by done. by rewrite Z.mod_mod_divide.
Qed.

Lemma set_desc_table_halves q a : in_u 64 (q_desc_table q) -> in_u 64 a -> a mod 16 = 0 ->
  set_desc_table_address None (Some (upper_half a))
    (set_desc_table_address (Some (low_half a)) None q) = with_desc_table a q.
Proof.
  intros Hq Ha Hal. destruct (two_halves _ a Hq Ha) as (_ & Hm & Hj).
  assert (set_desc_table_address (Some (low_half a)) None q =
    with_desc_table (join_address (q_desc_table q) (Some (low_half a)) None) q) as ->.
  { unfold set_desc_table_address, try_set_desc_table_address. rewrite (masked_setter 4), decide_True; [done| |lia].
    by apply (mod_low_bits a). }
  unfold set_desc_table_address, try_set_desc_table_address. cbn [q_desc_table with_desc_table].
  rewrite Hj. by rewrite (masked_setter 4), decide_True.
Qed.

Lemma set_avail_ring_halves q a : in_u 64 (q_avail_ring q) -> in_u 64 a -> a mod 2 = 0 ->
  set_avail_ring_address None (Some (upper_half a))
    (set_avail_ring_address (Some (low_half a)) None q) = with_avail_ring a q.
Proof.
  intros Hq Ha Hal. destruct (two_halves _ a Hq Ha) as (_ & Hm & Hj).
  assert (set_avail_ring_address (Some (low_half a)) None q =
    with_avail_ring (join_address (q_avail_ring q) (Some (low_half a)) None) q) as ->.
  { unfold set_avail_ring_address, try_set_avail_ring_address. rewrite (masked_setter 1), decide_True; [done| |lia].
    by apply (mod_low_bits a). }
  unfold set_avail_ring_address, try_set_avail_ring_address. cbn [q_avail_ring with_avail_ring].
  rewrite Hj. by rewrite (masked_setter 1), decide_True.
Qed.

Lemma set_used_ring_halves q a : in_u 64 (q_used_ring q) -> in_u 64 a -> a mod 4 = 0 ->
  set_used_ring_address None (Some (upper_half a))
    (set_used_ring_address (Some (low_half a)) None q) = with_used_ring a q.
Proof.
  intros Hq Ha Hal. destruct (two_halves _ a Hq Ha) as (_ & Hm & Hj).
  assert (set_used_ring_address (Some (low_half a)) None q =
    with_used_ring (join_address (q_used_ring q) (Some (low_half a)) None) q) as ->.
  { unfold set_used_ring_address, try_set_used_ring_address. rewrite (masked_setter 2), decide_True; [done| |lia].
    by apply (mod_low_bits a). }
  unfold set_used_ring_address, try_set_used_ring_address. cbn [q_used_ring with_used_ring].
  rewrite Hj. by rewrite (masked_setter 2), decide_True.
Qed.

(** The setters behind [field_writes]. *)
Definition field_setters (c : queue_config) : list (Queue -> Queue) := [
  queue_set_size (qc_size c);
  set_desc_table_address (Some (low_half (qc_desc_table c))) None;
  set_desc_table_address None (Some (upper_half (qc_desc_table c)));
  set_avail_ring_address (Some (low_half (qc_avail_ring c))) None;
  set_avail_ring_address None (Some (upper_half (qc_avail_ring c)));
  set_used_ring_address (Some (low_half (qc_used_ring c))) None;
  set_used_ring_address None (Some (upper_half (qc_used_ring c)));
  set_ready true].

Lemma field_setters_configure c q : queue_wf q -> config_ok q c ->
  foldl (fun q f => f q) q (field_setters c) = configured c q.
Proof.
  intros Hwf (Hs16 & Hp & Hm & [Hd Hda] & [Ha Haa] & [Hu Hua]). cbn [foldl field_setters].
  destruct (proj1 (set_size_exact q (qc_size c) Hs16)) as [[_ ->]|[Hn _]]; [|by destruct Hn].
  pose proof Hwf as [_ _ _ _ _ [Hqd _] [Hqa _] [Hqu _]].
  rewrite set_desc_table_halves by done. rewrite set_avail_ring_halves by done.
  rewrite set_used_ring_halves by done. done.
Qed.

Lemma configured_wf c q : queue_wf q -> config_ok q c -> queue_wf (configured c q).
Proof. intros [] (? & ? & ? & ? & ? & ?). by split. Qed.

Section InitFacts.
Context {D : Type} `{DC : DeviceContract D}.
Implicit Types d : D.

Lemma mmio_write_reg offset v d :
  0 <= offset <= 0xff -> in_u 32 v -> mmio_write offset (reg v) d = write_register offset v d.
Proof.
  intros Ho Hv. unfold mmio_write, reg. rewrite length_le_bytes.
  rewrite (proj2 (Z.leb_le 0 offset)), (proj2 (Z.leb_le offset 255)) by lia. simpl andb. cbv iota.
  rewrite le_value_bytes by done. f_equal. apply wrap_small. unfold in_u. lia.
Qed.

Lemma mmio_writes_app ws1 ws2 d :
  mmio_writes (ws1 ++ ws2) d =
    match mmio_writes ws1 d with Some d => mmio_writes ws2 d | None => None end.
Proof.
  revert d. induction ws1 as [|[o data] ws1 IH]; intros d; simpl; [done|].
  destruct (mmio_write o data d); [apply IH|done].
Qed.

(** ** Negotiation *)

(** Everything but the driver's features and their selector. *)
Definition features_apart {A} (g : VirtioConfig -> A) : Prop :=
  (forall v c, g (with_driver_features v c) = g c) /\
  (forall v c, g (with_driver_features_select v c) = g c).

Lemma select_features page d :
  in_u 32 page ->
  exists d', mmio_write VIRTIO_MMIO_DRIVER_FEATURES_SEL (reg page) d = Some d' /\
    driver_features_select d' = page /\ driver_features d' = driver_features d /\
    forall A (g : VirtioConfig -> A), features_apart g -> g (borrow d') = g (borrow d).
Proof.
  intros Hp. rewrite mmio_write_reg by done. eexists. split; [done|].
  unfold driver_features_select, driver_features, set_driver_features_select. rewrite law_borrow_mut.
  split; [done|]. split; [done|]. by intros A g [_ ->].
Qed.

Lemma write_features_page v d :
  device_status d = found_status -> in_u 32 v -> in_u 64 (driver_features d) ->
  exists d', mmio_write VIRTIO_MMIO_DRIVER_FEATURES (reg v) d = Some d' /\
    in_u 64 (driver_features d') /\
    driver_features d' = driver_features (set_driver_features (driver_features_select d) v d) /\
    forall A (g : VirtioConfig -> A), features_apart g -> g (borrow d') = g (borrow d).
Proof.
  intros Hs Hv Hf. rewrite mmio_write_reg by done. exists (set_driver_features (driver_features_select d) v d).
  split; [|split; [by apply set_driver_features_range|split; [done|]]].
  - cbn [write_register]. unfold write_register, check_device_status. by rewrite Hs.
  - intros A g [Hg _]. unfold set_driver_features. by rewrite law_borrow_mut, Hg.
Qed.

Lemma write_features d f :
  device_status d = found_status -> in_u 64 (driver_features d) -> in_u 64 f ->
  exists d', mmio_writes (features_writes f) d = Some d' /\ driver_features d' = f /\
    forall A (g : VirtioConfig -> A), features_apart g -> g (borrow d') = g (borrow d).
Proof.
  intros Hs Hdf Hf.
  assert (in_u 32 (low_half f)) as Hlo by (by apply in_u_wrap).
  assert (in_u 32 (upper_half f)) as Hhi by (by apply in_u_wrap).
  destruct (select_features 0 d) as (d1 & R1 & S1 & F1 & G1); [done|].
  destruct (write_features_page (low_half f) d1) as (d2 & R2 & U2 & F2 & G2); [|done|by rewrite F1|].
  { unfold device_status. by rewrite (G1 _ v_device_status). }
  destruct (select_features 1 d2) as (d3 & R3 & S3 & F3 & G3); [done|].
  destruct (write_features_page (upper_half f) d3) as (d4 & R4 & _ & F4 & G4); [|done|by rewrite F3|].
  { unfold device_status. by rewrite (G3 _ v_device_status), (G2 _ v_device_status), (G1 _ v_device_status). }
  exists d4. split; [cbn [mmio_writes features_writes]; by rewrite R1, R2, R3, R4|]. split.
  - rewrite S1, set_driver_features_pages in F2 by (by rewrite ?F1).
    rewrite S3, set_driver_features_pages in F4 by (by rewrite ?F3). cbv zeta in F2, F4.
    rewrite decide_True in F2 by done. rewrite decide_False, decide_True in F4 by done.
    rewrite F4, F3, F2, (Z.add_comm (_ / _ * _)), Z_mod_plus_full, (Z.mod_small (low_half f)) by done.
    destruct (high_half f Hf) as [Hu Heq]. unfold upper_half, low_half. by rewrite (wrap_small 32 (Z.shiftr f 32)).
  - intros A g Hg. by rewrite G4, G3, G2, G1.
Qed.

Lemma status_write status d :
  in_u 8 status -> mmio_write VIRTIO_MMIO_STATUS (reg status) d = ack_device_status status d.
Proof.
  intros Hs. assert (in_u 32 status) as H32.
  { unfold in_u in *. change (2 ^ 8) with 256 in Hs. change (2 ^ 32) with 4294967296. lia. }
  rewrite mmio_write_reg by done. unfold write_register. simpl. by rewrite wrap_small.
Qed.

Lemma ack_acknowledge d : device_status d = RESET ->
  ack_device_status ACKNOWLEDGE d = Some (set_device_status ACKNOWLEDGE d).
Proof. intros Hs. unfold ack_device_status. by rewrite Hs. Qed.

Lemma ack_driver d : device_status d = ACKNOWLEDGE ->
  ack_device_status found_status d = Some (set_device_status found_status d).
Proof. intros Hs. unfold ack_device_status. by rewrite Hs. Qed.

Lemma negotiate d f :
  device_status d = RESET -> in_u 64 (driver_features d) -> in_u 64 f ->
  Z.land (unot 64 (device_features d)) f = 0 ->
  Z.of_nat (length (v_queues (borrow d))) < 2 ^ 16 ->
  exists d', mmio_writes (negotiate_writes f) d = Some d' /\
    device_status d' = negotiated_status /\ driver_features d' = f /\
    forall j, v_queues (borrow d') !! j =
      (fun q => if Z.testbit f VIRTIO_F_RING_EVENT_IDX then set_event_idx true q else q) <$>
        v_queues (borrow d) !! j.
Proof.
  intros Hst Hdf Hf Hoff Hn. set (d1 := set_device_status ACKNOWLEDGE d).
  set (d2 := set_device_status found_status d1).
  assert (borrow d1 = with_status ACKNOWLEDGE (borrow d)) as E1 by apply set_status_borrow.
  assert (borrow d2 = with_status found_status (borrow d1)) as E2 by apply set_status_borrow.
  destruct (write_features d2 f) as (d3 & R3 & F3 & G3); [|unfold driver_features; by rewrite E2, E1|done|].
  { unfold device_status. by rewrite E2. }
  assert (v_queues (borrow d3) = v_queues (borrow d)) as Hq3 by (by rewrite (G3 _ v_queues), E2, E1).
  assert (device_features d3 = device_features d) as Hf3
    by (unfold device_features; by rewrite (G3 _ v_device_features), E2, E1).
  destruct (features_ok_outcome d3) as (d4 & Hack & _ & Hout).
  { unfold device_status. by rewrite (G3 _ v_device_status), E2. }
  destruct Hout as (Hs4 & Hd4 & Hq4); [unfold features_offered; fold (driver_features d3) (device_features d3); by rewrite F3, Hf3|].
  exists d4. split; [|split; [done|]; split; [by rewrite Hd4|]].
  - unfold negotiate_writes. cbn [mmio_writes app]. rewrite !status_write by done.
    rewrite ack_acknowledge by done. fold d1. rewrite ?status_write by done.
    rewrite ack_driver by (unfold device_status; by rewrite E1). fold d2.
    rewrite mmio_writes_app, R3. cbn [mmio_writes]. rewrite status_write by done. unfold negotiated_status. by rewrite Hack.
  - intros j. rewrite Hq4, Hq3, F3. unfold num_queues. rewrite Hq3, wrap_small, Nat2Z.id by (unfold in_u; lia).
    destruct (Z.testbit f VIRTIO_F_RING_EVENT_IDX).
    + destruct (v_queues (borrow d) !! j) as [q|] eqn:Hj; [|by destruct (decide _)].
      rewrite decide_True; [done|]. split; [done|]. by eapply lookup_lt_Some.
    + rewrite decide_False by naive_solver. by destruct (v_queues (borrow d) !! j).
Qed.

(** ** Queues *)

(** The device takes the configuration of queue [i], which is [q]. *)
Definition configuring d (i : nat) (q : Queue) : Prop :=
  device_status d = negotiated_status /\ queue_select d = Z.of_nat i /\
  v_queues (borrow d) !! i = Some q.

(** Fields apart from the queues and their selector. *)
Definition queues_apart {A} (g : VirtioConfig -> A) : Prop :=
  (forall v c, g (with_queues v c) = g c) /\ (forall v c, g (with_queue_select v c) = g c).

Lemma update_configuring f d i q :
  configuring d i q -> exists d', update_queue_field f d = d' /\ configuring d' i (f q) /\
    borrow d' = with_queues (<[i := f q]> (v_queues (borrow d))) (borrow d).
Proof.
  intros (Hs & Hsel & Hq). eexists. split; [done|].
  unfold update_queue_field, check_device_status. rewrite Hs. simpl.
  unfold selected_queue_mut, queue_mut, queue. rewrite Hsel, Nat2Z.id, Hq.
  unfold configuring, device_status, queue_select. rewrite law_borrow_mut. split; [|done].
  split; [exact Hs|]. split; [exact Hsel|]. simpl. rewrite list_lookup_insert_eq; [done|].
  by eapply lookup_lt_Some.
Qed.

(** A sequence of writes, each of which sets a field of the selected queue. *)
Lemma fields_written ws fs :
  Forall2 (fun w f => forall d, mmio_write (fst w) (snd w) d = Some (update_queue_field f d)) ws fs ->
  forall d i q, configuring d i q ->
  exists d', mmio_writes ws d = Some d' /\ configuring d' i (foldl (fun q f => f q) q fs) /\
    borrow d' = with_queues (<[i := foldl (fun q f => f q) q fs]> (v_queues (borrow d))) (borrow d).
Proof.
  induction 1 as [|[o data] f ws fs Hw _ IH]; intros d i q Hc; simpl in *.
  - exists d. split; [done|]. split; [done|]. destruct Hc as (_ & _ & Hq).
    rewrite list_insert_id by done. by destruct (borrow d).
  - rewrite Hw. destruct (update_configuring f d i q Hc) as (d1 & -> & Hc1 & Hb1).
    destruct (IH d1 i (f q) Hc1) as (d2 & Hr & Hc2 & Hb2). exists d2. split; [done|]. split; [done|].
    rewrite Hb2, Hb1. simpl. by rewrite list_insert_insert_eq.
Qed.

Lemma field_writes_set c q : config_ok q c ->
  Forall2 (fun w f => forall d : D, mmio_write (fst w) (snd w) d = Some (update_queue_field f d))
    (field_writes c) (field_setters c).
Proof.
  intros (Hs & _ & _ & _).
  assert (forall a, in_u 32 (low_half a) /\ in_u 32 (upper_half a)) as Hh
    by (intros a; split; by apply in_u_wrap).
  assert (in_u 32 (qc_size c)) as Hs32.
  { unfold in_u in *. change (2 ^ 16) with 65536 in Hs. change (2 ^ 32) with 4294967296. lia. }
  unfold field_writes, field_setters.
  repeat constructor; intros d; cbn [fst snd]; rewrite mmio_write_reg by (done || apply Hh); try done.
  unfold write_register. simpl. by rewrite wrap_small.
Qed.

(** One queue. *)
Lemma queue_written i c d q :
  device_status d = negotiated_status -> v_queues (borrow d) !! i = Some q -> queue_wf q ->
  config_ok q c -> Z.of_nat i < 2 ^ 16 ->
  exists d', mmio_writes ((VIRTIO_MMIO_QUEUE_SEL, reg (Z.of_nat i)) :: field_writes c) d = Some d' /\
    v_queues (borrow d') = <[i := configured c q]> (v_queues (borrow d)) /\
    forall A (g : VirtioConfig -> A), queues_apart g -> g (borrow d') = g (borrow d).
Proof.
  intros Hs Hq Hwf Hc Hi. cbn [mmio_writes].
  assert (in_u 16 (Z.of_nat i)) as H16 by (unfold in_u; lia).
  assert (in_u 32 (Z.of_nat i)) as H32.
  { unfold in_u. change (2 ^ 16) with 65536 in Hi. change (2 ^ 32) with 4294967296. lia. }
  rewrite mmio_write_reg by done.
  change (write_register VIRTIO_MMIO_QUEUE_SEL (Z.of_nat i) d) with
    (Some (set_queue_select (wrap 16 (Z.of_nat i)) d)).
  rewrite (wrap_small 16 (Z.of_nat i)) by done.
  set (d1 := set_queue_select (Z.of_nat i) d).
  assert (borrow d1 = with_queue_select (Z.of_nat i) (borrow d)) as E1 by apply law_borrow_mut.
  destruct (fields_written _ _ (field_writes_set c q Hc) d1 i q) as (d2 & Hr & _ & Hb).
  { unfold configuring, device_status, queue_select. rewrite E1. by split_and!. }
  rewrite field_setters_configure in Hb by done. exists d2. split; [exact Hr|].
  rewrite Hb, E1. split; [done|]. by intros A g [-> ->].
Qed.

(** All queues from [i] on. *)
Lemma queues_written cfgs : forall i d,
  device_status d = negotiated_status -> Forall queue_wf (v_queues (borrow d)) ->
  Z.of_nat (length (v_queues (borrow d))) < 2 ^ 16 ->
  (forall k c, cfgs !! k = Some c -> exists q, v_queues (borrow d) !! (i + k)%nat = Some q /\ config_ok q c) ->
  exists d', mmio_writes (queues_writes i cfgs) d = Some d' /\
    device_status d' = negotiated_status /\ driver_features d' = driver_features d /\
    forall j, v_queues (borrow d') !! j =
      (fun q => match (if decide (i <= j)%nat then cfgs !! (j - i)%nat else None) with
                | Some c => configured c q | None => q end) <$> v_queues (borrow d) !! j.
Proof.
  induction cfgs as [|c cfgs IH]; intros i d Hs Hwf Hn Hc.
  { exists d. split; [done|]. split; [done|]. split; [done|]. intros j.
    rewrite lookup_nil. destruct (v_queues (borrow d) !! j); [|done]. simpl. by case_decide. }
  destruct (Hc 0%nat c eq_refl) as (q & Hq & Hqc). rewrite Nat.add_0_r in Hq.
  pose proof (Forall_lookup_1 _ _ _ _ Hwf Hq) as Hqw. pose proof (lookup_lt_Some _ _ _ Hq) as Hlt.
  destruct (queue_written i c d q) as (d1 & Hr1 & Hq1 & Hg1); try done; [lia|].
  destruct (IH (S i) d1) as (d2 & Hr2 & Hs2 & Hf2 & Hq2).
  - unfold device_status. by rewrite (Hg1 _ v_device_status).
  - rewrite Hq1. apply list.Forall_insert; [done|]. by apply configured_wf.
  - by rewrite Hq1, length_insert.
  - intros k c' Hk. destruct (Hc (S k) c' Hk) as (q' & Hq' & Hok). exists q'.
    rewrite Hq1, list_lookup_insert_ne by lia. split; [|done].
    by replace (S i + k)%nat with (i + S k)%nat by lia.
  - exists d2. split.
    { cbn [queues_writes]. rewrite app_comm_cons, mmio_writes_app, Hr1. exact Hr2. }
    split; [done|]. split; [rewrite Hf2; unfold driver_features; by rewrite (Hg1 _ v_driver_features)|].
    intros j. rewrite Hq2, Hq1. destruct (decide (j = i)) as [->|Hne].
    + rewrite list_lookup_insert_eq, Hq by done. simpl.
      rewrite decide_False, decide_True, Nat.sub_diag by lia. done.
    + rewrite list_lookup_insert_ne by done. destruct (v_queues (borrow d) !! j); [|done]. simpl.
      repeat case_decide; try lia; [|done]. by replace (j - i)%nat with (S (j - S i)) by lia.
Qed.
End InitFacts.

(** ** Properties *)

(** C15: a driver that writes the initialisation sequence of the specification to the registers
    of a freshly reset device gets the device it asked for: no write is lost or fails, and
    when the device is activated, its status says FEATURES_OK, the acknowledged features are
    the driver's, and each queue has exactly the size and addresses chosen for it, is ready,
    and uses event indices if and only if they were negotiated or already in use; the device
    ends with DRIVER_OK set exactly when its activation succeeds. *)
Theorem init_configures {D} `{DC : DeviceContract D} (d : D) f cfgs :
  device_inv (borrow d) -> device_status d = RESET ->
  in_u 64 f -> Z.land (unot 64 (device_features d)) f = 0 ->
  Z.of_nat (length (v_queues (borrow d))) < 2 ^ 16 ->
  (forall j c, cfgs !! j = Some c -> exists q, v_queues (borrow d) !! j = Some q /\ config_ok q c) ->
  exists d0,
    device_status d0 = negotiated_status /\ driver_features d0 = f /\
    (forall j, v_queues (borrow d0) !! j = brought_up f cfgs j <$> v_queues (borrow d) !! j) /\
    mmio_writes (init_writes f cfgs) d =
      Some (let '(d1, ok) := activate d0 in
            if ok : bool then set_device_status running_status d1 else d1).
Proof.
  intros Hinv Hs Hf Hoff Hn Hc. destruct Hinv as [_ _ Hdf Hwf _].
  destruct (negotiate d f) as (d1 & Hr1 & Hs1 & Hf1 & Hq1); try done.
  set (ev := fun q => if Z.testbit f VIRTIO_F_RING_EVENT_IDX then set_event_idx true q else q) in Hq1.
  assert (v_queues (borrow d1) = ev <$> v_queues (borrow d)) as Hqs.
  { apply list_eq. intros j. by rewrite Hq1, list_lookup_fmap. }
  assert (forall q, queue_wf q -> queue_wf (ev q)) as Hev.
  { intros q Hq. unfold ev. case_match; [by apply set_event_idx_wf|done]. }
  destruct (queues_written cfgs 0 d1 Hs1) as (d2 & Hr2 & Hs2 & Hf2 & Hq2).
  - rewrite Hqs. apply Forall_fmap. eapply list.Forall_impl; [exact Hwf|]. apply Hev.
  - by rewrite Hqs, length_fmap.
  - intros k c Hk. destruct (Hc k c Hk) as (q & Hq & Hok). exists (ev q).
    rewrite Nat.add_0_l, Hq1, Hq. split; [done|]. unfold ev. by case_match.
  - exists d2. split; [done|]. split; [by rewrite Hf2|]. split.
    + intros j. rewrite Hq2, Hq1, decide_True, Nat.sub_0_r by lia.
      by destruct (v_queues (borrow d) !! j).
    + unfold init_writes. rewrite mmio_writes_app, Hr1, mmio_writes_app, Hr2. cbn [mmio_writes].
      rewrite status_write by done. unfold ack_device_status. rewrite Hs2. simpl.
      by destruct (activate d2) as [d3 []].
Qed.

(** ** Concrete run *)

(** The device of the crate's tests: 16 entries and three addresses above 4 GiB
    for its queue, event indices negotiated. *)
Lemma init_configures_witness :
  let c := mk_queue_config 16 0x100001000 0x100002000 0x100003000 in
  exists d' : Dummy, mmio_writes (init_writes (2 ^ 29) [c]) start = Some d' /\
    device_status d' = 15 /\
    v_queues (borrow d') = [mk_queue 256 0 0 true 0 16 true 0x100001000 0x100002000 0x100003000].
Proof.
  intros c. destruct (init_configures start (2 ^ 29) [c]) as (d0 & Hs & Hf & Hq & Hr).
  - split; try (by vm_compute). constructor; [apply q256_wf|constructor].
  - reflexivity.
  - by vm_compute.
  - by vm_compute.
  - by vm_compute.
  - intros [|j] c' Hj; [|done]. injection Hj as <-. exists q256. split; [done|].
    split; [done|]. split; [by exists 4|]. by split_and!.
  - eexists. split; [exact Hr|]. split; [reflexivity|].
    change (v_queues (borrow d0) = [mk_queue 256 0 0 true 0 16 true 0x100001000 0x100002000 0x100003000]).
    apply list_eq. intros [|j]; rewrite Hq; reflexivity.
Defined.
