(* ===== verification/BlkRequest.v ===== *)
(** * Parsing block requests

    virtio-blk/src/request.rs: a block request is a chain of a readable
    header, data buffers and a writable status byte. *)

From stdpp Require Import base numbers list option.
From S2P Require Import Prelude Bytes GuestMemory FlatMemory Descriptor Chain.

(** virtio-bindings, virtio_blk.rs. *)
Definition VIRTIO_BLK_T_IN : u32 := 0.
Definition VIRTIO_BLK_T_OUT : u32 := 1.
Definition VIRTIO_BLK_T_FLUSH : u32 := 4.
Definition VIRTIO_BLK_T_GET_ID : u32 := 8.
Definition VIRTIO_BLK_T_DISCARD : u32 := 11.
Definition VIRTIO_BLK_T_WRITE_ZEROES : u32 := 13.

Inductive BlkReqError : Type :=
| DescriptorChainTooShort
| DescriptorLengthTooSmall
| BlkReqGuestMemory (e : GuestMemoryError)
| InvalidFlushSector
| UnexpectedReadOnlyDescriptor
| UnexpectedWriteOnlyDescriptor.

Inductive RequestType : Type :=
| In
| Out
| Flush
| GetDeviceID
| Discard
| WriteZeroes
| UnsupportedType (t : u32).

Global Instance RequestType_eq_dec : EqDecision RequestType.
Proof. solve_decision. Defined.

(** [From<u32> for RequestType]. *)
Definition request_type_from (value : u32) : RequestType :=
  if value =? VIRTIO_BLK_T_IN then In
  else if value =? VIRTIO_BLK_T_OUT then Out
  else if value =? VIRTIO_BLK_T_FLUSH then Flush
  else if value =? VIRTIO_BLK_T_GET_ID then GetDeviceID
  else if value =? VIRTIO_BLK_T_DISCARD then Discard
  else if value =? VIRTIO_BLK_T_WRITE_ZEROES then WriteZeroes
  else UnsupportedType value.

(** The fields of the header are plain [u32] and [u64], read in the byte order of the host; the
    host is taken to be little-endian.  Bindings.v has the bytes on either kind of host. *)
Record RequestHeader : Type := mk_header {
  h_request_type : u32;
  h_reserved : u32;
  h_sector : u64;
}.

Global Instance RequestHeader_bv : ByteValued RequestHeader :=
  struct_bv [4; 4; 8]%nat (fun h => [h_request_type h; h_reserved h; h_sector h])
    (fun vs => match vs with [t; r; s] => mk_header t r s | _ => mk_header 0 0 0 end).
Global Instance RequestHeader_bv_laws : ByteValuedLaws RequestHeader.
Proof. solve_struct_bv. Qed.

Record Request : Type := mk_request {
  r_request_type : RequestType;
  r_data : list (u64 * u32);
  r_sector : u64;
  r_status_addr : u64;
}.

Global Instance Request_eq_dec : EqDecision Request.
Proof. solve_decision. Defined.

Definition total_data_len (r : Request) : u64 :=
  foldr (fun x n => snd x + n) 0 (r_data r).

Definition push_data (d : Descriptor) (r : Request) : Request :=
  mk_request (r_request_type r) (r_data r ++ [(d_addr d, d_len d)]) (r_sector r) (r_status_addr r).
Definition with_status_addr (a : u64) (r : Request) : Request :=
  mk_request (r_request_type r) (r_data r) (r_sector r) a.

Definition check_data_desc (desc : Descriptor) (request_type : RequestType)
    : result BlkReqError unit :=
  if negb (is_write_only desc) && bool_decide (request_type = In)
  then Err UnexpectedReadOnlyDescriptor else Ok tt.

Section Parse.
Context {M : Type} `{GuestMemory M}.

Definition check_status_desc (m : M) (desc : Descriptor) : result BlkReqError unit :=
  if negb (is_write_only desc) then Err UnexpectedReadOnlyDescriptor
  else if d_len desc <? 1 then Err DescriptorLengthTooSmall
  else if gm_in_range m (d_addr desc) then Ok tt
  else Err (BlkReqGuestMemory (InvalidGuestAddress (d_addr desc))).

(** The loop over the data descriptors and the check of the status
    descriptor that ends it.  Every iteration advances the chain, so the
    chain's budget bounds them; [None] is running out of it. *)
Fixpoint parse_rest (fuel : nat) (m : M) (c : DescriptorChain) (desc : Descriptor) (request : Request)
    : option (DescriptorChain * result BlkReqError Request) :=
  if has_next desc then
    match fuel with
    | O => None
    | S fuel =>
        match check_data_desc desc (r_request_type request) with
        | Err e => Some (c, Err e)
        | Ok _ =>
            let request := push_data desc request in
            match chain_next m c with
            | (c, None) => Some (c, Err DescriptorChainTooShort)
            | (c, Some desc) => parse_rest fuel m c desc request
            end
        end
    end
  else
    match check_status_desc m desc with
    | Err e => Some (c, Err e)
    | Ok _ => Some (c, Ok (with_status_addr (d_addr desc) request))
    end.

(** [Request::parse]: the chain it leaves and the outcome. *)
Definition parse (m : M) (c : DescriptorChain)
    : option (DescriptorChain * result BlkReqError Request) :=
  match chain_next m c with
  | (c, None) => Some (c, Err DescriptorChainTooShort)
  | (c, Some chain_head) =>
      if is_write_only chain_head then Some (c, Err UnexpectedWriteOnlyDescriptor)
      else
        match read_obj RequestHeader m (d_addr chain_head) with
        | Err e => Some (c, Err (BlkReqGuestMemory e))
        | Ok request_header =>
            if (h_request_type request_header =? VIRTIO_BLK_T_FLUSH)
               && negb (h_sector request_header =? 0)
            then Some (c, Err InvalidFlushSector)
            else
              let request := mk_request (request_type_from (h_request_type request_header)) []
                (h_sector request_header) 0 in
              match chain_next m c with
              | (c, None) => Some (c, Err DescriptorChainTooShort)
              | (c, Some desc) => parse_rest (S (Z.to_nat (chain_budget c))) m c desc request
              end
        end
  end.
End Parse.

(** ** The requests a chain of descriptors can hold *)

Section ParseFacts.
Context {M : Type} `{GML : GuestMemoryLaws M}.
Implicit Types m : M.

(** A header, data buffers that each have a successor, a status byte. *)
Record request_layout m (ds : list Descriptor) (r : Request)
    (hd : Descriptor) (header : RequestHeader) (data : list Descriptor) (st : Descriptor) : Prop := {
  rl_shape : ds = hd :: data ++ [st];
  rl_head_readable : is_write_only hd = false;
  rl_header_read : read_obj RequestHeader m (d_addr hd) = Ok header;
  rl_flush : h_request_type header = VIRTIO_BLK_T_FLUSH -> h_sector header = 0;
  rl_data_linked : Forall (fun d => has_next d = true) data;
  rl_data_writable : request_type_from (h_request_type header) = In ->
    Forall (fun d => is_write_only d = true) data;
  rl_status_last : has_next st = false;
  rl_status_writable : is_write_only st = true;
  rl_status_len : 1 <= d_len st;
  rl_status_mapped : mapped m (d_addr st);
  rl_request : r = mk_request (request_type_from (h_request_type header))
    ((fun d => (d_addr d, d_len d)) <$> data) (h_sector header) (d_addr st);
}.

(** The loop, as a function of the descriptors that are left. *)
Fixpoint parse_list m (ds : list Descriptor) (request : Request) : result BlkReqError Request :=
  match ds with
  | [] => Err DescriptorChainTooShort
  | d :: ds =>
      if has_next d then
        match check_data_desc d (r_request_type request) with
        | Err e => Err e
        | Ok _ => parse_list m ds (push_data d request)
        end
      else
        match check_status_desc m d with
        | Err e => Err e
        | Ok _ => Ok (with_status_addr (d_addr d) request)
        end
  end.

(** A descriptor without successor ends its chain. *)
Lemma next_last fuel m c c' d :
  next_fuel fuel m c = (c', Some d) -> has_next d = false -> c_ttl c' = 0.
Proof.
  revert c. induction fuel as [|fuel IH]; intros c Hn Hd; simpl in Hn; [done|].
  repeat case_match; simplify_eq; try done; [by eapply IH|].
  simpl. by rewrite Hd.
Qed.

Lemma parse_rest_list fuel m c desc request :
  chain_wf c -> chain_budget c < Z.of_nat fuel ->
  exists c', parse_rest fuel m c desc request =
    Some (c', parse_list m (desc :: chain_descriptors m c) request).
Proof.
  revert c desc request. induction fuel as [|fuel IH]; intros c desc request Hwf Hb.
  { pose proof (chain_budget_nonneg c Hwf). lia. }
  cbn [parse_rest parse_list].
  destruct (has_next desc) eqn:Hn; [|by destruct (check_status_desc m desc); eexists].
  destruct (check_data_desc desc _); [|by eexists].
  rewrite (chain_descriptors_unfold m c) by done.
  destruct (chain_next m c) as [c' [d|]] eqn:Hc; [|by exists c'].
  apply IH; [by eapply chain_next_wf|].
  pose proof (chain_next_budget _ _ _ _ Hwf Hc). lia.
Qed.

(** The whole parser, as a function of the chain's descriptors. *)
Definition parse_spec m (ds : list Descriptor) : result BlkReqError Request :=
  match ds with
  | [] => Err DescriptorChainTooShort
  | hd :: ds =>
      if is_write_only hd then Err UnexpectedWriteOnlyDescriptor
      else
        match read_obj RequestHeader m (d_addr hd) with
        | Err e => Err (BlkReqGuestMemory e)
        | Ok h =>
            if (h_request_type h =? VIRTIO_BLK_T_FLUSH) && negb (h_sector h =? 0)
            then Err InvalidFlushSector
            else parse_list m ds (mk_request (request_type_from (h_request_type h)) [] (h_sector h) 0)
        end
  end.

Lemma parse_descriptors m c :
  chain_wf c -> exists c', parse m c = Some (c', parse_spec m (chain_descriptors m c)).
Proof.
  intros Hwf. unfold parse. rewrite (chain_descriptors_unfold m c) by done.
  destruct (chain_next m c) as [c1 [hd|]] eqn:Hc; [|by eexists]. cbn [parse_spec].
  pose proof (chain_next_wf _ _ _ _ Hwf Hc) as Hwf1.
  destruct (is_write_only hd); [by eexists|].
  destruct (read_obj RequestHeader m (d_addr hd)) as [h|e]; [|by eexists].
  destruct (_ && _); [by eexists|]. rewrite (chain_descriptors_unfold m c1) by done.
  destruct (chain_next m c1) as [c2 [d|]] eqn:Hc2; [|by eexists].
  apply parse_rest_list; [by eapply chain_next_wf|lia].
Qed.

Lemma check_data_desc_ok d t :
  check_data_desc d t = Ok tt <-> (t = In -> is_write_only d = true).
Proof.
  unfold check_data_desc. destruct (is_write_only d); simpl; [naive_solver|].
  case_bool_decide; naive_solver.
Qed.

Lemma check_status_desc_ok m d :
  check_status_desc m d = Ok tt <->
  is_write_only d = true /\ 1 <= d_len d /\ mapped m (d_addr d).
Proof.
  unfold check_status_desc. rewrite <- law_in_range.
  destruct (is_write_only d); simpl; [|naive_solver].
  destruct (d_len d <? 1) eqn:Hl; zbool; [naive_solver lia|].
  destruct (gm_in_range m (d_addr d)); naive_solver.
Qed.

(** The data and status part: what [parse_list] accepts.  [last ds] says that
    only the last descriptor has no successor. *)
Lemma parse_list_ok m ds q r :
  (forall d1 d ds2, ds = d1 ++ d :: ds2 -> has_next d = false -> ds2 = []) ->
  parse_list m ds q = Ok r <->
  exists data st, ds = data ++ [st] /\ Forall (fun d => has_next d = true) data /\
    (r_request_type q = In -> Forall (fun d => is_write_only d = true) data) /\
    has_next st = false /\ is_write_only st = true /\ 1 <= d_len st /\ mapped m (d_addr st) /\
    r = mk_request (r_request_type q) (r_data q ++ ((fun d => (d_addr d, d_len d)) <$> data))
      (r_sector q) (d_addr st).
Proof.
  revert q. induction ds as [|d ds IH]; intros q Hlast.
  { split; [done|]. intros (data & st & Hds & _). by destruct data. }
  cbn [parse_list]. destruct (has_next d) eqn:Hn.
  - assert (forall d1 d' ds2, ds = d1 ++ d' :: ds2 -> has_next d' = false -> ds2 = []) as Hlast'.
    { intros d1 d' ds2 ->. apply (Hlast (d :: d1)). done. }
    specialize (IH (push_data d q) Hlast').
    destruct (check_data_desc d (r_request_type q)) as [[]|e] eqn:Hc.
    + pose proof (proj1 (check_data_desc_ok d (r_request_type q)) Hc) as Hcw. rewrite IH. split.
      * intros (data & st & -> & Hd & Hw & Hs & Hsw & Hl & Hm & ->). exists (d :: data), st.
        simpl in *. rewrite <- app_assoc. split_and!; try done; [by constructor|].
        intros Hin. constructor; [by apply Hcw|by apply Hw].
      * intros ([|d' data] & st & Hds & Hd & Hw & Hs & Hrest); simplify_eq/=; [congruence|].
        inversion Hd; subst. destruct Hrest as (? & ? & ? & ->). exists data, st.
        split_and!; try done.
        -- intros Hin. specialize (Hw Hin). by inversion Hw.
        -- by rewrite <- app_assoc.
    + split; [done|].
      intros ([|d' data] & st & Hds & Hd & Hw & Hs & _); simplify_eq/=; [congruence|].
      assert (check_data_desc d' (r_request_type q) = Ok tt) as Hok; [|congruence].
      apply check_data_desc_ok. intros Hin. by apply Hw in Hin as Hw'; inversion Hw'.
  - rewrite (Hlast [] d ds eq_refl Hn). split.
    + destruct (check_status_desc m d) as [[]|e] eqn:Hc; [|done]. intros [= <-].
      apply check_status_desc_ok in Hc as (? & ? & ?). exists [], d. rewrite app_nil_r.
      by split_and!.
    + intros ([|d' data] & st & Hds & Hd & Hw & Hs & Hsw & Hl & Hm & ->); simplify_eq/=.
      * rewrite (proj2 (check_status_desc_ok m st)) by done. by rewrite app_nil_r.
      * inversion Hd. congruence.
Qed.

Lemma data_total data :
  foldr (fun x n => snd x + n) 0 ((fun d => (d_addr d, d_len d)) <$> data) = total_len data.
Proof. induction data as [|d data IH]; [done|]. rewrite fmap_cons. simpl. by rewrite IH. Qed.

Lemma chain_last m c : chain_wf c ->
  forall d1 d ds2, chain_descriptors m c = d1 ++ d :: ds2 -> has_next d = false -> ds2 = [].
Proof.
  revert c. apply (chain_ind m (fun c => forall d1 d ds2,
    chain_descriptors m c = d1 ++ d :: ds2 -> has_next d = false -> ds2 = [])).
  - intros c c' Hwf Hn d1 d ds2. rewrite chain_descriptors_unfold, Hn by done. by destruct d1.
  - intros c c' d' Hwf Hn IH d1 d ds2. rewrite chain_descriptors_unfold, Hn by done.
    destruct d1 as [|x d1]; simpl; [|intros [= -> Hds]; by eapply IH].
    intros [= -> <-] Hd. apply exhausted; [by eapply chain_next_wf|]. by eapply next_last.
Qed.
(** The buffers of a request. *)
Definition data_ok (data : list (Z * Z)) : Prop :=
  Forall (fun d => in_u 64 (fst d) /\ in_u 32 (snd d)) data.

Definition data_len (data : list (Z * Z)) : Z := foldr (fun x n => snd x + n) 0 data.

Lemma data_len_nonneg data : data_ok data -> 0 <= data_len data.
Proof. induction 1 as [|d data [_ [? _]] _ IH]; simpl; lia. Qed.

(** The requests [parse] returns. *)
Record request_ok (r : Request) : Prop := {
  ro_data : data_ok (r_data r);
  ro_total : total_data_len r < 2 ^ 32;
  ro_sector : in_u 64 (r_sector r);
}.

(** What [parse] returns fits the types and stays under 4 GiB, and its status
    address is backed. *)
Lemma parse_request_ok m c c' r :
  chain_wf c -> parse m c = Some (c', Ok r) ->
  request_ok r /\ mapped m (r_status_addr r).
Proof.
  intros Hwf Hp. destruct (parse_descriptors m c Hwf) as [c2 Hp2].
  rewrite Hp in Hp2. injection Hp2 as _ Hout.
  pose proof (chain_descriptors_total m c Hwf) as Ht. pose proof (cw_yielded c Hwf) as [? _].
  pose proof (chain_descriptors_direct m c Hwf) as Hall.
  pose proof (chain_last m c Hwf) as Hlast.
  destruct (chain_descriptors m c) as [|hd ds]; [done|]. cbn [parse_spec] in Hout.
  destruct (is_write_only hd); [done|]. destruct (read_obj RequestHeader m _) as [h|] eqn:Hh; [|done].
  apply read_obj_wf in Hh. cbn [bv_wf RequestHeader_bv struct_bv] in Hh.
  rewrite !fields_ok_cons in Hh. destruct Hh as (_ & _ & Hsec & _).
  case_match; [done|]. symmetry in Hout.
  apply parse_list_ok in Hout as (data & st & -> & _ & _ & _ & _ & _ & Hm & ->).
  2:{ intros d1 d ds2 ->. apply (Hlast (hd :: d1)). done. }
  split; [|exact Hm]. simpl in Ht. rewrite total_len_app in Ht.
  assert (Forall descriptor_wf (hd :: data ++ [st])) as Hd.
  { eapply list.Forall_impl; [exact Hall|]. by intros d [_ ?]. }
  apply list.Forall_cons in Hd as [Hhd Hd]. apply Forall_app in Hd as [Hdata Hst].
  pose proof (total_len_nonneg data Hdata). pose proof (total_len_nonneg [st] Hst).
  assert (0 <= d_len hd) by apply Hhd. split; [| |done].
  - apply Forall_fmap. eapply list.Forall_impl; [exact Hdata|]. intros d Hwd. split; apply Hwd.
  - unfold total_data_len. cbn [r_data app]. rewrite data_total. lia.
Qed.
(** What the parser accepts of the chain's descriptors. *)
Lemma parse_spec_layout m c r :
  chain_wf c ->
  parse_spec m (chain_descriptors m c) = Ok r <->
  exists hd header data st, request_layout m (chain_descriptors m c) r hd header data st.
Proof.
  intros Hwf. pose proof (chain_last m c Hwf) as Hlast.
  destruct (chain_descriptors m c) as [|hd ds]; cbn [parse_spec].
  { split; [done|]. by intros (? & ? & ? & ? & []). }
  assert (forall d1 d ds2, ds = d1 ++ d :: ds2 -> has_next d = false -> ds2 = []) as Hlast'.
  { intros d1 d ds2 ->. apply (Hlast (hd :: d1)). done. }
  destruct (is_write_only hd) eqn:Hw.
  { split; [done|]. intros (? & ? & ? & ? & []). simplify_eq. congruence. }
  destruct (read_obj RequestHeader m (d_addr hd)) as [h|e] eqn:Hr.
  2:{ split; [done|]. intros (? & ? & ? & ? & []). simplify_eq. congruence. }
  destruct (_ && _) eqn:Hf; zbool.
  { split; [done|]. intros (? & ? & ? & ? & []). simplify_eq.
    rewrite Hr in rl_header_read0. simplify_eq. by destruct (H0 (rl_flush0 H)). }
  rewrite parse_list_ok by done. cbn [r_request_type r_data r_sector]. split.
  - intros (data & st & -> & ? & ? & ? & ? & ? & ? & ->). exists hd, h, data, st.
    split; try done. intros Ht. rewrite Ht in Hf. simpl in Hf. by zbool.
  - intros (hd' & h' & data & st & []). simplify_eq. rewrite Hr in rl_header_read0. simplify_eq.
    exists data, st. by split_and!.
Qed.
End ParseFacts.

(** ** Properties *)

Section ParseProperties.
Context {M : Type} `{GML : GuestMemoryLaws M}.
Implicit Types m : M.

(** C10: parsing a block request always ends, and it accepts exactly the chains the virtio
    specification describes: a readable header, data buffers (all writable for a read
    request), a writable status byte in guest memory, and sector 0 for a flush; the request
    then holds the type, the buffers in order, the sector and the status address. *)
Theorem parse_exact m c :
  chain_wf c ->
  exists c' out, parse m c = Some (c', out) /\
    forall r, out = Ok r <->
      exists hd header data st,
        request_layout m (chain_descriptors m c) r hd header data st.
Proof.
  intros Hwf. destruct (parse_descriptors m c Hwf) as [c' Hp]. eexists c', _. split; [done|].
  intros r. by apply parse_spec_layout.
Qed.

End ParseProperties.

(** ** Concrete run *)

Module BlkExamples.
(** A write request of 512 bytes to sector 3: header at 0x5000, data at
    0x6000, status at 0x7000. *)
Definition table : list (Z * Descriptor) := [
  (0x1000, descriptor_new 0x5000 16 VRING_DESC_F_NEXT 1);
  (0x1010, descriptor_new 0x6000 512 VRING_DESC_F_NEXT 2);
  (0x1020, descriptor_new 0x7000 1 VRING_DESC_F_WRITE 0)].

Definition with_table : FlatMem :=
  foldl (fun m '(a, d) => fst (write_obj m (raw_of_split d) a)) (from_ranges [(0, 0x10000)]) table.
Definition mem : FlatMem := fst (write_obj with_table (mk_header VIRTIO_BLK_T_OUT 0 3) 0x5000).
Definition chain : DescriptorChain := chain_new 0x1000 4 0.
Definition request : Request := mk_request Out [(0x6000, 512)] 3 0x7000.

Lemma blk_chain_wf : chain_wf chain.
Proof. apply chain_new_wf; by vm_compute. Qed.

Lemma blk_parse : exists c', parse mem chain = Some (c', Ok request).
Proof. eexists. vm_compute. reflexivity. Qed.
End BlkExamples.
Import BlkExamples.

Lemma parse_exact_witness :
  exists c', parse mem chain = Some (c', Ok request) /\
    exists hd header data st,
      request_layout mem (chain_descriptors mem chain) request hd header data st.
Proof.
  destruct (parse_exact mem chain blk_chain_wf) as (c' & out & Hp & Hout).
  assert (out = Ok request) as Ho.
  { destruct blk_parse as [c'' Hc]. rewrite Hp in Hc. by injection Hc. }
  exists c'. split; [by rewrite Hp, Ho|]. by apply Hout.
Defined.
