(* ===== verification/BlkExecutor.v ===== *)
(** * Executing block requests

    virtio-blk/src/stdio_executor.rs: [StdIoBackend] runs a parsed request on
    a backing file and guest memory.  The file is anything with the traits
    [ReadVolatile], [WriteVolatile], [Seek], [FileSync], [PunchHole] and
    [WriteZeroesAt] of other crates: the class [Backend], with the documented
    behaviour the theorems rely on in [BackendLaws]. *)

From stdpp Require Import base numbers list option.
From S2P Require Import Prelude Bytes GuestMemory FlatMemory Descriptor Chain DescriptorUtils.
From S2P Require Import BlkRequest.

(** virtio-blk/src/defs.rs. *)
Definition SECTOR_SHIFT : u8 := 9.
Definition SECTOR_SIZE : u64 := Z.shiftl 1 SECTOR_SHIFT.

(** virtio-bindings, virtio_blk.rs. *)
Definition VIRTIO_BLK_F_RO : u32 := 5.
Definition VIRTIO_BLK_F_FLUSH : u32 := 9.
Definition VIRTIO_BLK_F_DISCARD : u32 := 13.
Definition VIRTIO_BLK_F_WRITE_ZEROES : u32 := 14.
Definition VIRTIO_BLK_ID_BYTES : u32 := 20.
Definition VIRTIO_BLK_S_OK : u32 := 0.
Definition VIRTIO_BLK_S_IOERR : u32 := 1.
Definition VIRTIO_BLK_S_UNSUPP : u32 := 2.

(** The fields of a segment are plain integers in the byte order of the host, which is taken to
    be little-endian, as those of [RequestHeader]. *)
Record DiscardWriteZeroes : Type := mk_dwz {
  dwz_sector : u64;
  dwz_num_sectors : u32;
  dwz_flags : u32;
}.

Global Instance DiscardWriteZeroes_bv : ByteValued DiscardWriteZeroes :=
  struct_bv [8; 4; 4]%nat (fun s => [dwz_sector s; dwz_num_sectors s; dwz_flags s])
    (fun vs => match vs with [s; n; f] => mk_dwz s n f | _ => mk_dwz 0 0 0 end).
Global Instance DiscardWriteZeroes_bv_laws : ByteValuedLaws DiscardWriteZeroes.
Proof. solve_struct_bv. Qed.

Definition UNMAP : u32 := 1.
Definition DWZ_LEN : u64 := Z.of_nat (bv_size DiscardWriteZeroes).

(** An [io::Error] of the backend is its code. *)
Inductive BlkError : Type :=
| BlkDiscardWriteZeroes (e : Z)
| BlkFlush (e : Z)
| BlkGuestMemory (e : GuestMemoryError)
| BlkInvalidAccess
| BlkInvalidFlags
| BlkInvalidDataLength
| BlkOverflow
| BlkRead (e : GuestMemoryError) (bytes : u32)
| BlkReadOnly
| BlkWrite (e : GuestMemoryError)
| BlkSeek (e : Z)
| BlkUnsupported (t : u32).

Definition blk_error_status (e : BlkError) : u8 :=
  match e with
  | BlkDiscardWriteZeroes _ => wrap 8 VIRTIO_BLK_S_IOERR
  | BlkFlush _ => wrap 8 VIRTIO_BLK_S_IOERR
  | BlkGuestMemory _ => wrap 8 VIRTIO_BLK_S_IOERR
  | BlkInvalidAccess => wrap 8 VIRTIO_BLK_S_IOERR
  | BlkInvalidFlags => wrap 8 VIRTIO_BLK_S_UNSUPP
  | BlkInvalidDataLength => wrap 8 VIRTIO_BLK_S_IOERR
  | BlkOverflow => wrap 8 VIRTIO_BLK_S_IOERR
  | BlkRead _ _ => wrap 8 VIRTIO_BLK_S_IOERR
  | BlkReadOnly => wrap 8 VIRTIO_BLK_S_IOERR
  | BlkWrite _ => wrap 8 VIRTIO_BLK_S_IOERR
  | BlkSeek _ => wrap 8 VIRTIO_BLK_S_IOERR
  | BlkUnsupported _ => wrap 8 VIRTIO_BLK_S_UNSUPP
  end.

Inductive ProcessReqError : Type :=
| ProcGuestMemory (e : GuestMemoryError)
| ProcOverflow.

(** The operations of the backend, and the two [Bytes] methods of guest memory
    that move data from and to it. *)
Class Backend (B M : Type) : Type := {
  (** [seek(SeekFrom::End(0))] and [seek(SeekFrom::Start(offset))]. *)
  be_seek_end : B -> B * result Z u64;
  be_seek_start : B -> u64 -> B * result Z u64;
  (** [mem.read_exact_volatile_from(addr, &mut inner, len)]. *)
  be_read_exact : M -> u64 -> B -> usize -> M * B * result GuestMemoryError unit;
  (** The same from a byte slice of that length. *)
  be_read_exact_slice : M -> u64 -> list u8 -> M * result GuestMemoryError unit;
  (** [mem.write_all_volatile_to(addr, &mut inner, len)]. *)
  be_write_all : M -> u64 -> B -> usize -> B * result GuestMemoryError unit;
  be_fsync : B -> B * result Z unit;
  be_punch_hole : B -> u64 -> u64 -> B * result Z unit;
  be_write_all_zeroes_at : B -> u64 -> usize -> B * result Z unit;
}.

Record StdIoBackend (B : Type) : Type := mk_backend {
  bk_inner : B;
  bk_num_sectors : u64;
  bk_features : u64;
  bk_device_id : option (list u8);
}.
Arguments mk_backend {B}.
Arguments bk_inner {B}.
Arguments bk_num_sectors {B}.
Arguments bk_features {B}.
Arguments bk_device_id {B}.

Definition with_inner {B} (b : B) (s : StdIoBackend B) : StdIoBackend B :=
  mk_backend b (bk_num_sectors s) (bk_features s) (bk_device_id s).

Definition with_device_id {B} (device_id : list u8) (s : StdIoBackend B) : StdIoBackend B :=
  mk_backend (bk_inner s) (bk_num_sectors s) (bk_features s) (Some device_id).

Definition has_feature {B} (s : StdIoBackend B) (feature_pos : u64) : bool :=
  negb (Z.land (bk_features s) (wrap 64 (Z.shiftl 1 feature_pos)) =? 0).

Definition check_access {B} (s : StdIoBackend B) (sectors_count sector : u64)
    : result BlkError unit :=
  match checked_add 64 sectors_count sector with
  | None => Err BlkInvalidAccess
  | Some sectors_count =>
      if sectors_count >? bk_num_sectors s then Err BlkInvalidAccess else Ok tt
  end.

Definition check_request {B} (s : StdIoBackend B) (request_type : RequestType)
    : result BlkError unit :=
  if has_feature s VIRTIO_BLK_F_RO && bool_decide (request_type <> In) then Err BlkReadOnly
  else
    match request_type with
    | Flush => if negb (has_feature s VIRTIO_BLK_F_FLUSH)
               then Err (BlkUnsupported VIRTIO_BLK_T_FLUSH) else Ok tt
    | Discard => if negb (has_feature s VIRTIO_BLK_F_DISCARD)
                 then Err (BlkUnsupported VIRTIO_BLK_T_DISCARD) else Ok tt
    | WriteZeroes => if negb (has_feature s VIRTIO_BLK_F_WRITE_ZEROES)
                     then Err (BlkUnsupported VIRTIO_BLK_T_WRITE_ZEROES) else Ok tt
    | _ => Ok tt
    end.

Section Executor.
Context {B M : Type} `{GuestMemory M} `{Backend B M}.

Abbreviation BM := (RM (StdIoBackend B * M) BlkError).

(** [StdIoBackend::new]. *)
Definition std_io_backend_new (inner : B) (features : u64) : result BlkError (StdIoBackend B) :=
  match be_seek_end inner with
  | (_, Err e) => Err (BlkSeek e)
  | (inner, Ok disk_size) =>
      Ok (mk_backend inner (Z.shiftr disk_size SECTOR_SHIFT) features None)
  end.

(** A call on [self.inner] whose error becomes [err]. *)
Definition on_inner {A} (f : B -> B * result Z A) (err : Z -> BlkError) : BM A := fun '(s, m) =>
  let '(b, r) := f (bk_inner s) in Some ((with_inner b s, m), map_err err r).

(** The number of bytes an error reports as written. *)
Definition add_completed (bytes_to_mem : u32) (e : GuestMemoryError) : option u32 :=
  match e with
  | PartialBuffer _ completed => add_u 32 bytes_to_mem (wrap 32 completed)
  | _ => Some bytes_to_mem
  end.

(** The loop of a read request. *)
Fixpoint execute_in (data : list (u64 * u32)) (bytes_to_mem : u32) : BM u32 := fun '(s, m) =>
  match data with
  | [] => Some ((s, m), Ok bytes_to_mem)
  | (data_addr, data_len) :: data =>
      let '(m, b, r) := be_read_exact m data_addr (bk_inner s) data_len in
      match r with
      | Err e =>
          match add_completed bytes_to_mem e with
          | None => None
          | Some n => Some ((with_inner b s, m), Err (BlkRead e n))
          end
      | Ok _ =>
          match add_u 32 bytes_to_mem data_len with
          | None => None
          | Some n => execute_in data n (with_inner b s, m)
          end
      end
  end.

(** The loop of a write request. *)
Fixpoint execute_out (data : list (u64 * u32)) : BM unit := fun '(s, m) =>
  match data with
  | [] => Some ((s, m), Ok tt)
  | (data_addr, data_len) :: data =>
      let '(b, r) := be_write_all m data_addr (bk_inner s) data_len in
      match r with
      | Err e => Some ((with_inner b s, m), Err (BlkWrite e))
      | Ok _ => execute_out data (with_inner b s, m)
      end
  end.

(** The loop of a request for the device id; an index outside of the id is a
    panic. *)
Fixpoint execute_get_id (device_id : list u8) (data : list (u64 * u32)) (bytes_to_mem : u32)
    : BM u32 := fun '(s, m) =>
  match data with
  | [] => Some ((s, m), Ok bytes_to_mem)
  | (data_addr, data_len) :: data =>
      match add_u 32 data_len bytes_to_mem with
      | None => None
      | Some end_ =>
          if Z.of_nat (length device_id) <? end_ then None
          else
            let slice := take (Z.to_nat data_len) (drop (Z.to_nat bytes_to_mem) device_id) in
            let '(m, r) := be_read_exact_slice m data_addr slice in
            match r with
            | Err e =>
                match add_completed bytes_to_mem e with
                | None => None
                | Some n => Some ((s, m), Err (BlkRead e n))
                end
            | Ok _ =>
                match add_u 32 bytes_to_mem data_len with
                | None => None
                | Some n => execute_get_id device_id data n (s, m)
                end
            end
      end
  end.

Definition handle_discard_write_zeroes (segment : DiscardWriteZeroes) (request_type : RequestType)
    : BM u32 :=
  let sector := dwz_sector segment in
  let num_sectors := dwz_num_sectors segment in
  let flags := dwz_flags segment in
  let valid_flags := if bool_decide (request_type = WriteZeroes) then UNMAP else 0 in
  if negb (Z.land flags (unot 32 valid_flags) =? 0) then throw BlkInvalidFlags
  else
    offset ← of_result (ok_or BlkInvalidAccess (checked_shl 64 sector SECTOR_SHIFT));
    length ← of_result (ok_or BlkInvalidAccess (checked_shl 64 num_sectors SECTOR_SHIFT));
    s ← gets fst;
    _ ← of_result (check_access s num_sectors sector);
    if bool_decide (request_type = Discard) then
      _ ← try (on_inner (fun b => be_punch_hole b offset length) BlkDiscardWriteZeroes);
      mret 0
    else
      punched ← (if Z.land flags UNMAP =? 0 then mret false
                 else r ← try (on_inner (fun b => be_punch_hole b offset length)
                                 BlkDiscardWriteZeroes);
                      mret (is_ok r));
      if punched : bool then mret 0
      else
        _ ← on_inner (fun b => be_write_all_zeroes_at b offset length) BlkDiscardWriteZeroes;
        mret 0.

(** [mem.read_obj]. *)
Definition blk_read_obj (T : Type) `{ByteValued T} (addr : u64) : BM T := fun '(s, m) =>
  Some ((s, m), map_err BlkGuestMemory (read_obj T m addr)).

(** The segments of one buffer; [fuel] is their number. *)
Fixpoint execute_segments (fuel : nat) (request_type : RequestType) (crt_addr available_bytes : u64)
    : BM unit :=
  if available_bytes >=? DWZ_LEN then
    match fuel with
    | O => panic
    | S fuel =>
        segment ← blk_read_obj DiscardWriteZeroes crt_addr;
        _ ← handle_discard_write_zeroes segment request_type;
        crt_addr ← unwrap (add_u 64 crt_addr DWZ_LEN);
        execute_segments fuel request_type crt_addr (available_bytes - DWZ_LEN)
    end
  else mret tt.

Fixpoint execute_discard (request_type : RequestType) (data : list (u64 * u32)) : BM unit :=
  match data with
  | [] => mret tt
  | (data_addr, data_len) :: data =>
      if negb (data_len mod DWZ_LEN =? 0) then throw BlkInvalidDataLength
      else
        _ ← of_result (ok_or BlkOverflow (checked_add 64 data_addr data_len));
        _ ← execute_segments (Z.to_nat (data_len / DWZ_LEN)) request_type data_addr data_len;
        execute_discard request_type data
  end.

Definition execute (request : Request) : BM u32 :=
  offset ← of_result (ok_or BlkInvalidAccess (checked_shl 64 (r_sector request) SECTOR_SHIFT));
  _ ← on_inner (fun b => be_seek_start b offset) BlkSeek;
  let request_type := r_request_type request in
  s ← gets fst;
  _ ← of_result (check_request s request_type);
  let total_len := total_data_len request in
  if (bool_decide (request_type = In) || bool_decide (request_type = Out))
     && negb (total_len mod SECTOR_SIZE =? 0)
  then throw BlkInvalidDataLength
  else
    match request_type with
    | In =>
        _ ← of_result (check_access s (total_len / SECTOR_SIZE) (r_sector request));
        if total_len >? 2 ^ 32 - 1 then throw BlkInvalidDataLength
        else execute_in (r_data request) 0
    | Out =>
        _ ← of_result (check_access s (total_len / SECTOR_SIZE) (r_sector request));
        _ ← execute_out (r_data request);
        mret 0
    | Flush =>
        _ ← on_inner be_fsync BlkFlush;
        mret 0
    | GetDeviceID =>
        device_id ← of_result (ok_or (BlkUnsupported VIRTIO_BLK_T_GET_ID) (bk_device_id s));
        if negb (total_len =? VIRTIO_BLK_ID_BYTES) then throw BlkInvalidDataLength
        else execute_get_id device_id (r_data request) 0
    | Discard | WriteZeroes =>
        _ ← execute_discard request_type (r_data request);
        mret 0
    | UnsupportedType t => throw (BlkUnsupported t)
    end.

(** [process_request]: run the request and write its status byte. *)
Definition process_request (request : Request)
    : RM (StdIoBackend B * M) ProcessReqError u32 := fun st =>
  match execute request st with
  | None => None
  | Some ((s, m), r) =>
      let '(status, length) :=
        match r with
        | Ok length => (wrap 8 VIRTIO_BLK_S_OK, length)
        | Err (BlkRead e bytes_to_mem as err) => (blk_error_status err, bytes_to_mem)
        | Err err => (blk_error_status err, 0)
        end in
      match gm_write m (r_status_addr request) [status] with
      | (m, Err e) => Some ((s, m), Err (ProcGuestMemory e))
      | (m, Ok _) => Some ((s, m), ok_or ProcOverflow (checked_add 32 length 1))
      end
  end.
End Executor.

(** ** What the executor relies on *)

(** The contents of a backend and its file offset; for a file that grows, the
    bytes after its end are zeroes. *)
Class BackendView (B : Type) : Type := {
  be_byte : B -> Z -> option Z;
  be_pos : B -> Z;
}.

(** Nothing outside of [[lo, lo + n)] has changed. *)
Definition kept_outside {B} `{BackendView B} (b b' : B) (lo n : Z) : Prop :=
  forall x, ~ (lo <= x < lo + n) -> be_byte b' x = be_byte b x.

Class BackendLaws (B M : Type) `{GM : GuestMemory M} `{BE : Backend B M} `{BV : BackendView B}
    : Prop := {
  law_seek_end : forall b b' r, be_seek_end b = (b', r) ->
    (forall x, be_byte b' x = be_byte b x) /\ (forall n, r = Ok n -> in_u 64 n);
  law_seek_start : forall b o b' r, be_seek_start b o = (b', r) ->
    (forall x, be_byte b' x = be_byte b x) /\ (forall n, r = Ok n -> be_pos b' = o);
  (** Reading moves the offset and stores the bytes read; the file is not
      changed, and neither is other memory. *)
  law_read_exact : forall m a b n m' b' r, 0 <= n ->
    be_read_exact m a b n = (m', b', r) ->
    (forall x, be_byte b' x = be_byte b x) /\
    changed_within (vs_cells {| vs_addr := a; vs_len := n |}) m m' /\
    (forall e c, r = Err (PartialBuffer e c) -> 0 <= c < n) /\
    (r = Ok tt -> be_pos b' = be_pos b + n /\
       exists bs, Z.of_nat (length bs) = n /\ overwritten m m' a bs /\
         forall i : nat, (i < length bs)%nat -> be_byte b (be_pos b + Z.of_nat i) = bs !! i);
  law_read_exact_slice : forall m a bs m' r, be_read_exact_slice m a bs = (m', r) ->
    changed_within (vs_cells {| vs_addr := a; vs_len := Z.of_nat (length bs) |}) m m' /\
    (forall e c, r = Err (PartialBuffer e c) -> 0 <= c < Z.of_nat (length bs)) /\
    (r = Ok tt -> overwritten m m' a bs);
  (** Writing changes only the range at the offset. *)
  law_write_all : forall m a b n b' r, 0 <= n -> be_write_all m a b n = (b', r) ->
    kept_outside b b' (be_pos b) n /\
    (r = Ok tt -> be_pos b' = be_pos b + n /\
       forall i, 0 <= i < n -> be_byte b' (be_pos b + i) = peek m (a + i));
  law_fsync : forall b b' r, be_fsync b = (b', r) -> forall x, be_byte b' x = be_byte b x;
  (** Both ways to zero a range touch only the range, do not shrink the file,
      and zero the range when they succeed. *)
  law_punch_hole : forall b o n b' r, be_punch_hole b o n = (b', r) ->
    kept_outside b b' o n /\
    (forall x, is_Some (be_byte b x) -> is_Some (be_byte b' x)) /\
    (r = Ok tt -> forall x, o <= x < o + n -> is_Some (be_byte b x) -> be_byte b' x = Some 0);
  law_write_zeroes : forall b o n b' r, be_write_all_zeroes_at b o n = (b', r) ->
    kept_outside b b' o n /\
    (forall x, is_Some (be_byte b x) -> is_Some (be_byte b' x)) /\
    (r = Ok tt -> forall x, o <= x < o + n -> is_Some (be_byte b x) -> be_byte b' x = Some 0);
}.

(** ** Lemmas *)

Section ExecutorFacts.
Context {B M : Type} `{GML : GuestMemoryLaws M} `{BL : BackendLaws B M (GM := GM)}.
Implicit Types (m : M) (b : B) (s : StdIoBackend B).

(** The device the driver sees fits a 64-bit address space. *)
Definition backend_ok s : Prop :=
  0 <= bk_num_sectors s /\ 512 * bk_num_sectors s < 2 ^ 64 /\
  (forall id, bk_device_id s = Some id -> Z.of_nat (length id) = VIRTIO_BLK_ID_BYTES).

Definition same_device s s' : Prop :=
  bk_num_sectors s' = bk_num_sectors s /\ bk_features s' = bk_features s /\
  bk_device_id s' = bk_device_id s.

(** The number of bytes an error reports as written to memory. *)
Definition read_bytes (e : BlkError) : Z :=
  match e with BlkRead _ n => n | _ => 0 end.

Definition no_read_error {A} (r : result BlkError A) : Prop :=
  forall e, r = Err e -> read_bytes e = 0.

(** [c] returns, keeps the device and guest memory and changes the disk only
    where [P] holds; its errors report no bytes. *)
Definition confined {A} (P : Z -> Prop) (c : RM (StdIoBackend B * M) BlkError A) : Prop :=
  forall s m, backend_ok s -> (forall x, 0 <= x < 512 * bk_num_sectors s -> P x) ->
  exists s' r, c (s, m) = Some ((s', m), r) /\ same_device s s' /\
    (forall x, ~ P x -> be_byte (bk_inner s') x = be_byte (bk_inner s) x) /\ no_read_error r.

Lemma same_device_refl s : same_device s s.
Proof. done. Qed.

Lemma same_device_trans s1 s2 s3 : same_device s1 s2 -> same_device s2 s3 -> same_device s1 s3.
Proof. intros (? & ? & ?) (? & ? & ?). split_and!; congruence. Qed.

Lemma backend_ok_same s s' : same_device s s' -> backend_ok s -> backend_ok s'.
Proof. intros (Hn & _ & Hd) (? & ? & ?). unfold backend_ok. by rewrite Hn, Hd. Qed.

Lemma with_inner_same b s : same_device s (with_inner b s).
Proof. done. Qed.

Lemma confined_ret {A} P (r : result BlkError A) :
  no_read_error r -> confined P (fun st => Some (st, r)).
Proof.
  intros Hr s m Hok HP. eexists _, _. split; [done|]. split; [done|]. by split.
Qed.

Lemma confined_bind {A C} P (c : RM (StdIoBackend B * M) BlkError A) (k : A -> RM (StdIoBackend B * M) BlkError C) :
  confined P c -> (forall a, confined P (k a)) -> confined P (c ≫= k).
Proof.
  intros Hc Hk s m Hok HP. destruct (Hc s m Hok HP) as (s1 & r1 & Heq & Hs1 & Hb1).
  rewrite rm_bind_unfold, Heq. destruct r1 as [a|e].
  2:{ eexists _, _. split; [done|]. split_and!; try done; [apply Hb1|].
      intros e' [= <-]. by apply Hb1. }
  destruct (Hk a s1 m) as (s2 & r2 & -> & Hs2 & Hb2 & He2).
  - by eapply backend_ok_same.
  - destruct Hs1 as (-> & _). done.
  - eexists _, _. split; [done|]. split; [by eapply same_device_trans|]. split; [|done].
    intros x Hx. rewrite Hb2 by done. by apply Hb1.
Qed.

Lemma confined_ext {A} P (c c' : RM (StdIoBackend B * M) BlkError A) :
  (forall st, c st = c' st) -> confined P c' -> confined P c.
Proof. intros He Hc s m Hok HP. rewrite He. by apply Hc. Qed.

Lemma on_inner_confined {A} P (f : B -> B * result Z A) err :
  (forall b b' r, f b = (b', r) -> forall x, ~ P x -> be_byte b' x = be_byte b x) ->
  (forall e, read_bytes (err e) = 0) ->
  confined P (on_inner f err).
Proof.
  intros Hf He s m Hok HP. unfold on_inner. destruct (f (bk_inner s)) as [b' r] eqn:Hb.
  eexists _, _. split; [done|]. split; [done|]. split.
  - intros x Hx. simpl. by eapply Hf.
  - intros e Hr. destruct r; simplify_eq/=. apply He.
Qed.

Lemma confined_try {A C} P (c : RM (StdIoBackend B * M) BlkError A)
    (k : result BlkError A -> RM (StdIoBackend B * M) BlkError C) :
  confined P c -> (forall r, confined P (k r)) -> confined P (try c ≫= k).
Proof.
  intros Hc Hk. apply confined_bind; [|done]. intros s m Hok HP.
  destruct (Hc s m Hok HP) as (s1 & r1 & Heq & ? & ? & _). unfold try. rewrite Heq.
  by eexists _, _.
Qed.

(** Sector arithmetic: inside the device the shifts do not lose bits. *)
Lemma sector_shift s n : backend_ok s -> 0 <= n <= bk_num_sectors s ->
  checked_shl 64 n SECTOR_SHIFT = Some (512 * n).
Proof.
  intros (_ & H64 & _) Hn. unfold checked_shl, SECTOR_SHIFT. rewrite (proj2 (Z.ltb_lt _ _)) by lia.
  rewrite Z.shiftl_mul_pow2, wrap_small; [f_equal; change (2 ^ 9) with 512; lia| |lia].
  change (2 ^ 9) with 512. unfold in_u. lia.
Qed.

Lemma check_access_ok s n sector :
  check_access s n sector = Ok tt -> n + sector <= bk_num_sectors s.
Proof.
  unfold check_access, checked_add. destruct (_ <? _); [|done].
  destruct (_ >? _) eqn:Hg; [done|]. zbool. lia.
Qed.

Lemma check_access_err s n sector e : check_access s n sector = Err e -> read_bytes e = 0.
Proof.
  unfold check_access. destruct (checked_add _ _ _); [|by intros [= <-]].
  case_match; [by intros [= <-]|done].
Qed.

Lemma check_request_err s t e : check_request s t = Err e -> read_bytes e = 0.
Proof. unfold check_request. intros Hc. repeat case_match; by simplify_eq. Qed.

(** Zeroing a range of the device, either way. *)
Lemma zeroing_confined P t flags o n :
  (forall x, o <= x < o + n -> P x) ->
  confined P (if bool_decide (t = Discard) then
      _ ← try (on_inner (fun b => be_punch_hole b o n) BlkDiscardWriteZeroes);
      mret 0
    else
      punched ← (if Z.land flags UNMAP =? 0 then mret false
                 else r ← try (on_inner (fun b => be_punch_hole b o n) BlkDiscardWriteZeroes);
                      mret (is_ok r));
      if punched : bool then mret 0
      else
        _ ← on_inner (fun b => be_write_all_zeroes_at b o n) BlkDiscardWriteZeroes;
        mret 0).
Proof.
  intros HP.
  assert (forall A (a : A), confined P (mret a)) as Hret by (intros; by apply (confined_ret P (Ok a))).
  assert (confined P (on_inner (fun b => be_punch_hole b o n) BlkDiscardWriteZeroes)) as Hpunch.
  { apply on_inner_confined; [|done]. intros b b' r Hb x Hx. eapply law_punch_hole; [done|]. naive_solver. }
  assert (confined P (on_inner (fun b => be_write_all_zeroes_at b o n) BlkDiscardWriteZeroes)) as Hzero.
  { apply on_inner_confined; [|done]. intros b b' r Hb x Hx. eapply law_write_zeroes; [done|]. naive_solver. }
  case_bool_decide; [by apply confined_try|].
  apply confined_bind; [case_match; [done|by apply confined_try]|].
  intros []; [done|]. by apply confined_bind.
Qed.

(** A segment of a discard or write-zeroes request stays inside the device. *)
Lemma handle_segment_confined P seg t :
  0 <= dwz_sector seg -> 0 <= dwz_num_sectors seg ->
  confined P (handle_discard_write_zeroes seg t).
Proof.
  intros Hsec Hnum. unfold handle_discard_write_zeroes.
  destruct (negb (Z.land _ _ =? 0)); [apply (confined_ret P (Err BlkInvalidFlags)); by intros ? [= <-]|].
  intros s m Hok HP.
  destruct (check_access s (dwz_num_sectors seg) (dwz_sector seg)) as [[]|e] eqn:Hc.
  - pose proof (check_access_ok _ _ _ Hc) as Hle.
    rewrite (sector_shift s (dwz_sector seg)), (sector_shift s (dwz_num_sectors seg)) by (done || lia).
    do 4 (rewrite rm_bind_unfold; cbn [of_result ok_or gets fst]). rewrite Hc.
    apply zeroing_confined; [|done|done]. intros x Hx. apply HP. lia.
  - unfold checked_shl. change (SECTOR_SHIFT <? 64) with true. cbv iota.
    do 4 (rewrite rm_bind_unfold; cbn [of_result ok_or gets fst]). rewrite Hc.
    apply (confined_ret P (Err e)); [|done|done]. intros e' [= <-]. by eapply check_access_err.
Qed.

(** Reading a segment: its fields are not negative. *)
Lemma confined_segment {C} P a (k : DiscardWriteZeroes -> RM (StdIoBackend B * M) BlkError C) :
  (forall seg, bv_wf seg -> confined P (k seg)) ->
  confined P (blk_read_obj DiscardWriteZeroes a ≫= k).
Proof.
  intros Hk s m Hok HP. rewrite rm_bind_unfold. unfold blk_read_obj.
  destruct (read_obj DiscardWriteZeroes m a) as [seg|e] eqn:Hr; simpl.
  - apply read_obj_wf in Hr. by apply Hk.
  - apply (confined_ret P (Err (BlkGuestMemory e))); [by intros ? [= <-]|done|done].
Qed.

Lemma dwz_wf seg : bv_wf seg -> 0 <= dwz_sector seg /\ 0 <= dwz_num_sectors seg.
Proof.
  cbn [bv_wf DiscardWriteZeroes_bv struct_bv]. rewrite !fields_ok_cons.
  unfold in_u. intros (? & ? & _). lia.
Qed.

Lemma execute_segments_confined P fuel t a n :
  0 <= a -> a + n < 2 ^ 64 -> n <= DWZ_LEN * Z.of_nat fuel ->
  confined P (execute_segments fuel t a n).
Proof.
  change DWZ_LEN with 16. revert a n. induction fuel as [|fuel IH]; intros a n Ha H64 Hn;
    cbn [execute_segments]; rewrite Z.geb_leb; change DWZ_LEN with 16;
    (destruct (16 <=? n) eqn:Hc; [|by apply (confined_ret P (Ok tt))]); zbool; [lia|].
  apply confined_segment. intros seg Hseg. apply dwz_wf in Hseg as [? ?].
  apply confined_bind; [by apply handle_segment_confined|intros _].
  unfold add_u, checked_add. rewrite (proj2 (Z.ltb_lt _ _)) by lia.
  apply (confined_ext P _ (execute_segments fuel t (a + 16) (n - 16))); [done|].
  apply IH; lia.
Qed.

Lemma execute_discard_confined P t data :
  data_ok data -> confined P (execute_discard t data).
Proof.
  induction 1 as [|[a n] data [[Ha _] [Hn _]] _ IH]; cbn [execute_discard fst snd] in *.
  { by apply (confined_ret P (Ok tt)). }
  destruct (negb _) eqn:Hm; [apply (confined_ret P (Err BlkInvalidDataLength)); by intros ? [= <-]|]. zbool.
  unfold checked_add. destruct (_ <? _) eqn:Hc; zbool.
  - apply confined_bind; [by apply (confined_ret P (Ok (a + n)))|intros _].
    apply confined_bind; [|done]. apply execute_segments_confined; [done|done|].
    change DWZ_LEN with 16 in *. pose proof (Z.div_pos n 16 Hn ltac:(lia)).
    pose proof (Z.div_mod n 16 ltac:(lia)). lia.
  - apply (confined_ret P (Err BlkOverflow)); by intros ? [= <-].
Qed.

(** The addresses of the buffers, in order. *)
Definition data_slices (data : list (Z * Z)) : list VolatileSlice :=
  (fun d => {| vs_addr := fst d; vs_len := snd d |}) <$> data.

Lemma changed_within_app m m1 m2 a n data :
  changed_within (vs_cells {| vs_addr := a; vs_len := n |}) m m1 ->
  changed_within (slices_cells (data_slices data)) m1 m2 ->
  changed_within (slices_cells (data_slices ((a, n) :: data))) m m2.
Proof.
  intros H1 H2. eapply changed_within_trans; eapply changed_within_mono; [|exact H1| |exact H2];
    intros x Hx; simpl; apply elem_of_app; auto.
Qed.

(** A write request writes the range at the file offset and nothing else. *)
Lemma execute_out_spec data s m :
  data_ok data ->
  exists s' r, execute_out data (s, m) = Some ((s', m), r) /\ same_device s s' /\
    kept_outside (bk_inner s) (bk_inner s') (be_pos (bk_inner s)) (data_len data) /\
    no_read_error r /\
    (r = Ok tt -> forall (i : nat) x, slices_cells (data_slices data) !! i = Some x ->
       be_byte (bk_inner s') (be_pos (bk_inner s) + Z.of_nat i) = peek m x).
Proof.
  intros Hd. revert s. induction Hd as [|[a n] data [_ [Hn _]] Hd IH]; intros s; simpl in *.
  { exists s, (Ok tt). split; [done|]. split; [done|]. split; [done|]. by split. }
  pose proof (data_len_nonneg data Hd).
  destruct (be_write_all m a (bk_inner s) n) as [b r] eqn:Hw.
  apply law_write_all in Hw as [Hk Hok]; [|done]. destruct r as [[]|e].
  - destruct (Hok eq_refl) as [Hp Hb].
    destruct (IH (with_inner b s)) as (s' & r & Hr & Hs & Hk' & He & Hd').
    simpl in *. exists s', r. rewrite Hr. split; [done|]. split; [done|]. rewrite Hp in Hk', Hd'.
    split; [intros x Hx; rewrite Hk', Hk by lia; done|]. split; [done|].
    intros Hr' i x Hx. apply lookup_app_Some in Hx as [Hx|[Hi Hx]].
    + apply vs_cells_lookup in Hx as [-> Hx]. simpl in *. by rewrite Hk', Hb by lia.
    + rewrite <- (Hd' Hr' _ _ Hx). rewrite length_vs_cells in *. simpl in *. f_equal. lia.
  - eexists _, _. split; [done|]. split; [done|]. split; [intros x Hx; apply Hk; lia|].
    split; [by intros ? [= <-]|done].
Qed.

(** The bytes of the disk from an offset on. *)
Definition disk_bytes b (o : Z) (bs : list Z) : Prop :=
  forall i : nat, (i < length bs)%nat -> be_byte b (o + Z.of_nat i) = bs !! i.

Lemma disk_bytes_app b o bs1 bs2 :
  disk_bytes b o bs1 -> disk_bytes b (o + Z.of_nat (length bs1)) bs2 -> disk_bytes b o (bs1 ++ bs2).
Proof.
  intros H1 H2 i Hi. rewrite length_app in Hi. destruct (decide (i < length bs1)%nat).
  - rewrite lookup_app_l by done. by apply H1.
  - rewrite lookup_app_r by lia. rewrite <- H2 by lia. f_equal. lia.
Qed.

(** A read request copies the disk from the file offset on into the buffers. *)
Lemma execute_in_spec data n s m :
  data_ok data -> 0 <= n -> n + data_len data < 2 ^ 32 ->
  exists s' m' r, execute_in data n (s, m) = Some ((s', m'), r) /\ same_device s s' /\
    changed_within (slices_cells (data_slices data)) m m' /\
    (forall x, be_byte (bk_inner s') x = be_byte (bk_inner s) x) /\
    (forall k, r = Ok k -> k = n + data_len data /\
       exists bs, Z.of_nat (length bs) = data_len data /\
         written m m' (slices_cells (data_slices data)) bs /\
         disk_bytes (bk_inner s) (be_pos (bk_inner s)) bs) /\
    (forall e k, r = Err (BlkRead e k) -> n <= k <= n + data_len data).
Proof.
  intros Hd. revert n s m. induction Hd as [|[a l] data [_ Hl] Hd IH]; intros n s m Hn Ht; simpl in Ht.
  { eexists _, _, _. split; [done|]. split; [done|]. split; [apply changed_within_refl|]. split; [done|].
    split; [|done]. intros k [= <-]. simpl. split; [lia|]. exists []. split; [done|].
    split; [|intros i Hi; simpl in Hi; lia]. split; [apply same_layout_refl|done|done]. }
  pose proof (data_len_nonneg data Hd) as Hdl. pose proof Hl as [Hl0 _]. cbn [execute_in].
  destruct (be_read_exact m a (bk_inner s) l) as [[m1 b1] r1] eqn:Hrd. simpl in Hl0.
  apply law_read_exact in Hrd as (Hb & Hly & Hpart & Hok); [|done].
  destruct r1 as [[]|e].
  - unfold add_u, checked_add. rewrite (proj2 (Z.ltb_lt _ _)) by lia.
    destruct (Hok eq_refl) as (Hp & bs1 & Hlen & Ho & Hbs1).
    destruct (IH (n + l) (with_inner b1 s) m1) as (s' & m' & r & Hr & Hs & Hly2 & Hb2 & Hok2 & Herr);
      [lia|lia|]. simpl in *.
    exists s', m', r. split; [done|]. split; [done|]. split; [by eapply changed_within_app|].
    split; [intros x; by rewrite Hb2, Hb|]. split.
    + intros k Hk. destruct (Hok2 k Hk) as (-> & bs2 & Hlen2 & Hw & Hbs2). split; [lia|].
      exists (bs1 ++ bs2). split; [rewrite length_app; lia|]. split.
      * pose proof (written_app m m1 m' {| vs_addr := a; vs_len := l |} bs1 _ bs2 Ho (proj1 Hly)
          ltac:(simpl; lia) Hw) as Hw'.
        rewrite take_ge in Hw'; [exact Hw'|]. rewrite length_vs_cells. simpl. lia.
      * apply disk_bytes_app; [done|]. rewrite Hlen, <- Hp.
        intros i Hi. rewrite <- Hb. by apply Hbs2.
    + intros e k Hk. specialize (Herr e k Hk). lia.
  - assert (exists k, add_completed n e = Some k /\ n <= k <= n + l) as (k & -> & Hk).
    { unfold add_completed. destruct e as [|ex c|]; [exists n; split; [done|lia]| |exists n; split; [done|lia]].
      destruct (Hpart ex c eq_refl). exists (n + c). rewrite wrap_small by (unfold in_u in *; simpl in *; lia).
      split; [|lia]. unfold add_u. apply checked_add_Some. split; [lia|done]. }
    eexists _, _, _. split; [done|]. split; [done|].
    split; [by apply (changed_within_app _ _ _ _ _ _ Hly), changed_within_refl|]. split; [done|].
    split; [done|]. intros e' k' [= _ <-]. simpl. lia.
Qed.

(** The device id is copied into the buffers. *)
Lemma execute_get_id_spec id data n s m :
  data_ok data -> 0 <= n -> n + data_len data <= Z.of_nat (length id) -> Z.of_nat (length id) < 2 ^ 32 ->
  exists m' r, execute_get_id id data n (s, m) = Some ((s, m'), r) /\
    changed_within (slices_cells (data_slices data)) m m' /\
    (forall k, r = Ok k -> k = n + data_len data /\
       written m m' (slices_cells (data_slices data))
         (take (Z.to_nat (data_len data)) (drop (Z.to_nat n) id))) /\
    (forall e k, r = Err (BlkRead e k) -> n <= k <= n + data_len data).
Proof.
  intros Hd. revert n m. induction Hd as [|[a l] data [_ Hl] Hd IH]; intros n m Hn Ht H32; simpl in Ht.
  { eexists _, _. split; [done|]. split; [apply changed_within_refl|]. split; [|done].
    intros k [= <-]. simpl. split; [lia|]. split; [apply same_layout_refl|done|done]. }
  pose proof (data_len_nonneg data Hd) as Hdl. pose proof Hl as [Hl0 _]. cbn [execute_get_id].
  simpl in Hl0. unfold add_u, checked_add. rewrite (Z.add_comm l n).
  rewrite (proj2 (Z.ltb_lt (n + l) (2 ^ 32))), (proj2 (Z.ltb_ge _ (n + l))) by lia.
  set (sl := take (Z.to_nat l) (drop (Z.to_nat n) id)).
  assert (Z.of_nat (length sl) = l) as Hsl.
  { subst sl. rewrite length_take, length_drop. lia. }
  destruct (be_read_exact_slice m a sl) as [m1 r1] eqn:Hrd.
  apply law_read_exact_slice in Hrd as (Hly & Hpart & Hok). rewrite Hsl in Hly. destruct r1 as [[]|e].
  - destruct (IH (n + l) m1) as (m' & r & Hr & Hly2 & Hok2 & Herr); [lia|lia|done|].
    exists m', r. split; [exact Hr|]. split; [by eapply changed_within_app|]. split.
    + intros k Hk. destruct (Hok2 k Hk) as (-> & Hw). simpl. split; [lia|].
      pose proof (written_app m m1 m' {| vs_addr := a; vs_len := l |} sl _ _ (Hok eq_refl) (proj1 Hly)
          ltac:(simpl; lia) Hw) as Hw'.
      rewrite take_ge in Hw' by (rewrite length_vs_cells; simpl; lia).
      replace (take (Z.to_nat (l + data_len data)) (drop (Z.to_nat n) id))
        with (sl ++ take (Z.to_nat (data_len data)) (drop (Z.to_nat (n + l)) id)); [exact Hw'|].
      subst sl. replace (Z.to_nat (n + l)) with (Z.to_nat n + Z.to_nat l)%nat by lia.
      rewrite <- drop_drop, take_take_drop. f_equal. lia.
    + intros e k Hk. specialize (Herr e k Hk). simpl. lia.
  - assert (exists k, add_completed n e = Some k /\ n <= k <= n + l) as (k & -> & Hk).
    { unfold add_completed. destruct e as [|ex c|]; [exists n; split; [done|lia]| |exists n; split; [done|lia]].
      destruct (Hpart ex c eq_refl). exists (n + c). rewrite wrap_small by (unfold in_u in *; simpl in *; lia).
      split; [|lia]. unfold add_u. apply checked_add_Some. split; [lia|done]. }
    eexists _, _. split; [done|].
    split; [by apply (changed_within_app _ _ _ _ _ _ Hly), changed_within_refl|].
    split; [done|]. intros e' k' [= _ <-]. simpl. lia.
Qed.

(** Where a request may change the disk. *)
Definition may_change s (r : Request) (x : Z) : Prop :=
  has_feature s VIRTIO_BLK_F_RO = false /\ 0 <= x < 512 * bk_num_sectors s /\
  (r_request_type r = Out /\ 512 * r_sector r <= x < 512 * r_sector r + total_data_len r \/
   r_request_type r = Discard \/ r_request_type r = WriteZeroes).

Global Instance may_change_dec s r x : Decision (may_change s r x).
Proof. unfold may_change. apply _. Defined.

Lemma check_request_ro s t : check_request s t = Ok tt -> t <> In -> has_feature s VIRTIO_BLK_F_RO = false.
Proof.
  unfold check_request. intros Hc Ht. destruct (has_feature s VIRTIO_BLK_F_RO); [|done].
  rewrite bool_decide_true in Hc by done. done.
Qed.

(** Where a request may change memory, apart from its status. *)
Definition stored_cells (r : Request) : list Z :=
  match r_request_type r with
  | In | GetDeviceID => slices_cells (data_slices (r_data r))
  | _ => []
  end.

(** The number of bytes a result reports as written to memory. *)
Definition result_bytes (res : result BlkError Z) : Z :=
  match res with Ok n => n | Err e => read_bytes e end.

(** What every run of [execute] has in common: it returns, keeps the device,
    changes the disk and memory only where the request may, and reports a number of
    bytes that leaves room for the status byte in 32 bits. *)
Definition run_ok s m (r : Request) (o : option ((StdIoBackend B * M) * result BlkError Z)) : Prop :=
  exists s' m' res, o = Some ((s', m'), res) /\ same_device s s' /\
    changed_within (stored_cells r) m m' /\
    (forall x, ~ may_change s r x -> be_byte (bk_inner s') x = be_byte (bk_inner s) x) /\
    0 <= result_bytes res < 2 ^ 32 - 1.

Lemma run_ok_same s s1 m r (res : result BlkError Z) :
  same_device s s1 -> (forall x, be_byte (bk_inner s1) x = be_byte (bk_inner s) x) ->
  result_bytes res = 0 -> run_ok s m r (Some ((s1, m), res)).
Proof.
  intros Hs Hb Hr. eexists _, _, _. split; [done|]. split; [done|].
  split; [apply changed_within_refl|]. split; [auto|]. by rewrite Hr.
Qed.

(** [execute] up to the dispatch on the type. *)
Lemma execute_dispatch r s m (Q : option ((StdIoBackend B * M) * result BlkError Z) -> Prop) :
  backend_ok s ->
  (forall s1 e, same_device s s1 -> read_bytes e = 0 ->
     (forall x, be_byte (bk_inner s1) x = be_byte (bk_inner s) x) -> Q (Some ((s1, m), Err e))) ->
  (forall s1, same_device s s1 -> (forall x, be_byte (bk_inner s1) x = be_byte (bk_inner s) x) ->
     be_pos (bk_inner s1) = wrap 64 (512 * r_sector r) -> check_request s1 (r_request_type r) = Ok tt ->
     (r_request_type r = In \/ r_request_type r = Out -> total_data_len r mod 512 = 0) ->
     Q (match r_request_type r with
        | In => (_ ← of_result (check_access s1 (total_data_len r / SECTOR_SIZE) (r_sector r));
                 if total_data_len r >? 2 ^ 32 - 1 then throw BlkInvalidDataLength
                 else execute_in (r_data r) 0) (s1, m)
        | Out => (_ ← of_result (check_access s1 (total_data_len r / SECTOR_SIZE) (r_sector r));
                  _ ← execute_out (r_data r); mret 0) (s1, m)
        | Flush => (_ ← on_inner be_fsync BlkFlush; mret 0) (s1, m)
        | GetDeviceID =>
            (device_id ← of_result (ok_or (BlkUnsupported VIRTIO_BLK_T_GET_ID) (bk_device_id s1));
             if negb (total_data_len r =? VIRTIO_BLK_ID_BYTES) then throw BlkInvalidDataLength
             else execute_get_id device_id (r_data r) 0) (s1, m)
        | Discard | WriteZeroes =>
            (_ ← execute_discard (r_request_type r) (r_data r); mret 0) (s1, m)
        | UnsupportedType t => throw (BlkUnsupported t) (s1, m)
        end)) ->
  Q (execute r (s, m)).
Proof.
  intros Hok Herr Hgo. unfold execute. rewrite rm_bind_unfold.
  unfold checked_shl. change (SECTOR_SHIFT <? 64) with true. cbn [of_result ok_or].
  rewrite rm_bind_unfold. unfold on_inner at 1.
  replace (wrap 64 (Z.shiftl (r_sector r) SECTOR_SHIFT)) with (wrap 64 (512 * r_sector r)).
  2:{ rewrite Z.shiftl_mul_pow2 by done. f_equal. change (2 ^ SECTOR_SHIFT) with 512. lia. }
  destruct (be_seek_start (bk_inner s) _) as [b res] eqn:Hseek.
  apply law_seek_start in Hseek as [Hb Hpos].
  destruct res as [p|e]; cbn [map_err]; [|by apply Herr].
  set (s1 := with_inner b s). specialize (Hpos p eq_refl).
  rewrite rm_bind_unfold. cbn [gets fst]. rewrite rm_bind_unfold. cbn [of_result].
  destruct (check_request s1 (r_request_type r)) as [[]|e] eqn:Hc;
    [|apply Herr; [done|by eapply check_request_err|done]].
  change SECTOR_SIZE with 512 in *.
  destruct (_ && _) eqn:Hlen; [by apply (Herr s1)|].
  assert (r_request_type r = In \/ r_request_type r = Out -> total_data_len r mod 512 = 0) as Hmod.
  { intros Ht. destruct (decide (total_data_len r mod 512 = 0)) as [|Hne]; [done|].
    rewrite (proj2 (Z.eqb_neq _ _) Hne), andb_true_r, orb_false_iff in Hlen.
    destruct Hlen as [H1 H2]. apply bool_decide_eq_false in H1, H2. naive_solver. }
  specialize (Hgo s1 (with_inner_same b s) Hb Hpos Hc Hmod).
  destruct (r_request_type r); exact Hgo.
Qed.

(** A range of whole sectors that passed the bounds check. *)
Lemma access_range s r :
  backend_ok s -> request_ok r -> total_data_len r mod 512 = 0 ->
  check_access s (total_data_len r / SECTOR_SIZE) (r_sector r) = Ok tt ->
  wrap 64 (512 * r_sector r) = 512 * r_sector r /\
  0 <= 512 * r_sector r /\ 512 * r_sector r + total_data_len r <= 512 * bk_num_sectors s.
Proof.
  intros (? & H64 & _) [Hd _ [Hs _]] Hm Hc. apply check_access_ok in Hc.
  change SECTOR_SIZE with 512 in Hc. pose proof (Z.div_mod (total_data_len r) 512 ltac:(lia)).
  pose proof (data_len_nonneg _ Hd) as Hn. fold (total_data_len r) in Hn.
  pose proof (Z.div_pos (total_data_len r) 512 Hn ltac:(lia)).
  split; [|lia]. apply wrap_small. unfold in_u. lia.
Qed.

(** After the checks, whatever the type. *)
Section Dispatched.
Context (r : Request) (s s1 : StdIoBackend B) (m : M).
Hypothesis (Hr : request_ok r) (Hok : backend_ok s) (Hs1 : same_device s s1).
Hypothesis Hb1 : forall x, be_byte (bk_inner s1) x = be_byte (bk_inner s) x.

Lemma run_ok_end s' m' (res : result BlkError Z) :
  same_device s1 s' -> changed_within (stored_cells r) m m' ->
  (forall x, ~ may_change s r x -> be_byte (bk_inner s') x = be_byte (bk_inner s1) x) ->
  0 <= result_bytes res < 2 ^ 32 - 1 -> run_ok s m r (Some ((s', m'), res)).
Proof.
  intros Hs Hl Hb Hn. eexists _, _, _. split; [done|]. split; [by eapply same_device_trans|].
  split; [done|]. split; [|done]. intros x Hx. by rewrite Hb.
Qed.

Lemma run_ok_err (e : BlkError) : read_bytes e = 0 -> run_ok s m r (Some ((s1, m), Err e)).
Proof. intros He. by apply run_ok_same. Qed.

Lemma run_ok_partial s' m' (res : result BlkError Z) n :
  same_device s1 s' -> changed_within (stored_cells r) m m' ->
  (forall x, be_byte (bk_inner s') x = be_byte (bk_inner s1) x) -> 0 <= n < 2 ^ 32 - 1 ->
  (forall k, res = Ok k -> k = n) -> (forall e k, res = Err (BlkRead e k) -> 0 <= k <= n) ->
  run_ok s m r (Some ((s', m'), res)).
Proof.
  intros Hs Hl Hb Hn Hres Hre. apply run_ok_end; [done|done|auto|].
  destruct res as [k|e]; simpl; [by rewrite (Hres k)|].
  destruct e; simpl; try lia. specialize (Hre e bytes eq_refl). lia.
Qed.

Lemma run_ok_confined {A} (c : RM (StdIoBackend B * M) BlkError A) :
  confined (may_change s r) c ->
  (forall x, 0 <= x < 512 * bk_num_sectors s -> may_change s r x) ->
  run_ok s m r ((_ ← c; mret 0) (s1, m)).
Proof.
  intros Hc HP. destruct (Hc s1 m) as (s' & res & Heq & Hs' & Hb & He).
  - by eapply backend_ok_same.
  - by destruct Hs1 as (-> & _).
  - rewrite rm_bind_unfold, Heq.
    destruct res as [a|e]; apply run_ok_end; simpl; try done; try apply changed_within_refl.
    by rewrite (He e eq_refl).
Qed.

Lemma run_ok_in :
  r_request_type r = In -> total_data_len r mod 512 = 0 ->
  run_ok s m r ((if total_data_len r >? 2 ^ 32 - 1 then throw BlkInvalidDataLength
                 else execute_in (r_data r) 0) (s1, m)).
Proof.
  intros Ht Hmod. destruct Hr as [Hd Htot _]. destruct (_ >? _); [by apply run_ok_err|].
  pose proof (data_len_nonneg _ Hd). change (total_data_len r) with (data_len (r_data r)) in *.
  pose proof (Z.div_mod (data_len (r_data r)) 512 ltac:(lia)).
  destruct (execute_in_spec (r_data r) 0 s1 m) as (s' & m' & res & -> & Hs' & Hl & Hb & Hres & Hre);
    [done|lia|exact Htot|].
  apply (run_ok_partial _ _ _ (data_len (r_data r))); try done.
  - unfold stored_cells. by rewrite Ht.
  - change (2 ^ 32) with 4294967296 in *. lia.
  - intros k Hk. by destruct (Hres k Hk).
Qed.

Lemma run_ok_out :
  has_feature s VIRTIO_BLK_F_RO = false -> r_request_type r = Out ->
  be_pos (bk_inner s1) = 512 * r_sector r -> 0 <= 512 * r_sector r ->
  512 * r_sector r + total_data_len r <= 512 * bk_num_sectors s ->
  run_ok s m r ((_ ← execute_out (r_data r); mret 0) (s1, m)).
Proof.
  intros Hro Ht Hpos H0 Hend. destruct Hr as [Hd _ _]. rewrite rm_bind_unfold.
  destruct (execute_out_spec (r_data r) s1 m Hd) as (s' & res & -> & Hs' & Hk & He & _).
  rewrite Hpos in Hk. change (data_len (r_data r)) with (total_data_len r) in Hk.
  assert (forall x, ~ may_change s r x -> be_byte (bk_inner s') x = be_byte (bk_inner s1) x).
  { intros x Hx. apply Hk. intros Hin. apply Hx. unfold may_change. split; [done|].
    split; [lia|]. by left. }
  destruct res as [[]|e]; apply run_ok_end; try done; try apply changed_within_refl.
  simpl. by rewrite (He e eq_refl).
Qed.

Lemma run_ok_get_id :
  r_request_type r = GetDeviceID ->
  run_ok s m r ((device_id ← of_result (ok_or (BlkUnsupported VIRTIO_BLK_T_GET_ID) (bk_device_id s1));
             if negb (total_data_len r =? VIRTIO_BLK_ID_BYTES) then throw BlkInvalidDataLength
             else execute_get_id device_id (r_data r) 0) (s1, m)).
Proof.
  intros Hty. destruct Hr as [Hd _ _]. rewrite rm_bind_unfold. cbn [of_result].
  destruct (bk_device_id s1) as [id|] eqn:Hid; [|by apply run_ok_err]. cbn [ok_or].
  destruct (backend_ok_same _ _ Hs1 Hok) as (_ & _ & Hlen). specialize (Hlen id Hid).
  destruct (total_data_len r =? VIRTIO_BLK_ID_BYTES) eqn:Ht; [|by apply run_ok_err]. zbool.
  cbn [negb]. change (total_data_len r) with (data_len (r_data r)) in Ht. unfold VIRTIO_BLK_ID_BYTES in *.
  destruct (execute_get_id_spec id (r_data r) 0 s1 m) as (m' & res & -> & Hl & Hres & Hre);
    [done|lia|lia|lia|].
  apply (run_ok_partial _ _ _ (data_len (r_data r))); try done; [|lia|].
  - unfold stored_cells. by rewrite Hty.
  - intros k Hk. by destruct (Hres k Hk).
Qed.
End Dispatched.

Lemma execute_run_ok r s m : backend_ok s -> request_ok r -> run_ok s m r (execute r (s, m)).
Proof.
  intros Hok Hr. apply execute_dispatch; [done|intros; by apply run_ok_same|].
  intros s1 Hs1 Hb1 Hpos Hc Hmod. pose proof (backend_ok_same _ _ Hs1 Hok) as Hok1.
  assert (r_request_type r <> In -> has_feature s VIRTIO_BLK_F_RO = false) as Hro.
  { intros Ht. apply check_request_ro in Hc; [|done]. revert Hc. unfold has_feature.
    by destruct Hs1 as (_ & -> & _). }
  assert (r_request_type r = Discard \/ r_request_type r = WriteZeroes ->
    run_ok s m r ((_ ← execute_discard (r_request_type r) (r_data r); mret 0) (s1, m))) as Hdwz.
  { intros Ht. apply run_ok_confined; [done|done|done|apply execute_discard_confined; apply Hr|].
    intros x Hx. split; [apply Hro; by destruct Ht as [-> | ->]|]. by split; [|right]. }
  destruct (r_request_type r) eqn:Ht; try (apply Hdwz; by auto).
  1,2: rewrite rm_bind_unfold; cbn [of_result];
    (destruct (check_access _ _ _) as [[]|e] eqn:Ha;
      [|by eapply run_ok_err, check_access_err]);
    destruct (access_range s1 r Hok1 Hr (Hmod ltac:(auto)) Ha) as (Hw & H0 & Hrange).
  - by apply run_ok_in; auto.
  - rewrite Hw in Hpos. destruct Hs1 as (Hn & Hs1'). rewrite Hn in Hrange. apply run_ok_out; auto. by split.
  - rewrite rm_bind_unfold. unfold on_inner. destruct (be_fsync (bk_inner s1)) as [b res] eqn:Hf.
    pose proof (law_fsync _ _ _ Hf) as Hb.
    by destruct res; eapply run_ok_end; eauto using changed_within_refl.
  - by apply run_ok_get_id.
  - by apply run_ok_err.
Qed.
End ExecutorFacts.
