(* ===== verification/BlkProperties.v ===== *)
(** * What the block device guarantees

    The properties of [Request::parse], [StdIoBackend::execute] and
    [process_request] together: isolation, transfer of the data, the status
    byte and the used length; and a concrete disk image they run on. *)

From stdpp Require Import base numbers list option gmap.
From S2P Require Import Prelude Bytes GuestMemory FlatMemory Descriptor Chain DescriptorUtils.
From S2P Require Import BlkRequest BlkExecutor.

(** The cells of the buffers of a request. *)
Definition request_cells (r : Request) : list Z := slices_cells (data_slices (r_data r)).

(** The status byte of an outcome. *)
Definition outcome_status (res : result BlkError Z) : Z :=
  match res with Ok _ => VIRTIO_BLK_S_OK | Err e => blk_error_status e end.

Section BlkProperties.
Context {B M : Type} `{GML : GuestMemoryLaws M} `{BL : BackendLaws B M (GM := GM)}.
Implicit Types (m : M) (b : B) (s : StdIoBackend B).

(** What the execution of a request may do to the device and to memory: the
    device description and the layout of memory stay, a byte of the disk
    changes only on a writable device, inside the device, and in the sectors a
    write names or for a request that discards or zeroes, and a byte of memory
    changes only in the buffers of a request that reads. *)
Record isolated (r : Request) (st st' : StdIoBackend B * M) : Prop := {
  iso_device : same_device (fst st) (fst st');
  iso_layout : same_layout (snd st) (snd st');
  iso_disk : forall x, be_byte (bk_inner (fst st')) x <> be_byte (bk_inner (fst st)) x ->
    has_feature (fst st) VIRTIO_BLK_F_RO = false /\ 0 <= x < 512 * bk_num_sectors (fst st) /\
    (r_request_type r = Out /\ 512 * r_sector r <= x < 512 * r_sector r + total_data_len r \/
     r_request_type r = Discard \/ r_request_type r = WriteZeroes);
  iso_memory : forall x, peek (snd st') x <> peek (snd st) x ->
    (r_request_type r = In \/ r_request_type r = GetDeviceID) /\ x ∈ request_cells r;
}.

(** A read that succeeds copies the disk from the sector on. *)
Lemma execute_in_ok r s m s' m' k :
  backend_ok s -> request_ok r -> r_request_type r = In ->
  execute r (s, m) = Some ((s', m'), Ok k) ->
  k = total_data_len r /\ exists bs, Z.of_nat (length bs) = total_data_len r /\
    written m m' (request_cells r) bs /\ disk_bytes (bk_inner s) (512 * r_sector r) bs.
Proof.
  intros Hok Hr Ht. apply execute_dispatch; [done|done|].
  intros s1 Hs1 Hb1 Hpos _ Hmod. rewrite Ht, rm_bind_unfold. cbn [of_result].
  destruct (check_access _ _ _) as [[]|e] eqn:Ha; [|done].
  destruct (access_range s1 r (backend_ok_same _ _ Hs1 Hok) Hr (Hmod (or_introl Ht)) Ha) as (Hw & _).
  destruct (_ >? _); [done|]. destruct Hr as [Hd Htot _].
  destruct (execute_in_spec (r_data r) 0 s1 m) as (s2 & m2 & res & -> & _ & _ & _ & Hres & _);
    [done|lia|exact Htot|].
  intros [= -> -> ->]. destruct (Hres k eq_refl) as (Hk & bs & Hlen & Hwr & Hbs).
  split; [exact Hk|]. exists bs. split; [done|]. split; [done|].
  rewrite Hpos, Hw in Hbs. intros i Hi. rewrite <- Hb1. by apply Hbs.
Qed.

(** A write that succeeds stores the buffers from the sector on. *)
Lemma execute_out_ok r s m s' m' k :
  backend_ok s -> request_ok r -> r_request_type r = Out ->
  execute r (s, m) = Some ((s', m'), Ok k) ->
  k = 0 /\ forall (i : nat) x, request_cells r !! i = Some x ->
    be_byte (bk_inner s') (512 * r_sector r + Z.of_nat i) = peek m x.
Proof.
  intros Hok Hr Ht. apply execute_dispatch; [done|done|].
  intros s1 Hs1 Hb1 Hpos _ Hmod. rewrite Ht, rm_bind_unfold. cbn [of_result].
  destruct (check_access _ _ _) as [[]|e] eqn:Ha; [|done].
  destruct (access_range s1 r (backend_ok_same _ _ Hs1 Hok) Hr (Hmod (or_intror Ht)) Ha) as (Hw & _).
  destruct Hr as [Hd _ _]. rewrite rm_bind_unfold.
  destruct (execute_out_spec (r_data r) s1 m Hd) as (s2 & res & -> & _ & _ & _ & Hres).
  destruct res as [[]|e]; [|done]. intros [= -> _ <-]. split; [done|].
  rewrite Hpos, Hw in Hres. by apply Hres.
Qed.

Lemma length_request_cells r : data_ok (r_data r) ->
  Z.of_nat (length (request_cells r)) = total_data_len r.
Proof.
  unfold request_cells, total_data_len. induction 1 as [|[a n] data [_ [Hn _]] _ IH]; [done|].
  simpl in *. rewrite length_app, length_vs_cells. simpl. lia.
Qed.

(** The status and the length of an outcome. *)
Lemma process_request_unfold r s m :
  process_request r (s, m) =
    match execute r (s, m) with
    | None => None
    | Some ((s', m'), res) =>
        match gm_write m' (r_status_addr r) [outcome_status res] with
        | (m', Err e) => Some ((s', m'), Err (ProcGuestMemory e))
        | (m', Ok _) => Some ((s', m'), ok_or ProcOverflow (checked_add 32 (result_bytes res) 1))
        end
    end.
Proof.
  unfold process_request. destruct (execute r (s, m)) as [[[s' m'] res]|]; [|done].
  by destruct res as [?|[]].
Qed.

(** Serving a request stores the status of its outcome and reports its bytes. *)
Lemma process_request_run r s m :
  backend_ok s -> request_ok r -> mapped m (r_status_addr r) ->
  exists s' m1 res m2, execute r (s, m) = Some ((s', m1), res) /\
    process_request r (s, m) = Some ((s', m2), Ok (result_bytes res + 1)) /\
    overwritten m1 m2 (r_status_addr r) [outcome_status res] /\ same_layout m1 m2.
Proof.
  intros Hok Hr Hm.
  destruct (execute_run_ok r s m Hok Hr) as (s' & m1 & res & He & _ & [Hl _] & _ & Hn).
  assert (bytes_ok [outcome_status res]) as Hb.
  { constructor; [|done]. by destruct res as [?|[]]; vm_compute. }
  assert (snd (gm_write m1 (r_status_addr r) [outcome_status res]) = Ok tt) as Hw.
  { apply law_write_success; [done|done|]. intros x Hx. simpl in Hx.
    replace x with (r_status_addr r) by lia. by apply Hl. }
  destruct (gm_write m1 (r_status_addr r) [outcome_status res]) as [m2 w] eqn:Hg.
  simpl in Hw. subst w. exists s', m1, res, m2. split; [done|]. split.
  2:{ split; [by apply law_write|]. pose proof (law_write_layout m1 (r_status_addr r) _ Hb) as Hly.
      by rewrite Hg in Hly. }
  rewrite (process_request_unfold r s m), He, Hg.
  unfold checked_add. by rewrite (proj2 (Z.ltb_lt _ _)) by lia.
Qed.

(** A read after a write of the same sectors transfers the written bytes. *)
Lemma disk_transfer w r s s1 s2 m m1 m2 m3 k1 k2 :
  backend_ok s -> request_ok w -> request_ok r ->
  r_request_type w = Out -> r_request_type r = In ->
  r_sector r = r_sector w -> total_data_len r = total_data_len w ->
  execute w (s, m) = Some ((s1, m1), Ok k1) ->
  execute r (s1, m2) = Some ((s2, m3), Ok k2) ->
  NoDup (request_cells r) ->
  k2 = total_data_len w /\
  forall (i : nat) x y, request_cells w !! i = Some x -> request_cells r !! i = Some y ->
    peek m3 y = peek m x.
Proof.
  intros Hok Hw Hr Htw Htr Hsec Hlen Hew Her Hnd.
  destruct (execute_run_ok w s m Hok Hw) as (s1' & m1' & res & Hew' & Hs & _).
  rewrite Hew in Hew'. injection Hew' as <- <- <-.
  destruct (execute_out_ok _ _ _ _ _ _ Hok Hw Htw Hew) as [_ Hdisk].
  destruct (execute_in_ok _ _ _ _ _ _ (backend_ok_same _ _ Hs Hok) Hr Htr Her)
    as (Hk & bs & Hbs & Hwr & Hrd).
  split; [congruence|]. intros i x y Hx Hy. rewrite Hsec in Hrd.
  pose proof (length_request_cells r (ro_data _ Hr)). pose proof (lookup_lt_Some _ _ _ Hy).
  destruct (lookup_lt_is_Some_2 bs i) as [v Hv]; [lia|].
  rewrite (wr_value _ _ _ _ Hwr Hnd i y v Hy Hv), <- (Hdisk i x Hx), Hrd, Hv by lia. done.
Qed.
(** C9: executing a parsed request never panics and is isolated: the device description and
    the layout of memory stay, a read-only device is never changed, a write changes only the
    sectors it names inside the device, reads, flushes and id requests change nothing on
    disk, memory changes only in the data buffers of a read or id request, and the reported
    length leaves room for the status byte. *)
Theorem execute_isolated m0 c c' r s m :
  chain_wf c -> parse m0 c = Some (c', Ok r) -> backend_ok s ->
  exists s' m' res, execute r (s, m) = Some ((s', m'), res) /\
    isolated r (s, m) (s', m') /\ 0 <= result_bytes res < 2 ^ 32 - 1.
Proof.
  intros Hwf Hp Hok. pose proof (parse_request_ok _ _ _ _ Hwf Hp) as [Hr _].
  destruct (execute_run_ok r s m Hok Hr) as (s' & m' & res & He & Hs & [Hl Hm] & Hb & Hn).
  exists s', m', res. split_and!; try done; try apply Hn. split; try done; intros x Hx; simpl in *.
  - destruct (decide (may_change s r x)); [done|]. by destruct Hx; apply Hb.
  - destruct (decide (x ∈ stored_cells r)) as [Hin|Hin]; [|by destruct Hx; apply Hm].
    revert Hin. unfold stored_cells. case_match; try (by intros ?%not_elem_of_nil); auto.
Qed.

(** Data written to the disk is read back: a read of the sectors a write stored, with
    buffers cut up in any way and whatever happened to memory in between, puts the written
    bytes into its buffers and reports their number. *)
Theorem disk_write_read w r s s1 s2 m m1 m2 m3 k1 k2 :
  backend_ok s -> request_ok w -> request_ok r ->
  r_request_type w = Out -> r_request_type r = In ->
  r_sector r = r_sector w -> total_data_len r = total_data_len w ->
  execute w (s, m) = Some ((s1, m1), Ok k1) ->
  execute r (s1, m2) = Some ((s2, m3), Ok k2) ->
  NoDup (request_cells r) ->
  k2 = total_data_len w /\
  forall (i : nat) x y, request_cells w !! i = Some x -> request_cells r !! i = Some y ->
    peek m3 y = peek m x.
Proof.
  apply disk_transfer.
Qed.

(** C25: serving a parsed request always ends with its outcome in the status byte: the
    request is executed, the status that belongs to the outcome is stored at the status
    address, and the used length is the number of bytes the request wrote plus the status
    byte; neither an error nor an overflow is left. *)
Theorem process_request_completes c c' r s m :
  chain_wf c -> parse m c = Some (c', Ok r) -> backend_ok s ->
  exists s' m1 res m2, execute r (s, m) = Some ((s', m1), res) /\
    process_request r (s, m) = Some ((s', m2), Ok (result_bytes res + 1)) /\
    overwritten m1 m2 (r_status_addr r) [outcome_status res].
Proof.
  intros Hwf Hp Hok. destruct (parse_request_ok _ _ _ _ Hwf Hp) as [Hr Hm].
  destruct (process_request_run r s m Hok Hr Hm) as (s' & m1 & res & m2 & He & Hpr & Ho & _).
  by exists s', m1, res, m2.
Qed.
End BlkProperties.

(** ** A disk image

    A file of fixed size held as a finite map, with the operations on it and
    [FlatMem] the executor uses. *)

Record DiskImage : Type := mk_image {
  im_size : Z;
  im_pos : Z;
  im_bytes : gmap Z Z;
}.

Definition im_byte (b : DiskImage) (x : Z) : option Z :=
  if decide (0 <= x < im_size b) then Some (wrap 8 (default 0 (im_bytes b !! x))) else None.

(** The [n] bytes at the file offset, when the file has them. *)
Definition im_take (b : DiskImage) (n : Z) : option (list Z) :=
  mapM (fun i => im_byte b (im_pos b + Z.of_nat i)) (seq 0 (Z.to_nat n)).

Definition im_put (b : DiskImage) (o : Z) (bs : list Z) : DiskImage :=
  mk_image (im_size b) (o + Z.of_nat (length bs)) (poke (im_bytes b) o bs).

(** A store of bytes at [o] inside of the file. *)
Definition im_store (b : DiskImage) (o : Z) (bs : list Z) : DiskImage * result Z unit :=
  if decide (0 <= o /\ o + Z.of_nat (length bs) <= im_size b) then (im_put b o bs, Ok tt)
  else (b, Err 5).

Definition im_zero (b : DiskImage) (o n : Z) : DiskImage * result Z unit :=
  let '(b', r) := im_store b o (replicate (Z.to_nat n) 0) in
  (mk_image (im_size b') (im_pos b) (im_bytes b'), r).

Global Instance DiskImage_Backend : Backend DiskImage FlatMem := {|
  be_seek_end := fun b => (mk_image (im_size b) (im_size b) (im_bytes b), Ok (wrap 64 (im_size b)));
  be_seek_start := fun b o => (mk_image (im_size b) o (im_bytes b), Ok o);
  be_read_exact := fun m a b n =>
    match im_take b n with
    | None => (m, b, Err (OtherMemoryError 5))
    | Some bs =>
        let '(m', r) := gm_write m a bs in
        (m', mk_image (im_size b) (im_pos b + n) (im_bytes b), r)
    end;
  be_read_exact_slice := fun m a bs =>
    if decide (bytes_ok bs) then gm_write m a bs else (m, Err (OtherMemoryError 0));
  be_write_all := fun m a b n =>
    match gm_read m a (Z.to_nat n) with
    | Err e => (b, Err e)
    | Ok bs => let '(b', r) := im_store b (im_pos b) bs in (b', map_err OtherMemoryError r)
    end;
  be_fsync := fun b => (b, Ok tt);
  be_punch_hole := fun b o n => if decide (0 <= n) then im_zero b o n else (b, Err 22);
  be_write_all_zeroes_at := fun b o n => if decide (0 <= n) then im_zero b o n else (b, Err 22);
|}.

Global Instance DiskImage_View : BackendView DiskImage := {|
  be_byte := im_byte;
  be_pos := im_pos;
|}.

Lemma im_put_byte b o bs x :
  bytes_ok bs -> 0 <= o -> o + Z.of_nat (length bs) <= im_size b ->
  im_byte (im_put b o bs) x =
    if decide (o <= x < o + Z.of_nat (length bs)) then bs !! Z.to_nat (x - o) else im_byte b x.
Proof.
  intros Hb Ho Hn. unfold im_byte, im_put. simpl. rewrite poke_lookup.
  repeat case_decide; try lia; try done.
  destruct (bs !! Z.to_nat (x - o)) as [v|] eqn:Hv; simpl.
  - rewrite wrap_small; [done|]. by eapply Forall_lookup in Hv.
  - apply lookup_ge_None in Hv. lia.
Qed.

Lemma im_store_kept b o bs b' r :
  bytes_ok bs -> im_store b o bs = (b', r) -> kept_outside b b' o (Z.of_nat (length bs)) /\
  (r = Ok tt -> im_pos b' = o + Z.of_nat (length bs) /\
     forall i, 0 <= i < Z.of_nat (length bs) -> im_byte b' (o + i) = bs !! Z.to_nat i).
Proof.
  unfold im_store. intros Hb Hs. case_decide as Hd; simplify_eq; [|by split].
  split; [intros x Hx; simpl; by rewrite im_put_byte, decide_False by (done || lia)|].
  intros _. split; [done|]. intros i Hi. rewrite im_put_byte, decide_True by (done || lia).
  do 2 f_equal. lia.
Qed.

Lemma im_zero_kept b o n b' r :
  0 <= n -> im_zero b o n = (b', r) -> kept_outside b b' o n /\
  (forall x, is_Some (im_byte b x) -> is_Some (im_byte b' x)) /\
  (r = Ok tt -> forall x, o <= x < o + n -> is_Some (im_byte b x) -> im_byte b' x = Some 0).
Proof.
  unfold im_zero. intros Hn Hz. destruct (im_store b o _) as [b1 r1] eqn:Hs. simplify_eq.
  assert (im_size b1 = im_size b) as Hsz by (unfold im_store in Hs; case_decide; by simplify_eq).
  assert (bytes_ok (replicate (Z.to_nat n) 0)) as Hb by (by apply Forall_replicate).
  apply im_store_kept in Hs as [Hk Hz]; [|done]. rewrite length_replicate, Z2Nat.id in * by lia.
  split; [done|]. split; [unfold im_byte; simpl; rewrite Hsz; intros x; by case_decide|].
  intros Hr x Hx _. destruct (Hz Hr) as [_ Hv].
  specialize (Hv (x - o) ltac:(lia)). rewrite lookup_replicate_2 in Hv by lia.
  rewrite Zplus_minus in Hv. exact Hv.
Qed.

Lemma im_take_spec b n bs : 0 <= n -> im_take b n = Some bs ->
  Z.of_nat (length bs) = n /\ bytes_ok bs /\
  forall i : nat, (i < length bs)%nat -> im_byte b (im_pos b + Z.of_nat i) = bs !! i.
Proof.
  intros Hn Ht. apply mapM_Some in Ht. pose proof (Forall2_length _ _ _ Ht) as Hl.
  rewrite length_seq in Hl. split; [lia|].
  assert (forall i v, bs !! i = Some v -> im_byte b (im_pos b + Z.of_nat i) = Some v) as Hi.
  { intros i v Hv. destruct (Forall2_lookup_r _ _ _ _ _ Ht Hv) as (j & Hj & Hb).
    apply lookup_seq in Hj as [-> _]. exact Hb. }
  split; [|intros i Hlt; destruct (lookup_lt_is_Some_2 bs i Hlt) as [v Hv]; rewrite Hv; by apply Hi].
  apply Forall_lookup. intros i v Hv. apply Hi in Hv. unfold im_byte in Hv.
  case_decide; simplify_eq. by apply in_u_wrap.
Qed.

Lemma fm_write_partial m a bs m' e c :
  fm_write m a bs = (m', Err (PartialBuffer e c)) -> 0 <= c < Z.of_nat (length bs).
Proof.
  unfold fm_write. destruct (fm_collect_prefix m a (length bs)) as (Hl & _). unfold access.
  intros [= _ Ha]. repeat case_decide; simplify_eq. lia.
Qed.

Global Instance DiskImage_laws : BackendLaws DiskImage FlatMem.
Proof.
  split; cbn [be_seek_end be_seek_start be_read_exact be_read_exact_slice be_write_all be_fsync
    be_punch_hole be_write_all_zeroes_at DiskImage_Backend be_byte be_pos DiskImage_View].
  - intros b b' r [= <- <-]. split; [done|]. intros n [= <-]. by apply in_u_wrap.
  - intros b o b' r [= <- <-]. split; [done|]. by intros n _.
  - intros m a b n m' b' r Hn Hr. destruct (im_take b n) as [bs|] eqn:Ht.
    2:{ simplify_eq. split; [done|]. split; [apply changed_within_refl|done]. }
    apply im_take_spec in Ht as (Hl & Hb & Hi); [|done].
    destruct (gm_write m a bs) as [m1 r1] eqn:Hw. simplify_eq.
    split; [done|]. split; [eapply write_changed_within; [done| |done]; intros x Hx; by apply vs_cells_in; simpl|].
    split; [intros e c ->; by eapply fm_write_partial|].
    intros ->. split; [done|]. exists bs. split; [done|]. split; [by apply law_write|done].
  - intros m a bs m' r Hr. case_decide as Hb; [|simplify_eq; split; [apply changed_within_refl|done]].
    split; [eapply write_changed_within; [done| |done]; intros x Hx; apply vs_cells_in; simpl; lia|].
    split; [intros e c ->; by eapply fm_write_partial|]. intros ->. by apply law_write.
  - intros m a b n b' r Hn Hw. destruct (gm_read m a (Z.to_nat n)) as [bs|e] eqn:Hr;
      [|simplify_eq; by split].
    apply fm_read_law in Hr as [Hl Hp].
    assert (bytes_ok bs) as Hb.
    { apply Forall_lookup. intros i v Hv. pose proof (lookup_lt_Some _ _ _ Hv).
      rewrite <- Hp in Hv by lia. by apply law_byte in Hv as [? _]. }
    destruct (im_store b (im_pos b) bs) as [b1 r1] eqn:Hs. simplify_eq.
    apply im_store_kept in Hs as [Hk Hok]; [|done]. rewrite Hl, Z2Nat.id in * by lia.
    split; [done|]. intros Hr'. destruct r1 as [[]|]; simplify_eq/=. destruct (Hok eq_refl) as [Hpos Hv].
    split; [done|]. intros i Hi. rewrite Hv by done. rewrite <- Hp by lia. f_equal. lia.
  - by intros b b' r [= <- <-].
  - intros b o n b' r Hz. case_decide; [by apply im_zero_kept|]. simplify_eq. by split.
  - intros b o n b' r Hz. case_decide; [by apply im_zero_kept|]. simplify_eq. by split.
Qed.

(** ** Concrete runs *)

Module DiskExamples.
Import BlkExamples.
(** The request of [BlkExamples] on a disk of 8 sectors, with data in the
    buffer, and a read of the same sector into two buffers. *)
Definition disk : StdIoBackend DiskImage := mk_backend (mk_image 4096 0 ∅) 8 0 None.
Definition loaded : FlatMem := fst (gm_write mem 0x6000 [1; 2; 3]).
Definition read_back : Request := mk_request In [(0x8000, 2); (0x9000, 510)] 3 0x7000.

Lemma disk_ok : backend_ok disk.
Proof. split_and!; [done..|]. intros id H. discriminate H. Qed.

Lemma request_request_ok : request_ok request.
Proof. split; [|done|done]. by repeat constructor. Qed.

Lemma read_back_ok : request_ok read_back.
Proof. split; [|done|done]. by repeat constructor. Qed.

Lemma loaded_parse : exists c', parse loaded chain = Some (c', Ok request).
Proof. eexists. vm_compute. reflexivity. Qed.

(** A run whose outcome is known leaves some state. *)
Lemma run_outcome {St E A} (o : option (St * result E A)) (res : result E A) :
  snd <$> o = Some res -> exists st, o = Some (st, res).
Proof. destruct o as [[st r]|]; [|done]. intros [= ->]. by exists st. Qed.

Lemma disk_write_run : exists st, execute request (disk, loaded) = Some (st, Ok 0).
Proof. apply run_outcome. vm_compute. reflexivity. Qed.

Definition written_disk : StdIoBackend DiskImage :=
  match execute request (disk, loaded) with Some ((s, _), _) => s | None => disk end.

Lemma disk_read_run : exists st, execute read_back (written_disk, mem) = Some (st, Ok 512).
Proof. apply run_outcome. vm_compute. reflexivity. Qed.

Lemma read_back_nodup : NoDup (request_cells read_back).
Proof. apply (bool_decide_unpack (NoDup (request_cells read_back))). vm_compute. exact I. Qed.
End DiskExamples.
Import BlkExamples DiskExamples.

Lemma execute_isolated_witness :
  exists s' m' res, execute request (disk, loaded) = Some ((s', m'), res) /\ same_device disk s' /\
    (forall x, be_byte (bk_inner s') x <> be_byte (bk_inner disk) x -> 1536 <= x < 2048).
Proof.
  destruct loaded_parse as [c' Hp].
  destruct (execute_isolated loaded chain c' request disk loaded blk_chain_wf Hp disk_ok)
    as (s' & m' & res & He & [Hs _ Hx _] & _).
  exists s', m', res. split; [done|]. split; [done|]. intros x Hne.
  destruct (Hx x Hne) as (_ & _ & [[_ Hr]|[Hr|Hr]]); [|discriminate Hr..].
  change (512 * r_sector request) with 1536 in Hr. change (total_data_len request) with 512 in Hr. lia.
Defined.

Lemma disk_write_read_witness :
  exists s2 m3, execute read_back (written_disk, mem) = Some ((s2, m3), Ok 512) /\
    peek m3 0x8001 = peek loaded 0x6001 /\ peek m3 0x9000 = peek loaded 0x6002.
Proof.
  destruct disk_write_run as [[s1 m1] Hw]. destruct disk_read_run as [[s2 m3] Hr].
  assert (written_disk = s1) as Hs by (unfold written_disk; rewrite Hw; reflexivity).
  exists s2, m3. split; [exact Hr|]. rewrite Hs in Hr.
  destruct (disk_write_read request read_back disk s1 s2 loaded m1 mem m3 0 512 disk_ok
    request_request_ok read_back_ok eq_refl eq_refl eq_refl eq_refl Hw Hr read_back_nodup)
    as [_ Hcell].
  split; [apply (Hcell 1%nat)|apply (Hcell 2%nat)]; vm_compute; reflexivity.
Defined.

Lemma process_request_completes_witness :
  exists s' m2 n, process_request request (disk, loaded) = Some ((s', m2), Ok n).
Proof.
  destruct loaded_parse as [c' Hp].
  destruct (process_request_completes chain c' request disk loaded blk_chain_wf Hp disk_ok)
    as (s' & m1 & res & m2 & _ & Hr & _).
  by exists s', m2, (result_bytes res + 1).
Defined.
