(* ===== verification/BlkZeroes.v ===== *)
(** * Discard and write-zeroes requests

    The segments of a discard or write-zeroes request (virtio-blk/src/stdio_executor.rs)
    are read from guest memory one by one.  What they do to the disk: exactly
    the sectors the segments name may change, and a write-zeroes request that
    succeeds zeroes them all. *)

From stdpp Require Import base numbers list option.
From S2P Require Import Prelude Bytes GuestMemory FlatMemory Descriptor Chain DescriptorUtils.
From S2P Require Import BlkRequest BlkExecutor BlkProperties.

(** The bytes of a segment. *)
Definition covers (seg : DiscardWriteZeroes) (x : Z) : Prop :=
  512 * dwz_sector seg <= x < 512 * (dwz_sector seg + dwz_num_sectors seg).

Definition covered (segs : list DiscardWriteZeroes) (x : Z) : Prop := Exists (fun seg => covers seg x) segs.

Global Instance covered_dec segs x : Decision (covered segs x).
Proof. unfold covered, covers. apply _. Defined.

(** The segments of a buffer, up to the first that cannot be read, and those
    of a request. *)
Fixpoint segments {M} `{GuestMemory M} (m : M) (k : nat) (a : Z) : list DiscardWriteZeroes :=
  match k with
  | O => []
  | S k =>
      match read_obj DiscardWriteZeroes m a with
      | Ok seg => seg :: segments m k (a + 16)
      | Err _ => []
      end
  end.

Definition data_segments {M} `{GuestMemory M} (m : M) (data : list (Z * Z)) : list DiscardWriteZeroes :=
  concat ((fun d => segments m (Z.to_nat (snd d / 16)) (fst d)) <$> data).

Section Zeroes.
Context {B M : Type} `{GML : GuestMemoryLaws M} `{BL : BackendLaws B M (GM := GM)}.
Implicit Types (m : M) (b : B) (s : StdIoBackend B) (segs : list DiscardWriteZeroes).
Abbreviation BM := (RM (StdIoBackend B * M) BlkError).

(** [c] keeps memory and changes the disk only in the segments; when it
    succeeds and [sure] is set, all of them are zero afterwards. *)
Definition zeroing {A} m segs (sure : bool) (c : BM A) : Prop :=
  forall s, backend_ok s ->
  exists s' r, c (s, m) = Some ((s', m), r) /\ same_device s s' /\
    (forall x, is_Some (be_byte (bk_inner s) x) -> is_Some (be_byte (bk_inner s') x)) /\
    (forall x, ~ covered segs x -> be_byte (bk_inner s') x = be_byte (bk_inner s) x) /\
    (sure = true -> is_ok r = true -> forall x, covered segs x ->
       is_Some (be_byte (bk_inner s) x) -> be_byte (bk_inner s') x = Some 0).

Lemma zeroing_ret {A} m sure (r : result BlkError A) : zeroing m [] sure (fun st => Some (st, r)).
Proof.
  intros s Hok. eexists _, _. split; [done|]. split; [done|]. split; [done|]. split; [done|].
  intros _ _ x Hx. by apply Exists_nil in Hx.
Qed.

Lemma zeroing_err {A} m segs sure (e : BlkError) : zeroing (A := A) m segs sure (throw e).
Proof. intros s Hok. by eexists _, _. Qed.

Lemma zeroing_bind {A C} m segs segs' sure (c : BM A) (k : A -> BM C) :
  zeroing m segs sure c -> (forall a, zeroing m segs' sure (k a)) ->
  zeroing m (segs ++ segs') sure (c ≫= k).
Proof.
  intros Hc Hk s Hok. destruct (Hc s Hok) as (s1 & r1 & He1 & Hs1 & Hi1 & Ho1 & Hz1).
  unfold covered in *. setoid_rewrite Exists_app. rewrite rm_bind_unfold, He1. destruct r1 as [a|e].
  2:{ eexists _, _. split; [done|]. split; [done|]. split; [done|]. split; [|done].
      intros x Hx. apply Ho1. auto. }
  destruct (Hk a s1 (backend_ok_same _ _ Hs1 Hok)) as (s2 & r2 & -> & Hs2 & Hi2 & Ho2 & Hz2).
  eexists _, _. split; [done|]. split; [by eapply same_device_trans|]. split; [auto|]. split.
  - intros x Hx. rewrite Ho2, Ho1 by auto. done.
  - intros Hsure Hr x Hx Hb. destruct (decide (covered segs' x)) as [HQ|HQ]; [by apply Hz2; auto|].
    rewrite Ho2 by done. apply Hz1; auto. naive_solver.
Qed.

(** Zeroing the range of one segment, either way. *)
Lemma zero_range m seg o n t flags :
  o = 512 * dwz_sector seg -> n = 512 * dwz_num_sectors seg ->
  zeroing m [seg] (bool_decide (t = WriteZeroes))
   (if bool_decide (t = Discard) then
      _ ← try (on_inner (fun b => be_punch_hole b o n) BlkDiscardWriteZeroes);
      mret 0
    else
      punched ← (if Z.land flags UNMAP =? 0 then mret false
                 else r ← try (on_inner (fun b => be_punch_hole b o n) BlkDiscardWriteZeroes);
                      mret (is_ok r));
      if punched : bool then mret 0
      else
        _ ← on_inner (fun b => be_write_all_zeroes_at b o n) BlkDiscardWriteZeroes;
        mret 0).
Proof.
  intros Ho Hn s Hok.
  assert (forall x, covered [seg] x <-> o <= x < o + n) as Hcov.
  { intros x. unfold covered. rewrite Exists_cons, Exists_nil. unfold covers. lia. }
  assert (forall s1, same_device s s1 ->
    (forall x, is_Some (be_byte (bk_inner s) x) -> is_Some (be_byte (bk_inner s1) x)) ->
    (forall x, ~ covered [seg] x -> be_byte (bk_inner s1) x = be_byte (bk_inner s) x) ->
    exists s' r, (_ ← on_inner (fun b => be_write_all_zeroes_at b o n) BlkDiscardWriteZeroes;
        mret 0) (s1, m) = Some ((s', m), r) /\ same_device s s' /\
      (forall x, is_Some (be_byte (bk_inner s) x) -> is_Some (be_byte (bk_inner s') x)) /\
      (forall x, ~ covered [seg] x -> be_byte (bk_inner s') x = be_byte (bk_inner s) x) /\
      (bool_decide (t = WriteZeroes) = true -> is_ok r = true -> forall x, covered [seg] x ->
         is_Some (be_byte (bk_inner s) x) -> be_byte (bk_inner s') x = Some 0)) as Hwrite.
  { intros s1 Hs1 Hi1 Ho1. rewrite rm_bind_unfold. unfold on_inner.
    destruct (be_write_all_zeroes_at (bk_inner s1) o n) as [b r] eqn:Hw.
    apply law_write_zeroes in Hw as (Hk & Hi & Hz).
    exists (with_inner b s1), (match r with Ok _ => Ok 0 | Err e => Err (BlkDiscardWriteZeroes e) end).
    split; [by destruct r|]. split; [done|]. split; [auto|]. split.
    - intros x Hx. simpl. rewrite Hk, Ho1 by (done || by rewrite <- Hcov). done.
    - intros _ Hr x Hx Hb. destruct r as [[]|e]; [|done]. apply Hz; [done|by apply Hcov|auto]. }
  assert (forall b r, be_punch_hole (bk_inner s) o n = (b, r) ->
    (forall x, is_Some (be_byte (bk_inner s) x) -> is_Some (be_byte b x)) /\
    (forall x, ~ covered [seg] x -> be_byte b x = be_byte (bk_inner s) x) /\
    (is_ok r = true -> forall x, covered [seg] x ->
       is_Some (be_byte (bk_inner s) x) -> be_byte b x = Some 0)) as Hpunch.
  { intros b r Hp. apply law_punch_hole in Hp as (Hk & Hi & Hz). split; [done|]. split.
    - intros x Hx. apply Hk. by rewrite <- Hcov.
    - intros Hr x Hx Hb. destruct r as [[]|]; [|done]. apply Hz; [done|by apply Hcov|done]. }
  destruct (decide (t = Discard)) as [Ht|Ht];
    [rewrite (bool_decide_true (t = Discard)) by done|rewrite (bool_decide_false (t = Discard)) by done].
  - rewrite (bool_decide_false (t = WriteZeroes)) by (by rewrite Ht). rewrite rm_bind_unfold.
    unfold try, on_inner. destruct (be_punch_hole (bk_inner s) o n) as [b r] eqn:Hp.
    destruct (Hpunch b r eq_refl) as (? & ? & _). by exists (with_inner b s), (Ok 0).
  - rewrite rm_bind_unfold. destruct (Z.land flags UNMAP =? 0); [by apply Hwrite|].
    rewrite rm_bind_unfold. unfold try, on_inner at 1.
    destruct (be_punch_hole (bk_inner s) o n) as [b r] eqn:Hp.
    destruct (Hpunch b r eq_refl) as (Hi & Hout & Hz).
    destruct r as [[]|e]; [|by apply Hwrite]. exists (with_inner b s), (Ok 0).
    split; [done|]. split; [done|]. split; [done|]. split; [done|]. auto.
Qed.

(** A segment: refused before the disk is touched, or zeroed. *)
Lemma segment_zeroing m seg t :
  0 <= dwz_sector seg -> 0 <= dwz_num_sectors seg ->
  zeroing m [seg] (bool_decide (t = WriteZeroes)) (handle_discard_write_zeroes seg t).
Proof.
  intros Hsec Hnum. unfold handle_discard_write_zeroes.
  destruct (negb (Z.land _ _ =? 0)); [apply zeroing_err|]. intros s Hok.
  destruct (check_access s (dwz_num_sectors seg) (dwz_sector seg)) as [[]|e] eqn:Hc.
  - pose proof (check_access_ok _ _ _ Hc) as Hle.
    rewrite (sector_shift s (dwz_sector seg)), (sector_shift s (dwz_num_sectors seg)) by (done || lia).
    do 4 (rewrite rm_bind_unfold; cbn [of_result ok_or gets fst]). rewrite Hc. by apply zero_range.
  - unfold checked_shl. change (SECTOR_SHIFT <? 64) with true. cbv iota.
    do 4 (rewrite rm_bind_unfold; cbn [of_result ok_or gets fst]). rewrite Hc. by eexists _, _.
Qed.

Lemma execute_segments_zeroing m fuel t a n :
  0 <= a -> a + n < 2 ^ 64 -> n = 16 * Z.of_nat fuel ->
  zeroing m (segments m fuel a) (bool_decide (t = WriteZeroes)) (execute_segments fuel t a n).
Proof.
  revert a n. induction fuel as [|fuel IH]; intros a n Ha H64 Hn; cbn [execute_segments segments];
    rewrite Z.geb_leb; change DWZ_LEN with 16.
  { rewrite (proj2 (Z.leb_gt _ _)) by lia. apply (zeroing_ret m _ (Ok tt)). }
  rewrite (proj2 (Z.leb_le _ _)) by lia. intros s Hok. rewrite rm_bind_unfold. unfold blk_read_obj.
  destruct (read_obj DiscardWriteZeroes m a) as [seg|e] eqn:Hr; cbn [map_err]; [|by eexists _, _].
  apply read_obj_wf, dwz_wf in Hr as [? ?]. revert s Hok. apply (zeroing_bind m [seg]).
  { by apply segment_zeroing. }
  intros _ s Hok. rewrite rm_bind_unfold. unfold add_u, checked_add.
  rewrite (proj2 (Z.ltb_lt _ _)) by lia. cbn [unwrap]. apply (IH (a + 16) (n - 16)); [lia|lia|lia|done].
Qed.

Lemma execute_discard_zeroing m t data :
  data_ok data ->
  zeroing m (data_segments m data) (bool_decide (t = WriteZeroes)) (execute_discard t data).
Proof.
  induction 1 as [|[a n] data [[Ha _] [Hn _]] _ IH]; cbn [execute_discard fst snd] in *.
  { apply (zeroing_ret m _ (Ok tt)). }
  destruct (negb _) eqn:Hm; [apply zeroing_err|]. zbool. change DWZ_LEN with 16 in *.
  unfold checked_add. destruct (_ <? _) eqn:Hc; zbool; [|apply zeroing_err].
  apply (zeroing_bind m [] (segments m (Z.to_nat (n / 16)) a ++ data_segments m data) _ (of_result (Ok (a + n))));
    [apply (zeroing_ret m _ (Ok (a + n)))|intros _].
  apply zeroing_bind; [|done].
  pose proof (Z.div_pos n 16 Hn ltac:(lia)). pose proof (Z.div_mod n 16 ltac:(lia)).
  apply execute_segments_zeroing; [done|done|lia].
Qed.

(** ** Properties *)

(** C20: discard and write-zeroes requests affect the sectors they name and no others: the request
    never panics and leaves guest memory alone, a byte of the disk outside of the segments in
    the buffers is never changed, whatever the outcome, and when a write-zeroes request
    succeeds every byte of every segment is zero, also where segments overlap and also when
    punching a hole fails. *)
Theorem discard_zeroes_segments r s m :
  backend_ok s -> request_ok r -> r_request_type r = Discard \/ r_request_type r = WriteZeroes ->
  exists s' res, execute r (s, m) = Some ((s', m), res) /\
    (forall x, ~ covered (data_segments m (r_data r)) x ->
       be_byte (bk_inner s') x = be_byte (bk_inner s) x) /\
    (r_request_type r = WriteZeroes -> is_ok res = true ->
       forall x, covered (data_segments m (r_data r)) x -> is_Some (be_byte (bk_inner s) x) ->
         be_byte (bk_inner s') x = Some 0).
Proof.
  intros Hok Hr Ht. apply execute_dispatch; [done| |].
  { intros s1 e _ _ Hb. by exists s1, (Err e). }
  intros s1 Hs1 Hb1 _ _ _.
  destruct (execute_discard_zeroing m (r_request_type r) (r_data r) (ro_data _ Hr) s1
    (backend_ok_same _ _ Hs1 Hok)) as (s2 & res & He & _ & _ & Hout & Hz).
  assert (exists s' res', (_ ← execute_discard (r_request_type r) (r_data r); mret 0) (s1, m) =
    Some ((s', m), res') /\ s' = s2 /\ is_ok res' = is_ok res) as (s' & res' & Hd & -> & Hres).
  { rewrite rm_bind_unfold, He. by destruct res as [[]|e]; eexists _, _. }
  exists s2, res'. split; [destruct Ht as [Ht|Ht]; rewrite Ht in *; exact Hd|].
  setoid_rewrite Hb1 in Hout. setoid_rewrite Hb1 in Hz. split; [done|]. intros Hw Hok' x.
  apply Hz; [by rewrite Hw, bool_decide_true|congruence].
Qed.
End Zeroes.

(** ** Concrete run *)

Module ZeroExamples.
Import BlkExamples DiskExamples.
(** Two overlapping segments in one buffer: sectors 1 and 2, and 2 to 4. *)
Definition zero_mem : FlatMem :=
  fst (write_obj (fst (write_obj mem (mk_dwz 1 2 0) 0x6000)) (mk_dwz 2 3 1) 0x6010).
Definition zero_request : Request := mk_request WriteZeroes [(0x6000, 32)] 0 0x7000.
Definition zero_disk : StdIoBackend DiskImage :=
  mk_backend (im_put (mk_image 4096 0 ∅) 1000 (replicate 100 7)) 8 (2 ^ 14) None.

Lemma zero_disk_ok : backend_ok zero_disk.
Proof. split_and!; [done..|]. intros id H. discriminate H. Qed.

Lemma zero_request_ok : request_ok zero_request.
Proof. split; [repeat constructor; by vm_compute|by vm_compute..]. Qed.
End ZeroExamples.
Import ZeroExamples.

(** Byte 1024 belongs to both segments; byte 500 to none. *)
Lemma discard_zeroes_segments_witness :
  exists s' res, execute zero_request (zero_disk, zero_mem) = Some ((s', zero_mem), res) /\
    be_byte (bk_inner zero_disk) 1024 = Some 7 /\
    be_byte (bk_inner s') 500 = be_byte (bk_inner zero_disk) 500 /\
    (is_ok res = true -> be_byte (bk_inner s') 1024 = Some 0).
Proof.
  destruct (discard_zeroes_segments zero_request zero_disk zero_mem zero_disk_ok zero_request_ok
    (or_intror eq_refl)) as (s' & res & He & Ho & Hz).
  exists s', res. split; [exact He|]. split; [by vm_compute|]. split.
  - apply Ho. apply (bool_decide_unpack (~ covered _ 500)). vm_compute. exact I.
  - intros Hr. apply Hz; [done|done| |].
    + apply (bool_decide_unpack (covered _ 1024)). vm_compute. exact I.
    + exists 7. by vm_compute.
Defined.
