(* ===== verification/BlkDriver.v ===== *)
(** * A driver and the block device together

    A driver writes the header of a request into guest memory, describes
    header, data buffers and status byte in a chain it builds with the mock
    driver of virtio-queue, and the device parses and serves that chain, the
    way the tests and the block fuzz target put the crates together.  The
    device understands the request the driver meant, and a driver that sees
    two requests succeed reads what it wrote. *)

From stdpp Require Import base numbers list option.
From S2P Require Import Prelude Bytes GuestMemory FlatMemory Descriptor Chain Queue QueueFacts Mock.
From S2P Require Import DescriptorUtils BlkRequest BlkExecutor BlkProperties.

(** ** What a driver writes *)

(** The code of a request type, the inverse of [From<u32> for RequestType]. *)
Definition request_type_code (t : RequestType) : u32 :=
  match t with
  | In => VIRTIO_BLK_T_IN
  | Out => VIRTIO_BLK_T_OUT
  | Flush => VIRTIO_BLK_T_FLUSH
  | GetDeviceID => VIRTIO_BLK_T_GET_ID
  | Discard => VIRTIO_BLK_T_DISCARD
  | WriteZeroes => VIRTIO_BLK_T_WRITE_ZEROES
  | UnsupportedType t => t
  end.

Definition request_header (r : Request) : RequestHeader :=
  mk_header (request_type_code (r_request_type r)) 0 (r_sector r).

(** The buffers the device fills are writable. *)
Definition data_flags (t : RequestType) : u16 :=
  match t with In | GetDeviceID => VRING_DESC_F_WRITE | _ => 0 end.

Definition header_desc (ha : u64) : Descriptor := descriptor_new ha 16 0 0.
Definition data_desc (t : RequestType) (d : u64 * u32) : Descriptor :=
  descriptor_new (fst d) (snd d) (data_flags t) 0.
Definition status_desc (r : Request) : Descriptor :=
  descriptor_new (r_status_addr r) 1 VRING_DESC_F_WRITE 0.

(** The descriptors of [r] with its header at [ha]. *)
Definition request_descs (ha : u64) (r : Request) : list Descriptor :=
  header_desc ha :: (data_desc (r_request_type r) <$> r_data r) ++ [status_desc r].

(** Where a driver puts a request: a queue of [len] entries at [start], the
    header at [ha]. *)
Record placement : Type := mk_placement { pl_start : u64; pl_len : u16; pl_header : u64 }.

(** The bytes of guest memory the driver writes. *)
Definition in_queue (p : placement) (x : Z) : Prop :=
  pl_start p <= x < pl_start p + 19 * pl_len p + 20.
Definition in_header (p : placement) (x : Z) : Prop := pl_header p <= x < pl_header p + 16.

Section Driver.
Context {M : Type} `{GuestMemory M}.

(** The driver's side of a request. *)
Definition submit (p : placement) (r : Request) (m : M) : option (M * result MockError DescriptorChain) :=
  m ← ref_store (request_header r) (pl_header p) m;
  x ← mock_create (pl_start p) (pl_len p) m;
  y ← build_desc_chain (raw_of_split <$> request_descs (pl_header p) r) x;
  Some (snd (fst y), snd y).

(** The device's side: parse the chain, process the request. *)
Definition serve {B} `{Backend B M} (c : DescriptorChain)
    : RM (StdIoBackend B * M) (BlkReqError + ProcessReqError) u32 := fun '(s, m) =>
  match parse m c with
  | None => None
  | Some (_, Err e) => Some ((s, m), Err (inl e))
  | Some (_, Ok r) =>
      match process_request r (s, m) with
      | None => None
      | Some (st, out) => Some (st, map_err inr out)
      end
  end.

(** A request a driver can place: it fits the queue, its parts are in guest
    memory, and the header is not inside of the queue. *)
Record placed (m : M) (p : placement) (r : Request) : Prop := {
  pd_start : 0 <= pl_start p /\ pl_start p mod 16 = 0 /\ pl_start p + 19 * pl_len p + 20 <= 2 ^ 64;
  pd_len : is_pow2 (pl_len p) /\ 0 < pl_len p <= MAX_QUEUE_SIZE;
  pd_queue_mapped : range_mapped m (pl_start p) (19 * pl_len p + 20);
  pd_atomic : acc16 m (pl_start p + 16 * pl_len p + 2) /\ acc16 m (pl_start p + 16 * pl_len p + 4);
  pd_header : in_u 64 (pl_header p);
  pd_header_mapped : range_mapped m (pl_header p) 16;
  pd_header_apart : forall x, in_header p x -> ~ in_queue p x;
  pd_request : request_ok r;
  pd_type : in_u 32 (request_type_code (r_request_type r)) /\
    request_type_from (request_type_code (r_request_type r)) = r_request_type r;
  pd_flush : r_request_type r = Flush -> r_sector r = 0;
  pd_status : in_u 64 (r_status_addr r);
  pd_status_mapped : mapped m (r_status_addr r);
  pd_count : Z.of_nat (length (r_data r)) + 2 <= pl_len p;
  pd_total : total_data_len r + 17 < 2 ^ 32;
}.
End Driver.

(** ** The chain the driver builds *)

(** Linking a list sets [NEXT] on all but its last descriptor. *)
Lemma linked_snoc idx ds d :
  exists ds' d', linked idx (ds ++ [d]) = ds' ++ [d'] /\
    Forall (fun x => has_next x = true) ds' /\ has_next d' = false.
Proof.
  revert idx. induction ds as [|x ds IH]; intros idx.
  - destruct (linked_last idx d) as (e & He & Hn). exists [], e. by rewrite <- He.
  - destruct (IH (idx + 1)) as (ds' & d' & Heq & Hall & Hd).
    assert (exists y ys, ds ++ [d] = y :: ys) as (y & ys & Hys) by (destruct ds; by eexists _, _).
    rewrite <- app_comm_cons. rewrite Hys in *. destruct (linked_next idx x y ys) as (e & -> & Hn & _).
    exists (e :: ds'), d'. rewrite Heq. split; [done|]. split; [by constructor|done].
Qed.

Lemma is_write_only_flags a n f k : is_write_only (descriptor_new a n f k) = Z.testbit f 1.
Proof. by rewrite is_write_only_bit. Qed.

Section DriverFacts.
Context {M : Type} `{GML : GuestMemoryLaws M}.
Implicit Types (m : M) (r : Request) (p : placement).

Lemma request_descs_ok m p r : placed m p r ->
  Forall (fun d => descriptor_wf d /\ refers_to_indirect_table d = false)
    (request_descs (pl_header p) r).
Proof.
  intros [_ _ _ _ Hha _ _ [Hd _ _] _ _ Hst _ _ _]. constructor; [by split|].
  apply Forall_app. split; [|by constructor].
  apply Forall_fmap. eapply list.Forall_impl; [exact Hd|]. intros [a n] [Ha Hn].
  simpl in *. split; [|by destruct (r_request_type r)].
  split_and!; try done. by destruct (r_request_type r).
Qed.

Lemma request_descs_total ha r :
  total_len (request_descs ha r) = total_data_len r + 17.
Proof.
  unfold request_descs, total_data_len. simpl. rewrite total_len_app. simpl.
  enough (total_len (data_desc (r_request_type r) <$> r_data r) =
          foldr (fun x n => snd x + n) 0 (r_data r)) as -> by lia.
  induction (r_data r) as [|x l IH]; [done|]. rewrite fmap_cons. simpl. by rewrite IH.
Qed.

(** The linked descriptors are a header, data and a status byte. *)
Lemma request_descs_linked idx ha r :
  exists hd data st, linked idx (request_descs ha r) = hd :: data ++ [st] /\
    Forall (fun x => has_next x = true) data /\ has_next st = false /\
    (d_addr hd, is_write_only hd) = (ha, false) /\
    (d_addr st, d_len st, is_write_only st) = (r_status_addr r, 1, true) /\
    (fun d => (d_addr d, d_len d)) <$> data = r_data r /\
    Forall (fun d => is_write_only d = Z.testbit (data_flags (r_request_type r)) 1) data.
Proof.
  pose proof (linked_fields idx (request_descs ha r) _ fst) as Hf.
  destruct (linked_snoc idx (header_desc ha :: (data_desc (r_request_type r) <$> r_data r))
    (status_desc r)) as ([|hd data] & st & Heq & Hall & Hst).
  { apply (f_equal length) in Heq. rewrite length_linked, length_app in Heq. simpl in Heq. lia. }
  change (_ ++ [status_desc r]) with (request_descs ha r) in Heq. rewrite Heq in Hf |- *.
  unfold request_descs in Hf. rewrite <- app_comm_cons in Hf. rewrite !fmap_cons, !fmap_app in Hf.
  injection Hf as Hha Hhl Hhw Hrest. apply app_inj_2 in Hrest as [Hdata Hs]; [|done].
  injection Hs as Hsa Hsl Hsw. rewrite <- list_fmap_compose in Hdata.
  exists hd, data, st. split; [done|]. apply list.Forall_cons in Hall as [_ Hall].
  split_and!; try done.
  - by rewrite Hha, Hhw.
  - by rewrite Hsa, Hsl, Hsw.
  - apply (f_equal (fmap fst)) in Hdata. rewrite <- !list_fmap_compose in Hdata.
    etrans; [exact Hdata|]. erewrite list_fmap_ext; [apply list_fmap_id|]. by intros ? [].
  - apply (Forall_fmap is_write_only (fun b => b = _)).
    apply (f_equal (fmap snd)) in Hdata. rewrite <- !list_fmap_compose in Hdata.
    change (snd ∘ _) with is_write_only in Hdata at 1. rewrite Hdata. apply Forall_fmap, Forall_true.
    intros x. apply is_write_only_flags.
Qed.

(** Storing the header. *)
Lemma store_header m p r : placed m p r ->
  exists m', ref_store (request_header r) (pl_header p) m = Some m' /\ same_layout m m' /\
    read_obj RequestHeader m' (pl_header p) = Ok (request_header r) /\
    forall x, ~ in_header p x -> peek m' x = peek m x.
Proof.
  intros Hp. unfold ref_store.
  pose proof (proj2 (write_obj_success m (request_header r) (pl_header p)) (pd_header_mapped _ _ _ Hp)) as Hok.
  pose proof (write_obj_layout m (request_header r) (pl_header p)) as Hly.
  destruct (write_obj m _ _) as [m' res] eqn:Hw. cbn [fst snd] in *. subst res.
  exists m'. split; [done|]. split; [done|]. split.
  - eapply read_write_obj; [|exact Hw]. cbn [bv_wf RequestHeader_bv struct_bv].
    rewrite !fields_ok_cons. split_and!; [apply (pd_type _ _ _ Hp)|done| |constructor].
    apply (pd_request _ _ _ Hp).
  - intros x Hx. apply write_obj_overwritten in Hw. eapply overwritten_peek_other; [exact Hw|].
    rewrite bv_encode_length. exact Hx.
Qed.

Lemma flush_code r : request_type_from (request_type_code (r_request_type r)) = r_request_type r ->
  request_type_code (r_request_type r) = VIRTIO_BLK_T_FLUSH -> r_request_type r = Flush.
Proof. intros Ht Hc. by rewrite <- Ht, Hc. Qed.

(** What the device makes of what the driver wrote. *)
Lemma submit_parses m p r : placed m p r ->
  exists m' c c', submit p r m = Some (m', Ok c) /\ chain_wf c /\ parse m' c = Some (c', Ok r) /\
    same_layout m m' /\ forall x, ~ in_queue p x -> ~ in_header p x -> peek m' x = peek m x.
Proof.
  intros Hp. destruct (store_header m p r Hp) as (m1 & Hs & Hl1 & Hh1 & Hf1).
  pose proof (request_descs_ok m p r Hp) as Hdo.
  destruct Hp as [(Hs0 & Hal & H64) [Hp2 Hlen] Hqm [Ha2 Ha4] _ _ Hap _ [_ Hty] Hfl _ Hsm Hcnt Htot].
  pose proof Hlen as Hlen'. unfold MAX_QUEUE_SIZE in Hlen'.
  destruct (driver_offers_chain m1 (pl_start p) (pl_len p) (request_descs (pl_header p) r))
    as (mq & m2 & m3 & Hc & Hb & Hd & Hl2 & Hf2);
    try done; try (by eapply same_layout_mapped); try (by eapply same_layout_acc16).
  { unfold request_descs. simpl length. rewrite length_app, length_fmap. simpl. lia. }
  { by rewrite request_descs_total. }
  assert (chain_wf (chain_new (pl_start p) (pl_len p) 0)) as Hwf by (apply chain_new_wf; unfold in_u; lia).
  destruct (parse_descriptors m3 _ Hwf) as [c' Hpa].
  exists m3, (chain_new (pl_start p) (pl_len p) 0), c'.
  split; [unfold submit; rewrite Hs; cbn [mbind option_bind]; rewrite Hc; cbn [mbind option_bind];
    by rewrite Hb|]. split; [done|].
  split; [|split; [by eapply same_layout_trans|intros x Hq Hx; by rewrite Hf2, Hf1]].
  rewrite Hpa. do 2 f_equal. apply parse_spec_layout; [done|]. rewrite Hd.
  destruct (request_descs_linked 0 (pl_header p) r)
    as (hd & data & st & -> & Hall & Hst & [= Hha Hhw] & [= Hsa Hsl Hsw] & Hdata & Hdw).
  exists hd, (request_header r), data, st. split; try done.
  - rewrite Hha. unfold read_obj in *. destruct (gm_read m1 _ _) eqn:Hg; [|done].
    erewrite gm_read_ext; [exact Hh1|apply bv_size_pos| |exact Hg]. intros x Hx.
    apply Hf2. by apply Hap.
  - intros Ht. by apply Hfl, flush_code.
  - simpl. rewrite Hty. intros Hin. by rewrite Hin in Hdw.
  - lia.
  - rewrite Hsa. by apply Hl2, Hl1.
  - simpl. rewrite Hty, Hdata, Hsa. by destruct r.
Qed.

Context {B : Type} `{BL : BackendLaws B M (GM := GM)}.
Implicit Types s : StdIoBackend B.

(** Serving a submitted request: its outcome is in the status byte. *)
Lemma serve_submitted m p r s : placed m p r -> backend_ok s ->
  exists m1 c s' m2 res m3, submit p r m = Some (m1, Ok c) /\
    execute r (s, m1) = Some ((s', m2), res) /\ backend_ok s' /\
    serve c (s, m1) = Some ((s', m3), Ok (result_bytes res + 1)) /\
    overwritten m2 m3 (r_status_addr r) [outcome_status res] /\
    (forall x, ~ in_queue p x -> ~ in_header p x -> peek m1 x = peek m x).
Proof.
  intros Hp Hok. destruct (submit_parses m p r Hp) as (m1 & c & c' & Hs & Hwf & Hpa & Hl & Hf).
  destruct (parse_request_ok _ _ _ _ Hwf Hpa) as [Hr Hm].
  destruct (process_request_run r s m1 Hok Hr Hm) as (s' & m2 & res & m3 & He & Hpr & Ho & _).
  destruct (execute_run_ok r s m1 Hok Hr) as (s2 & ? & ? & He2 & Hsd & _).
  rewrite He in He2. injection He2 as <- _ _.
  exists m1, c, s', m2, res, m3. split_and!; try done; [by eapply backend_ok_same|].
  unfold serve. by rewrite Hpa, Hpr.
Qed.

Lemma outcome_ok m m' a (res : result BlkError Z) :
  overwritten m m' a [outcome_status res] -> peek m' a = Some VIRTIO_BLK_S_OK -> exists k, res = Ok k.
Proof.
  intros Ho Hk. rewrite Ho, decide_True, Z.sub_diag in Hk by (simpl; lia).
  injection Hk as Hk. destruct res as [k|[]]; [by exists k|discriminate Hk..].
Qed.
End DriverFacts.

(** ** Properties *)

Section DriverProperties.
Context {M : Type} `{GML : GuestMemoryLaws M}.

(** The device understands the request the driver meant: for a request of any type, with
    any number of data buffers that fits the queue, what [Request::parse] returns for the
    chain the driver builds, from the header it stored and the descriptors it linked, is that
    request; building it changes nothing outside of the header and the queue. *)
Theorem request_roundtrip (m : M) p r : placed m p r ->
  exists m' c c', submit p r m = Some (m', Ok c) /\ parse m' c = Some (c', Ok r) /\
    same_layout m m' /\ forall x, ~ in_queue p x -> ~ in_header p x -> peek m' x = peek m x.
Proof.
  intros Hp. destruct (submit_parses m p r Hp) as (m' & c & c' & Hs & _ & Hpa & Hl & Hf).
  by exists m', c, c'.
Qed.

(** C19: a driver reads what it wrote: when a write and a later read of the same sectors are
    submitted through queues and served by the device, both end with a used length, and if
    both status bytes the driver finds say OK, the read buffers hold the bytes the write
    buffers held before the write was submitted, whatever happened to guest memory between
    the two and however the buffers are cut up. *)
Theorem driver_reads_what_it_wrote {B} `{BL : BackendLaws B M (GM := GM)}
    (s : StdIoBackend B) (m : M) p w :
  backend_ok s -> placed m p w -> r_request_type w = Out ->
  (forall x, x ∈ request_cells w -> ~ in_queue p x /\ ~ in_header p x) ->
  exists m1 c1 s1 m2 k1, submit p w m = Some (m1, Ok c1) /\
    serve c1 (s, m1) = Some ((s1, m2), Ok k1) /\
    forall m' p' r, placed m' p' r -> r_request_type r = In ->
      r_sector r = r_sector w -> total_data_len r = total_data_len w ->
      NoDup (request_cells r) -> r_status_addr r ∉ request_cells r ->
      exists m3 c2 s2 m4 k2, submit p' r m' = Some (m3, Ok c2) /\
        serve c2 (s1, m3) = Some ((s2, m4), Ok k2) /\
        (peek m2 (r_status_addr w) = Some VIRTIO_BLK_S_OK ->
         peek m4 (r_status_addr r) = Some VIRTIO_BLK_S_OK ->
         k2 = total_data_len w + 1 /\
         forall (i : nat) x y, request_cells w !! i = Some x -> request_cells r !! i = Some y ->
           peek m4 y = peek m x).
Proof.
  intros Hok Hp Htw Hap.
  destruct (serve_submitted m p w s Hp Hok) as (m1 & c1 & s1 & n1 & r1 & m2 & Hs1 & He1 & Hok1 & Hv1 & Ho1 & Hf1).
  exists m1, c1, s1, m2, (result_bytes r1 + 1). split; [done|]. split; [done|].
  intros m' p' r Hp' Htr Hsec Hlen Hnd Hst.
  destruct (serve_submitted m' p' r s1 Hp' Hok1) as (m3 & c2 & s2 & n2 & r2 & m4 & Hs2 & He2 & _ & Hv2 & Ho2 & _).
  exists m3, c2, s2, m4, (result_bytes r2 + 1). split; [done|]. split; [done|]. intros Hw Hr.
  destruct (outcome_ok _ _ _ _ Ho1 Hw) as [k1 ->]. destruct (outcome_ok _ _ _ _ Ho2 Hr) as [k2 ->].
  destruct (disk_transfer w r s s1 s2 m1 n1 m3 n2 k1 k2) as [Hk Hcell]; try done;
    [by apply (pd_request _ _ _ Hp)|by apply (pd_request _ _ _ Hp')|].
  split; [by rewrite <- Hk|]. intros i x y Hx Hy.
  rewrite (overwritten_peek_other _ _ _ _ _ Ho2).
  - rewrite (Hcell i x y Hx Hy). destruct (Hap x); [by eapply list_elem_of_lookup_2|]. by apply Hf1.
  - intros Hin. simpl in Hin. apply Hst. apply list_elem_of_lookup_2 in Hy.
    by replace (r_status_addr r) with y by lia.
Qed.
End DriverProperties.

(** ** Concrete run *)

Module DriverExamples.
(** A write of 512 bytes to sector 3 and a read of the same sector into two
    buffers, through a queue of 16 entries, on the disk of [DiskExamples]. *)
Definition guest : FlatMem := fst (gm_write MockExamples.mem 0x6000 [1; 2; 3]).
Definition place : placement := mk_placement 0x1000 16 0x5000.
Definition write_request : Request := mk_request Out [(0x6000, 512)] 3 0x7000.
Definition read_request : Request := mk_request In [(0x8000, 2); (0x9000, 510)] 3 0x7000.

Lemma guest_mapped a n : 0 <= a -> a + n <= 0x10000 -> range_mapped guest a n.
Proof. intros Ha Hn. apply (fm_region_mapped guest 0 0 0x10000); [reflexivity|lia|lia]. Qed.

Lemma placed_in_guest r :
  request_ok r -> in_u 32 (request_type_code (r_request_type r)) ->
  request_type_from (request_type_code (r_request_type r)) = r_request_type r ->
  (r_request_type r = Flush -> r_sector r = 0) -> 0 <= r_status_addr r < 0x10000 ->
  (length (r_data r) <= 14)%nat -> total_data_len r <= 4096 -> placed guest place r.
Proof.
  intros Hr Ht Hf Hfl Hs Hn Htot. pose proof (ro_data r Hr) as Hd.
  split; cbn [place pl_start pl_len pl_header]; try done; try lia.
  - split; [exists 4; split; [lia|reflexivity]|unfold MAX_QUEUE_SIZE; lia].
  - apply guest_mapped; lia.
  - split; apply fm_acc16_spec; reflexivity.
  - apply guest_mapped; lia.
  - unfold in_header, in_queue. simpl. lia.
  - unfold in_u. lia.
  - apply (guest_mapped (r_status_addr r) 1); lia.
Qed.

Lemma write_placed : placed guest place write_request.
Proof.
  apply placed_in_guest; try done; try (simpl; lia).
  split; [|done|done]. by repeat constructor.
Qed.

Lemma read_placed : placed guest place read_request.
Proof.
  apply placed_in_guest; try done; try (simpl; lia).
  split; [|done|done]. by repeat constructor.
Qed.

(** The status bytes after both requests. *)
Lemma both_succeed :
  match submit place write_request guest with
  | Some (m1, Ok c1) =>
      match serve c1 (DiskExamples.disk, m1), submit place read_request guest with
      | Some ((s1, m2), _), Some (m3, Ok c2) =>
          match serve c2 (s1, m3) with
          | Some ((_, m4), _) =>
              peek m2 0x7000 = Some VIRTIO_BLK_S_OK /\ peek m4 0x7000 = Some VIRTIO_BLK_S_OK
          | None => False
          end
      | _, _ => False
      end
  | _ => False
  end.
Proof. vm_compute. split; reflexivity. Qed.
End DriverExamples.
Import DriverExamples.

Lemma request_roundtrip_witness :
  exists m' c c', submit place read_request guest = Some (m', Ok c) /\
    parse m' c = Some (c', Ok read_request) /\ peek m' 0x6001 = Some 2.
Proof.
  destruct (request_roundtrip guest place read_request read_placed) as (m' & c & c' & Hs & Hp & _ & Hf).
  exists m', c, c'. split; [exact Hs|]. split; [exact Hp|].
  rewrite Hf; [by vm_compute|unfold in_queue; simpl; lia|unfold in_header; simpl; lia].
Defined.

(** Both requests succeed, and the second buffer of the read gets the third
    byte of the write. *)
Lemma driver_reads_what_it_wrote_witness :
  exists m1 c1 s1 m2 k1 m3 c2 s2 m4 k2,
    submit place write_request guest = Some (m1, Ok c1) /\
    serve c1 (DiskExamples.disk, m1) = Some ((s1, m2), Ok k1) /\
    submit place read_request guest = Some (m3, Ok c2) /\
    serve c2 (s1, m3) = Some ((s2, m4), Ok k2) /\ k2 = 513 /\ peek m4 0x9000 = Some 3.
Proof.
  destruct (driver_reads_what_it_wrote DiskExamples.disk guest place write_request
    DiskExamples.disk_ok write_placed eq_refl) as (m1 & c1 & s1 & m2 & k1 & Hs1 & Hv1 & Hread).
  { intros x Hx. assert (0x6000 <= x < 0x6200) as Hr.
    { change (request_cells write_request) with
        (vs_cells {| vs_addr := 0x6000; vs_len := 512 |} ++ []) in Hx.
      rewrite app_nil_r in Hx. by apply vs_cells_in in Hx. }
    unfold in_queue, in_header. simpl. lia. }
  destruct (Hread guest place read_request read_placed eq_refl eq_refl eq_refl
    DiskExamples.read_back_nodup) as (m3 & c2 & s2 & m4 & k2 & Hs2 & Hv2 & Hok).
  { apply (bool_decide_unpack (0x7000 ∉ request_cells read_request)). vm_compute. exact I. }
  exists m1, c1, s1, m2, k1, m3, c2, s2, m4, k2.
  split; [exact Hs1|]. split; [exact Hv1|]. split; [exact Hs2|]. split; [exact Hv2|].
  pose proof both_succeed as Hst. rewrite Hs1, Hv1, Hs2, Hv2 in Hst.
  destruct (Hok (proj1 Hst) (proj2 Hst)) as [Hk Hcell]. split; [exact Hk|].
  rewrite (Hcell 2%nat 0x6002 0x9000); vm_compute; reflexivity.
Defined.
