(* ===== verification/BlkDevice.v ===== *)
(** * The block device on its queue

    The device loop documented for [Queue], with [Request::parse] and
    [StdIoBackend::process_request] of virtio-blk as the processing of a
    chain: the whole path of a block request from the available ring to the
    status byte and the used ring. *)

From stdpp Require Import base numbers list option.
From S2P Require Import Prelude Bytes GuestMemory FlatMemory Descriptor Chain ChainKept Queue QueueFacts.
From S2P Require Import UsedRing AvailRing Processing DeviceLoop Mock DescriptorUtils.
From S2P Require Import BlkRequest BlkExecutor BlkProperties BlkDriver.

Section BlkDevice.
Context {B M : Type} `{GM : GuestMemory M} `{BE : Backend B M}.

(** Processing a chain: an error leaves nothing written in the chain. *)
Definition blk_handler (c : DescriptorChain) (st : StdIoBackend B * M)
    : option ((StdIoBackend B * M) * u32) :=
  match serve c st with
  | None => None
  | Some (st, Ok len) => Some (st, len)
  | Some (st, Err _) => Some (st, 0)
  end.

(** The bytes of memory the device changes for a request. *)
Definition touched (r : Request) : list Z := r_status_addr r :: stored_cells r.

(** [c] holds [r] as long as the bytes [kept] stay what they are in [m]. *)
Definition request_fixed (kept : Z -> Prop) (m : M) (c : DescriptorChain) (r : Request) : Prop :=
  forall m', agree kept m m' -> exists c', parse m' c = Some (c', Ok r).

(** The requests a driver has offered under [heads]: what describes them is
    [kept], and the buffers and status bytes the device writes are apart from
    that, from the rings, and, for a status byte, from what later requests
    write. *)
Record batch (q : Queue) (m : M) (kept : Z -> Prop) (heads : list Z) (rs : list Request) : Prop := {
  ba_requests : Forall2 (fun h r => request_fixed kept m (chain_of q h) r) heads rs;
  ba_touched : forall r x, r ∈ rs -> x ∈ touched r ->
    ~ kept x /\ ~ in_driver_area q x /\ ~ in_device_area q x;
  ba_kept : forall x, kept x -> ~ in_device_area q x;
  ba_status : forall (i j : nat) r r', (i < j)%nat -> rs !! i = Some r -> rs !! j = Some r' ->
    r_status_addr r ∉ touched r';
}.

(** The reference: requests executed one after the other, each followed by its
    status byte; in between the device writes its area of the queue. *)
Inductive blk_run (q : Queue) (st0 : StdIoBackend B * M)
    : list (Request * result BlkError Z) -> StdIoBackend B * M -> Prop :=
| run_start m : device_wrote q (snd st0) m -> blk_run q st0 [] (fst st0, m)
| run_request tr s m r s' m1 res m2 m3 :
    blk_run q st0 tr (s, m) -> execute r (s, m) = Some ((s', m1), res) ->
    overwritten m1 m2 (r_status_addr r) [outcome_status res] -> device_wrote q m2 m3 ->
    blk_run q st0 (tr ++ [(r, res)]) (s', m3).
End BlkDevice.

Section BlkDeviceFacts.
Context {B M : Type} `{GML : GuestMemoryLaws M} `{BL : BackendLaws B M (GM := GM)}.
Implicit Types (m : M) (s : StdIoBackend B).

Lemma device_wrote_refl q m : device_wrote q m m.
Proof. split; [apply same_layout_refl|done]. Qed.

Lemma device_wrote_trans q m1 m2 m3 :
  device_wrote q m1 m2 -> device_wrote q m2 m3 -> device_wrote q m1 m3.
Proof.
  intros [L1 P1] [L2 P2]. split; [by eapply same_layout_trans|]. intros x Hx. by rewrite P2, P1.
Qed.

Lemma blk_run_wrote q st0 tr s m m' :
  blk_run q st0 tr (s, m) -> device_wrote q m m' -> blk_run q st0 tr (s, m').
Proof.
  intros Hr Hw. inversion Hr; simplify_eq/=.
  - apply run_start. by eapply device_wrote_trans.
  - eapply run_request; [done..|]. by eapply device_wrote_trans.
Qed.

(** One request. *)
Lemma blk_handler_run c c' r s m :
  chain_wf c -> parse m c = Some (c', Ok r) -> backend_ok s ->
  exists s' m1 res m2, execute r (s, m) = Some ((s', m1), res) /\
    blk_handler c (s, m) = Some ((s', m2), result_bytes res + 1) /\
    overwritten m1 m2 (r_status_addr r) [outcome_status res] /\ backend_ok s' /\
    in_u 32 (result_bytes res + 1) /\ changed_within (touched r) m m2.
Proof.
  intros Hwf Hp Hok. destruct (parse_request_ok _ _ _ _ Hwf Hp) as [Hr Hm].
  destruct (process_request_run r s m Hok Hr Hm) as (s' & m1 & res & m2 & He & Hpr & Ho & Hl2).
  destruct (execute_run_ok r s m Hok Hr) as (s2 & m1' & res' & He' & Hsd & [Hl1 Hc] & _ & Hn).
  rewrite He in He'. injection He' as <- <- <-.
  exists s', m1, res, m2. split; [done|]. split.
  { unfold blk_handler, serve. by rewrite Hp, Hpr. }
  split; [done|]. split; [by eapply backend_ok_same|]. split; [unfold in_u; lia|].
  split; [by eapply same_layout_trans|]. intros x Hx. apply not_elem_of_cons in Hx as [Hx1 Hx2].
  rewrite (overwritten_peek_other _ _ _ _ _ Ho); [by apply Hc|simpl; lia].
Qed.

Section Batch.
Context (q : Queue) (m0 : M) (s0 : StdIoBackend B) (kept : Z -> Prop) (rs : list Request).
Hypothesis Htouched : forall r x, r ∈ rs -> x ∈ touched r ->
  ~ kept x /\ ~ in_driver_area q x /\ ~ in_device_area q x.
Hypothesis Hkept : forall x, kept x -> ~ in_device_area q x.
Hypothesis Hstatus : forall (i j : nat) r r', (i < j)%nat -> rs !! i = Some r -> rs !! j = Some r' ->
  r_status_addr r ∉ touched r'.
Hypothesis Hwf : queue_wf q.

(** Between two requests. *)
Record serving (es : list VirtqUsedElem) (hs : list Z) s m : Prop := {
  sg_backend : backend_ok s;
  sg_agree : agree kept m0 m;
  sg_run : exists tr rest, tr.*1 ++ rest = rs /\ blk_run q (s0, m0) tr (s, m) /\
    Forall2 (fun h r => 0 <= h < q_size q /\ request_fixed kept m0 (chain_of q h) r) hs rest /\
    ue_len <$> es = (fun x => result_bytes (snd x) + 1) <$> tr /\
    forall k r res, tr !! k = Some (r, res) -> peek m (r_status_addr r) = Some (outcome_status res);
}.

Lemma serving_wrote es hs s m m' :
  serving es hs s m -> device_wrote q m m' -> serving es hs s m'.
Proof.
  intros [Hb Ha (tr & rest & Hrs & Hrun & Hf & Hes & Hst)] Hw. pose proof Hw as [Hl' Hp].
  split; [done| |].
  - eapply agree_trans; [done|]. split; [done|]. intros x Hx. by apply Hp, Hkept.
  - exists tr, rest. split_and!; try done; [by eapply blk_run_wrote|].
    intros k r res Hlk. rewrite Hp; [by eapply Hst|].
    apply (Htouched r); [|apply list_elem_of_here].
    rewrite <- Hrs. apply elem_of_app. left. apply list_elem_of_lookup_2 with k.
    by rewrite list_lookup_fmap, Hlk.
Qed.

Lemma serving_step es h hs s m :
  serving es (h :: hs) s m ->
  exists s' m' len, blk_handler (chain_of q h) (s, m) = Some ((s', m'), len) /\
    same_layout m m' /\
    (forall x, in_driver_area q x \/ in_device_area q x -> peek m' x = peek m x) /\
    in_u 32 len /\ serving (es ++ [used_elem_new h len]) hs s' m'.
Proof.
  intros [Hb Ha (tr & rest & Hrs & Hrun & Hf & Hes & Hst)].
  apply Forall2_cons_inv_l in Hf as (r & rest' & (Hh & Hfix) & Hf & ->).
  destruct (Hfix m Ha) as (c' & Hp).
  pose proof (queue_wf_size q Hwf) as [Hpos Hmax]. unfold MAX_QUEUE_SIZE in Hmax.
  assert (chain_wf (chain_of q h)) as Hcw.
  { apply chain_new_wf; [apply Hwf|unfold in_u; change (2 ^ 16) with 65536; lia..]. }
  destruct (blk_handler_run _ _ _ s m Hcw Hp Hb) as (s' & m1 & res & m2 & He & Hhd & Ho & Hb' & Hlen & Hcw2). pose proof Hcw2 as [Hl2 Hp2].
  assert (rs !! length tr = Some r) as Hlk.
  { rewrite <- Hrs, <- (length_fmap fst tr). by apply list_lookup_middle. }
  pose proof (list_elem_of_lookup_2 _ _ _ Hlk) as Hin.
  exists s', m2, (result_bytes res + 1). split; [done|]. split; [done|]. split.
  { intros x Hx. apply Hp2. intros Ht. destruct (Htouched r x Hin Ht) as (_ & ? & ?). tauto. }
  split; [done|]. split; [done| |].
  { eapply agree_trans; [done|]. eapply agree_within; [|done]. intros x Ht. by destruct (Htouched r x Hin Ht). }
  exists (tr ++ [(r, res)]), rest'. rewrite !fmap_app, <- app_assoc. simpl. split_and!; try done.
  - eapply run_request; [done..|]. apply device_wrote_refl.
  - by rewrite Hes.
  - intros k r' res' Hlk'. apply lookup_snoc_Some in Hlk' as [[Hlt Hlk']|[-> [= <- <-]]].
    + rewrite Hp2; [by eapply Hst|]. eapply (Hstatus k (length tr)); [done| |done].
      rewrite <- Hrs, lookup_app_l, list_lookup_fmap, Hlk' by (by rewrite length_fmap). done.
    + rewrite Ho, decide_True, Z.sub_diag by (simpl; lia). done.
Qed.

Lemma blk_serves : serves blk_handler q serving.
Proof. split; [apply serving_step|apply serving_wrote]. Qed.
End Batch.

(** A request is fixed by its chain and its header. *)
Lemma chain_request_fixed kept m c ds r hd header data st :
  chain_wf c -> chain_fixed kept m c ds -> request_layout m ds r hd header data st ->
  (forall x, d_addr hd <= x < d_addr hd + 16 -> kept x) -> request_fixed kept m c r.
Proof.
  intros Hwf Hf Hlay Hk m' Ha. destruct (parse_descriptors m' c Hwf) as [c' Hp]. exists c'.
  rewrite Hp. do 2 f_equal. apply parse_spec_layout; [done|]. exists hd, header, data, st.
  rewrite (chain_fixed_descriptors kept m' c ds Hwf) by (by eapply chain_fixed_agree).
  destruct Hlay. destruct Ha as [Hl Hx]. split; try done; [|by apply Hl].
  unfold read_obj in *. destruct (gm_read m _ _) eqn:Hg; [|done].
  erewrite gm_read_ext; [done|apply bv_size_pos| |exact Hg]. intros x Hr. by apply Hx, Hk.
Qed.

(** A request a driver lays out at entry [i] of the table, its header at [ha]. *)
Record laid_out (q : Queue) m (i : Z) (ha : u64) (r : Request) : Prop := {
  lt_entry : 0 <= i /\ i + Z.of_nat (length (request_descs ha r)) <= q_size q;
  lt_stored : stored m (q_desc_table q) i (linked i (request_descs ha r));
  lt_direct : Forall (fun d => descriptor_wf d /\ refers_to_indirect_table d = false) (request_descs ha r);
  lt_header : read_obj RequestHeader m ha = Ok (request_header r);
  lt_type : request_type_from (request_type_code (r_request_type r)) = r_request_type r;
  lt_flush : r_request_type r = Flush -> r_sector r = 0;
  lt_status : mapped m (r_status_addr r);
  lt_total : total_data_len r + 17 < 2 ^ 32;
}.

(** The bytes that describe it. *)
Definition describing (q : Queue) (ha x : Z) : Prop :=
  q_desc_table q <= x < q_desc_table q + 16 * q_size q \/ ha <= x < ha + 16.

Lemma laid_out_fixed (kept : Z -> Prop) q m i ha r :
  queue_wf q -> laid_out q m i ha r -> (forall x, describing q ha x -> kept x) ->
  request_fixed kept m (chain_of q i) r.
Proof.
  intros Hwf [He Hs Hd Hh Ht Hf Hst Htot] Hk.
  pose proof (queue_wf_size q Hwf) as [Hpos Hmax]. unfold MAX_QUEUE_SIZE in Hmax.
  assert (chain_wf (chain_of q i)) as Hcw.
  { apply chain_new_wf; [apply Hwf|unfold in_u; change (2 ^ 16) with 65536..].
    all: unfold request_descs in He; simpl length in He; lia. }
  assert (chain_fixed kept m (chain_of q i) (linked i (request_descs ha r))) as Hcf.
  { apply direct_chain_fixed; [intros x Hx; apply Hk; by left| |done|done|].
    - apply stored_linked_chain; [done|apply He|apply He|done|]. apply linked_direct.
      eapply list.Forall_impl; [exact Hd|]. by intros d [_ ?].
    - rewrite linked_total_len, request_descs_total. simpl. lia. }
  destruct (request_descs_linked i ha r)
    as (hd & data & st & Heq & Hall & Hst' & [= Hha Hhw] & [= Hsa Hsl Hsw] & Hdata & Hdw).
  eapply (chain_request_fixed kept m _ _ r hd (request_header r) data st); [done|done| |].
  2:{ intros x Hx. apply Hk. right. by rewrite <- Hha. }
  rewrite Heq. split; try done.
  - by rewrite Hha.
  - intros Hc. by apply Hf, flush_code.
  - simpl. rewrite Ht. intros Hin. by rewrite Hin in Hdw.
  - lia.
  - by rewrite Hsa.
  - simpl. rewrite Ht, Hdata, Hsa. by destruct r.
Qed.
End BlkDeviceFacts.

(** ** Properties *)

(** C12: a block device on its queue is a sequential disk: on a queue whose driver has offered
    the requests [rs], the documented loop with [Request::parse] and [process_request] ends
    and has executed exactly these requests, in the order of the available ring, each on the
    disk and the memory its predecessors left; every request is returned through the used
    ring with the bytes it wrote plus the status byte as its length, and at the end each
    status byte holds the outcome of its request. *)
Theorem blk_device_serves {B M} `{GML : GuestMemoryLaws M} `{BL : BackendLaws B M (GM := GM)}
    (s : StdIoBackend B) (m : M) q event heads rs kept fuel :
  loop_ready q m event -> offered q m heads -> Forall (fun h => 0 <= h < q_size q) heads ->
  batch q m kept heads rs -> backend_ok s ->
  exists tr es s' q' m',
    event_loop blk_handler (S fuel) [] (s, (q, m)) =
      Some ((s', (q', m')), Ok (signals_for q event (q_next_used q) (length heads))) /\
    tr.*1 = rs /\ blk_run q (s, m) tr (s', m') /\
    used_view (q_next_used q) es q' m' /\ ue_id <$> es = heads /\
    ue_len <$> es = (fun x => result_bytes (snd x) + 1) <$> tr /\
    (forall k r res, tr !! k = Some (r, res) ->
       peek m' (r_status_addr r) = Some (outcome_status res)).
Proof.
  intros Hlr Ho Hh [Hreq Ht Hk Hst] Hok.
  pose proof (blk_serves q m s kept rs Ht Hk Hst (lr_wf _ _ _ Hlr)) as Hsv.
  assert (serving q m s kept rs [] heads s m) as Hinit.
  { split; [done|apply agree_refl|]. exists [], rs.
    split; [done|]. split; [apply (run_start q (s, m)), device_wrote_refl|].
    split; [by apply Forall2_with_l|by split]. }
  destruct (event_loop_serves blk_handler _ q m s event heads fuel Hlr Ho Hh Hsv Hinit)
    as (es & q' & s' & m' & Hrun & Hids & Hview & [_ _ Hinv] & _).
  destruct Hinv as (tr & rest & Hrs & Hr & Hf & Hes & Hpk). apply Forall2_nil_inv_l in Hf as ->.
  rewrite app_nil_r in Hrs. by exists tr, es, s', q', m'.
Qed.

(** ** Concrete run *)

Module BlkDeviceExamples.
(** Two requests in one batch: a write of the 512 bytes at 0x6000 to sector 3
    in the entries 0 to 2, and a read of that sector in the entries 3 to 6. *)
Definition write_request : Request := mk_request Out [(0x6000, 512)] 3 0x7000.
Definition read_request : Request := mk_request In [(0x8000, 2); (0x9000, 510)] 3 0x7001.

Definition put {T} `{ByteValued T} (m : FlatMem) (x : Z * T) : FlatMem := fst (write_obj m (snd x) (fst x)).

Definition entries (i : Z) (ds : list Descriptor) : list (Z * RawDescriptor) :=
  imap (fun k d => (0x1000 + 16 * (i + Z.of_nat k), raw_of_split d)) (linked i ds).

Definition guest : FlatMem :=
  let m := from_ranges [(0, 0x10000)] in
  let m := foldl put m (entries 0 (request_descs 0x5000 write_request)) in
  let m := foldl put m (entries 3 (request_descs 0x5010 read_request)) in
  let m := foldl put m [(0x5000, request_header write_request); (0x5010, request_header read_request)] in
  let m := fst (gm_write m 0x6000 [1; 2; 3]) in
  AvailExamples.store16s m [(0x2002, 2); (0x2004, 0); (0x2006, 3)].

Definition q8 : Queue := mk_queue 16 0 0 false 0 8 true 0x1000 0x2000 0x3000.
Definition rs : list Request := [write_request; read_request].
Definition kept (x : Z) : Prop := 0x1000 <= x < 0x1080 \/ 0x5000 <= x < 0x5020.

Lemma q8_wf : queue_wf q8.
Proof. split; try (by vm_compute); split; try done; first [by exists 4 | by exists 3]. Qed.

Lemma q8_ready : loop_ready q8 guest 0.
Proof.
  split; [apply q8_wf| |apply fm_acc16_spec; by vm_compute|done|].
  - split; [|apply fm_acc16_spec; by vm_compute].
    apply (fm_region_mapped _ 0x3000 0 0x10000); by vm_compute.
  - intros x. unfold in_driver_area, in_device_area. simpl. lia.
Qed.

Lemma q8_offered : offered q8 guest [0; 3].
Proof.
  split; [done|done|by vm_compute|]. intros [|[|k]] h Hk; simplify_eq/=; by vm_compute.
Qed.

Ltac laid_out_at :=
  split; [done| |by repeat constructor|by vm_compute|done|done| |done];
  [intros k d Hk; repeat (destruct k as [|k]; [injection Hk as <-; by vm_compute|]); done|
   apply (bool_decide_unpack (is_Some _)); by vm_compute].

Lemma write_laid_out : laid_out q8 guest 0 0x5000 write_request.
Proof. laid_out_at. Qed.
Lemma read_laid_out : laid_out q8 guest 3 0x5010 read_request.
Proof. laid_out_at. Qed.

Lemma touched_range r x : r ∈ rs -> x ∈ touched r -> 0x7000 <= x < 0xa000.
Proof.
  assert (Forall (fun r => Forall (fun x => 0x7000 <= x < 0xa000) (touched r)) rs) as Hall.
  { apply (bool_decide_unpack (Forall _ _)). by vm_compute. }
  intros Hr Hx. rewrite list.Forall_forall in Hall. specialize (Hall r Hr).
  rewrite list.Forall_forall in Hall. by apply Hall.
Qed.

Lemma q8_batch : batch q8 guest kept [0; 3] rs.
Proof.
  split.
  - constructor; [|constructor; [|done]].
    + apply (laid_out_fixed _ _ _ _ 0x5000); [apply q8_wf|apply write_laid_out|].
      intros x. unfold describing, kept. simpl. lia.
    + apply (laid_out_fixed _ _ _ _ 0x5010); [apply q8_wf|apply read_laid_out|].
      intros x. unfold describing, kept. simpl. lia.
  - intros r x Hr Hx. pose proof (touched_range r x Hr Hx).
    unfold kept, in_driver_area, in_device_area. simpl. lia.
  - intros x. unfold kept, in_device_area. simpl. lia.
  - intros i j r r' Hij Hi Hj. destruct i as [|[|i]], j as [|[|j]]; simplify_eq/=; try lia.
    apply (bool_decide_unpack (_ ∉ _)). by vm_compute.
Qed.

(** Where the run of both ends. *)
Lemma batch_end :
  match event_loop blk_handler 1 [] (DiskExamples.disk, (q8, guest)) with
  | Some ((_, (q', m')), _) =>
      q_size q' = 8 /\ used_entry m' q' 0 = Ok (used_elem_new 0 1) /\
      used_entry m' q' 1 = Ok (used_elem_new 3 513) /\
      peek m' 0x7000 = Some VIRTIO_BLK_S_OK /\ peek m' 0x7001 = Some VIRTIO_BLK_S_OK /\
      peek m' 0x9000 = Some 3
  | None => False
  end.
Proof. vm_compute. by split_and!. Qed.
End BlkDeviceExamples.
Import BlkDeviceExamples.

(** Both requests succeed: the lengths 1 and 513, the status bytes 0, and the
    second buffer of the read starts with the third byte written. *)
Lemma blk_device_serves_witness :
  exists es s' q' m', event_loop blk_handler 1 [] (DiskExamples.disk, (q8, guest)) =
      Some ((s', (q', m')), Ok [true; true]) /\
    es = [used_elem_new 0 1; used_elem_new 3 513] /\ used_view 0 es q' m' /\
    peek m' 0x7000 = Some VIRTIO_BLK_S_OK /\
    peek m' 0x7001 = Some VIRTIO_BLK_S_OK /\ peek m' 0x9000 = Some 3.
Proof.
  destruct (blk_device_serves DiskExamples.disk guest q8 0 [0; 3] rs kept 0 q8_ready q8_offered)
    as (tr & es & s' & q' & m' & Hr & Htr & _ & Hv & Hids & _).
  - repeat constructor; by vm_compute.
  - apply q8_batch.
  - apply DiskExamples.disk_ok.
  - exists es, s', q', m'. split; [exact Hr|].
    pose proof batch_end as Hend. rewrite Hr in Hend. destruct Hend as (Hsz & He0 & He1 & Hend).
    split; [|split; [exact Hv|exact Hend]].
    destruct es as [|e0 [|e1 [|? ?]]]; try discriminate Hids. destruct Hv as (_ & _ & Hv).
    assert (used_entry m' q' 0 = Ok e0) as H0 by (apply (Hv 0%nat e0 eq_refl); rewrite Hsz; discriminate).
    assert (used_entry m' q' 1 = Ok e1) as H1 by (apply (Hv 1%nat e1 eq_refl); rewrite Hsz; discriminate).
    rewrite He0 in H0. rewrite He1 in H1.
    injection H0 as <-. injection H1 as <-. reflexivity.
Defined.
