(* ===== verification/VsockPacket.v ===== *)
(** * Vsock packets

    virtio-vsock/src/packet.rs: [VsockPacket] is a view of the header and the
    data of a packet in guest memory, with a copy of the header that was read
    once.  The setters update both; the constructors take the slices out of a
    descriptor chain. *)

From stdpp Require Import base numbers list option.
From S2P Require Import Prelude Bytes GuestMemory FlatMemory Descriptor Chain.

Inductive VsockError : Type :=
| VsockDescriptorChainTooShort
| VsockDescriptorLengthTooSmall
| VsockDescriptorLengthTooLong
| VsockInvalidHeaderInputSize (n : usize)
| VsockInvalidHeaderLen (n : u32)
| VsockInvalidMemoryAccess (e : GuestMemoryError)
| VsockInvalidVolatileAccess (e : Z)
| VsockUnexpectedReadOnlyDescriptor
| VsockUnexpectedWriteOnlyDescriptor.

Record PacketHeader : Type := mk_packet_header {
  ph_src_cid : u64;
  ph_dst_cid : u64;
  ph_src_port : u32;
  ph_dst_port : u32;
  ph_len : u32;
  ph_type_ : u16;
  ph_op : u16;
  ph_flags : u32;
  ph_buf_alloc : u32;
  ph_fwd_cnt : u32;
}.

Global Instance PacketHeader_eq_dec : EqDecision PacketHeader.
Proof. solve_decision. Defined.

(** [Default::default()]. *)
Definition packet_header_default : PacketHeader := mk_packet_header 0 0 0 0 0 0 0 0 0 0.

(** The fields in memory order and their sizes. *)
Definition header_widths : list nat := [8; 8; 4; 4; 4; 2; 2; 4; 4; 4]%nat.
Definition header_fields (h : PacketHeader) : list Z :=
  [ph_src_cid h; ph_dst_cid h; ph_src_port h; ph_dst_port h; ph_len h; ph_type_ h; ph_op h;
   ph_flags h; ph_buf_alloc h; ph_fwd_cnt h].
Definition header_of_fields (vs : list Z) : PacketHeader :=
  match vs with
  | [a; b; c; d; e; f; g; h; i; j] => mk_packet_header a b c d e f g h i j
  | _ => packet_header_default
  end.

Global Instance PacketHeader_bv : ByteValued PacketHeader :=
  struct_bv header_widths header_fields header_of_fields.
Global Instance PacketHeader_bv_laws : ByteValuedLaws PacketHeader.
Proof. solve_struct_bv. Qed.

Definition PKT_HEADER_SIZE : usize := Z.of_nat (bv_size PacketHeader).

Definition SRC_CID_OFFSET : usize := 0.
Definition DST_CID_OFFSET : usize := 8.
Definition SRC_PORT_OFFSET : usize := 16.
Definition DST_PORT_OFFSET : usize := 20.
Definition LEN_OFFSET : usize := 24.
Definition TYPE_OFFSET : usize := 28.
Definition OP_OFFSET : usize := 30.
Definition FLAGS_OFFSET : usize := 32.
Definition BUF_ALLOC_OFFSET : usize := 36.
Definition FWD_CNT_OFFSET : usize := 40.

Record VsockPacket : Type := mk_packet {
  header_slice : VolatileSlice;
  header : PacketHeader;
  data_slice : option VolatileSlice;
}.

Definition with_header (h : PacketHeader) (p : VsockPacket) : VsockPacket :=
  mk_packet (header_slice p) h (data_slice p).

(** The field a setter names: its position in the structure, its size in
    bytes and the update of the copy. *)
Inductive HeaderField : Type :=
| FSrcCid | FDstCid | FSrcPort | FDstPort | FLen | FType | FOp | FFlags | FBufAlloc | FFwdCnt.

Global Instance HeaderField_eq_dec : EqDecision HeaderField.
Proof. solve_decision. Defined.

Definition field_index (f : HeaderField) : nat :=
  match f with
  | FSrcCid => 0 | FDstCid => 1 | FSrcPort => 2 | FDstPort => 3 | FLen => 4
  | FType => 5 | FOp => 6 | FFlags => 7 | FBufAlloc => 8 | FFwdCnt => 9
  end.

Definition field_width (f : HeaderField) : nat :=
  match f with
  | FSrcCid | FDstCid => 8
  | FType | FOp => 2
  | _ => 4
  end.

Definition get_field (f : HeaderField) (h : PacketHeader) : Z :=
  default 0 (header_fields h !! field_index f).
Definition set_field (f : HeaderField) (v : Z) (h : PacketHeader) : PacketHeader :=
  header_of_fields (<[field_index f := v]> (header_fields h)).

(** [Bytes] on a [VolatileSlice]: [write] and [read_slice] at an offset; the
    error is a [volatile_memory::Error]. *)
Class SliceBytes (M : Type) : Type := {
  vs_write : M -> VolatileSlice -> list u8 -> usize -> M * result Z usize;
  vs_read : M -> VolatileSlice -> usize -> nat -> result Z (list u8);
}.

(** ** The operations of a packet *)

Definition src_cid (p : VsockPacket) : u64 := ph_src_cid (header p).
Definition dst_cid (p : VsockPacket) : u64 := ph_dst_cid (header p).
Definition src_port (p : VsockPacket) : u32 := ph_src_port (header p).
Definition dst_port (p : VsockPacket) : u32 := ph_dst_port (header p).
Definition len (p : VsockPacket) : u32 := ph_len (header p).
Definition is_empty (p : VsockPacket) : bool := len p =? 0.
Definition type_ (p : VsockPacket) : u16 := ph_type_ (header p).
Definition op (p : VsockPacket) : u16 := ph_op (header p).
Definition flags (p : VsockPacket) : u32 := ph_flags (header p).
Definition buf_alloc (p : VsockPacket) : u32 := ph_buf_alloc (header p).
Definition fwd_cnt (p : VsockPacket) : u32 := ph_fwd_cnt (header p).

Section Operations.
Context {M : Type} `{GuestMemory M} `{SliceBytes M}.

Abbreviation VM := (RM (VsockPacket * M) VsockError).

(** [set_header_field!]: the copy, then the slice; a failed write panics. *)
Definition set_header_field (f : HeaderField) (offset : usize) (value : Z) : VM unit :=
  fun '(p, m) =>
    let p := with_header (set_field f value (header p)) p in
    match vs_write m (header_slice p) (le_bytes (field_width f) value) offset with
    | (m, Ok _) => Some ((p, m), Ok tt)
    | (_, Err _) => None
    end.

Definition set_src_cid (cid : u64) : VM unit := set_header_field FSrcCid SRC_CID_OFFSET cid.
Definition set_dst_cid (cid : u64) : VM unit := set_header_field FDstCid DST_CID_OFFSET cid.
Definition set_src_port (port : u32) : VM unit := set_header_field FSrcPort SRC_PORT_OFFSET port.
Definition set_dst_port (port : u32) : VM unit := set_header_field FDstPort DST_PORT_OFFSET port.
Definition set_len (len : u32) : VM unit := set_header_field FLen LEN_OFFSET len.
Definition set_type (type_ : u16) : VM unit := set_header_field FType TYPE_OFFSET type_.
Definition set_op (op : u16) : VM unit := set_header_field FOp OP_OFFSET op.
Definition set_flags (flags : u32) : VM unit := set_header_field FFlags FLAGS_OFFSET flags.
Definition set_flag (flag : u32) : VM unit :=
  p ← gets fst; set_flags (Z.lor (flags p) flag).
Definition set_buf_alloc (buf_alloc : u32) : VM unit :=
  set_header_field FBufAlloc BUF_ALLOC_OFFSET buf_alloc.
Definition set_fwd_cnt (fwd_cnt : u32) : VM unit :=
  set_header_field FFwdCnt FWD_CNT_OFFSET fwd_cnt.

Definition set_header_from_raw (bytes : list u8) : VM unit := fun '(p, m) =>
  if negb (Z.of_nat (length bytes) =? PKT_HEADER_SIZE)
  then Some ((p, m), Err (VsockInvalidHeaderInputSize (Z.of_nat (length bytes))))
  else
    match vs_write m (header_slice p) bytes 0 with
    | (m, Err e) => Some ((p, m), Err (VsockInvalidVolatileAccess e))
    | (m, Ok _) =>
        match vs_read m (header_slice p) 0 (bv_size PacketHeader) with
        | Err e => Some ((p, m), Err (VsockInvalidVolatileAccess e))
        | Ok bs => Some ((with_header (bv_decode bs) p, m), Ok tt)
        end
    end.

(** [from_tx_virtq_chain]; [mem] is the memory the slices are taken from and
    [cm] the memory of the chain. *)
Definition from_tx_virtq_chain (mem cm : M) (c : DescriptorChain) (max_data_size : u32)
    : DescriptorChain * result VsockError VsockPacket :=
  match chain_next cm c with
  | (c, None) => (c, Err VsockDescriptorChainTooShort)
  | (c, Some chain_head) =>
      if is_write_only chain_head then (c, Err VsockUnexpectedWriteOnlyDescriptor)
      else if d_len chain_head <? PKT_HEADER_SIZE then (c, Err VsockDescriptorLengthTooSmall)
      else
        match gm_get_slice mem (d_addr chain_head) PKT_HEADER_SIZE with
        | Err e => (c, Err (VsockInvalidMemoryAccess e))
        | Ok header_slice =>
            match read_obj PacketHeader mem (d_addr chain_head) with
            | Err e => (c, Err (VsockInvalidMemoryAccess e))
            | Ok header =>
                let pkt := mk_packet header_slice header None in
                if is_empty pkt then (c, Ok pkt)
                else if len pkt >? max_data_size then (c, Err (VsockInvalidHeaderLen (len pkt)))
                else
                  let with_data vs := mk_packet header_slice header (Some vs) in
                  if negb (has_next chain_head) && (d_len chain_head - PKT_HEADER_SIZE >=? len pkt)
                  then
                    match checked_add 64 (d_addr chain_head) PKT_HEADER_SIZE with
                    | None => (c, Err VsockDescriptorLengthTooSmall)
                    | Some addr =>
                        match gm_get_slice mem addr (len pkt) with
                        | Err e => (c, Err (VsockInvalidMemoryAccess e))
                        | Ok data_slice => (c, Ok (with_data data_slice))
                        end
                    end
                  else if negb (has_next chain_head) then (c, Err VsockDescriptorChainTooShort)
                  else
                    match chain_next cm c with
                    | (c, None) => (c, Err VsockDescriptorChainTooShort)
                    | (c, Some data_desc) =>
                        if is_write_only data_desc
                        then (c, Err VsockUnexpectedWriteOnlyDescriptor)
                        else if d_len data_desc <? len pkt
                        then (c, Err VsockDescriptorLengthTooSmall)
                        else
                          match gm_get_slice mem (d_addr data_desc) (len pkt) with
                          | Err e => (c, Err (VsockInvalidMemoryAccess e))
                          | Ok data_slice => (c, Ok (with_data data_slice))
                          end
                    end
            end
        end
  end.

(** [from_rx_virtq_chain]. *)
Definition from_rx_virtq_chain (mem cm : M) (c : DescriptorChain) (max_data_size : u32)
    : DescriptorChain * result VsockError VsockPacket :=
  match chain_next cm c with
  | (c, None) => (c, Err VsockDescriptorChainTooShort)
  | (c, Some chain_head) =>
      if negb (is_write_only chain_head) then (c, Err VsockUnexpectedReadOnlyDescriptor)
      else if d_len chain_head <? PKT_HEADER_SIZE then (c, Err VsockDescriptorLengthTooSmall)
      else
        match gm_get_slice mem (d_addr chain_head) PKT_HEADER_SIZE with
        | Err e => (c, Err (VsockInvalidMemoryAccess e))
        | Ok header_slice =>
            let with_data vs := mk_packet header_slice packet_header_default (Some vs) in
            if negb (has_next chain_head) && (d_len chain_head >? PKT_HEADER_SIZE)
            then
              match checked_add 64 (d_addr chain_head) PKT_HEADER_SIZE with
              | None => (c, Err VsockDescriptorLengthTooSmall)
              | Some addr =>
                  match gm_get_slice mem addr (d_len chain_head - PKT_HEADER_SIZE) with
                  | Err e => (c, Err (VsockInvalidMemoryAccess e))
                  | Ok data_slice => (c, Ok (with_data data_slice))
                  end
              end
            else if negb (has_next chain_head) then (c, Err VsockDescriptorChainTooShort)
            else
              match chain_next cm c with
              | (c, None) => (c, Err VsockDescriptorChainTooShort)
              | (c, Some data_desc) =>
                  if negb (is_write_only data_desc)
                  then (c, Err VsockUnexpectedReadOnlyDescriptor)
                  else if d_len data_desc >? max_data_size
                  then (c, Err VsockDescriptorLengthTooLong)
                  else
                    match gm_get_slice mem (d_addr data_desc) (d_len data_desc) with
                    | Err e => (c, Err (VsockInvalidMemoryAccess e))
                    | Ok data_slice => (c, Ok (with_data data_slice))
                    end
              end
        end
  end.

(** [VsockPacket::new]: the caller's buffers, as slices. *)
Definition vsock_packet_new (header : VolatileSlice) (data : option VolatileSlice)
    : result VsockError VsockPacket :=
  if negb (vs_len header =? PKT_HEADER_SIZE) then Err (VsockInvalidHeaderInputSize (vs_len header))
  else Ok (mk_packet {| vs_addr := vs_addr header; vs_len := PKT_HEADER_SIZE |}
             packet_header_default
             ((fun d => {| vs_addr := vs_addr d; vs_len := vs_len d |}) <$> data)).
End Operations.

(** ** The calls a client makes

    fuzz/common/src/vsock.rs: every method of a packet as data, and the guest
    writing to memory behind its back. *)

Inductive VsockFunction : Type :=
| VHeaderSlice
| VLen
| VDataSlice
| VSrcCid
| VSetSrcCid (cid : u64)
| VDstCid
| VSetDstCid (cid : u64)
| VSrcPort
| VSetSrcPort (port : u32)
| VDstPort
| VSetDstPort (port : u32)
| VIsEmpty
| VSetLen (len : u32)
| VType_
| VSetType (type_ : u16)
| VOp
| VSetOp (op : u16)
| VFlags
| VSetFlags (flags : u32)
| VSetFlag (flag : u32)
| VBufAlloc
| VSetBufAlloc (buf_alloc : u32)
| VFwdCnt
| VSetFwdCnt (fwd_cnt : u32)
| VSetHeaderFromRaw (bytes : list u8)
| V_WriteToMem (addr : u64) (bytes : list u8).

Section Calls.
Context {M : Type} `{GuestMemory M} `{SliceBytes M}.

(** [VsockFunction::call]: results and errors are dropped. *)
Definition vsock_call (f : VsockFunction) : RM (VsockPacket * M) VsockError unit :=
  match f with
  | VHeaderSlice | VLen | VDataSlice | VSrcCid | VDstCid | VSrcPort | VDstPort | VIsEmpty
  | VType_ | VOp | VFlags | VBufAlloc | VFwdCnt => mret tt
  | VSetSrcCid cid => set_src_cid cid
  | VSetDstCid cid => set_dst_cid cid
  | VSetSrcPort port => set_src_port port
  | VSetDstPort port => set_dst_port port
  | VSetLen len => set_len len
  | VSetType type_ => set_type type_
  | VSetOp op => set_op op
  | VSetFlags flags => set_flags flags
  | VSetFlag flag => set_flag flag
  | VSetBufAlloc buf_alloc => set_buf_alloc buf_alloc
  | VSetFwdCnt fwd_cnt => set_fwd_cnt fwd_cnt
  | VSetHeaderFromRaw bytes => _ ← try (set_header_from_raw bytes); mret tt
  | V_WriteToMem addr bytes => fun '(p, m) => Some ((p, fst (gm_write m addr bytes)), Ok tt)
  end.

Fixpoint vsock_calls (fs : list VsockFunction) : RM (VsockPacket * M) VsockError unit :=
  match fs with
  | [] => mret tt
  | f :: fs => _ ← vsock_call f; vsock_calls fs
  end.
End Calls.

(** The specification: what a call does to the header, on its own. *)
Definition header_after (h : PacketHeader) (f : VsockFunction) : PacketHeader :=
  match f with
  | VSetSrcCid v => set_field FSrcCid v h
  | VSetDstCid v => set_field FDstCid v h
  | VSetSrcPort v => set_field FSrcPort v h
  | VSetDstPort v => set_field FDstPort v h
  | VSetLen v => set_field FLen v h
  | VSetType v => set_field FType v h
  | VSetOp v => set_field FOp v h
  | VSetFlags v => set_field FFlags v h
  | VSetFlag v => set_field FFlags (Z.lor (get_field FFlags h) v) h
  | VSetBufAlloc v => set_field FBufAlloc v h
  | VSetFwdCnt v => set_field FFwdCnt v h
  | VSetHeaderFromRaw bytes => if decide (length bytes = bv_size PacketHeader) then bv_decode bytes else h
  | _ => h
  end.

(** What a call does to the header in memory: the same, but [set_flag] starts
    from the flags of the copy. *)
Definition memory_after (copy h : PacketHeader) (f : VsockFunction) : PacketHeader :=
  match f with
  | VSetFlag v => set_field FFlags (Z.lor (get_field FFlags copy) v) h
  | f => header_after h f
  end.

(** The fields a call stores. *)
Definition writes_field (k : HeaderField) (f : VsockFunction) : bool :=
  match f with
  | VSetSrcCid _ => bool_decide (k = FSrcCid)
  | VSetDstCid _ => bool_decide (k = FDstCid)
  | VSetSrcPort _ => bool_decide (k = FSrcPort)
  | VSetDstPort _ => bool_decide (k = FDstPort)
  | VSetLen _ => bool_decide (k = FLen)
  | VSetType _ => bool_decide (k = FType)
  | VSetOp _ => bool_decide (k = FOp)
  | VSetFlags _ | VSetFlag _ => bool_decide (k = FFlags)
  | VSetBufAlloc _ => bool_decide (k = FBufAlloc)
  | VSetFwdCnt _ => bool_decide (k = FFwdCnt)
  | VSetHeaderFromRaw bytes => bool_decide (length bytes = bv_size PacketHeader)
  | _ => false
  end.

Definition is_write_to_mem (f : VsockFunction) : bool :=
  match f with V_WriteToMem _ _ => true | _ => false end.

(** The arguments have the types of the source. *)
Definition args_ok (f : VsockFunction) : Prop :=
  match f with
  | VSetSrcCid v | VSetDstCid v => in_u 64 v
  | VSetType v | VSetOp v => in_u 16 v
  | VSetSrcPort v | VSetDstPort v | VSetLen v | VSetFlags v | VSetFlag v | VSetBufAlloc v
  | VSetFwdCnt v => in_u 32 v
  | VSetHeaderFromRaw bytes => bytes_ok bytes
  | V_WriteToMem addr bytes => in_u 64 addr /\ bytes_ok bytes
  | _ => True
  end.

(** What the packet relies on: accesses inside a backed slice succeed. *)
Class SliceBytesLaws (M : Type) `{GM : GuestMemory M} `{SB : SliceBytes M} : Prop := {
  law_vs_write : forall m vs bs o, range_mapped m (vs_addr vs) (vs_len vs) ->
    bytes_ok bs -> 0 <= o -> o + Z.of_nat (length bs) <= vs_len vs ->
    exists m', vs_write m vs bs o = (m', Ok (Z.of_nat (length bs))) /\
      overwritten m m' (vs_addr vs + o) bs /\ same_layout m m';
  law_vs_read : forall m vs o n, range_mapped m (vs_addr vs) (vs_len vs) ->
    (0 < n)%nat -> 0 <= o -> o + Z.of_nat n <= vs_len vs ->
    exists bs, vs_read m vs o n = Ok bs /\ gm_read m (vs_addr vs + o) n = Ok bs;
}.

(** ** Lemmas *)

(** Reading the fields back. *)
Lemma get_set_field f g v h :
  get_field f (set_field g v h) = if decide (f = g) then v else get_field f h.
Proof. by destruct f, g. Qed.

Lemma field_width_index f : header_widths !! field_index f = Some (field_width f).
Proof. by destruct f. Qed.

Lemma header_fields_set f v h :
  header_fields (set_field f v h) = <[field_index f := v]> (header_fields h).
Proof. by destruct f. Qed.

Lemma set_field_wf f v h :
  bv_wf h -> in_u (8 * Z.of_nat (field_width f)) v -> bv_wf (set_field f v h).
Proof.
  intros Hh Hv. cbn [bv_wf PacketHeader_bv struct_bv] in *. rewrite header_fields_set.
  eapply fields_ok_insert; [done|apply field_width_index|done].
Qed.

Lemma memory_after_self h f : memory_after h h f = header_after h f.
Proof. by destruct f. Qed.

(** A call leaves the fields alone that it does not store, and gives those it
    stores the same value in the copy and in memory. *)
Lemma memory_after_field k copy h f :
  get_field k (memory_after copy h f) =
    if writes_field k f then get_field k (header_after copy f) else get_field k h.
Proof.
  destruct f; cbn [memory_after header_after writes_field]; rewrite ?get_set_field;
    try case_decide; try (by rewrite bool_decide_eq_true_2 by done);
    by rewrite ?bool_decide_eq_false_2 by done.
Qed.

Lemma header_ext h h' : (forall k, get_field k h = get_field k h') -> h = h'.
Proof.
  intros H. destruct h, h'.
  pose proof (H FSrcCid). pose proof (H FDstCid). pose proof (H FSrcPort). pose proof (H FDstPort).
  pose proof (H FLen). pose proof (H FType). pose proof (H FOp). pose proof (H FFlags).
  pose proof (H FBufAlloc). pose proof (H FFwdCnt). cbv in *. congruence.
Qed.

Section PacketFacts.
Context {M : Type} `{GML : GuestMemoryLaws M} `{SBL : SliceBytesLaws M (GM := GM)}.
Implicit Types (m : M) (p : VsockPacket).

(** The header slice has the size of a header and is backed. *)
Definition packet_ok m p : Prop :=
  vs_len (header_slice p) = PKT_HEADER_SIZE /\
  range_mapped m (vs_addr (header_slice p)) PKT_HEADER_SIZE.

(** The copy is what memory holds. *)
Definition coherent m p : Prop :=
  read_obj PacketHeader m (vs_addr (header_slice p)) = Ok (header p).

Lemma read_obj_bytes m a (h : PacketHeader) :
  read_obj PacketHeader m a = Ok h <->
  bv_wf h /\ gm_read m a (bv_size PacketHeader) = Ok (bv_encode h).
Proof.
  split.
  - intros Hr. split; [by eapply read_obj_wf|]. unfold read_obj in Hr.
    destruct (gm_read m a _) as [bs|] eqn:Hg; [|done].
    assert (h = bv_decode bs) as -> by congruence.
    rewrite bv_encode_decode; [done|eapply gm_read_bytes; [|done]; apply bv_size_pos|].
    eapply gm_read_length; [apply bv_size_pos|done].
  - intros [Hwf Hg]. unfold read_obj. by rewrite Hg, bv_decode_encode.
Qed.

(** A store at the place of a field is an update of that field. *)
Lemma store_field m m' a f v h :
  read_obj PacketHeader m a = Ok h -> in_u (8 * Z.of_nat (field_width f)) v ->
  overwritten m m' (a + Z.of_nat (fields_offset header_widths (field_index f)))
    (le_bytes (field_width f) v) ->
  read_obj PacketHeader m' a = Ok (set_field f v h).
Proof.
  intros Hr Hv Ho. apply read_obj_bytes in Hr as [Hwf Hg]. apply read_obj_bytes.
  split; [by apply set_field_wf|].
  pose proof (fields_offset_lt _ _ _ (field_width_index f)) as Hlt.
  pose proof (bv_encode_length h) as Hlen.
  apply law_read in Hg as [_ Hg]; [|apply bv_size_pos].
  apply law_read; [apply bv_size_pos|]. split; [apply bv_encode_length|]. intros i Hi.
  cbn [bv_encode PacketHeader_bv struct_bv] in *. rewrite header_fields_set.
  rewrite (encode_fields_insert _ _ _ (field_width f)); [|done|apply field_width_index].
  set (o := fields_offset _ _) in *. set (bs := encode_fields _ _) in *.
  rewrite Ho, length_le_bytes. change (bv_size PacketHeader) with (sum_list header_widths) in *.
  assert (length (take o bs) = o) as Hto by (rewrite length_take; lia).
  case_decide as Hin.
  - rewrite lookup_app_r, lookup_app_l by (rewrite ?length_le_bytes; lia). f_equal. lia.
  - rewrite Hg by done. destruct (decide (i < o)%nat).
    + by rewrite lookup_app_l, lookup_take_lt by lia.
    + rewrite !lookup_app_r by (rewrite ?length_le_bytes; lia). rewrite lookup_drop.
      rewrite length_le_bytes. f_equal. lia.
Qed.

(** A setter updates the copy and the header in memory. *)
Lemma set_header_field_spec f o v m p :
  packet_ok m p -> in_u (8 * Z.of_nat (field_width f)) v ->
  o = Z.of_nat (fields_offset header_widths (field_index f)) ->
  exists m', set_header_field f o v (p, m) =
      Some ((with_header (set_field f v (header p)) p, m'), Ok tt) /\ same_layout m m' /\
    (forall h, read_obj PacketHeader m (vs_addr (header_slice p)) = Ok h ->
       read_obj PacketHeader m' (vs_addr (header_slice p)) = Ok (set_field f v h)).
Proof.
  intros [Hl Hm] Hv ->. pose proof (fields_offset_lt _ _ _ (field_width_index f)) as Hlt.
  destruct (law_vs_write m (header_slice p) (le_bytes (field_width f) v)
    (Z.of_nat (fields_offset header_widths (field_index f)))) as (m' & Hw & Ho & Hly).
  - by rewrite Hl.
  - apply le_bytes_ok.
  - lia.
  - rewrite length_le_bytes, Hl. change PKT_HEADER_SIZE with (Z.of_nat (sum_list header_widths)). lia.
  - exists m'. unfold set_header_field. cbn [header_slice with_header]. rewrite Hw.
    split; [done|]. split; [done|]. intros h Hc. by eapply store_field.
Qed.

Lemma set_header_from_raw_spec bytes m p :
  packet_ok m p -> bytes_ok bytes -> length bytes = bv_size PacketHeader ->
  exists m', set_header_from_raw bytes (p, m) = Some ((with_header (bv_decode bytes) p, m'), Ok tt) /\
    same_layout m m' /\ coherent m' (with_header (bv_decode bytes) p).
Proof.
  intros [Hl Hm] Hb Hlen. unfold set_header_from_raw.
  change PKT_HEADER_SIZE with (Z.of_nat (bv_size PacketHeader)) in *.
  rewrite Hlen, Z.eqb_refl. cbn [negb].
  destruct (law_vs_write m (header_slice p) bytes 0) as (m' & -> & Ho & Hly);
    [by rewrite Hl|done|lia|lia|]. rewrite Z.add_0_r in Ho.
  destruct (law_vs_read m' (header_slice p) 0 (bv_size PacketHeader)) as (bs & -> & Hr);
    [rewrite Hl; by eapply same_layout_mapped|apply bv_size_pos|lia|lia|]. rewrite Z.add_0_r in Hr.
  assert (gm_read m' (vs_addr (header_slice p)) (bv_size PacketHeader) = Ok bytes) as Hg.
  { rewrite <- Hlen. apply (overwritten_read m); [|done]. intros ->. discriminate Hlen. }
  rewrite Hr in Hg. injection Hg as ->. exists m'. split; [done|]. split; [done|].
  unfold coherent, read_obj. cbn [header_slice with_header header]. by rewrite Hr.
Qed.

Lemma with_header_self p : with_header (header p) p = p.
Proof. by destruct p. Qed.

Lemma header_flags_u h : bv_wf h -> in_u 32 (get_field FFlags h).
Proof.
  cbn [bv_wf PacketHeader_bv struct_bv]. unfold header_widths, header_fields. rewrite !fields_ok_cons.
  naive_solver.
Qed.

Lemma header_after_wf f h : args_ok f -> bv_wf h -> bv_wf (header_after h f).
Proof.
  intros Ha Hh. destruct f; cbn [header_after args_ok] in *; try done; try (by apply set_field_wf).
  - apply set_field_wf; [done|]. apply lor_u; [lia|by apply header_flags_u|done].
  - case_decide; [|done]. by apply bv_decode_wf.
Qed.

(** One call: total, and with the effect of the specification. *)
Lemma vsock_call_spec f m p :
  packet_ok m p -> bv_wf (header p) -> args_ok f ->
  exists m', vsock_call f (p, m) = Some ((with_header (header_after (header p) f) p, m'), Ok tt) /\
    same_layout m m' /\
    (is_write_to_mem f = false ->
     forall h, read_obj PacketHeader m (vs_addr (header_slice p)) = Ok h ->
       read_obj PacketHeader m' (vs_addr (header_slice p)) = Ok (memory_after (header p) h f)).
Proof.
  intros Hp Hwf Ha.
  assert (forall g o v, header_after (header p) f = set_field g v (header p) ->
    (forall h, memory_after (header p) h f = set_field g v h) ->
    in_u (8 * Z.of_nat (field_width g)) v -> o = Z.of_nat (fields_offset header_widths (field_index g)) ->
    vsock_call f (p, m) = set_header_field g o v (p, m) ->
    exists m', vsock_call f (p, m) = Some ((with_header (header_after (header p) f) p, m'), Ok tt) /\
      same_layout m m' /\ (is_write_to_mem f = false ->
      forall h, read_obj PacketHeader m (vs_addr (header_slice p)) = Ok h ->
        read_obj PacketHeader m' (vs_addr (header_slice p)) = Ok (memory_after (header p) h f))) as Hset.
  { intros g o v -> Hma Hv Ho ->.
    destruct (set_header_field_spec g o v m p Hp Hv Ho) as (m' & ? & ? & ?).
    exists m'. split; [done|]. split; [done|]. intros _ h. rewrite Hma. auto. }
  destruct f; try (eapply Hset; cycle 4; [reflexivity|done|done|done|done]);
    try (exists m; cbn [header_after memory_after]; rewrite with_header_self;
         by split; [|split; [apply same_layout_refl|]]).
  - apply (Hset FFlags FLAGS_OFFSET (Z.lor (get_field FFlags (header p)) flag));
      [done|done| |done|done].
    apply lor_u; [done|by apply header_flags_u|done].
  - cbn [header_after memory_after args_ok vsock_call is_write_to_mem] in *. case_decide as Hl.
    + destruct (set_header_from_raw_spec bytes m p Hp Ha Hl) as (m' & Hr & ? & ?). exists m'.
      rewrite rm_bind_unfold. unfold try. rewrite Hr. by split_and!.
    + exists m. rewrite rm_bind_unfold. unfold try, set_header_from_raw, PKT_HEADER_SIZE.
      rewrite (proj2 (Z.eqb_neq _ _)) by lia. rewrite with_header_self.
      by split; [|split; [apply same_layout_refl|]].
  - simpl in *. destruct Ha as [_ Hb]. exists (fst (gm_write m addr bytes)).
    rewrite with_header_self. by split; [|split; [apply law_write_layout|]].
Qed.
End PacketFacts.
