(* ===== verification/VsockProperties.v ===== *)
(** * What a vsock packet guarantees

    Which chains [from_tx_virtq_chain] and [from_rx_virtq_chain] accept, where
    the slices of the packet lie, and that its header is not affected by what
    the guest does to memory afterwards. *)

From stdpp Require Import base numbers list option.
From S2P Require Import Prelude Bytes GuestMemory FlatMemory Descriptor Chain VsockPacket.

Section Layouts.
Context {M : Type} `{GuestMemory M}.
Implicit Types mem : M.

(** A head descriptor of the given direction with the slice of a header. *)
Record packet_head (write_only : bool) mem (hd : Descriptor) (hs : VolatileSlice) : Prop := {
  hd_direction : is_write_only hd = write_only;
  hd_size : PKT_HEADER_SIZE <= d_len hd;
  hd_slice : gm_get_slice mem (d_addr hd) PKT_HEADER_SIZE = Ok hs;
}.

(** The packets of a transmit chain: without data, with the data after the
    header, with the data in a descriptor of its own. *)
Inductive tx_packet mem (max : Z) : list Descriptor -> VsockPacket -> Prop :=
| tx_header_only hd rest hs h :
    packet_head false mem hd hs -> read_obj PacketHeader mem (d_addr hd) = Ok h ->
    ph_len h = 0 ->
    tx_packet mem max (hd :: rest) (mk_packet hs h None)
| tx_same_descriptor hd rest hs h vs :
    packet_head false mem hd hs -> read_obj PacketHeader mem (d_addr hd) = Ok h ->
    ph_len h <> 0 -> ph_len h <= max -> has_next hd = false ->
    PKT_HEADER_SIZE + ph_len h <= d_len hd -> d_addr hd + PKT_HEADER_SIZE < 2 ^ 64 ->
    gm_get_slice mem (d_addr hd + PKT_HEADER_SIZE) (ph_len h) = Ok vs ->
    tx_packet mem max (hd :: rest) (mk_packet hs h (Some vs))
| tx_own_descriptor hd dd rest hs h vs :
    packet_head false mem hd hs -> read_obj PacketHeader mem (d_addr hd) = Ok h ->
    ph_len h <> 0 -> ph_len h <= max -> has_next hd = true ->
    is_write_only dd = false -> ph_len h <= d_len dd ->
    gm_get_slice mem (d_addr dd) (ph_len h) = Ok vs ->
    tx_packet mem max (hd :: dd :: rest) (mk_packet hs h (Some vs)).

(** The packet of a receive chain that is laid out as documented: a descriptor
    for the header and one for at most [max] bytes of data.  The header is not
    read. *)
Inductive rx_packet mem (max : Z) : list Descriptor -> VsockPacket -> Prop :=
| rx_own_descriptor hd dd rest hs vs :
    packet_head true mem hd hs -> has_next hd = true ->
    is_write_only dd = true -> d_len dd <= max ->
    gm_get_slice mem (d_addr dd) (d_len dd) = Ok vs ->
    rx_packet mem max (hd :: dd :: rest) (mk_packet hs packet_header_default (Some vs)).

(** The packet of a receive chain of one descriptor: the data is all that
    follows the header, whatever the maximum. *)
Inductive rx_packet_merged mem : list Descriptor -> VsockPacket -> Prop :=
| rx_same_descriptor hd rest hs vs :
    packet_head true mem hd hs -> has_next hd = false ->
    PKT_HEADER_SIZE < d_len hd -> d_addr hd + PKT_HEADER_SIZE < 2 ^ 64 ->
    gm_get_slice mem (d_addr hd + PKT_HEADER_SIZE) (d_len hd - PKT_HEADER_SIZE) = Ok vs ->
    rx_packet_merged mem (hd :: rest) (mk_packet hs packet_header_default (Some vs)).

(** Every byte of a slice is backed and inside a descriptor of the chain of
    the given direction. *)
Definition slice_inside mem (write_only : bool) (ds : list Descriptor) (vs : VolatileSlice) : Prop :=
  range_mapped mem (vs_addr vs) (vs_len vs) /\
  exists d, d ∈ ds /\ is_write_only d = write_only /\
    d_addr d <= vs_addr vs /\ vs_addr vs + vs_len vs <= d_addr d + d_len d.

(** The packet is the result of one of the two constructors. *)
Definition made_from_chain mem (cm : M) (c : DescriptorChain) (max : Z) (p : VsockPacket) : Prop :=
  exists c', from_tx_virtq_chain mem cm c max = (c', Ok p) \/
    from_rx_virtq_chain mem cm c max = (c', Ok p).
End Layouts.

Section VsockProperties.
Context {M : Type} `{GML : GuestMemoryLaws M} `{SBL : SliceBytesLaws M (GM := GM)}.
Implicit Types (m mem cm : M) (p : VsockPacket) (c : DescriptorChain).

(** Follow the branches of a constructor that returned. *)
Ltac branches :=
  repeat (case_match; simplify_eq/=); zbool.

Lemma head_slices wo mem hd hs : packet_head wo mem hd hs ->
  hs = {| vs_addr := d_addr hd; vs_len := PKT_HEADER_SIZE |} /\
  range_mapped mem (d_addr hd) PKT_HEADER_SIZE.
Proof. intros []. by apply law_slice. Qed.

Lemma from_tx_sound mem cm c max c' p :
  chain_wf c -> from_tx_virtq_chain mem cm c max = (c', Ok p) ->
  tx_packet mem max (chain_descriptors cm c) p.
Proof.
  intros Hwf Ht. rewrite chain_descriptors_unfold by done. unfold from_tx_virtq_chain in Ht.
  destruct (chain_next cm c) as [c1 [hd|]] eqn:Hn; [|done].
  pose proof (chain_next_wf _ _ _ _ Hwf Hn) as Hwf1.
  destruct (is_write_only hd) eqn:Hwo; [done|]. destruct (d_len hd <? _) eqn:Hlen; [done|]. zbool.
  destruct (gm_get_slice mem (d_addr hd) _) as [hs|] eqn:Hs; [|done].
  destruct (read_obj PacketHeader mem (d_addr hd)) as [h|] eqn:Hh; [|done].
  assert (packet_head false mem hd hs) as Hhd by done.
  unfold is_empty, len in Ht. cbn [header] in Ht. destruct (ph_len h =? 0) eqn:H0; zbool.
  { simplify_eq. by apply tx_header_only. }
  destruct (_ >? _) eqn:Hmax; [done|]. zbool. destruct (negb _ && _) eqn:Hone; zbool.
  - destruct (checked_add _ _ _) as [a|] eqn:Ha; [|done]. apply checked_add_Some in Ha as [? ->].
    destruct (gm_get_slice mem _ (ph_len h)) as [vs|] eqn:Hv; [|done]. simplify_eq.
    apply tx_same_descriptor; try done. lia.
  - destruct (has_next hd) eqn:Hnx; [|done]. cbn [negb] in Ht.
    rewrite (chain_descriptors_unfold cm c1) by done.
    destruct (chain_next cm c1) as [c2 [dd|]] eqn:Hn2; [|done].
    destruct (is_write_only dd) eqn:Hdw; [done|]. destruct (d_len dd <? _) eqn:Hdl; [done|]. zbool.
    destruct (gm_get_slice mem _ (ph_len h)) as [vs|] eqn:Hv; [|done]. simplify_eq.
    by apply tx_own_descriptor.
Qed.

(** The chain a constructor sees, from the descriptors of the chain. *)
Lemma chain_next_cons cm c d ds :
  chain_wf c -> chain_descriptors cm c = d :: ds ->
  exists c', chain_next cm c = (c', Some d) /\ chain_wf c' /\ chain_descriptors cm c' = ds.
Proof.
  intros Hwf. rewrite chain_descriptors_unfold by done.
  destruct (chain_next cm c) as [c' [d'|]] eqn:Hn; [|done]. intros [= -> <-].
  exists c'. split; [done|]. split; [by eapply chain_next_wf|done].
Qed.

Lemma from_tx_complete mem cm c max p :
  chain_wf c -> tx_packet mem max (chain_descriptors cm c) p ->
  exists c', from_tx_virtq_chain mem cm c max = (c', Ok p).
Proof.
  intros Hwf Ht. remember (chain_descriptors cm c) as ds eqn:Hds. symmetry in Hds.
  destruct Ht as [hd rest hs h [Hwo Hl Hs] Hr H0|hd rest hs h vs [Hwo Hl Hs] Hr H0 Hm Hnx Hln Ha Hv
    |hd dd rest hs h vs [Hwo Hl Hs] Hr H0 Hm Hnx Hdw Hdl Hv];
    destruct (chain_next_cons _ _ _ _ Hwf Hds) as (c1 & Hn & Hwf1 & Hds1);
    unfold from_tx_virtq_chain; rewrite Hn, Hwo, Hs, Hr, (proj2 (Z.ltb_ge _ _) Hl);
    unfold is_empty, len; cbn [header].
  - rewrite H0. by eexists.
  - rewrite (proj2 (Z.eqb_neq _ _) H0), Z.gtb_ltb, (proj2 (Z.ltb_ge _ _) Hm), Hnx, Z.geb_leb.
    rewrite (proj2 (Z.leb_le _ _)) by lia. cbn [negb andb].
    rewrite (proj2 (checked_add_Some 64 _ _ _)) by done. rewrite Hv. by eexists.
  - rewrite (proj2 (Z.eqb_neq _ _) H0), Z.gtb_ltb, (proj2 (Z.ltb_ge _ _) Hm), Hnx. cbn [negb andb].
    destruct (chain_next_cons _ _ _ _ Hwf1 Hds1) as (c2 & -> & _).
    rewrite Hdw, (proj2 (Z.ltb_ge _ _) Hdl), Hv. by eexists.
Qed.

Lemma from_rx_sound mem cm c max c' p :
  chain_wf c -> from_rx_virtq_chain mem cm c max = (c', Ok p) ->
  rx_packet mem max (chain_descriptors cm c) p \/ rx_packet_merged mem (chain_descriptors cm c) p.
Proof.
  intros Hwf Ht. rewrite chain_descriptors_unfold by done. unfold from_rx_virtq_chain in Ht.
  destruct (chain_next cm c) as [c1 [hd|]] eqn:Hn; [|done].
  pose proof (chain_next_wf _ _ _ _ Hwf Hn) as Hwf1.
  destruct (is_write_only hd) eqn:Hwo; [|done]. cbn [negb] in Ht.
  destruct (d_len hd <? _) eqn:Hlen; [done|]. zbool.
  destruct (gm_get_slice mem (d_addr hd) _) as [hs|] eqn:Hs; [|done].
  assert (packet_head true mem hd hs) as Hhd by done.
  destruct (negb _ && _) eqn:Hone; zbool.
  - destruct (checked_add _ _ _) as [a|] eqn:Ha; [|done]. apply checked_add_Some in Ha as [? ->].
    destruct (gm_get_slice mem _ (d_len hd - _)) as [vs|] eqn:Hv; [|done]. simplify_eq.
    right. by apply rx_same_descriptor.
  - destruct (has_next hd) eqn:Hnx; [|done]. cbn [negb] in Ht.
    rewrite (chain_descriptors_unfold cm c1) by done.
    destruct (chain_next cm c1) as [c2 [dd|]] eqn:Hn2; [|done].
    destruct (is_write_only dd) eqn:Hdw; [|done]. cbn [negb] in Ht.
    destruct (d_len dd >? max) eqn:Hdl; [done|]. zbool.
    destruct (gm_get_slice mem _ (d_len dd)) as [vs|] eqn:Hv; [|done]. simplify_eq.
    left. by apply rx_own_descriptor.
Qed.

Lemma from_rx_complete mem cm c max p :
  chain_wf c ->
  rx_packet mem max (chain_descriptors cm c) p \/ rx_packet_merged mem (chain_descriptors cm c) p ->
  exists c', from_rx_virtq_chain mem cm c max = (c', Ok p).
Proof.
  intros Hwf Ht. remember (chain_descriptors cm c) as ds eqn:Hds. symmetry in Hds.
  destruct Ht as [Ht|Ht]; [destruct Ht as [hd dd rest hs vs [Hwo Hl Hs] Hnx Hdw Hdl Hv]
                          |destruct Ht as [hd rest hs vs [Hwo Hl Hs] Hnx Hln Ha Hv]];
    destruct (chain_next_cons _ _ _ _ Hwf Hds) as (c1 & Hn & Hwf1 & Hds1);
    unfold from_rx_virtq_chain; rewrite Hn, Hwo, Hs, Hnx, (proj2 (Z.ltb_ge _ _) Hl); cbn [negb andb].
  - destruct (chain_next_cons _ _ _ _ Hwf1 Hds1) as (c2 & -> & _).
    rewrite Hdw, Z.gtb_ltb, (proj2 (Z.ltb_ge _ _) Hdl), Hv. by eexists.
  - rewrite Z.gtb_ltb, (proj2 (Z.ltb_lt _ _) Hln).
    rewrite (proj2 (checked_add_Some 64 _ _ _)) by done. rewrite Hv. by eexists.
Qed.

Lemma slice_inside_intro mem wo ds d a n vs :
  gm_get_slice mem a n = Ok vs -> d ∈ ds -> is_write_only d = wo ->
  d_addr d <= a -> a + n <= d_addr d + d_len d -> slice_inside mem wo ds vs.
Proof.
  intros Hv Hd Hw Hlo Hhi. apply law_slice in Hv as [-> Hm]. split; [done|]. by exists d.
Qed.

Lemma head_inside wo mem hd hs rest :
  packet_head wo mem hd hs -> slice_inside mem wo (hd :: rest) hs.
Proof. intros []. eapply slice_inside_intro; [done|by left|done|lia|lia]. Qed.

Lemma tx_inside mem max ds p : tx_packet mem max ds p ->
  coherent mem p /\ packet_ok mem p /\ slice_inside mem false ds (header_slice p) /\
  match data_slice p with
  | None => len p = 0
  | Some vs => vs_len vs = len p /\ len p <= max /\ slice_inside mem false ds vs
  end.
Proof.
  assert (PKT_HEADER_SIZE = 44) as H44 by done.
  destruct 1 as [hd rest hs h Hh Hr H0|hd rest hs h vs Hh Hr H0 Hm Hnx Hln Ha Hv
    |hd dd rest hs h vs Hh Hr H0 Hm Hnx Hdw Hdl Hv];
    destruct (head_slices _ _ _ _ Hh) as [Heq Hmp]; unfold coherent, packet_ok; rewrite Heq in *;
    cbn [header_slice header data_slice vs_addr vs_len];
    (split; [done|]); (split; [done|]); (split; [by apply head_inside|]); [done|..].
  - pose proof (law_slice _ _ _ _ Hv) as [-> _]. split; [done|]. split; [done|].
    eapply slice_inside_intro; [done|by left|by destruct Hh|lia|lia].
  - pose proof (law_slice _ _ _ _ Hv) as [-> _]. split; [done|]. split; [done|].
    eapply slice_inside_intro; [done|by right; left|done|lia|lia].
Qed.

Lemma rx_inside mem max ds p :
  rx_packet mem max ds p \/ rx_packet_merged mem ds p ->
  packet_ok mem p /\ header p = packet_header_default /\
  slice_inside mem true ds (header_slice p) /\
  exists vs, data_slice p = Some vs /\ slice_inside mem true ds vs.
Proof.
  assert (PKT_HEADER_SIZE = 44) as H44 by done.
  intros [[hd dd rest hs vs Hh Hnx Hdw Hdl Hv]|[hd rest hs vs Hh Hnx Hln Ha Hv]];
    destruct (head_slices _ _ _ _ Hh) as [Heq Hmp]; unfold packet_ok; rewrite Heq in *;
    cbn [header_slice header data_slice vs_addr vs_len];
    (split; [done|]); (split; [done|]); (split; [by apply head_inside|]); exists vs; (split; [done|]).
  - eapply slice_inside_intro; [done|by right; left|done|lia|lia].
  - eapply slice_inside_intro; [done|by left|by destruct Hh|lia|lia].
Qed.


(** C30: a packet never reaches outside of the buffers the driver gave: the header and data
    slices are backed memory inside descriptors of the chain of the right direction, a
    transmitted payload has the length the header names and respects the limit, and the
    header copy is what the chain held. *)
Theorem packet_slices_inside mem cm c max c' p :
  chain_wf c ->
  (from_tx_virtq_chain mem cm c max = (c', Ok p) ->
    coherent mem p /\ slice_inside mem false (chain_descriptors cm c) (header_slice p) /\
    match data_slice p with
    | None => len p = 0
    | Some vs => vs_len vs = len p /\ len p <= max /\
                 slice_inside mem false (chain_descriptors cm c) vs
    end) /\
  (from_rx_virtq_chain mem cm c max = (c', Ok p) ->
    header p = packet_header_default /\
    slice_inside mem true (chain_descriptors cm c) (header_slice p) /\
    exists vs, data_slice p = Some vs /\ slice_inside mem true (chain_descriptors cm c) vs).
Proof.
  intros Hwf. split; intros Ht.
  - by destruct (tx_inside _ _ _ _ (from_tx_sound _ _ _ _ _ _ Hwf Ht)) as (? & _ & ? & ?).
  - by destruct (rx_inside _ _ _ _ (from_rx_sound _ _ _ _ _ _ Hwf Ht)) as (_ & ? & ? & ?).
Qed.

(** A packet of a constructor lies in memory and has a well-formed header. *)
Lemma made_packet_ok mem cm c max p :
  chain_wf c -> made_from_chain mem cm c max p -> packet_ok mem p /\ bv_wf (header p).
Proof.
  intros Hwf [c' [Ht|Ht]].
  - destruct (tx_inside _ _ _ _ (from_tx_sound _ _ _ _ _ _ Hwf Ht)) as (Hc & ? & _).
    split; [done|]. by eapply read_obj_wf.
  - destruct (rx_inside _ _ _ _ (from_rx_sound _ _ _ _ _ _ Hwf Ht)) as (? & -> & _).
    split; [done|]. by repeat constructor.
Qed.

(** Fields of the copy that no call stores keep their value. *)
Lemma unwritten_fields k fs h :
  existsb (writes_field k) fs = false -> get_field k (foldl header_after h fs) = get_field k h.
Proof.
  revert h. induction fs as [|f fs IH]; intros h He; [done|].
  cbn [existsb] in He. apply orb_false_iff in He as [Hf He]. cbn [foldl]. rewrite IH by done.
  rewrite <- memory_after_self, memory_after_field. by rewrite Hf.
Qed.

(** The calls run, and without interference memory holds what they stored. *)
Lemma packet_calls_run fs p m :
  packet_ok m p -> bv_wf (header p) -> Forall args_ok fs ->
  exists m', vsock_calls fs (p, m) =
      Some ((with_header (foldl header_after (header p) fs) p, m'), Ok tt) /\
    (Forall (fun f => is_write_to_mem f = false) fs ->
     forall h, read_obj PacketHeader m (vs_addr (header_slice p)) = Ok h ->
     exists h', read_obj PacketHeader m' (vs_addr (header_slice p)) = Ok h' /\
       forall k, get_field k h' =
         if existsb (writes_field k) fs then get_field k (foldl header_after (header p) fs)
         else get_field k h).
Proof.
  intros Hp Hh Hfs. revert p m Hp Hh. induction Hfs as [|f fs Hf _ IH]; intros p m Hp Hh.
  { exists m. simpl. rewrite with_header_self. eauto. }
  destruct (vsock_call_spec f m p Hp Hh Hf) as (m1 & Hc & Hly & Hco).
  set (p1 := with_header (header_after (header p) f) p) in *.
  destruct (IH p1 m1) as (m2 & Hr & Hco2).
  { destruct Hp as [? Hm]. split; [done|]. by eapply same_layout_mapped. }
  { by apply header_after_wf. }
  exists m2. cbn [vsock_calls]. rewrite rm_bind_unfold, Hc. split; [exact Hr|].
  intros Hall h Hrd. apply list.Forall_cons in Hall as [Hw Hall].
  destruct (Hco2 Hall _ (Hco Hw h Hrd)) as (h' & Hh' & Hk). exists h'. split; [exact Hh'|].
  intros k. rewrite Hk, memory_after_field. cbn [existsb foldl header with_header p1].
  destruct (existsb (writes_field k) fs) eqn:He; [by rewrite orb_true_r|rewrite orb_false_r].
  destruct (writes_field k f); [|done]. symmetry. by apply unwritten_fields.
Qed.

(** C29: after a packet is made, whatever calls follow and whatever the guest stores to
    memory in between, no call panics and the header the device sees is the one the calls
    describe, starting from the copy the packet was made with.  As long as the guest does not
    interfere, memory holds a header in which every field that some call has stored agrees with
    the copy, and every other field is what memory held before; hence the header of a transmitted
    packet, whose copy was read from memory, stays equal to the copy, while the fields of a
    received packet that no call has set remain what the guest left there. *)
Theorem packet_calls_refine mem cm c max p fs :
  chain_wf c ->
  made_from_chain mem cm c max p ->
  Forall args_ok fs ->
  exists m', vsock_calls fs (p, mem) =
      Some ((with_header (foldl header_after (header p) fs) p, m'), Ok tt) /\
    (Forall (fun f => is_write_to_mem f = false) fs ->
     (exists h0 h', read_obj PacketHeader mem (vs_addr (header_slice p)) = Ok h0 /\
        read_obj PacketHeader m' (vs_addr (header_slice p)) = Ok h' /\
        forall k, get_field k h' =
          if existsb (writes_field k) fs then get_field k (foldl header_after (header p) fs)
          else get_field k h0) /\
     (forall c', from_tx_virtq_chain mem cm c max = (c', Ok p) ->
        coherent m' (with_header (foldl header_after (header p) fs) p))).
Proof.
  intros Hwf Ht Hfs. destruct (made_packet_ok mem cm c max p Hwf Ht) as [Hp Hh].
  destruct (packet_calls_run fs p mem Hp Hh Hfs) as (m' & Hr & Hm). exists m'. split; [done|].
  intros Hall. split.
  - destruct (read_obj_succeeds (T := PacketHeader) mem (vs_addr (header_slice p))) as [h0 H0];
      [apply Hp|]. destruct (Hm Hall h0 H0) as (h' & ? & ?). by exists h0, h'.
  - intros c' Htx.
    destruct (tx_inside _ _ _ _ (from_tx_sound _ _ _ _ _ _ Hwf Htx)) as (Hc & _).
    destruct (Hm Hall _ Hc) as (h' & Hh' & Hk). unfold coherent. cbn [header_slice with_header header].
    rewrite Hh'. f_equal. apply header_ext. intros k. rewrite Hk.
    destruct (existsb _ fs) eqn:He; [done|]. symmetry. by apply unwritten_fields.
Qed.
End VsockProperties.

(** ** Slices of the concrete memory *)

Definition fm_vs_write (m : FlatMem) (vs : VolatileSlice) (bs : list Z) (o : Z)
    : FlatMem * result Z Z :=
  if decide (bs = []) then (m, Ok 0)
  else if vs_len vs <=? o then (m, Err 0)
  else
    let n := Z.min (Z.of_nat (length bs)) (vs_len vs - o) in
    let '(m', r) := gm_write m (vs_addr vs + o) (take (Z.to_nat n) bs) in
    (m', match r with Ok _ => Ok n | Err _ => Err 1 end).

Definition fm_vs_read (m : FlatMem) (vs : VolatileSlice) (o : Z) (n : nat) : result Z (list Z) :=
  if vs_len vs <? o + Z.of_nat n then Err 0
  else map_err (fun _ => 1) (gm_read m (vs_addr vs + o) n).

Global Instance FlatMem_SliceBytes : SliceBytes FlatMem := {|
  vs_write := fm_vs_write;
  vs_read := fm_vs_read;
|}.

Global Instance FlatMem_SliceBytesLaws : SliceBytesLaws FlatMem.
Proof.
  split; cbn [vs_write vs_read FlatMem_SliceBytes].
  - intros m vs bs o Hm Hb Ho Hl. unfold fm_vs_write. case_decide as Hnil.
    { subst bs. exists m. split; [done|]. split; [|apply same_layout_refl].
      intros x. by rewrite decide_False by (simpl; lia). }
    assert (0 < length bs)%nat by (destruct bs; simpl; [done|lia]).
    rewrite (proj2 (Z.leb_gt _ _)), Z.min_l, Nat2Z.id, firstn_all by lia.
    assert (snd (gm_write m (vs_addr vs + o) bs) = Ok tt) as Hok.
    { apply law_write_success; [done|done|]. intros x Hx. apply Hm. lia. }
    pose proof (law_write_layout m (vs_addr vs + o) bs Hb) as Hly.
    destruct (gm_write m (vs_addr vs + o) bs) as [m' r] eqn:Hw. cbn [fst snd] in *. subst r.
    exists m'. split; [done|]. split; [by apply law_write|done].
  - intros m vs o n Hm Hn Ho Hl. unfold fm_vs_read. rewrite (proj2 (Z.ltb_ge _ _)) by lia.
    destruct (gm_read_succeeds m (vs_addr vs + o) n) as [bs Hbs]; [done| |].
    { intros x Hx. apply Hm. lia. }
    exists bs. by rewrite Hbs.
Qed.

(** ** Concrete runs *)

Module VsockExamples.
(** A transmit chain with a header at 0x5000 that names 16 bytes of data, and
    a receive chain of one writable descriptor of 256 bytes. *)
Definition tx_table : list (Z * Descriptor) := [
  (0x1000, descriptor_new 0x5000 44 VRING_DESC_F_NEXT 1);
  (0x1010, descriptor_new 0x6000 64 0 0)].
Definition rx_table : list (Z * Descriptor) := [
  (0x1000, descriptor_new 0x5000 256 VRING_DESC_F_WRITE 0)].

Definition mem_with (table : list (Z * Descriptor)) : FlatMem :=
  foldl (fun m '(a, d) => fst (write_obj m (raw_of_split d) a)) (from_ranges [(0, 0x10000)]) table.

Definition tx_header : PacketHeader := mk_packet_header 3 2 1024 80 16 1 5 0 4096 0.
Definition tx_mem : FlatMem := fst (write_obj (mem_with tx_table) tx_header 0x5000).
Definition rx_mem : FlatMem := mem_with rx_table.
Definition vsock_chain : DescriptorChain := chain_new 0x1000 4 0.

Definition tx_pkt : VsockPacket :=
  mk_packet {| vs_addr := 0x5000; vs_len := 44 |} tx_header
    (Some {| vs_addr := 0x6000; vs_len := 16 |}).

(** The receive chain with what the guest left in its buffer. *)
Definition rx_dirty : FlatMem := fst (gm_write rx_mem 0x5000 (replicate 44 255)).
Definition rx_pkt : VsockPacket :=
  mk_packet {| vs_addr := 0x5000; vs_len := 44 |} packet_header_default
    (Some {| vs_addr := 0x502c; vs_len := 212 |}).

Lemma vsock_chain_wf : chain_wf vsock_chain.
Proof. apply chain_new_wf; by vm_compute. Qed.

Lemma tx_run : exists c', from_tx_virtq_chain tx_mem tx_mem vsock_chain 4096 = (c', Ok tx_pkt).
Proof. eexists. vm_compute. reflexivity. Qed.

Lemma rx_run : exists c', from_rx_virtq_chain rx_dirty rx_dirty vsock_chain 4096 = (c', Ok rx_pkt).
Proof. eexists. vm_compute. reflexivity. Qed.
End VsockExamples.
Import VsockExamples.


Lemma packet_slices_inside_witness :
  coherent tx_mem tx_pkt /\ len tx_pkt = 16 /\
  slice_inside tx_mem false (chain_descriptors tx_mem vsock_chain) (header_slice tx_pkt).
Proof.
  destruct tx_run as [c' Hr].
  destruct (proj1 (packet_slices_inside tx_mem tx_mem vsock_chain 4096 c' tx_pkt vsock_chain_wf) Hr)
    as (Hc & Hs & _).
  split; [exact Hc|]. split; [reflexivity|exact Hs].
Defined.

(** The guest overwrites the header and the payload length it named, and the
    device still sees 16 bytes.  In a received packet the field that is set is
    stored, and the others keep what the guest left in memory. *)
Lemma packet_calls_refine_witness :
  (exists m', vsock_calls [V_WriteToMem 0x5000 (replicate 44 255); VSetOp 7; VSetFlag 2; VLen]
      (tx_pkt, tx_mem) =
      Some ((mk_packet (header_slice tx_pkt) (mk_packet_header 3 2 1024 80 16 1 7 2 4096 0)
        (data_slice tx_pkt), m'), Ok tt)) /\
  (exists m' h', vsock_calls [VSetOp 7] (rx_pkt, rx_dirty) =
      Some ((with_header (mk_packet_header 0 0 0 0 0 0 7 0 0 0) rx_pkt, m'), Ok tt) /\
    read_obj PacketHeader m' 0x5000 = Ok h' /\
    get_field FOp h' = 7 /\ get_field FLen h' = 0xffffffff).
Proof.
  split.
  - destruct tx_run as [c' Hr].
    destruct (packet_calls_refine tx_mem tx_mem vsock_chain 4096 tx_pkt
      [V_WriteToMem 0x5000 (replicate 44 255); VSetOp 7; VSetFlag 2; VLen] vsock_chain_wf
      (ex_intro _ c' (or_introl Hr))) as (m' & Hm & _).
    + repeat constructor; try (vm_compute; intuition congruence).
    + exists m'. exact Hm.
  - destruct rx_run as [c' Hr].
    destruct (packet_calls_refine rx_dirty rx_dirty vsock_chain 4096 rx_pkt
      [VSetOp 7] vsock_chain_wf (ex_intro _ c' (or_intror Hr))) as (m' & Hm & Hh).
    + repeat constructor; try (vm_compute; intuition congruence).
    + destruct Hh as [(h0 & h' & H0 & Hh' & Hk) _]; [by repeat constructor|].
      exists m', h'. split; [exact Hm|]. split; [exact Hh'|]. split.
      * exact (Hk FOp).
      * rewrite (Hk FLen). simpl.
        assert (read_obj PacketHeader rx_dirty (vs_addr (header_slice rx_pkt)) =
          Ok (bv_decode (replicate 44 255))) as Hd by (vm_compute; reflexivity).
        rewrite Hd in H0. injection H0 as <-. vm_compute. reflexivity.
Defined.

(** [max_data_size] does not bound a receive packet whose header and data share one
    descriptor: with a limit of 16 the packet still has 212 bytes of data. *)
Theorem rx_limit_not_applied :
  exists c' p vs, from_rx_virtq_chain rx_mem rx_mem vsock_chain 16 = (c', Ok p) /\
    data_slice p = Some vs /\ vs_len vs = 212.
Proof. eexists _, _, _. vm_compute. by split. Qed.
