(* ===== verification/VsockDriver.v ===== *)
(** * A driver and the vsock device together

    Packets between a driver and the device.  To transmit, the driver stores
    the header and the payload and describes them in a chain it builds with
    the mock driver of virtio-queue; to receive, the device fills a chain of
    writable buffers through the setters and the data slice of a
    [VsockPacket], the way virtio-vsock/src/packet.rs documents it. *)

From stdpp Require Import base numbers list option.
From S2P Require Import Prelude Bytes GuestMemory FlatMemory Descriptor Chain Queue QueueFacts Mock.
From S2P Require Import VsockPacket VsockProperties.

(** ** Transmission *)

(** Where a driver puts a packet: a queue of [vp_len] entries at [vp_start],
    the header and the payload; [vp_joined] when one descriptor holds both. *)
Record vsock_placement : Type := mk_vsock_placement {
  vp_start : u64;
  vp_len : u16;
  vp_header : u64;
  vp_data : u64;
  vp_joined : bool;
}.

(** The descriptors of a packet with a payload of [n] bytes. *)
Definition packet_descs (pl : vsock_placement) (n : Z) : list Descriptor :=
  if n =? 0 then [descriptor_new (vp_header pl) PKT_HEADER_SIZE 0 0]
  else if vp_joined pl then [descriptor_new (vp_header pl) (PKT_HEADER_SIZE + n) 0 0]
  else [descriptor_new (vp_header pl) PKT_HEADER_SIZE 0 0; descriptor_new (vp_data pl) n 0 0].

Section Transmit.
Context {M : Type} `{GuestMemory M}.

(** The driver's side of a packet with header [h] and payload [bs]. *)
Definition transmit (pl : vsock_placement) (h : PacketHeader) (bs : list u8) (m : M)
    : option (M * result MockError DescriptorChain) :=
  m ← ref_store h (vp_header pl) m;
  m ← (if decide (bs = []) then Some m
       else match gm_write m (vp_data pl) bs with (m, Ok _) => Some m | (_, Err _) => None end);
  x ← mock_create (vp_start pl) (vp_len pl) m;
  y ← build_desc_chain (raw_of_split <$> packet_descs pl (Z.of_nat (length bs))) x;
  Some (snd (fst y), snd y).

Definition in_vsock_queue (pl : vsock_placement) (x : Z) : Prop :=
  vp_start pl <= x < vp_start pl + 19 * vp_len pl + 20.
Definition in_packet_header (pl : vsock_placement) (x : Z) : Prop :=
  vp_header pl <= x < vp_header pl + PKT_HEADER_SIZE.
Definition in_payload (pl : vsock_placement) (bs : list u8) (x : Z) : Prop :=
  vp_data pl <= x < vp_data pl + Z.of_nat (length bs).

(** A packet a driver can place. *)
Record packet_placed (m : M) (pl : vsock_placement) (h : PacketHeader) (bs : list u8) (max : u32) : Prop := {
  pp_start : 0 <= vp_start pl /\ vp_start pl mod 16 = 0 /\ vp_start pl + 19 * vp_len pl + 20 <= 2 ^ 64;
  pp_len : is_pow2 (vp_len pl) /\ 2 <= vp_len pl <= MAX_QUEUE_SIZE;
  pp_queue_mapped : range_mapped m (vp_start pl) (19 * vp_len pl + 20);
  pp_atomic : acc16 m (vp_start pl + 16 * vp_len pl + 2) /\ acc16 m (vp_start pl + 16 * vp_len pl + 4);
  pp_header : in_u 64 (vp_header pl) /\ bv_wf h /\ ph_len h = Z.of_nat (length bs);
  pp_header_slice : is_ok (gm_get_slice m (vp_header pl) PKT_HEADER_SIZE) = true;
  pp_data : in_u 64 (vp_data pl) /\ bytes_ok bs;
  pp_data_slice : bs <> [] -> is_ok (gm_get_slice m (vp_data pl) (Z.of_nat (length bs))) = true;
  pp_joined : vp_joined pl = true -> vp_data pl = vp_header pl + PKT_HEADER_SIZE;
  pp_apart : forall x, (in_packet_header pl x -> ~ in_vsock_queue pl x /\ ~ in_payload pl bs x) /\
    (in_payload pl bs x -> ~ in_vsock_queue pl x);
  pp_max : Z.of_nat (length bs) <= max;
  pp_total : Z.of_nat (length bs) + PKT_HEADER_SIZE < 2 ^ 32;
}.
End Transmit.

(** ** Reception *)

(** The setter calls that write the header [h]. *)
Definition set_all (h : PacketHeader) : list VsockFunction := [
  VSetSrcCid (ph_src_cid h); VSetDstCid (ph_dst_cid h); VSetSrcPort (ph_src_port h);
  VSetDstPort (ph_dst_port h); VSetLen (ph_len h); VSetType (ph_type_ h); VSetOp (ph_op h);
  VSetFlags (ph_flags h); VSetBufAlloc (ph_buf_alloc h); VSetFwdCnt (ph_fwd_cnt h)].

(** Calls whose effect on memory does not depend on the copy. *)
Definition is_setter (f : VsockFunction) : bool :=
  match f with
  | VSetSrcCid _ | VSetDstCid _ | VSetSrcPort _ | VSetDstPort _ | VSetLen _ | VSetType _ | VSetOp _
  | VSetFlags _ | VSetBufAlloc _ | VSetFwdCnt _ => true
  | _ => false
  end.

(** ** Lemmas *)

Section VsockDriverFacts.
Context {M : Type} `{GML : GuestMemoryLaws M}.
Implicit Types (m : M).

Lemma slice_ok m m' a n : is_ok (gm_get_slice m a n) = true -> same_layout m m' ->
  gm_get_slice m' a n = Ok {| vs_addr := a; vs_len := n |} /\ range_mapped m' a n.
Proof.
  intros Hs (_ & _ & _ & _ & Hl). rewrite Hl in Hs. destruct (gm_get_slice m' a n) eqn:Hg; [|done].
  by apply law_slice in Hg as [-> ?].
Qed.

Lemma packet_descs_ok m pl h bs max : packet_placed m pl h bs max ->
  let ds := packet_descs pl (Z.of_nat (length bs)) in
  ds <> [] /\ Z.of_nat (length ds) <= vp_len pl /\ total_len ds < 2 ^ 32 /\
  Forall (fun d => descriptor_wf d /\ refers_to_indirect_table d = false) ds.
Proof.
  intros [_ [_ Hlen] _ _ [Hha _] _ [Hda _] _ _ _ _ Htot].
  change PKT_HEADER_SIZE with 44 in Htot. unfold packet_descs. change PKT_HEADER_SIZE with 44.
  assert (in_u 32 (44 + Z.of_nat (length bs)) /\ in_u 32 (Z.of_nat (length bs))) as [? ?]
    by (unfold in_u; lia).
  destruct (_ =? 0); [|destruct (vp_joined pl)]; (split; [done|]; split; [simpl; lia|]; split; [simpl; lia|]);
    rewrite ?list.Forall_cons, ?list.Forall_nil; by split_and!.
Qed.

(** The state after header and payload are stored. *)
Lemma transmit_stores m pl h bs max : packet_placed m pl h bs max ->
  exists m1 m2, ref_store h (vp_header pl) m = Some m1 /\
    (if decide (bs = []) then Some m1
     else match gm_write m1 (vp_data pl) bs with (m, Ok _) => Some m | (_, Err _) => None end) = Some m2 /\
    same_layout m m2 /\ read_obj PacketHeader m2 (vp_header pl) = Ok h /\
    (bs <> [] -> gm_read m2 (vp_data pl) (length bs) = Ok bs).
Proof.
  intros Hp. destruct (slice_ok m m _ _ (pp_header_slice _ _ _ _ _ Hp) (same_layout_refl m)) as [_ Hhm].
  pose proof (proj2 (write_obj_success m h (vp_header pl)) Hhm) as Hok.
  pose proof (write_obj_layout m h (vp_header pl)) as Hly. unfold ref_store.
  destruct (write_obj m h (vp_header pl)) as [m1 res] eqn:Hw. cbn [fst snd] in *. subst res.
  destruct (pp_header _ _ _ _ _ Hp) as (_ & Hwf & _). destruct (pp_data _ _ _ _ _ Hp) as [_ Hb].
  assert (read_obj PacketHeader m1 (vp_header pl) = Ok h) as Hr by (by eapply read_write_obj).
  exists m1. destruct (decide (bs = [])) as [->|Hne]; [by exists m1|].
  destruct (slice_ok m m1 _ _ (pp_data_slice _ _ _ _ _ Hp Hne) Hly) as [_ Hdm].
  pose proof (proj2 (law_write_success m1 (vp_data pl) bs Hne Hb) Hdm) as Hok.
  pose proof (law_write_layout m1 (vp_data pl) bs Hb) as Hly2.
  destruct (gm_write m1 (vp_data pl) bs) as [m2 res] eqn:Hw2. cbn [fst snd] in *. subst res.
  exists m2. split; [done|]. split; [done|]. split; [by eapply same_layout_trans|].
  pose proof (law_write _ _ _ _ Hb Hw2) as Ho. split; [|intros _; by eapply overwritten_read].
  unfold read_obj in *. destruct (gm_read m1 _ _) eqn:Hg; [|done].
  erewrite gm_read_ext; [done|apply bv_size_pos| |exact Hg]. intros x Hx.
  eapply overwritten_peek_other; [done|]. by apply (pp_apart _ _ _ _ _ Hp x).
Qed.

(** What the device makes of the chain. *)
Lemma packet_descs_tx m m' pl h bs max :
  packet_placed m pl h bs max -> same_layout m m' -> read_obj PacketHeader m' (vp_header pl) = Ok h ->
  tx_packet m' max (linked 0 (packet_descs pl (Z.of_nat (length bs))))
    (mk_packet {| vs_addr := vp_header pl; vs_len := PKT_HEADER_SIZE |} h
      (if decide (bs = []) then None
       else Some {| vs_addr := vp_data pl; vs_len := Z.of_nat (length bs) |})).
Proof.
  intros [_ _ _ _ (_ & _ & Hl) Hhs [Hda _] Hds Hj _ Hmax _] Hly Hr.
  destruct (slice_ok m m' _ _ Hhs Hly) as [Hh _]. unfold packet_descs.
  destruct (decide (bs = [])) as [->|Hne]; [by apply tx_header_only|].
  assert (0 < length bs)%nat by (destruct bs; simpl; [done|lia]).
  rewrite (proj2 (Z.eqb_neq _ _)) by lia. destruct (slice_ok m m' _ _ (Hds Hne) Hly) as [Hd _].
  destruct (vp_joined pl).
  - rewrite (Hj eq_refl) in *. rewrite <- Hl in *.
    apply tx_same_descriptor; cbn [d_addr d_len descriptor_new]; try done; try lia.
    + split; cbn [d_addr d_len descriptor_new]; [done|lia|done].
    + apply Hda.
  - rewrite <- Hl in *. apply tx_own_descriptor; try done. lia.
Qed.
End VsockDriverFacts.

Section Receive.
Context {M : Type} `{GML : GuestMemoryLaws M} `{SBL : SliceBytesLaws M (GM := GM)}.
Implicit Types (m : M) (p : VsockPacket).

(** A setter on a packet with another copy stores the same bytes. *)
Lemma setter_memory f h h' p m m' : is_setter f = true ->
  vsock_call f (with_header h p, m) = Some ((with_header (header_after h f) p, m'), Ok tt) ->
  vsock_call f (with_header h' p, m) = Some ((with_header (header_after h' f) p, m'), Ok tt).
Proof.
  destruct f; try done; intros _; cbn [vsock_call header_after];
    unfold set_src_cid, set_dst_cid, set_src_port, set_dst_port, set_len, set_type, set_op, set_flags,
      set_buf_alloc, set_fwd_cnt, set_header_field;
    cbn [header_slice with_header header data_slice];
    match goal with |- context [vs_write ?m ?v ?b ?o] => destruct (vs_write m v b o) as [? []] end;
    by intros [= ->].
Qed.

Lemma setters_memory fs h h' p m :
  packet_ok m p -> bv_wf h -> Forall args_ok fs -> Forall (fun f => is_setter f = true) fs ->
  exists m', vsock_calls fs (with_header h p, m) =
      Some ((with_header (foldl header_after h fs) p, m'), Ok tt) /\
    vsock_calls fs (with_header h' p, m) =
      Some ((with_header (foldl header_after h' fs) p, m'), Ok tt) /\
    same_layout m m' /\
    (coherent m (with_header h p) -> coherent m' (with_header (foldl header_after h fs) p)).
Proof.
  intros Hp Hh Ha Hs. revert h h' m Hp Hh Hs.
  induction Ha as [|f fs Hf _ IH]; intros h h' m Hp Hh Hs.
  { exists m. split; [done|]. split; [done|]. split; [apply same_layout_refl|done]. }
  apply list.Forall_cons in Hs as [Hfs Hs].
  destruct (vsock_call_spec f m (with_header h p) Hp Hh Hf) as (m1 & Hc & Hly & Hco).
  change (with_header (header_after (header (with_header h p)) f) (with_header h p))
    with (with_header (header_after h f) p) in *.
  destruct (IH (header_after h f) (header_after h' f) m1) as (m' & H1 & H2 & Hly' & Hco').
  - destruct Hp as [? ?]. split; [done|]. by eapply same_layout_mapped.
  - by apply header_after_wf.
  - done.
  - exists m'. cbn [vsock_calls foldl]. rewrite !rm_bind_unfold, Hc.
    rewrite (setter_memory f h h' p m m1) by done. split; [exact H1|]. split; [exact H2|].
    split; [by eapply same_layout_trans|]. intros Hcoh. apply Hco'.
    unfold coherent. cbn [header_slice with_header header]. rewrite <- memory_after_self.
    apply Hco; [by destruct f|done].
Qed.

(** All fields set: nothing of the old header is left. *)
Lemma set_all_header h h0 : foldl header_after h0 (set_all h) = h.
Proof. by destruct h. Qed.

Lemma set_all_ok h : bv_wf h -> Forall args_ok (set_all h) /\ Forall (fun f => is_setter f = true) (set_all h).
Proof.
  intros Hh. cbn [bv_wf PacketHeader_bv struct_bv] in Hh. unfold header_widths, header_fields in Hh.
  rewrite !fields_ok_cons in Hh. unfold set_all. rewrite ?list.Forall_cons, ?list.Forall_nil.
  split; split_and!; try done; apply Hh.
Qed.

(** The header in memory after the setters, whatever it was before. *)
Lemma set_all_stores h p m : packet_ok m p -> bv_wf h ->
  exists m', vsock_calls (set_all h) (p, m) = Some ((with_header h p, m'), Ok tt) /\
    same_layout m m' /\ read_obj PacketHeader m' (vs_addr (header_slice p)) = Ok h.
Proof.
  intros Hp Hh. destruct (set_all_ok h Hh) as [Ha Hs]. pose proof Hp as [Hl Hm].
  destruct (gm_read_succeeds m (vs_addr (header_slice p)) (bv_size PacketHeader)) as [bs Hbs];
    [apply bv_size_pos|done|].
  assert (read_obj PacketHeader m (vs_addr (header_slice p)) = Ok (bv_decode bs)) as Hr
    by (unfold read_obj; by rewrite Hbs).
  destruct (setters_memory (set_all h) (bv_decode bs) (header p) p m Hp) as (m' & _ & Hrun & Hly & Hco);
    [by eapply read_obj_wf|done|done|].
  rewrite set_all_header, with_header_self in *. exists m'. split; [done|]. split; [done|]. by apply Hco.
Qed.
End Receive.

(** ** Properties *)

Section VsockDriverProperties.
Context {M : Type} `{GML : GuestMemoryLaws M}.

(** C16: the device receives the packet the driver sent: for every header and payload, with
    the payload behind the header in one descriptor, in a descriptor of its own, or empty,
    [from_tx_virtq_chain] on the chain the driver builds succeeds, its header is the driver's
    in every field, and its data slice covers exactly the payload, with the driver's bytes in
    it. *)
Theorem vsock_tx_roundtrip (m : M) pl h bs max : packet_placed m pl h bs max ->
  exists m' c c' p, transmit pl h bs m = Some (m', Ok c) /\
    from_tx_virtq_chain m' m' c max = (c', Ok p) /\ header p = h /\
    match data_slice p with
    | None => bs = []
    | Some vs => vs_len vs = Z.of_nat (length bs) /\ gm_read m' (vs_addr vs) (length bs) = Ok bs
    end.
Proof.
  intros Hp. destruct (packet_descs_ok m pl h bs max Hp) as (Hne & Hcnt & Htot & Hok).
  destruct (transmit_stores m pl h bs max Hp) as (m1 & m2 & Hs & Hw & Hl & Hh & Hb).
  pose proof Hp as [(Hs0 & Hal & H64) [Hp2 Hlen] Hqm [Ha2 Ha4] _ _ _ _ _ Hap _ _].
  unfold MAX_QUEUE_SIZE in Hlen.
  destruct (driver_offers_chain m2 (vp_start pl) (vp_len pl) (packet_descs pl (Z.of_nat (length bs))))
    as (mq & m3 & m4 & Hc & Hbd & Hds & Hl2 & Hf2);
    try done; try (by eapply same_layout_mapped); try (by eapply same_layout_acc16);
    [unfold MAX_QUEUE_SIZE; lia|].
  assert (chain_wf (chain_new (vp_start pl) (vp_len pl) 0)) as Hwf by (apply chain_new_wf; unfold in_u; lia).
  assert (read_obj PacketHeader m4 (vp_header pl) = Ok h) as Hh4.
  { unfold read_obj in *. destruct (gm_read m2 _ _) eqn:Hg; [|done].
    erewrite gm_read_ext; [exact Hh|apply bv_size_pos| |exact Hg]. intros x Hx. apply Hf2. exact (proj1 (proj1 (Hap x) Hx)). }
  pose proof (packet_descs_tx m m4 pl h bs max Hp (same_layout_trans _ _ _ Hl Hl2) Hh4) as Htx.
  rewrite <- Hds in Htx. apply from_tx_complete in Htx as [c' Htx]; [|done].
  eexists m4, _, c', _. split; [unfold transmit; rewrite Hs; cbn [mbind option_bind]; rewrite Hw;
    cbn [mbind option_bind]; rewrite Hc; cbn [mbind option_bind]; by rewrite Hbd|].
  split; [exact Htx|]. split; [done|]. cbn [data_slice]. destruct (decide (bs = [])) as [|Hn]; [done|].
  split; [done|]. cbn [vs_addr]. eapply gm_read_ext; [| |by apply Hb].
  - destruct bs; [done|simpl; lia].
  - intros x Hx. apply Hf2. exact (proj2 (Hap x) Hx).
Qed.

(** C17: the driver receives the packet the device built: a device that makes a packet of a
    receive chain, sets every field of its header and writes a payload to its data slice
    leaves exactly this header and this payload in guest memory, whatever was there before. *)
Theorem vsock_rx_roundtrip `{SBL : SliceBytesLaws M (GM := GM)} (m : M) c c' p vs max h bs :
  chain_wf c -> from_rx_virtq_chain m m c max = (c', Ok p) -> data_slice p = Some vs ->
  bv_wf h -> bytes_ok bs -> bs <> [] -> Z.of_nat (length bs) <= vs_len vs ->
  vs_addr vs + Z.of_nat (length bs) <= vs_addr (header_slice p) \/
    vs_addr (header_slice p) + PKT_HEADER_SIZE <= vs_addr vs ->
  exists m1 m2, vsock_calls (set_all h) (p, m) = Some ((with_header h p, m1), Ok tt) /\
    vs_write m1 vs bs 0 = (m2, Ok (Z.of_nat (length bs))) /\
    read_obj PacketHeader m2 (vs_addr (header_slice p)) = Ok h /\
    gm_read m2 (vs_addr vs) (length bs) = Ok bs.
Proof.
  intros Hwf Hrx Hvs Hh Hb Hne Hlen Hap.
  destruct (rx_inside _ _ _ _ (from_rx_sound _ _ _ _ _ _ Hwf Hrx)) as (Hp & _ & _ & vs' & Hvs' & [Hm _]).
  rewrite Hvs in Hvs'. injection Hvs' as <-.
  destruct (set_all_stores h p m Hp Hh) as (m1 & Hrun & Hly & Hr).
  destruct (law_vs_write m1 vs bs 0) as (m2 & Hw & Ho & _);
    [by eapply same_layout_mapped|done|lia|lia|].
  rewrite Z.add_0_r in Ho. exists m1, m2. split; [done|]. split; [done|]. split.
  - unfold read_obj in *. destruct (gm_read m1 _ _) eqn:Hg; [|done].
    erewrite overwritten_read_other; [exact Hr|apply bv_size_pos|exact Ho| |exact Hg].
    change (Z.of_nat (bv_size PacketHeader)) with PKT_HEADER_SIZE. lia.
  - by apply (overwritten_read m1).
Qed.
End VsockDriverProperties.

(** ** Concrete runs *)

Module VsockDriverExamples.
Definition place : vsock_placement := mk_vsock_placement 0x1000 16 0x5000 0x6000 false.
Definition hello : list Z := [104; 101; 108; 108; 111].
Definition hello_header : PacketHeader := mk_packet_header 3 2 1024 80 5 1 5 0 4096 0.

Lemma hello_placed : packet_placed MockExamples.mem place hello_header hello 4096.
Proof.
  split; cbn [place vp_start vp_len vp_header vp_data vp_joined]; try done.
  - split; [exists 4; split; [lia|reflexivity]|unfold MAX_QUEUE_SIZE; lia].
  - apply MockExamples.mem_mapped; lia.
  - split; apply MockExamples.mem_acc16; reflexivity.
  - split; [done|]. split; [|done]. by repeat constructor.
  - split; [done|]. by repeat constructor.
  - intros x. unfold in_packet_header, in_vsock_queue, in_payload. simpl.
    change PKT_HEADER_SIZE with 44. lia.
Qed.
End VsockDriverExamples.
Import VsockDriverExamples.

Lemma vsock_tx_roundtrip_witness :
  exists m' c c' p vs, transmit place hello_header hello MockExamples.mem = Some (m', Ok c) /\
    from_tx_virtq_chain m' m' c 4096 = (c', Ok p) /\ dst_port p = 80 /\
    data_slice p = Some vs /\ gm_read m' (vs_addr vs) 5 = Ok hello.
Proof.
  destruct (vsock_tx_roundtrip MockExamples.mem place hello_header hello 4096 hello_placed)
    as (m' & c & c' & p & Hs & Htx & Hh & Hd).
  destruct (data_slice p) as [vs|] eqn:Hvs; [|discriminate Hd].
  exists m', c, c', p, vs. split; [exact Hs|]. split; [exact Htx|].
  split; [unfold dst_port; rewrite Hh; reflexivity|]. split; [exact Hvs|apply Hd].
Defined.

(** Into the receive chain of [VsockExamples]. *)
Lemma vsock_rx_roundtrip_witness :
  exists p m1 m2, vsock_calls (set_all hello_header) (p, VsockExamples.rx_mem) =
      Some ((with_header hello_header p, m1), Ok tt) /\
    read_obj PacketHeader m2 0x5000 = Ok hello_header /\ gm_read m2 0x502c 5 = Ok hello.
Proof.
  set (p := mk_packet {| vs_addr := 0x5000; vs_len := 44 |} packet_header_default
    (Some {| vs_addr := 0x502c; vs_len := 212 |})).
  assert (exists c', from_rx_virtq_chain VsockExamples.rx_mem VsockExamples.rx_mem
    VsockExamples.vsock_chain 4096 = (c', Ok p)) as [c' Hrx] by (eexists; vm_compute; reflexivity).
  destruct (vsock_rx_roundtrip VsockExamples.rx_mem VsockExamples.vsock_chain c' p
    {| vs_addr := 0x502c; vs_len := 212 |} 4096 hello_header hello VsockExamples.vsock_chain_wf Hrx eq_refl)
    as (m1 & m2 & Hrun & _ & Hh & Hd).
  - by repeat constructor.
  - by repeat constructor.
  - done.
  - by vm_compute.
  - right. by vm_compute.
  - exists p, m1, m2. split; [exact Hrun|]. split; [exact Hh|exact Hd].
Defined.
