(* ===== verification/Console.v ===== *)
(** * The console device

    virtio-console/src/console.rs: data for the driver waits in an input
    buffer and is copied to the chains of the receive queue; the chains of the
    transmit queue are copied to an output sink.  The methods that use the
    input buffer hold its lock while they do, and [process_transmitq_chain]
    takes no lock but has exclusive access to the device ([&mut self]); a
    method is one step on the state [Console]. *)

From stdpp Require Import base numbers list option.
From S2P Require Import Prelude Bytes GuestMemory FlatMemory Descriptor Chain DescriptorUtils.

Inductive ConsoleError : Type :=
| WriteToGuestFailed (e : GuestMemoryError)
| WriteToOutputFailed (e : GuestMemoryError)
| ChainLengthOverflow
| BufferCapacityExceeded
| ConsoleUnexpectedReadOnlyDescriptor
| ConsoleUnexpectedWriteOnlyDescriptor
| InvalidBufferCapacity
| OutputSinkFlushFailed (e : Z).

Record Console (T : Type) : Type := mk_console {
  input_buffer : list u8;
  capacity : usize;
  output : T;
}.
Arguments mk_console {T}.
Arguments input_buffer {T}.
Arguments capacity {T}.
Arguments output {T}.

Definition MAX_CAPACITY : usize := 16384.
Definition DEFAULT_CAPACITY : usize := 4096.

Definition with_input {T} (buf : list u8) (con : Console T) : Console T :=
  mk_console buf (capacity con) (output con).
Definition with_output {T} (out : T) (con : Console T) : Console T :=
  mk_console (input_buffer con) (capacity con) out.

Definition new_with_capacity {T} (capacity : usize) (output : T) : result ConsoleError (Console T) :=
  if (capacity =? 0) || (capacity >? MAX_CAPACITY) then Err InvalidBufferCapacity
  else Ok (mk_console [] capacity output).

(** [Console::new]: [None] is the panic of [unwrap]. *)
Definition console_new {T} (output : T) : option (Console T) :=
  to_option (new_with_capacity DEFAULT_CAPACITY output).

(** [enqueue_data] moves the bytes of [data] to the buffer: the state is the
    console and the caller's vector. *)
Definition enqueue_data {T} : RM (Console T * list u8) ConsoleError unit := fun '(con, data) =>
  match checked_add 64 (Z.of_nat (length (input_buffer con))) (Z.of_nat (length data)) with
  | None => Some ((con, data), Err BufferCapacityExceeded)
  | Some total_length =>
      if total_length >? capacity con then Some ((con, data), Err BufferCapacityExceeded)
      else Some ((with_input (input_buffer con ++ data) con, []), Ok tt)
  end.

(** [None] is the underflow of the subtraction. *)
Definition available_capacity {T} (con : Console T) : option usize :=
  checked_sub (capacity con) (Z.of_nat (length (input_buffer con))).

Definition clear_input_buffer {T} (con : Console T) : Console T := with_input [] con.

Definition is_input_buffer_empty {T} (con : Console T) : bool :=
  bool_decide (input_buffer con = []).

(** The output sink, and the method of guest memory that copies to it. *)
Class Sink (T M : Type) : Type := {
  (** [mem.write_volatile_to(addr, &mut output, count)]: the bytes written,
      possibly fewer than [count]. *)
  sink_write : M -> u64 -> T -> usize -> T * result GuestMemoryError usize;
  sink_flush : T -> T * result Z unit;
}.

Section Queues.
Context {T M : Type} `{GuestMemory M} `{Sink T M}.

(** The console, the chain with its cursor, and memory. *)
Abbreviation CM := (RM (Console T * DescriptorChain * M) ConsoleError).

(** [process_transmitq_chain]; every round advances the chain, so its budget
    is enough fuel. *)
Fixpoint transmit_loop (fuel : nat) : CM unit := fun '(con, c, m) =>
  match fuel with
  | O => None
  | S fuel =>
      match chain_next m c with
      | (c, None) => Some ((con, c, m), Ok tt)
      | (c, Some desc) =>
          if is_write_only desc then Some ((con, c, m), Err ConsoleUnexpectedWriteOnlyDescriptor)
          else
            match sink_write m (d_addr desc) (output con) (d_len desc) with
            | (out, Err e) => Some ((with_output out con, c, m), Err (WriteToOutputFailed e))
            | (out, Ok _) =>
                match sink_flush out with
                | (out, Err e) => Some ((with_output out con, c, m), Err (OutputSinkFlushFailed e))
                | (out, Ok _) => transmit_loop fuel (with_output out con, c, m)
                end
            end
      end
  end.

Definition process_transmitq_chain : CM unit := fun '(con, c, m) =>
  transmit_loop (S (Z.to_nat (chain_budget c))) (con, c, m).

(** The loop of [process_receiveq_chain]: the bytes leave the buffer before
    they are written. *)
Fixpoint receive_loop (fuel : nat) (sent_bytes : u32) : CM u32 := fun '(con, c, m) =>
  match fuel with
  | O => None
  | S fuel =>
      match chain_next m c with
      | (c, None) => Some ((con, c, m), Ok sent_bytes)
      | (c, Some desc) =>
          if negb (is_write_only desc) then Some ((con, c, m), Err ConsoleUnexpectedReadOnlyDescriptor)
          else
            let len_write := Z.min (d_len desc) (wrap 32 (Z.of_nat (length (input_buffer con)))) in
            let buffer_slice := take (Z.to_nat len_write) (input_buffer con) in
            let con := with_input (drop (Z.to_nat len_write) (input_buffer con)) con in
            match gm_write m (d_addr desc) buffer_slice with
            | (m, Err e) => Some ((con, c, m), Err (WriteToGuestFailed e))
            | (m, Ok _) =>
                match add_u 32 sent_bytes len_write with
                | None => None
                | Some sent_bytes =>
                    if is_input_buffer_empty con then Some ((con, c, m), Ok sent_bytes)
                    else receive_loop fuel sent_bytes (con, c, m)
                end
            end
      end
  end.

Definition process_receiveq_chain : CM u32 := fun '(con, c, m) =>
  if is_input_buffer_empty con then Some ((con, c, m), Ok 0)
  else receive_loop (S (Z.to_nat (chain_budget c))) 0 (con, c, m).
End Queues.

(** ** What the console relies on and what it keeps *)

(** The bytes a sink has taken. *)
Class SinkView (T : Type) : Type := { sink_bytes : T -> list u8 }.

(** A sink takes a prefix of the range and says how long it is. *)
Class SinkLaws (T M : Type) `{GM : GuestMemory M} `{SK : Sink T M} `{SV : SinkView T} : Prop := {
  law_sink_write : forall m a out n out' k, 0 <= n ->
    sink_write m a out n = (out', Ok k) ->
    0 <= k <= n /\
    sink_bytes out' = sink_bytes out ++
      (byte_at m <$> take (Z.to_nat k) (vs_cells {| vs_addr := a; vs_len := n |}));
  law_sink_flush : forall out out' r, sink_flush out = (out', r) -> sink_bytes out' = sink_bytes out;
}.

(** The sink never takes less than it is offered, as a [Vec] does. *)
Definition takes_all (T M : Type) `{GuestMemory M} `{Sink T M} : Prop :=
  forall m a out n out' k, sink_write m a out n = (out', Ok k) -> k = n.

(** The invariant of the input buffer. *)
Definition console_ok {T} (con : Console T) : Prop :=
  0 < capacity con <= MAX_CAPACITY /\ Z.of_nat (length (input_buffer con)) <= capacity con /\
  bytes_ok (input_buffer con).

Definition descriptor_slices (ds : list Descriptor) : list VolatileSlice :=
  (fun d => {| vs_addr := d_addr d; vs_len := d_len d |}) <$> ds.

(** The addresses of the buffers of a chain, in order. *)
Definition chain_cells {M} `{GuestMemory M} (m : M) (c : DescriptorChain) : list Z :=
  slices_cells (descriptor_slices (chain_descriptors m c)).

(** Writing to [cs] does not change where the chain leads. *)
Inductive chain_stable {M} `{GuestMemory M} (cs : list Z) (m : M) : DescriptorChain -> Prop :=
| stable_end c c' :
    chain_next m c = (c', None) ->
    (forall m', changed_within cs m m' -> chain_next m' c = (c', None)) ->
    chain_stable cs m c
| stable_step c c' d :
    chain_next m c = (c', Some d) ->
    (forall m', changed_within cs m m' -> chain_next m' c = (c', Some d)) ->
    chain_stable cs m c' ->
    chain_stable cs m c.

(** ** Lemmas *)

Section ConsoleFacts.
Context {T M : Type} `{GML : GuestMemoryLaws M} `{SL : SinkLaws T M (GM := GM)}.
Implicit Types (m : M) (con : Console T) (c : DescriptorChain).

Lemma console_ok_with_input con n :
  console_ok con -> console_ok (with_input (drop n (input_buffer con)) con).
Proof.
  intros (? & ? & ?). split; [done|]. simpl. split; [rewrite length_drop; lia|by apply Forall_drop].
Qed.

Lemma yielded_wf m c c' d : chain_wf c -> chain_next m c = (c', Some d) -> descriptor_wf d.
Proof. intros Hwf Hn. by apply next_fuel_inv in Hn as (_ & _ & _ & _ & ? & _). Qed.

Lemma chain_cells_unfold m c d c' :
  chain_wf c -> chain_next m c = (c', Some d) ->
  chain_cells m c = vs_cells {| vs_addr := d_addr d; vs_len := d_len d |} ++ chain_cells m c'.
Proof. intros Hwf Hn. unfold chain_cells. by rewrite chain_descriptors_unfold, Hn. Qed.

Lemma length_chain_cells m c :
  chain_wf c -> Z.of_nat (length (chain_cells m c)) = total_len (chain_descriptors m c).
Proof.
  intros Hwf. pose proof (chain_descriptors_direct m c Hwf) as Hd. unfold chain_cells.
  induction Hd as [|d ds [_ (_ & [Hl _] & _)] _ IH]; [done|]. simpl.
  rewrite length_app, length_vs_cells. simpl. lia.
Qed.

(** A write to a prefix of a buffer stays within the buffer. *)
Lemma write_within m m' a n bs cs :
  bytes_ok bs -> Z.of_nat (length bs) <= n -> vs_cells {| vs_addr := a; vs_len := n |} ⊆ cs ->
  gm_write m a bs = (m', Ok tt) -> overwritten m m' a bs /\ changed_within cs m m'.
Proof.
  intros Hb Hl Hsub Hw. pose proof (law_write _ _ _ _ Hb Hw) as Ho. split; [done|].
  eapply write_changed_within; [done| |done]. intros x Hx. apply Hsub, vs_cells_in; simpl; lia.
Qed.

(** What a run of the receive loop may report. *)
Record received (con con' : Console T) (m0 m m' : M) (ds : list Descriptor)
    (sent : Z) (r : result ConsoleError Z) : Prop := {
  rc_console : capacity con' = capacity con /\ output con' = output con;
  rc_suffix : exists j, input_buffer con' = drop j (input_buffer con);
  rc_ok : forall k, r = Ok k -> exists n : nat, k = sent + Z.of_nat n /\
    Z.of_nat n = Z.min (Z.of_nat (length (input_buffer con))) (total_len ds) /\
    (forall x, x ∈ take n (slices_cells (descriptor_slices ds)) ->
       exists d, d ∈ ds /\ is_write_only d = true /\ d_addr d <= x < d_addr d + d_len d) /\
    input_buffer con' = drop n (input_buffer con) /\
    written m m' (take n (slices_cells (descriptor_slices ds))) (take n (input_buffer con));
  rc_succeeds : Forall (fun d => is_write_only d = true /\ 0 < d_len d /\
      range_mapped m0 (d_addr d) (d_len d)) ds -> is_ok r = true;
}.

(** The loop stops with an error, and the rest of the state is as it was. *)
Lemma received_err con con' m0 m m' ds sent e n :
  con' = with_input (drop n (input_buffer con)) con ->
  ~ Forall (fun d => is_write_only d = true /\ 0 < d_len d /\
      range_mapped m0 (d_addr d) (d_len d)) ds ->
  received con con' m0 m m' ds sent (Err e).
Proof. intros -> Hn. split; [done|by exists n|done|done]. Qed.

(** The loop stops because the chain is at its end. *)
Lemma received_end con m0 m sent : input_buffer con <> [] -> received con con m0 m m [] sent (Ok sent).
Proof.
  intros Hne. split; [done|by exists 0%nat| |done].
  intros k [= <-]. exists 0%nat. split; [lia|]. split; [simpl; lia|]. split; [|split; [done|]].
  - intros x Hx. by apply elem_of_nil in Hx.
  - split; [apply same_layout_refl|done|done].
Qed.

(** One round that empties the buffer. *)
Lemma received_last con m0 m m' d ds sent :
  let n := length (input_buffer con) in
  is_write_only d = true -> Z.of_nat n <= d_len d -> Forall descriptor_wf ds ->
  overwritten m m' (d_addr d) (input_buffer con) -> same_layout m m' ->
  received con (with_input [] con) m0 m m' (d :: ds) sent (Ok (sent + Z.of_nat n)).
Proof.
  intros n Hw Hl Hds Ho Hly. pose proof (total_len_nonneg ds Hds).
  assert (take n (slices_cells (descriptor_slices (d :: ds))) =
    take n (vs_cells {| vs_addr := d_addr d; vs_len := d_len d |})) as Hcells.
  { simpl. rewrite take_app_le; [done|]. rewrite length_vs_cells. simpl. lia. }
  split; [done|exists n; unfold n; simpl; by rewrite drop_all| |done].
  intros k [= <-]. exists n. split; [done|]. split; [simpl; lia|]. rewrite Hcells. split; [|split].
  - intros x Hx. exists d. split; [by left|]. split; [done|]. apply list_elem_of_lookup in Hx as [i Hx].
    apply lookup_take_Some in Hx as [Hx _].
    apply vs_cells_lookup in Hx as [-> Hx]. simpl in *. lia.
  - unfold n. simpl. by rewrite drop_all.
  - unfold n. rewrite firstn_all. pose proof (written_app m m' m' {| vs_addr := d_addr d; vs_len := d_len d |}
      (input_buffer con) [] [] Ho Hly ltac:(simpl; lia)
      ltac:(split; [apply same_layout_refl|done|done])) as Hwr.
    by rewrite !app_nil_r in Hwr.
Qed.

(** One round that fills its buffer, and the rest of the loop. *)
Lemma received_step con con' m0 m m1 m' d ds sent r :
  let k := Z.to_nat (d_len d) in
  let con1 := with_input (drop k (input_buffer con)) con in
  is_write_only d = true -> 0 <= d_len d -> (k <= length (input_buffer con))%nat ->
  overwritten m m1 (d_addr d) (take k (input_buffer con)) -> same_layout m m1 ->
  received con1 con' m0 m1 m' ds (sent + d_len d) r ->
  received con con' m0 m m' (d :: ds) sent r.
Proof.
  intros k con1 Hw Hl Hk Ho Hly [Hcon [j Hj] Hok Hsucc]. split; [done| | |].
  - exists (k + j)%nat. rewrite Hj. simpl. by rewrite drop_drop.
  - intros s Hs. destruct (Hok s Hs) as (n & -> & Hn & Hin & Hbuf & Hwr). exists (k + n)%nat.
    assert (take (k + n) (slices_cells (descriptor_slices (d :: ds))) =
      vs_cells {| vs_addr := d_addr d; vs_len := d_len d |} ++
      take n (slices_cells (descriptor_slices ds))) as Hcells.
    { simpl. rewrite take_app_add'; [done|]. by rewrite length_vs_cells. }
    simpl in Hn, Hwr, Hbuf. rewrite length_drop in Hn.
    split; [lia|]. split; [simpl; lia|]. rewrite Hcells. split; [|split].
    + intros x Hx. apply elem_of_app in Hx as [Hx|Hx].
      * exists d. split; [by left|]. split; [done|]. by apply vs_cells_in in Hx.
      * destruct (Hin x Hx) as (d' & ? & ? & ?). exists d'. split; [by right|done].
    + rewrite Hbuf. simpl. by rewrite drop_drop.
    + pose proof (written_app m m1 m' {| vs_addr := d_addr d; vs_len := d_len d |} _ _ _ Ho Hly
        ltac:(rewrite length_take; simpl; lia) Hwr) as Hwr'.
      rewrite take_take_drop in Hwr'. rewrite take_ge in Hwr'; [exact Hwr'|].
      rewrite length_vs_cells, length_take. simpl. lia.
  - intros Hall. apply list.Forall_cons in Hall as [_ Hall]. auto.
Qed.

(** A non-empty piece that fits a mapped buffer is stored. *)
Lemma piece_written m0 m a n (buf : list Z) k :
  buf <> [] -> Forall (in_u 8) buf -> same_layout m0 m -> range_mapped m0 a n ->
  (0 < k)%nat -> Z.of_nat k <= n -> snd (gm_write m a (take k buf)) = Ok tt.
Proof.
  intros Hne Hb Hl Hmap Hk Hn.
  assert (0 < length buf)%nat by (destruct buf; simpl; [done|lia]).
  apply law_write_success; [|by apply Forall_take|].
  - intros Hnil. apply (f_equal length) in Hnil. rewrite length_take in Hnil. simpl in Hnil. lia.
  - apply (same_layout_mapped m0); [done|]. intros x Hx. apply Hmap. rewrite length_take in Hx. lia.
Qed.

Lemma receive_loop_spec fuel m0 cs c :
  chain_stable cs m0 c -> forall con m sent,
  chain_wf c -> chain_cells m0 c ⊆ cs -> changed_within cs m0 m -> console_ok con ->
  input_buffer con <> [] -> chain_budget c < Z.of_nat fuel ->
  0 <= sent -> sent + Z.of_nat (length (input_buffer con)) < 2 ^ 32 ->
  exists con' c' m' r, receive_loop fuel sent (con, c, m) = Some ((con', c', m'), r) /\
    received con con' m0 m m' (chain_descriptors m0 c) sent r.
Proof.
  revert c. induction fuel as [|fuel IH]; intros c Hst con m sent Hwf Hsub Hm Hok Hne Hf Hs H32.
  { pose proof (chain_budget_nonneg c Hwf). lia. }
  cbn [receive_loop]. rewrite (chain_descriptors_unfold m0 c) by done.
  destruct Hst as [c c' Hn Hag|c c' d Hn Hag Hst]; rewrite (Hag m Hm), Hn.
  { eexists con, c', m, _. split; [done|]. by apply received_end. }
  pose proof (chain_next_wf _ _ _ _ Hwf Hn) as Hwf'.
  destruct (is_write_only d) eqn:Hwo; cbn [negb].
  2:{ eexists con, c', m, _. split; [done|]. apply (received_err _ _ _ _ _ _ _ _ 0); [by destruct con|].
      intros Hall. apply list.Forall_cons in Hall as [[? _] _]. congruence. }
  destruct (yielded_wf _ _ _ _ Hwf Hn) as (_ & [Hd0 _] & _).
  destruct Hok as (Hcap & Hlen & Hb). set (buf := input_buffer con) in *.
  unfold MAX_CAPACITY in *. rewrite (wrap_small 32) by (unfold in_u; lia).
  set (k := Z.to_nat (Z.min (d_len d) (Z.of_nat (length buf)))).
  rewrite (chain_cells_unfold m0 c d c' Hwf Hn) in Hsub. apply list_subseteq_app_iff_l in Hsub as [Hs1 Hs2].
  destruct (gm_write m (d_addr d) (take k buf)) as [m1 [[]|e]] eqn:Hw.
  2:{ eexists _, c', m1, _. split; [done|]. eapply received_err; [done|].
      intros Hall. apply list.Forall_cons in Hall as [(_ & Hpos & Hmap) _].
      pose proof (piece_written m0 m (d_addr d) (d_len d) buf k Hne Hb (proj1 Hm) Hmap) as Hok'.
      rewrite Hw in Hok'. destruct buf; [done|]. discriminate Hok'; subst k; simpl; lia. }
  destruct (write_within m m1 (d_addr d) (d_len d) (take k buf) cs) as [Ho Hcw];
    [by apply Forall_take|rewrite length_take; lia|done|done|].
  unfold add_u, checked_add. rewrite (proj2 (Z.ltb_lt _ _)) by lia.
  unfold is_input_buffer_empty. cbn [input_buffer with_input]. case_bool_decide as Hempty.
  - apply (f_equal length) in Hempty as Hk. rewrite length_drop in Hk. simpl in Hk.
    assert (length buf <= k)%nat by lia.
    eexists _, c', m1, _. split; [done|]. rewrite Hempty.
    replace (Z.min (d_len d) (Z.of_nat (length buf))) with (Z.of_nat (length buf)) by lia.
    rewrite take_ge in Ho by done. apply received_last; [done|fold buf; lia| |done|apply Hcw].
    eapply list.Forall_impl; [apply (chain_descriptors_direct m0 c' Hwf')|]. by intros x [_ ?].
  - assert (~ (length buf <= k)%nat) as Hk by (intros Hk; apply Hempty; by apply drop_ge).
    replace (Z.min (d_len d) (Z.of_nat (length buf))) with (d_len d) by lia.
    replace k with (Z.to_nat (d_len d)) in * by lia.
    destruct (IH c' Hst (with_input (drop (Z.to_nat (d_len d)) buf) con) m1 (sent + d_len d))
      as (con' & c2 & m' & r & -> & Hr); try done.
    + by eapply changed_within_trans.
    + split; [done|]. cbn [input_buffer with_input capacity]. rewrite length_drop.
      split; [lia|by apply Forall_drop].
    + pose proof (chain_next_budget _ _ _ _ Hwf Hn). lia.
    + lia.
    + cbn [input_buffer with_input]. rewrite length_drop. lia.
    + eexists con', c2, m', r. split; [done|].
      eapply received_step; [done|done|fold buf; lia|done|apply Hcw|done].
Qed.

Lemma transmit_loop_spec fuel m c : chain_wf c -> forall con,
  chain_budget c < Z.of_nat fuel ->
  exists con' c' r, transmit_loop fuel (con, c, m) = Some ((con', c', m), r) /\
    capacity con' = capacity con /\ input_buffer con' = input_buffer con /\
    (r = Ok tt -> Forall (fun d => is_write_only d = false) (chain_descriptors m c) /\
       (takes_all T M -> sink_bytes (output con') =
          sink_bytes (output con) ++ (byte_at m <$> chain_cells m c))).
Proof.
  intros Hwf. revert fuel. pattern c. revert c Hwf. apply (chain_ind m).
  - intros c c' Hwf Hn [|fuel] con Hf; [pose proof (chain_budget_nonneg c Hwf); lia|].
    cbn [transmit_loop]. rewrite Hn. eexists _, _, _. split; [done|]. split; [done|]. split; [done|].
    intros _. unfold chain_cells. rewrite chain_descriptors_unfold, Hn by done.
    split; [done|]. intros _. simpl. by rewrite app_nil_r.
  - intros c c' d Hwf Hn IH [|fuel] con Hf; [pose proof (chain_budget_nonneg c Hwf); lia|].
    cbn [transmit_loop]. rewrite Hn, (chain_cells_unfold m c d c' Hwf Hn).
    rewrite (chain_descriptors_unfold m c), Hn by done.
    destruct (is_write_only d) eqn:Hwo; [by eexists _, _, _|].
    destruct (sink_write m (d_addr d) (output con) (d_len d)) as [out [k|e]] eqn:Hw; [|by eexists _, _, _].
    destruct (sink_flush out) as [out' [[]|e]] eqn:Hfl; [|by eexists _, _, _].
    apply law_sink_flush in Hfl.
    destruct (yielded_wf _ _ _ _ Hwf Hn) as (_ & [Hd0 _] & _).
    destruct (IH fuel (with_output out' con)) as (con' & c2 & r & -> & Hc & Hb & Hr).
    { pose proof (chain_next_budget _ _ _ _ Hwf Hn). lia. }
    eexists _, _, _. split; [done|]. split; [done|]. split; [done|]. intros Hok.
    destruct (Hr Hok) as [Hall Hout]. split; [by constructor|]. intros Hta.
    rewrite Hout by done. cbn [output with_output]. rewrite Hfl.
    rewrite (Hta _ _ _ _ _ _ Hw) in Hw. apply law_sink_write in Hw as [_ ->]; [|done].
    rewrite take_ge by (rewrite length_vs_cells; simpl; lia). by rewrite fmap_app, (assoc_L (++)).
Qed.
Lemma receiveq_run con c m :
  console_ok con -> chain_wf c -> chain_stable (chain_cells m c) m c ->
  let ds := chain_descriptors m c in
  exists con' c' m' r, process_receiveq_chain (con, c, m) = Some ((con', c', m'), r) /\
    console_ok con' /\
    (forall k, r = Ok k -> exists n : nat, k = Z.of_nat n /\
       Z.of_nat n = Z.min (Z.of_nat (length (input_buffer con))) (total_len ds) /\
       (forall x, x ∈ take n (chain_cells m c) ->
          exists d, d ∈ ds /\ is_write_only d = true /\ d_addr d <= x < d_addr d + d_len d) /\
       input_buffer con' = drop n (input_buffer con) /\
       written m m' (take n (chain_cells m c)) (take n (input_buffer con))) /\
    (Forall (fun d => is_write_only d = true /\ 0 < d_len d /\
       range_mapped m (d_addr d) (d_len d)) ds -> is_ok r = true).
Proof.
  intros Hok Hwf Hst ds. unfold process_receiveq_chain, is_input_buffer_empty.
  case_bool_decide as Hempty.
  { eexists con, c, m, _. split; [done|]. split; [done|]. split; [|done].
    intros k [= <-]. exists 0%nat. rewrite Hempty. split; [done|].
    assert (0 <= total_len ds).
    { apply total_len_nonneg. eapply list.Forall_impl; [by apply chain_descriptors_direct|].
      by intros x [_ ?]. }
    split; [simpl; lia|]. split; [intros x Hx; by apply elem_of_nil in Hx|]. split; [done|].
    split; [apply same_layout_refl|done|done]. }
  pose proof Hok as (Hcap & Hlen & Hb). unfold MAX_CAPACITY in *.
  destruct (receive_loop_spec (S (Z.to_nat (chain_budget c))) m (chain_cells m c) c Hst con m 0)
    as (con' & c' & m' & r & -> & [[Hc Ho] [j Hj] Hres Hsucc]); [done|by intros x|by split; [apply same_layout_refl|]|done|done|lia|lia|lia|].
  eexists con', c', m', r. split; [done|]. split; [|split; [done|done]].
  split; [rewrite Hc; exact Hcap|]. rewrite Hc, Hj, length_drop. split; [lia|by apply Forall_drop].
Qed.

Lemma transmitq_run con c m :
  console_ok con -> chain_wf c ->
  exists con' c' r, process_transmitq_chain (con, c, m) = Some ((con', c', m), r) /\
    console_ok con' /\ input_buffer con' = input_buffer con /\
    (r = Ok tt -> Forall (fun d => is_write_only d = false) (chain_descriptors m c) /\
       (takes_all T M -> sink_bytes (output con') =
          sink_bytes (output con) ++ (byte_at m <$> chain_cells m c))).
Proof.
  intros Hok Hwf. unfold process_transmitq_chain.
  destruct (transmit_loop_spec (S (Z.to_nat (chain_budget c))) m c Hwf con)
    as (con' & c' & r & -> & Hc & Hb & Hr); [lia|].
  eexists con', c', r. split; [done|]. split; [|done]. unfold console_ok. by rewrite Hc, Hb.
Qed.
End ConsoleFacts.

(** ** Properties *)

Section ConsoleProperties.
Context {T M : Type} `{GML : GuestMemoryLaws M} `{SL : SinkLaws T M (GM := GM)}.
Implicit Types (m : M) (con : Console T) (c : DescriptorChain).

(** The input buffer never grows over its capacity: data is accepted, all of it and at
    the end, exactly when it fits, and refused without any change otherwise; so the free
    space is always well defined. *)
Theorem enqueue_data_exact con data :
  console_ok con -> bytes_ok data -> Z.of_nat (length data) < 2 ^ 63 ->
  available_capacity con = Some (capacity con - Z.of_nat (length (input_buffer con))) /\
  if decide (Z.of_nat (length data) <= capacity con - Z.of_nat (length (input_buffer con)))
  then enqueue_data (con, data) =
         Some ((with_input (input_buffer con ++ data) con, []), Ok tt) /\
       console_ok (with_input (input_buffer con ++ data) con)
  else enqueue_data (con, data) = Some ((con, data), Err BufferCapacityExceeded).
Proof.
  intros (Hcap & Hlen & Hb) Hd H63. unfold available_capacity, enqueue_data, checked_sub, checked_add.
  unfold MAX_CAPACITY in *. split; [by rewrite (proj2 (Z.leb_le _ _))|].
  rewrite (proj2 (Z.ltb_lt _ _)), Z.gtb_ltb by lia. case_decide.
  - rewrite (proj2 (Z.ltb_ge _ _)) by lia. split; [done|]. split; [done|].
    cbn [input_buffer with_input capacity]. rewrite length_app, Nat2Z.inj_add.
    split; [lia|by apply Forall_app].
  - by rewrite (proj2 (Z.ltb_lt _ _)) by lia.
Qed.

(** A receive chain is filled from the front of the input buffer: when its buffers do
    not overlap its own descriptors, the method returns, moves the largest prefix that fits,
    in order, into writable descriptors of the chain and nowhere else, reports its length,
    and succeeds whenever all buffers are writable, backed and not empty. *)
Theorem receiveq_delivers_prefix con c m :
  console_ok con -> chain_wf c -> chain_stable (chain_cells m c) m c ->
  let ds := chain_descriptors m c in
  exists con' c' m' r, process_receiveq_chain (con, c, m) = Some ((con', c', m'), r) /\
    console_ok con' /\
    (forall k, r = Ok k -> exists n : nat, k = Z.of_nat n /\
       Z.of_nat n = Z.min (Z.of_nat (length (input_buffer con))) (total_len ds) /\
       (forall x, x ∈ take n (chain_cells m c) ->
          exists d, d ∈ ds /\ is_write_only d = true /\ d_addr d <= x < d_addr d + d_len d) /\
       input_buffer con' = drop n (input_buffer con) /\
       written m m' (take n (chain_cells m c)) (take n (input_buffer con))) /\
    (Forall (fun d => is_write_only d = true /\ 0 < d_len d /\
       range_mapped m (d_addr d) (d_len d)) ds -> is_ok r = true).
Proof. apply receiveq_run. Qed.

(** A transmit chain is copied to the output: the method returns, leaves the input
    buffer and memory alone, succeeds only on chains of readable descriptors, and with a
    sink that takes what it is offered the output grows by the bytes of the chain, in
    order. *)
Theorem transmitq_outputs_chain con c m :
  console_ok con -> chain_wf c ->
  exists con' c' r, process_transmitq_chain (con, c, m) = Some ((con', c', m), r) /\
    console_ok con' /\ input_buffer con' = input_buffer con /\
    (r = Ok tt -> Forall (fun d => is_write_only d = false) (chain_descriptors m c) /\
       (takes_all T M -> sink_bytes (output con') =
          sink_bytes (output con) ++ (byte_at m <$> chain_cells m c))).
Proof. apply transmitq_run. Qed.
End ConsoleProperties.

(** ** Concrete sinks *)

(** A vector takes everything; a bounded sink takes at most [ls_limit] bytes
    of a request, as a pipe may. *)
Record VecSink : Type := mk_vec { vec_bytes : list Z }.
Record LimitedSink : Type := mk_limited { ls_limit : Z; ls_bytes : list Z }.

Definition take_from (m : FlatMem) (a n : Z) : result GuestMemoryError (list Z) :=
  if n =? 0 then Ok [] else gm_read m a (Z.to_nat n).

Global Instance VecSink_Sink : Sink VecSink FlatMem := {|
  sink_write := fun m a out n =>
    match take_from m a n with
    | Ok bs => (mk_vec (vec_bytes out ++ bs), Ok n)
    | Err e => (out, Err e)
    end;
  sink_flush := fun out => (out, Ok tt);
|}.
Global Instance VecSink_View : SinkView VecSink := {| sink_bytes := vec_bytes |}.

Global Instance LimitedSink_Sink : Sink LimitedSink FlatMem := {|
  sink_write := fun m a out n =>
    let k := Z.min n (Z.max 0 (ls_limit out)) in
    match take_from m a k with
    | Ok bs => (mk_limited (ls_limit out) (ls_bytes out ++ bs), Ok k)
    | Err e => (out, Err e)
    end;
  sink_flush := fun out => (out, Ok tt);
|}.
Global Instance LimitedSink_View : SinkView LimitedSink := {| sink_bytes := ls_bytes |}.

Lemma take_from_cells m a n k bs :
  0 <= k <= n -> take_from m a k = Ok bs ->
  bs = byte_at m <$> take (Z.to_nat k) (vs_cells {| vs_addr := a; vs_len := n |}).
Proof.
  intros Hk. unfold take_from. destruct (k =? 0) eqn:H0; zbool.
  { subst k. by intros [= <-]. }
  intros Hr. apply law_read in Hr as [Hl Hr]; [|lia].
  apply list_eq. intros i. rewrite list_lookup_fmap. destruct (decide (i < Z.to_nat k)%nat).
  - rewrite lookup_take_lt by done. unfold vs_cells. cbn [vs_addr vs_len].
    rewrite list_lookup_fmap, lookup_seq_lt by lia. simpl. unfold byte_at. rewrite Hr by done.
    by destruct (lookup_lt_is_Some_2 bs i) as [v ->]; [lia|].
  - rewrite lookup_take_ge by lia. by rewrite lookup_ge_None_2 by lia.
Qed.

Global Instance VecSink_laws : SinkLaws VecSink FlatMem.
Proof.
  split; cbn [sink_write sink_flush sink_bytes VecSink_Sink VecSink_View].
  - intros m a out n out' k Hn Hw. destruct (take_from m a n) as [bs|e] eqn:Ht; [|done]. simplify_eq.
    split; [lia|]. simpl. f_equal. eapply take_from_cells; [|done]. lia.
  - by intros out out' r [= <- _].
Qed.

Global Instance LimitedSink_laws : SinkLaws LimitedSink FlatMem.
Proof.
  split; cbn [sink_write sink_flush sink_bytes LimitedSink_Sink LimitedSink_View].
  - intros m a out n out' k Hn Hw. destruct (take_from m a _) as [bs|e] eqn:Ht; [|done]. simplify_eq.
    split; [lia|]. simpl. f_equal. eapply take_from_cells; [|done]. lia.
  - by intros out out' r [= <- _].
Qed.

Lemma VecSink_takes_all : takes_all VecSink FlatMem.
Proof.
  intros m a out n out' k. cbn [sink_write VecSink_Sink]. case_match; [|done]. by intros [= _ <-].
Qed.

(** ** Concrete runs *)

Module ConsoleExamples.
(** A receive chain of two writable buffers of 3 and 8 bytes, and a transmit
    chain of one readable buffer of 4 bytes, in the table at 0x1000. *)
Definition rx_desc1 : Descriptor := descriptor_new 0x5000 3 (VRING_DESC_F_NEXT + VRING_DESC_F_WRITE) 1.
Definition rx_desc2 : Descriptor := descriptor_new 0x6000 8 VRING_DESC_F_WRITE 0.
Definition tx_desc : Descriptor := descriptor_new 0x7000 4 0 0.

Definition console_mem (table : list (Z * Descriptor)) : FlatMem :=
  foldl (fun m '(a, d) => fst (write_obj m (raw_of_split d) a)) (from_ranges [(0, 0x10000)]) table.
Definition rx_mem : FlatMem := console_mem [(0x1000, rx_desc1); (0x1010, rx_desc2)].
Definition tx_mem : FlatMem := fst (gm_write (console_mem [(0x1000, tx_desc)]) 0x7000 [104; 105; 33; 10]).
Definition console_chain : DescriptorChain := chain_new 0x1000 4 0.

Definition con : Console VecSink := mk_console [1; 2; 3; 4; 5] 16 (mk_vec []).

Lemma con_ok : console_ok con.
Proof. split; [done|]. split; [done|]. by repeat constructor. Qed.

Lemma console_chain_wf : chain_wf console_chain.
Proof. apply chain_new_wf; by vm_compute. Qed.

(** A table entry outside of the buffers stays. *)
Lemma slot_kept cs (m m' : FlatMem) tbl n i d :
  slot m tbl n i d -> changed_within cs m m' ->
  (forall x, tbl + 16 * i <= x < tbl + 16 * i + 16 -> x ∉ cs) -> slot m' tbl n i d.
Proof.
  intros [Hi Hr] [_ Hp] Hd. split; [done|]. unfold read_obj in *.
  destruct (gm_read m _ _) as [bs|] eqn:Hg; [|done].
  rewrite (gm_read_ext m m' _ _ bs); [done|apply bv_size_pos| |done].
  intros x Hx. apply Hp, Hd. exact Hx.
Qed.

Lemma rx_cells_elem x : x ∈ chain_cells rx_mem console_chain -> 0x5000 <= x < 0x5003 \/ 0x6000 <= x < 0x6008.
Proof.
  replace (chain_cells rx_mem console_chain) with
    (slices_cells [{| vs_addr := 0x5000; vs_len := 3 |}; {| vs_addr := 0x6000; vs_len := 8 |}])
    by (vm_compute; reflexivity).
  cbn [slices_cells]. rewrite app_nil_r, elem_of_app, !vs_cells_in by done. simpl. lia.
Qed.

Lemma rx_stable : chain_stable (chain_cells rx_mem console_chain) rx_mem console_chain.
Proof.
  set (cs := chain_cells rx_mem console_chain).
  set (c1 := advance console_chain rx_desc1 3). set (c2 := advance c1 rx_desc2 11).
  assert (forall m', changed_within cs rx_mem m' -> chain_next m' console_chain = (c1, Some rx_desc1)) as H1.
  { intros m' Hm'. apply (next_on_slot m' console_chain rx_desc1); [exact console_chain_wf| |done|done|done].
    apply (slot_kept cs rx_mem); [split; [done|vm_compute; reflexivity]|exact Hm'|].
    intros x Hx Hin. apply rx_cells_elem in Hin. simpl in Hx. lia. }
  assert (chain_next rx_mem console_chain = (c1, Some rx_desc1)) as N1 by (vm_compute; reflexivity).
  pose proof (chain_next_wf _ _ _ _ console_chain_wf N1) as Hwf1.
  assert (forall m', changed_within cs rx_mem m' -> chain_next m' c1 = (c2, Some rx_desc2)) as H2.
  { intros m' Hm'. apply (next_on_slot m' c1 rx_desc2); [exact Hwf1| |done|done|done].
    apply (slot_kept cs rx_mem); [split; [done|vm_compute; reflexivity]|exact Hm'|].
    intros x Hx Hin. apply rx_cells_elem in Hin. simpl in Hx. lia. }
  eapply stable_step; [exact N1|exact H1|].
  eapply stable_step; [vm_compute; reflexivity|exact H2|].
  eapply stable_end; [vm_compute; reflexivity|]. intros m' _. reflexivity.
Qed.
End ConsoleExamples.

Lemma enqueue_data_exact_witness :
  exists con', enqueue_data (ConsoleExamples.con, [6; 7]) = Some ((con', []), Ok tt) /\
    input_buffer con' = [1; 2; 3; 4; 5; 6; 7].
Proof.
  destruct (enqueue_data_exact ConsoleExamples.con [6; 7] ConsoleExamples.con_ok)
    as [_ H]; [by repeat constructor|done|].
  eexists. split; [apply H|reflexivity].
Defined.

Lemma receiveq_delivers_prefix_witness :
  exists con' c' m', process_receiveq_chain
      (ConsoleExamples.con, ConsoleExamples.console_chain, ConsoleExamples.rx_mem) =
      Some ((con', c', m'), Ok 5) /\ input_buffer con' = [] /\ peek m' 0x6001 = Some 5.
Proof.
  destruct (receiveq_delivers_prefix ConsoleExamples.con ConsoleExamples.console_chain
    ConsoleExamples.rx_mem ConsoleExamples.con_ok ConsoleExamples.console_chain_wf
    ConsoleExamples.rx_stable) as (con' & c' & m' & r & Hr & _ & Hk & _).
  assert (snd <$> process_receiveq_chain
    (ConsoleExamples.con, ConsoleExamples.console_chain, ConsoleExamples.rx_mem) = Some (Ok 5)) as Hok
    by (vm_compute; reflexivity).
  rewrite Hr in Hok. injection Hok as ->.
  destruct (Hk 5 eq_refl) as (n & Hn & _ & _ & Hbuf & Hw).
  assert (n = 5%nat) as -> by lia.
  exists con', c', m'. split; [exact Hr|]. split; [exact Hbuf|].
  apply (wr_value _ _ _ _ Hw) with 4%nat.
  - apply (bool_decide_unpack (NoDup (take 5 (chain_cells ConsoleExamples.rx_mem ConsoleExamples.console_chain)))).
    vm_compute. exact I.
  - vm_compute. reflexivity.
  - reflexivity.
Defined.

Lemma transmitq_outputs_chain_witness :
  exists con' c', process_transmitq_chain
      (ConsoleExamples.con, ConsoleExamples.console_chain, ConsoleExamples.tx_mem) =
      Some ((con', c', ConsoleExamples.tx_mem), Ok tt) /\
    vec_bytes (output con') = [104; 105; 33; 10].
Proof.
  destruct (transmitq_outputs_chain ConsoleExamples.con ConsoleExamples.console_chain
    ConsoleExamples.tx_mem ConsoleExamples.con_ok ConsoleExamples.console_chain_wf)
    as (con' & c' & r & Hr & _ & _ & Hk).
  assert (snd <$> process_transmitq_chain
    (ConsoleExamples.con, ConsoleExamples.console_chain, ConsoleExamples.tx_mem) = Some (Ok tt)) as Hok
    by (vm_compute; reflexivity).
  rewrite Hr in Hok. injection Hok as ->.
  exists con', c'. split; [exact Hr|].
  destruct (Hk eq_refl) as [_ Hout]. change (vec_bytes (output con')) with (sink_bytes (output con')).
  rewrite (Hout VecSink_takes_all). vm_compute. reflexivity.
Defined.

(** Two ways the console loses data and does not say so to the driver: a sink that takes
    two of four bytes makes the method return success with half of the output, and a
    receive chain whose buffer is not backed returns an error after the bytes have left
    the input buffer. *)
Theorem console_loses_data :
  (exists con' c', process_transmitq_chain
     (mk_console [] 16 (mk_limited 2 []), ConsoleExamples.console_chain, ConsoleExamples.tx_mem) =
     Some ((con', c', ConsoleExamples.tx_mem), Ok tt) /\ ls_bytes (output con') = [104; 105]) /\
  (exists con' c' m' e, process_receiveq_chain
     (ConsoleExamples.con, ConsoleExamples.console_chain,
      ConsoleExamples.console_mem [(0x1000, descriptor_new 0x20000 4 VRING_DESC_F_WRITE 0)]) =
     Some ((con', c', m'), Err (WriteToGuestFailed e)) /\ input_buffer con' = [5]).
Proof. split; repeat eexists; vm_compute; by repeat split. Qed.
