(* ===== verification/ConsoleDevice.v ===== *)
(** * The console device on its queues

    The device loop documented for [Queue] with the two methods of [Console]
    as the processing of a chain: the receive queue carries the input buffer
    to the driver, the transmit queue carries the driver's bytes to the
    output. *)

From stdpp Require Import base numbers list option.
From S2P Require Import Prelude Bytes GuestMemory FlatMemory Descriptor Chain ChainKept Queue QueueFacts.
From S2P Require Import UsedRing AvailRing Processing DeviceLoop DescriptorUtils Console.

Section ConsoleDevice.
Context {T M : Type} `{GM : GuestMemory M} `{SK : Sink T M}.

(** Processing a chain of the receive queue; the length of a failed one is 0. *)
Definition rx_handler (c : DescriptorChain) (st : Console T * M)
    : option ((Console T * M) * u32) :=
  match process_receiveq_chain (fst st, c, snd st) with
  | None => None
  | Some ((con, _, m), Ok sent) => Some ((con, m), sent)
  | Some ((con, _, m), Err _) => Some ((con, m), 0)
  end.

(** Processing a chain of the transmit queue: nothing is written to it. *)
Definition tx_handler (c : DescriptorChain) (st : Console T * M)
    : option ((Console T * M) * u32) :=
  match process_transmitq_chain (fst st, c, snd st) with
  | None => None
  | Some ((con, _, m), _) => Some ((con, m), 0)
  end.

(** The addresses of the buffers [ds], in order. *)
Definition buffer_cells (ds : list Descriptor) : list Z := slices_cells (descriptor_slices ds).

(** A buffer the driver can be sent data in. *)
Definition receivable (m : M) (d : Descriptor) : Prop :=
  is_write_only d = true /\ 0 < d_len d /\ range_mapped m (d_addr d) (d_len d).

(** The chains a driver has offered under [heads], with their descriptors: the
    tables are [kept] and no buffer overlaps them, the rings or another
    buffer. *)
Record rx_batch (q : Queue) (m : M) (kept : Z -> Prop) (heads : list Z) (dss : list (list Descriptor)) : Prop := {
  rb_chains : Forall2 (fun h ds => chain_fixed kept m (chain_of q h) ds) heads dss;
  rb_usable : Forall (Forall (receivable m)) dss;
  rb_nodup : NoDup (concat (buffer_cells <$> dss));
  rb_apart : forall x, x ∈ concat (buffer_cells <$> dss) ->
    ~ kept x /\ ~ in_driver_area q x /\ ~ in_device_area q x;
  rb_kept : forall x, kept x -> ~ in_device_area q x;
}.

(** A buffer the driver can send data in. *)
Definition transmittable (m : M) (d : Descriptor) : Prop :=
  is_write_only d = false /\ range_mapped m (d_addr d) (d_len d).

(** The chains of a transmit queue: tables and buffers are [kept]. *)
Record tx_batch (q : Queue) (m : M) (kept : Z -> Prop) (heads : list Z) (dss : list (list Descriptor)) : Prop := {
  tb_chains : Forall2 (fun h ds => chain_fixed kept m (chain_of q h) ds) heads dss;
  tb_usable : Forall (Forall (transmittable m)) dss;
  tb_buffers : forall x, x ∈ concat (buffer_cells <$> dss) -> kept x;
  tb_kept : forall x, kept x -> ~ in_device_area q x;
}.

(** A sink that takes every backed range, as a [Vec] does. *)
Record reliable : Prop := {
  rel_write : forall m a out n, 0 <= n -> range_mapped m a n ->
    exists out', sink_write m a out n = (out', Ok n);
  rel_flush : forall out, exists out', sink_flush out = (out', Ok tt);
}.

(** What a driver finds in the buffers [ds] returned with element [e]. *)
Definition found (m : M) (ds : list Descriptor) (e : VirtqUsedElem) : list (option Z) :=
  peek m <$> take (Z.to_nat (ue_len e)) (buffer_cells ds).

(** The space of the buffers. *)
Definition room (dss : list (list Descriptor)) : Z := foldr (fun ds n => total_len ds + n) 0 dss.
Definition returned (es : list VirtqUsedElem) : Z := foldr (fun e n => ue_len e + n) 0 es.
End ConsoleDevice.
Arguments reliable T M {_ _}.

Section ConsoleDeviceFacts.
Context {T M : Type} `{GML : GuestMemoryLaws M} `{SL : SinkLaws T M (GM := GM)}.
Implicit Types (m : M) (con : Console T).

(** A chain whose tables are apart from [cs] is stable under writes to [cs]. *)
Lemma chain_fixed_stable kept cs m c ds :
  (forall x, x ∈ cs -> ~ kept x) -> chain_fixed kept m c ds -> chain_stable cs m c.
Proof.
  intros Hcs. induction 1 as [c c' Hn|c c' d ds Hn _ IH].
  - apply (stable_end _ _ c c'); [apply Hn, agree_refl|]. intros m' Hm'. apply Hn. by eapply agree_within.
  - apply (stable_step _ _ c c' d); [apply Hn, agree_refl| |done].
    intros m' Hm'. apply Hn. by eapply agree_within.
Qed.

(** A write to distinct cells is found there. *)
Lemma written_found m m' cs bs :
  NoDup cs -> length cs = length bs -> written m m' cs bs -> peek m' <$> cs = Some <$> bs.
Proof.
  intros Hnd Hl [_ _ Hv]. apply list_eq. intros i. rewrite !list_lookup_fmap.
  destruct (cs !! i) as [x|] eqn:Hx.
  - destruct (lookup_lt_is_Some_2 bs i) as [b Hb]; [rewrite <- Hl; by eapply lookup_lt_Some|].
    rewrite Hb. simpl. by rewrite (Hv Hnd i x b).
  - apply lookup_ge_None in Hx. rewrite lookup_ge_None_2 by lia. done.
Qed.

Lemma length_buffer_cells ds : Forall descriptor_wf ds ->
  Z.of_nat (length (buffer_cells ds)) = total_len ds.
Proof.
  unfold buffer_cells. induction 1 as [|d ds (_ & [Hl _] & _) _ IH]; [done|]. simpl.
  rewrite length_app, length_vs_cells. simpl. lia.
Qed.

(** One chain of the receive queue. *)
Lemma rx_handler_run con c m kept ds :
  console_ok con -> chain_wf c -> chain_fixed kept m c ds -> Forall (receivable m) ds ->
  NoDup (buffer_cells ds) -> (forall x, x ∈ buffer_cells ds -> ~ kept x) ->
  exists con' m' n, rx_handler c (con, m) = Some ((con', m'), Z.of_nat n) /\ console_ok con' /\
    Z.of_nat n = Z.min (Z.of_nat (length (input_buffer con))) (total_len ds) /\
    total_len ds < 2 ^ 32 /\ input_buffer con' = drop n (input_buffer con) /\
    changed_within (buffer_cells ds) m m' /\
    peek m' <$> take n (buffer_cells ds) = Some <$> take n (input_buffer con).
Proof.
  intros Hok Hwf Hf Hu Hnd Hap. pose proof (chain_fixed_descriptors kept m c ds Hwf Hf) as Hds.
  assert (chain_cells m c = buffer_cells ds) as Hcells by (unfold chain_cells; by rewrite Hds).
  assert (Forall descriptor_wf ds) as Hdw.
  { rewrite <- Hds. eapply list.Forall_impl; [by apply chain_descriptors_direct|]. by intros d [_ ?]. }
  pose proof (chain_descriptors_total m c Hwf) as Htot. pose proof (cw_yielded c Hwf) as [? _].
  destruct (receiveq_run con c m Hok Hwf) as (con' & c' & m' & r & Hr & Hok' & Hres & Hsucc).
  { apply (chain_fixed_stable kept _ m c ds); [by rewrite Hcells|done]. }
  rewrite Hds in Hsucc, Hres, Htot. specialize (Hsucc Hu). destruct r as [k|e]; [|done].
  destruct (Hres k eq_refl) as (n & -> & Hn & _ & Hbuf & Hwr). rewrite Hcells in Hwr.
  exists con', m', n. split; [unfold rx_handler; cbn [fst snd]; by rewrite Hr|]. split_and!; try done; [lia| |].
  - destruct Hwr as [Hl Ho _]. split; [done|]. intros x Hx. apply Ho. intros Hin. apply Hx.
    apply elem_of_take in Hin as (i & Hi & _). by eapply list_elem_of_lookup_2.
  - apply (written_found m); [| |done].
    { rewrite <- (take_drop n) in Hnd. by apply list.NoDup_app in Hnd as [? _]. }
    pose proof (length_buffer_cells ds Hdw). rewrite !length_take. lia.
Qed.

Lemma returned_snoc es e : returned (es ++ [e]) = returned es + ue_len e.
Proof. induction es as [|x es IH]; simpl; [lia|]. rewrite IH. lia. Qed.

Lemma room_snoc dss ds : room (dss ++ [ds]) = room dss + total_len ds.
Proof. induction dss as [|x dss IH]; simpl; [lia|]. rewrite IH. lia. Qed.

(** What was found is still there after writes elsewhere. *)
Lemma found_kept m m' dss es :
  (forall x, x ∈ concat (buffer_cells <$> dss) -> peek m' x = peek m x) ->
  zip_with (found m') dss es = zip_with (found m) dss es.
Proof.
  revert es. induction dss as [|ds dss IH]; intros [|e es] Hx; try done. simpl. f_equal.
  - unfold found. apply list_fmap_ext. intros i x Hi. apply Hx. simpl. apply elem_of_app. left.
    apply lookup_take_Some in Hi as [Hi _]. by eapply list_elem_of_lookup_2.
  - apply IH. intros x Hin. apply Hx. simpl. apply elem_of_app. by right.
Qed.

Section RxBatch.
Context (q : Queue) (m0 : M) (con0 : Console T) (kept : Z -> Prop) (dss : list (list Descriptor)).
Hypothesis Hwf : queue_wf q.
Hypothesis Husable : Forall (Forall (receivable m0)) dss.
Hypothesis Hnodup : NoDup (concat (buffer_cells <$> dss)).
Hypothesis Hapart : forall x, x ∈ concat (buffer_cells <$> dss) ->
  ~ kept x /\ ~ in_driver_area q x /\ ~ in_device_area q x.
Hypothesis Hkept : forall x, kept x -> ~ in_device_area q x.

(** Between two chains: the driver has found what has left the buffer. *)
Record rx_serving (es : list VirtqUsedElem) (hs : list Z) con m : Prop := {
  xs_console : console_ok con;
  xs_agree : agree kept m0 m;
  xs_run : exists done rest, dss = done ++ rest /\ length done = length es /\
    Forall2 (fun h ds => 0 <= h < q_size q /\ chain_fixed kept m0 (chain_of q h) ds) hs rest /\
    concat (zip_with (found m) done es) ++ (Some <$> input_buffer con) = Some <$> input_buffer con0 /\
    Z.of_nat (length (input_buffer con)) = Z.of_nat (length (input_buffer con0)) - returned es /\
    returned es = Z.min (Z.of_nat (length (input_buffer con0))) (room done);
}.

Lemma rx_serving_wrote es hs con m m' :
  rx_serving es hs con m -> device_wrote q m m' -> rx_serving es hs con m'.
Proof.
  intros [Hok Ha (dn & rest & Hd & Hlen & Hf & Hst & Hleft & Hret)] [Hl Hp]. split; [done| |].
  - eapply agree_trans; [done|]. split; [done|]. intros x Hx. by apply Hp, Hkept.
  - exists dn, rest. split_and!; try done. rewrite (found_kept m); [done|]. intros x Hx. apply Hp.
    apply Hapart. rewrite Hd, fmap_app, concat_app. apply elem_of_app. by left.
Qed.

Lemma rx_serving_step es h hs con m :
  rx_serving es (h :: hs) con m ->
  exists con' m' len, rx_handler (chain_of q h) (con, m) = Some ((con', m'), len) /\
    same_layout m m' /\
    (forall x, in_driver_area q x \/ in_device_area q x -> peek m' x = peek m x) /\
    in_u 32 len /\ rx_serving (es ++ [used_elem_new h len]) hs con' m'.
Proof.
  intros [Hok Ha (dn & rest & Hd & Hlen & Hf & Hst & Hleft & Hret)].
  apply Forall2_cons_inv_l in Hf as (ds & rest' & (Hh & Hfix) & Hf & ->).
  pose proof (queue_wf_size q Hwf) as [Hpos Hmax]. unfold MAX_QUEUE_SIZE in Hmax.
  assert (chain_wf (chain_of q h)) as Hcw.
  { apply chain_new_wf; [apply Hwf|unfold in_u; change (2 ^ 16) with 65536; lia..]. }
  assert (forall x, x ∈ buffer_cells ds -> x ∈ concat (buffer_cells <$> dss)) as Hsub.
  { intros x Hx. rewrite Hd, fmap_app, concat_app. simpl. rewrite !elem_of_app. auto. }
  rewrite Hd, fmap_app, concat_app in Hnodup. simpl in Hnodup.
  apply list.NoDup_app in Hnodup as (_ & Hdisj & Hnd). apply list.NoDup_app in Hnd as (Hnd & _ & _).
  rewrite Hd, Forall_app, list.Forall_cons in Husable. destruct Husable as (_ & Hu & _).
  destruct (rx_handler_run con (chain_of q h) m kept ds)
    as (con' & m' & n & Hr & Hok' & Hn & Ht & Hbuf & Hcwi & Hpk); try done.
  { by eapply chain_fixed_agree. }
  { eapply list.Forall_impl; [exact Hu|]. intros d (? & ? & ?). split_and!; try done.
    by eapply same_layout_mapped; [apply Ha|]. }
  { intros x Hx. by apply Hapart, Hsub. }
  pose proof Hcwi as [Hl Hp]. exists con', m', (Z.of_nat n). split; [done|]. split; [done|]. split.
  { intros x Hx. apply Hp. intros Hin. destruct (Hapart x (Hsub x Hin)) as (_ & ? & ?). tauto. }
  split; [unfold in_u; lia|]. split; [done| |].
  { eapply agree_trans; [done|]. eapply agree_within; [|done]. intros x Hx. by apply Hapart, Hsub. }
  exists (dn ++ [ds]), rest'. rewrite !length_app, <- app_assoc, zip_with_app, concat_app by done.
  rewrite returned_snoc, room_snoc. simpl ue_len. split_and!; try done.
  - simpl. lia.
  - rewrite (found_kept m), <- Hst, <- app_assoc.
    2:{ intros x Hx. apply Hp. intros Hin. apply (Hdisj x Hx), elem_of_app. by left. }
    f_equal. simpl. rewrite app_nil_r. unfold found. simpl ue_len.
    by rewrite Nat2Z.id, Hpk, Hbuf, <- fmap_app, take_drop.
  - rewrite Hbuf, length_drop. lia.
  - assert (0 <= total_len ds); [|lia]. apply total_len_nonneg.
    rewrite <- (chain_fixed_descriptors kept m0 _ _ Hcw Hfix).
    eapply list.Forall_impl; [by apply chain_descriptors_direct|]. by intros d [_ ?].
Qed.

Lemma rx_serves : serves rx_handler q rx_serving.
Proof. split; [apply rx_serving_step|apply rx_serving_wrote]. Qed.
End RxBatch.

(** One chain of the transmit queue. *)
Lemma transmit_succeeds fuel m c : chain_wf c -> forall con,
  reliable T M -> Forall (transmittable m) (chain_descriptors m c) ->
  chain_budget c < Z.of_nat fuel ->
  exists con' c', transmit_loop fuel (con, c, m) = Some ((con', c', m), Ok tt) /\
    capacity con' = capacity con /\ input_buffer con' = input_buffer con /\
    sink_bytes (output con') = sink_bytes (output con) ++ (byte_at m <$> chain_cells m c).
Proof.
  intros Hwf. revert c Hwf fuel. apply (chain_ind m (fun c => forall fuel con, _ -> _ -> _ -> _)).
  - intros c c' Hwf Hn fuel con _ _ Hf. destruct fuel as [|fuel].
    { pose proof (chain_budget_nonneg c Hwf). lia. }
    cbn [transmit_loop]. rewrite Hn. eexists _, _. split_and!; try done.
    unfold chain_cells. rewrite chain_descriptors_unfold, Hn by done. simpl. by rewrite app_nil_r.
  - intros c c' d Hwf Hn IH fuel con Hrel Hall Hf. destruct fuel as [|fuel].
    { pose proof (chain_budget_nonneg c Hwf). lia. }
    rewrite chain_descriptors_unfold, Hn in Hall by done.
    apply list.Forall_cons in Hall as [(Hwo & Hmap) Hall]. cbn [transmit_loop]. rewrite Hn, Hwo.
    destruct (yielded_wf _ _ _ _ Hwf Hn) as (_ & [Hd0 _] & _).
    destruct (rel_write Hrel m (d_addr d) (output con) (d_len d) Hd0 Hmap) as [out Hw].
    destruct (rel_flush Hrel out) as [out' Hfl]. rewrite Hw, Hfl.
    destruct (IH fuel (with_output out' con) Hrel Hall) as (con' & c2 & -> & Hc & Hb & Hout).
    { pose proof (chain_next_budget _ _ _ _ Hwf Hn). lia. }
    eexists _, _. split_and!; try done. rewrite Hout. cbn [output with_output].
    apply law_sink_flush in Hfl. apply law_sink_write in Hw as [_ Hw]; [|done].
    rewrite Hfl, Hw, take_ge by (rewrite length_vs_cells; simpl; lia).
    by rewrite (chain_cells_unfold m c d c' Hwf Hn), fmap_app, (assoc_L (++)).
Qed.

Section TxBatch.
Context (q : Queue) (m0 : M) (con0 : Console T) (kept : Z -> Prop) (dss : list (list Descriptor)).
Hypothesis Hwf : queue_wf q.
Hypothesis Hrel : reliable T M.
Hypothesis Husable : Forall (Forall (transmittable m0)) dss.
Hypothesis Hbuffers : forall x, x ∈ concat (buffer_cells <$> dss) -> kept x.
Hypothesis Hkept : forall x, kept x -> ~ in_device_area q x.

(** Between two chains: the output has the bytes of the chains returned. *)
Record tx_serving (es : list VirtqUsedElem) (hs : list Z) con m : Prop := {
  ts_console : console_ok con /\ input_buffer con = input_buffer con0;
  ts_agree : agree kept m0 m;
  ts_lens : Forall (fun e => ue_len e = 0) es;
  ts_run : exists done rest, dss = done ++ rest /\
    Forall2 (fun h ds => 0 <= h < q_size q /\ chain_fixed kept m0 (chain_of q h) ds) hs rest /\
    sink_bytes (output con) = sink_bytes (output con0) ++ (byte_at m0 <$> concat (buffer_cells <$> done));
}.

Lemma tx_serving_wrote es hs con m m' :
  tx_serving es hs con m -> device_wrote q m m' -> tx_serving es hs con m'.
Proof.
  intros [Hok Ha Hl0 Hrun] [Hl Hp]. split; try done.
  eapply agree_trans; [done|]. split; [done|]. intros x Hx. by apply Hp, Hkept.
Qed.

Lemma tx_serving_step es h hs con m :
  tx_serving es (h :: hs) con m ->
  exists con' m' len, tx_handler (chain_of q h) (con, m) = Some ((con', m'), len) /\
    same_layout m m' /\
    (forall x, in_driver_area q x \/ in_device_area q x -> peek m' x = peek m x) /\
    in_u 32 len /\ tx_serving (es ++ [used_elem_new h len]) hs con' m'.
Proof.
  intros [[Hok Hin] Ha Hl0 (dn & rest & Hd & Hf & Hout)].
  apply Forall2_cons_inv_l in Hf as (ds & rest' & (Hh & Hfix) & Hf & ->).
  pose proof (queue_wf_size q Hwf) as [Hpos Hmax]. unfold MAX_QUEUE_SIZE in Hmax.
  assert (chain_wf (chain_of q h)) as Hcw.
  { apply chain_new_wf; [apply Hwf|unfold in_u; change (2 ^ 16) with 65536; lia..]. }
  assert (chain_descriptors m (chain_of q h) = ds) as Hds.
  { apply (chain_fixed_descriptors kept); [done|]. by eapply chain_fixed_agree. }
  assert (forall x, x ∈ buffer_cells ds -> kept x) as Hsub.
  { intros x Hx. apply Hbuffers. rewrite Hd, fmap_app, concat_app. simpl. rewrite !elem_of_app. auto. }
  rewrite Hd, Forall_app, list.Forall_cons in Husable. destruct Husable as (_ & Hu & _).
  destruct (transmit_succeeds (S (Z.to_nat (chain_budget (chain_of q h)))) m (chain_of q h) Hcw con Hrel)
    as (con' & c' & Hr & Hc & Hb & Ho).
  { rewrite Hds. eapply list.Forall_impl; [exact Hu|]. intros d (? & ?). split; [done|].
    by eapply same_layout_mapped; [apply Ha|]. }
  { lia. }
  exists con', m, 0. split.
  { unfold tx_handler, process_transmitq_chain. cbn [fst snd]. by rewrite Hr. }
  split; [apply same_layout_refl|]. split; [done|]. split; [done|]. split; [|done| |].
  - unfold console_ok. rewrite Hc, Hb. done.
  - apply Forall_app. split; [done|]. by constructor.
  - exists (dn ++ [ds]), rest'. rewrite <- app_assoc. split; [done|]. split; [done|].
    rewrite Ho, Hout, <- app_assoc, fmap_app, concat_app, fmap_app. do 2 f_equal. simpl.
    rewrite app_nil_r. unfold chain_cells. rewrite Hds. apply list_fmap_ext. intros i x Hx.
    unfold byte_at. destruct Ha as [_ Hp]. rewrite Hp; [done|]. apply Hsub.
    by eapply list_elem_of_lookup_2.
Qed.

Lemma tx_serves : serves tx_handler q tx_serving.
Proof. split; [apply tx_serving_step|apply tx_serving_wrote]. Qed.
End TxBatch.
End ConsoleDeviceFacts.

(** ** Properties *)

(** C13: the receive queue of the console is a stream: on a queue whose driver has offered
    chains of writable buffers, the documented loop with [process_receiveq_chain] ends, and
    what the driver finds in the buffers, chain by chain up to the length each is returned
    with, followed by what is left in the input buffer, is the input buffer from before:
    nothing is lost, repeated or reordered.  As much is delivered as there is data and
    room. *)
Theorem console_rx_stream {T M} `{GML : GuestMemoryLaws M} `{SL : SinkLaws T M (GM := GM)}
    (con : Console T) (m : M) q event heads dss kept fuel :
  loop_ready q m event -> offered q m heads -> Forall (fun h => 0 <= h < q_size q) heads ->
  rx_batch q m kept heads dss -> console_ok con ->
  exists es con' q' m',
    event_loop rx_handler (S fuel) [] (con, (q, m)) =
      Some ((con', (q', m')), Ok (signals_for q event (q_next_used q) (length heads))) /\
    used_view (q_next_used q) es q' m' /\ ue_id <$> es = heads /\ console_ok con' /\
    concat (zip_with (found m') dss es) ++ (Some <$> input_buffer con') = Some <$> input_buffer con /\
    returned es = Z.min (Z.of_nat (length (input_buffer con))) (room dss).
Proof.
  intros Hlr Ho Hh [Hch Hu Hnd Hap Hk] Hok.
  pose proof (rx_serves q m con kept dss (lr_wf _ _ _ Hlr) Hu Hnd Hap Hk) as Hsv.
  assert (rx_serving q m con kept dss [] heads con m) as Hinit.
  { split; [done|apply agree_refl|]. exists [], dss.
    split; [done|]. split; [done|]. split; [by apply Forall2_with_l|].
    simpl. split_and!; [done|lia|lia]. }
  destruct (event_loop_serves rx_handler _ q m con event heads fuel Hlr Ho Hh Hsv Hinit)
    as (es & q' & con' & m' & Hrun & Hids & Hview & [Hok' _ Hinv] & _).
  destruct Hinv as (dn & rest & Hd & _ & Hf & Hst & _ & Hret). apply Forall2_nil_inv_l in Hf as ->.
  rewrite app_nil_r in Hd. subst dn. by exists es, con', q', m'.
Qed.

(** C14: the transmit queue of the console is a stream: on a queue whose driver has offered
    chains of readable buffers, and with a sink that takes every backed range, the documented
    loop with [process_transmitq_chain] ends, every chain is returned with length 0, and the
    output has grown by the bytes of the buffers, in the order of the available ring and of
    each chain; the input buffer is left alone. *)
Theorem console_tx_stream {T M} `{GML : GuestMemoryLaws M} `{SL : SinkLaws T M (GM := GM)}
    (con : Console T) (m : M) q event heads dss kept fuel :
  loop_ready q m event -> offered q m heads -> Forall (fun h => 0 <= h < q_size q) heads ->
  tx_batch q m kept heads dss -> reliable T M -> console_ok con ->
  exists es con' q' m',
    event_loop tx_handler (S fuel) [] (con, (q, m)) =
      Some ((con', (q', m')), Ok (signals_for q event (q_next_used q) (length heads))) /\
    used_view (q_next_used q) es q' m' /\ ue_id <$> es = heads /\
    Forall (fun e => ue_len e = 0) es /\ input_buffer con' = input_buffer con /\
    sink_bytes (output con') =
      sink_bytes (output con) ++ (byte_at m <$> concat (buffer_cells <$> dss)).
Proof.
  intros Hlr Ho Hh [Hch Hu Hbf Hk] Hrel Hok.
  pose proof (tx_serves q m con kept dss (lr_wf _ _ _ Hlr) Hrel Hu Hbf Hk) as Hsv.
  assert (tx_serving q m con kept dss [] heads con m) as Hinit.
  { split; [done|apply agree_refl|done|]. exists [], dss.
    split; [done|]. split; [by apply Forall2_with_l|]. simpl. by rewrite app_nil_r. }
  destruct (event_loop_serves tx_handler _ q m con event heads fuel Hlr Ho Hh Hsv Hinit)
    as (es & q' & con' & m' & Hrun & Hids & Hview & [[Hok' Hin] _ Hl Hinv] & _).
  destruct Hinv as (dn & rest & Hd & Hf & Hout). apply Forall2_nil_inv_l in Hf as ->.
  rewrite app_nil_r in Hd. subst dn. by exists es, con', q', m'.
Qed.

(** ** Concrete runs *)

(** A vector takes every backed range. *)
Lemma VecSink_reliable : reliable VecSink FlatMem.
Proof.
  split; [|by eexists]. intros m a out n Hn Hm. cbn [sink_write VecSink_Sink]. unfold take_from.
  destruct (n =? 0) eqn:H0; zbool; [by eexists|].
  assert (exists bs, gm_read m a (Z.to_nat n) = Ok bs) as [bs ->]; [|by eexists].
  exists (byte_at m <$> vs_cells {| vs_addr := a; vs_len := n |}). apply law_read; [lia|].
  rewrite length_fmap, length_vs_cells. cbn [vs_len]. split; [done|]. intros i Hi.
  unfold vs_cells. cbn [vs_addr vs_len]. rewrite list_lookup_fmap, list_lookup_fmap, lookup_seq_lt by lia.
  simpl. unfold byte_at. destruct (Hm (a + Z.of_nat i)) as [b Hb]; [lia|]. by rewrite Hb.
Qed.

Module ConsoleDeviceExamples.
(** Two chains in the table at 0x1000: the entries 0 and 1 with buffers of 3
    and 1 bytes, and the entry 2 with a buffer of 8 bytes. *)
Definition desc0 (w : u16) : Descriptor := descriptor_new 0x5000 3 (VRING_DESC_F_NEXT + w) 1.
Definition desc1 (w : u16) : Descriptor := descriptor_new 0x6000 1 w 0.
Definition desc2 (w : u16) : Descriptor := descriptor_new 0x6100 8 w 0.
Definition dss (w : u16) : list (list Descriptor) := [[desc0 w; desc1 w]; [desc2 w]].

Definition console_guest (w : u16) : FlatMem :=
  AvailExamples.store16s
    (ConsoleExamples.console_mem [(0x1000, desc0 w); (0x1010, desc1 w); (0x1020, desc2 w)])
    [(0x2002, 2); (0x2004, 0); (0x2006, 2); (0x5000, 26984); (0x6000, 33); (0x6100, 111)].
Definition rx_guest : FlatMem := console_guest VRING_DESC_F_WRITE.
Definition tx_guest : FlatMem := console_guest 0.

Definition q8 : Queue := mk_queue 16 0 0 false 0 8 true 0x1000 0x2000 0x3000.
Definition sending : Console VecSink := mk_console [1; 2; 3; 4; 5; 6] 16 (mk_vec []).

Definition tables (x : Z) : Prop := 0x1000 <= x < 0x1080.
Definition tables_and_buffers (x : Z) : Prop := 0x1000 <= x < 0x1080 \/ 0x5000 <= x < 0x7000.

Lemma sending_ok : console_ok sending.
Proof. split; [done|]. split; [done|]. by repeat constructor. Qed.

Lemma console_q8_wf : queue_wf q8.
Proof. split; try (by vm_compute); split; try done; first [by exists 4 | by exists 3]. Qed.

Lemma console_q8_ready m : fm_acc16 m 0x3000 = true -> fm_acc16 m 0x3002 = true ->
  gm_find_region m 0x3000 = Some (0, 0x10000) -> loop_ready q8 m 0.
Proof.
  intros H0 H2 Hr. split; [apply console_q8_wf| |by apply fm_acc16_spec|done|].
  - split; [|by apply fm_acc16_spec]. apply (fm_region_mapped _ 0x3000 0 0x10000); [exact Hr|done|done].
  - intros x. unfold in_driver_area, in_device_area. simpl. lia.
Qed.

Lemma chains_fixed (kept : Z -> Prop) w :
  w = 0 \/ w = VRING_DESC_F_WRITE -> (forall x, tables x -> kept x) ->
  Forall2 (fun h ds => chain_fixed kept (console_guest w) (chain_of q8 h) ds) [0; 2] (dss w).
Proof.
  intros Hw Hk.
  assert (forall h, 0 <= h < 8 -> chain_wf (chain_of q8 h)) as Hcw.
  { intros h Hh. apply chain_new_wf; [done|done|]. unfold in_u. change (2 ^ 16) with 65536. lia. }
  constructor; [|constructor; [|done]]; (apply direct_chain_fixed; [intros x Hx; by apply Hk| |by apply Hcw|done|done]).
  - exists [desc0 w], 1, (desc1 w). destruct Hw as [-> | ->]; (split; [done|]; split;
      [apply path_cons; [split; [done|by vm_compute]|done|done|apply path_nil]|];
      split; [split; [done|by vm_compute]|by split_and!]).
  - exists [], 2, (desc2 w). destruct Hw as [-> | ->]; (split; [done|]; split;
      [apply path_nil|]; split; [split; [done|by vm_compute]|by split_and!]).
Qed.

Lemma cells_range w x : x ∈ concat (buffer_cells <$> dss w) -> 0x5000 <= x < 0x7000.
Proof.
  intros Hx. assert (Forall (fun x => 0x5000 <= x < 0x7000) (concat (buffer_cells <$> dss w))) as Hall.
  { apply (bool_decide_unpack (Forall _ _)). by vm_compute. }
  rewrite list.Forall_forall in Hall. by apply Hall.
Qed.

Lemma guest_buffer_mapped w a n : 0 <= a -> a + n <= 0x10000 -> range_mapped (console_guest w) a n.
Proof. intros Ha Hn. apply (fm_region_mapped _ 0 0 0x10000); [reflexivity|lia|lia]. Qed.

Lemma rx_example : rx_batch q8 rx_guest tables [0; 2] (dss VRING_DESC_F_WRITE).
Proof.
  split.
  - apply chains_fixed; [by right|done].
  - repeat constructor; try done; by apply guest_buffer_mapped.
  - apply (bool_decide_unpack (NoDup _)). by vm_compute.
  - intros x Hx%cells_range. unfold tables, in_driver_area, in_device_area. simpl. lia.
  - intros x. unfold tables, in_device_area. simpl. lia.
Qed.

Lemma tx_example : tx_batch q8 tx_guest tables_and_buffers [0; 2] (dss 0).
Proof.
  split.
  - apply chains_fixed; [by left|]. intros x. unfold tables, tables_and_buffers. lia.
  - repeat constructor; try done; by apply guest_buffer_mapped.
  - intros x Hx%cells_range. by right.
  - intros x. unfold tables_and_buffers, in_device_area. simpl. lia.
Qed.

Lemma console_q8_offered w : w = 0 \/ w = VRING_DESC_F_WRITE -> offered q8 (console_guest w) [0; 2].
Proof.
  intros [-> | ->]; (split; [done|done|by vm_compute|]);
    intros [|[|k]] h Hk; simplify_eq/=; by vm_compute.
Qed.
End ConsoleDeviceExamples.
Import ConsoleDeviceExamples.

(** The first chain takes four bytes, the second the last two. *)
Lemma console_rx_stream_witness :
  exists es con' q' m', event_loop rx_handler 1 [] (sending, (q8, rx_guest)) =
      Some ((con', (q', m')), Ok [true; true]) /\ ue_id <$> es = [0; 2] /\
    concat (zip_with (found m') (dss VRING_DESC_F_WRITE) es) ++ (Some <$> input_buffer con') =
      Some <$> [1; 2; 3; 4; 5; 6] /\ returned es = 6.
Proof.
  destruct (console_rx_stream sending rx_guest q8 0 [0; 2] (dss VRING_DESC_F_WRITE) tables 0)
    as (es & con' & q' & m' & Hr & _ & Hids & _ & Hst & Hret).
  - apply console_q8_ready; by vm_compute.
  - apply console_q8_offered. by right.
  - repeat constructor; by vm_compute.
  - apply rx_example.
  - apply sending_ok.
  - exists es, con', q', m'. split; [exact Hr|]. split; [exact Hids|]. split; [exact Hst|exact Hret].
Defined.

Lemma console_tx_stream_witness :
  exists es con' q' m', event_loop tx_handler 1 [] (sending, (q8, tx_guest)) =
      Some ((con', (q', m')), Ok [true; true]) /\ ue_id <$> es = [0; 2] /\
    vec_bytes (output con') = [104; 105; 0; 33; 111; 0; 0; 0; 0; 0; 0; 0].
Proof.
  destruct (console_tx_stream sending tx_guest q8 0 [0; 2] (dss 0) tables_and_buffers 0)
    as (es & con' & q' & m' & Hr & _ & Hids & _ & _ & Hout).
  - apply console_q8_ready; by vm_compute.
  - apply console_q8_offered. by left.
  - repeat constructor; by vm_compute.
  - apply tx_example.
  - apply VecSink_reliable.
  - apply sending_ok.
  - exists es, con', q', m'. split; [exact Hr|]. split; [exact Hids|].
    change (vec_bytes (output con')) with (sink_bytes (output con')). rewrite Hout. by vm_compute.
Defined.
