(* ===== verification/FuzzTargets.v ===== *)
(** * The fuzz targets

    fuzz/fuzz_targets: whole programs that lay out a queue with the mock
    driver, offer the descriptors of the input and use the device side on
    them.  [None] is a panic, which is what the fuzzer looks for.  The memory
    of the targets and the file behind the block device are parameters. *)

From stdpp Require Import base numbers list option.
From S2P Require Import Prelude Bytes GuestMemory FlatMemory Descriptor Chain Queue.
From S2P Require Import QueueFacts UsedRing AvailRing QueueState QueueConfig QueueApi Mock.
From S2P Require Import DescriptorUtils BlkRequest BlkExecutor BlkProperties.
From S2P Require Import VsockPacket VsockProperties.

Definition DEFAULT_QUEUE_SIZE : u16 := 256.

(** ** The inputs *)

Record VirtioQueueInput : Type := mk_virtio_queue_input {
  vi_descriptors : list FuzzingDescriptor;
  vi_functions : list VirtioQueueFunction;
}.

Record QueueStateInput : Type := mk_queue_state_input {
  qi_descriptors : list FuzzingDescriptor;
  qi_queue_state : FuzzingQueueState;
  qi_functions : list VirtioQueueFunction;
}.

Inductive InitFunction : Type := FromRX | FromTX.

Record VsockInput : Type := mk_vsock_input {
  si_pkt_max_data : u32;
  si_init_function : InitFunction;
  si_descriptors : list FuzzingDescriptor;
  si_functions : list VsockFunction;
}.

Record BlkInput : Type := mk_blk_input {
  bi_descriptors : list FuzzingDescriptor;
  bi_guestmem : list (u64 * list u8);
  bi_features : u64;
  bi_device_id : option (list u8);
}.

(** ** The targets *)

Section Targets.
Context {M : Type} `{GM : GuestMemory M}.

Definition START_ADDR : u64 := 0x1000.

Definition raw_descriptors (ds : list FuzzingDescriptor) : list RawDescriptor :=
  fuzzing_descriptor_into <$> ds.

(** fuzz_targets/virtio_queue.rs, after the input is decoded. *)
Definition fuzz_virtio_queue (fuzz_input : VirtioQueueInput) (m : M) : option M :=
  '(vq, m) ← mock_create START_ADDR DEFAULT_QUEUE_SIZE m;
  let descriptors := raw_descriptors (vi_descriptors fuzz_input) in
  '((vq, m), r) ← build_multiple_desc_chains descriptors (vq, m);
  if negb (is_ok r) then Some m
  else
    match create_queue vq with
    | Err _ => Some m
    | Ok q =>
        let fuzz_funcs := sanitize_virtio_queue_functions (vi_functions fuzz_input) in
        '((q, m), _) ← call_all fuzz_funcs (q, m);
        Some m
    end.

(** fuzz_targets/virtio_queue_ser.rs. *)
Definition fuzz_virtio_queue_ser (fuzz_input : QueueStateInput) (m : M) : option M :=
  '(vq, m) ← mock_create START_ADDR DEFAULT_QUEUE_SIZE m;
  let descriptors := raw_descriptors (qi_descriptors fuzz_input) in
  '((vq, m), r) ← build_multiple_desc_chains descriptors (vq, m);
  if negb (is_ok r) then Some m
  else
    let q_state := fuzzing_into_queue_state (qi_queue_state fuzz_input) in
    match queue_try_from q_state with
    | Err _ => Some m
    | Ok q =>
        let fuzz_funcs := sanitize_virtio_queue_functions (qi_functions fuzz_input) in
        '((q, m), _) ← call_all fuzz_funcs (q, m);
        Some m
    end.

(** fuzz_targets/vsock.rs. *)
Definition fuzz_vsock `{SliceBytes M} (fuzz_input : VsockInput) (m : M) : option M :=
  '(vq, m) ← mock_create START_ADDR DEFAULT_QUEUE_SIZE m;
  let descriptors := raw_descriptors (si_descriptors fuzz_input) in
  '((vq, m), r) ← build_desc_chain descriptors (vq, m);
  match r with
  | Err _ => Some m
  | Ok chain =>
      let '(chain, packet) :=
        match si_init_function fuzz_input with
        | FromRX => from_rx_virtq_chain m m chain (si_pkt_max_data fuzz_input)
        | FromTX => from_tx_virtq_chain m m chain (si_pkt_max_data fuzz_input)
        end in
      match packet with
      | Err _ => Some m
      | Ok p =>
          '((p, m), _) ← vsock_calls (si_functions fuzz_input) (p, m);
          Some m
      end
  end.

(** The loop that populates guest memory; errors are ignored. *)
Definition populate (guestmem : list (u64 * list u8)) (m : M) : M :=
  foldl (fun m '(addr, mem) => fst (gm_write m addr mem)) m guestmem.

(** fuzz_targets/blk.rs, with the in-memory file [memfile]. *)
Definition fuzz_blk {B} `{Backend B M} (fuzz_input : BlkInput) (memfile : B) (m : M) : option M :=
  let m := populate (bi_guestmem fuzz_input) m in
  '(vq, m) ← mock_create START_ADDR DEFAULT_QUEUE_SIZE m;
  let descriptors := raw_descriptors (bi_descriptors fuzz_input) in
  backend ← to_option (std_io_backend_new memfile (bi_features fuzz_input));
  let backend :=
    match bi_device_id fuzz_input with Some id => with_device_id id backend | None => backend end in
  '((vq, m), r) ← build_desc_chain descriptors (vq, m);
  match r with
  | Err _ => Some m
  | Ok chain =>
      '(chain, r) ← parse m chain;
      match r with
      | Err _ => Some m
      | Ok req => '((backend, m), _) ← process_request req (backend, m); Some m
      end
  end.
End Targets.

(** ** The mock driver on arbitrary descriptors *)

Section MockSafety.
Context {M : Type} `{GML : GuestMemoryLaws M}.
Implicit Types (m : M) (mq : MockSplitQueue).

Lemma table_store_safe m tbl n free i d :
  0 <= tbl -> 0 <= i -> 0 <= n -> tbl + 16 * n < 2 ^ 64 -> range_mapped m tbl (16 * n) ->
  exists m' r, table_store (mk_table (mk_array_ref tbl n) n free) i d m = Some (m', r) /\
    same_layout m m' /\ (r = Ok tt -> i < n).
Proof.
  intros Ht Hi Hn H64 Hm. unfold table_store, ref_at. cbn [dt_table ar_addr ar_len].
  rewrite Z.geb_leb. destruct (n <=? i) eqn:Hle; zbool.
  { eexists _, _. split; [done|]. split; [apply same_layout_refl|done]. }
  change DESC_SIZE with 16. unfold checked_add. rewrite (proj2 (Z.ltb_lt _ _)) by lia.
  pose proof (proj2 (write_obj_success m d (tbl + i * 16))) as Hok.
  pose proof (write_obj_layout m d (tbl + i * 16)) as Hly. unfold ref_store.
  destruct (write_obj m d (tbl + i * 16)) as [m' r]. simpl in *.
  rewrite Hok by (intros x Hx; apply Hm; lia). eexists _, _. split; [done|]. by split.
Qed.

Lemma mock_write_u16_safe m v a : exists m' r,
  mock_write_obj (BV := u16_bv) v a m = Some (m', r) /\ same_layout m m'.
Proof.
  pose proof (uint_bv_laws 2 ltac:(lia)) as HL.
  pose proof (write_obj_layout (BVL := HL) m v a) as Hly. unfold mock_write_obj.
  destruct (write_obj m v a) as [m' r]. by eexists _, _.
Qed.

(** The loop ends with an error or after as many descriptors as the table
    holds, so its counters do not overflow. *)
Lemma add_descs_safe tbl n free avail descs : 0 <= tbl -> 0 <= n < 2 ^ 15 + 1 -> tbl + 16 * n < 2 ^ 64 ->
  forall i ne p m, 0 <= ne <= i -> ne <= n -> range_mapped m tbl (16 * n) ->
  exists m' r, add_descs (mk_table (mk_array_ref tbl n) n free) avail 0 i ne p descs m = Some (m', r) /\
    same_layout m m' /\ (forall k, r = Ok k -> 0 <= k <= n).
Proof.
  intros Ht Hn H64. induction descs as [|d descs IH]; intros i ne p m Hne Hnn Hm.
  { eexists _, _. split; [done|]. split; [apply same_layout_refl|]. intros k [= <-]. lia. }
  cbn [add_descs]. rewrite rm_bind_unfold.
  destruct (table_store_safe m tbl n free i d) as (m1 & r1 & -> & Hl1 & Hr1); [lia|lia|lia|lia|done|].
  destruct r1 as [[]|e]; [|eexists _, _; split; [done|]; by split]. specialize (Hr1 eq_refl).
  rewrite rm_bind_unfold.
  assert (forall b : bool, exists m2 r2, (if b then
      pos ← unwrap (add_u 16 0 ne);
      _ ← mock_write_obj (BV := u16_bv) i
        (avail + (VIRTQ_AVAIL_RING_HEADER_SIZE + pos * VIRTQ_AVAIL_ELEMENT_SIZE));
      unwrap (add_u 16 ne 1)
    else mret ne) m1 = Some (m2, r2) /\ same_layout m m2 /\
      (forall k, r2 = Ok k -> 0 <= k <= i + 1)) as Hnew.
  { intros []; [|eexists _, _; split; [done|]; split; [done|]; intros k [= <-]; lia].
    unfold add_u, checked_add. rewrite !(proj2 (Z.ltb_lt _ _)) by lia.
    rewrite rm_bind_unfold. cbn [unwrap]. rewrite rm_bind_unfold.
    destruct (mock_write_u16_safe m1 i (avail + (VIRTQ_AVAIL_RING_HEADER_SIZE + (0 + ne) * VIRTQ_AVAIL_ELEMENT_SIZE)))
      as (m2 & r2 & -> & Hl2). destruct r2 as [[]|e]; eexists _, _; (split; [done|]);
      (split; [by eapply same_layout_trans|]); [intros k [= <-]; lia|done]. }
  match goal with |- context [if ?b then pos ← _; _ else mret ne] =>
    destruct (Hnew b) as (m2 & r2 & -> & Hl2 & Hr2) end.
  destruct r2 as [ne'|e]; [|eexists _, _; split; [done|]; by split].
  specialize (Hr2 ne' eq_refl). destruct descs as [|d2 descs].
  - eexists _, _. split; [done|]. split; [done|]. intros k [= <-]. lia.
  - rewrite rm_bind_unfold. unfold add_u, checked_add at 1. rewrite (proj2 (Z.ltb_lt _ _)) by lia.
    cbn [unwrap]. destruct (IH (i + 1) ne' (Some (split_of_raw d)) m2) as (m3 & r3 & -> & Hl3 & Hr3);
      [lia|lia|by eapply same_layout_mapped|].
    eexists _, _. split; [done|]. split; [by eapply same_layout_trans|done].
Qed.

Lemma add_desc_chains_safe mq m descs : mock_ready m mq ->
  exists m' r, add_desc_chains descs 0 (mq, m) = Some ((mq, m'), r) /\ same_layout m m'.
Proof.
  intros [[_ Hlen] [free Htab] _ (Ht & Hav & H64) [Hm _] _ Hidx]. unfold MAX_QUEUE_SIZE in Hlen.
  unfold add_desc_chains. rewrite rm_bind_unfold. cbn [gets fst]. unfold on_mem.
  rewrite rm_bind_unfold. unfold read_obj. cbn [bv_size uint_bv]. rewrite Hidx. cbn [map_err].
  change (bv_decode (ByteValued := u16_bv) (le_bytes 2 0)) with 0. rewrite Htab, rm_bind_unfold.
  destruct (add_descs_safe (mq_desc_table_addr mq) (mq_len mq) free (mq_avail_addr mq) descs)
    with 0 0 (@None Descriptor) m as (m1 & r1 & -> & Hl1 & Hr1); [lia|lia|lia|lia|lia|done|].
  destruct r1 as [k|e]; [|by eexists _, _]. specialize (Hr1 k eq_refl).
  rewrite rm_bind_unfold. unfold add_u, checked_add. rewrite (proj2 (Z.ltb_lt _ _)) by lia. cbn [unwrap].
  destruct (mock_write_u16_safe m1 (0 + k) (mq_avail_addr mq + 2)) as (m2 & r2 & -> & Hl2).
  eexists _, _. split; [done|]. by eapply same_layout_trans.
Qed.

Lemma opt_half a : opt_u32 (Some (wrap 32 a)).
Proof. intros v [= <-]. by apply in_u_wrap. Qed.

Lemma create_queue_wf mq q : in_u 16 (mq_len mq) -> create_queue mq = Ok q -> queue_wf q.
Proof.
  intros [Hl Hl'] Hc. unfold create_queue in Hc.
  destruct (queue_new (mq_len mq)) as [q0|e] eqn:Hn; [|done].
  apply queue_new_ok in Hn as [Hwf _]; [|done]. injection Hc as <-.
  apply set_used_ring_address_wf; [|apply opt_half..]. apply set_avail_ring_address_wf; [|apply opt_half..].
  apply set_desc_table_address_wf; [|apply opt_half..]. apply set_ready_wf. by apply queue_set_size_wf.
Qed.

Lemma first_chain_safe mq q m : queue_wf q ->
  exists r, first_chain q (mq, m) = Some ((mq, m), r) /\ (forall c, r = Ok c -> chain_wf c).
Proof.
  intros Hwf. unfold first_chain. rewrite iter_spec.
  destruct (iter_result q m) as [it|e] eqn:Hr; [|by eexists].
  apply iter_result_ok in Hr as (idx & -> & _). rewrite avail_next_step by done.
  case_decide; [by eexists|]. destruct (avail_entry m q _) as [h|] eqn:He; [|by eexists].
  eexists. split; [done|]. intros c [= <-]. apply chain_new_wf; [apply Hwf| |].
  - pose proof (queue_wf_size q Hwf) as [? ?]. unfold MAX_QUEUE_SIZE in *. unfold in_u. lia.
  - unfold avail_entry in He. by apply law_load in He as [? _].
Qed.

Lemma build_multiple_safe mq m descs : mock_ready m mq ->
  exists m' r, build_multiple_desc_chains descs (mq, m) = Some ((mq, m'), r) /\ same_layout m m' /\
    (forall c, r = Ok c -> chain_wf c).
Proof.
  intros Hrdy. unfold build_multiple_desc_chains. rewrite rm_bind_unfold.
  destruct (add_desc_chains_safe mq m descs Hrdy) as (m1 & r1 & -> & Hl1).
  destruct r1 as [[]|e]; [|by eexists _, _]. rewrite rm_bind_unfold. cbn [gets fst].
  rewrite rm_bind_unfold. cbn [of_result].
  destruct (create_queue mq) as [q|e] eqn:Hq; cbn [map_err]; [|by eexists _, _].
  destruct Hrdy as [[_ Hlen] _ _ _ _ _ _]. unfold MAX_QUEUE_SIZE in Hlen.
  destruct (first_chain_safe mq q m1) as (r & -> & Hc).
  - eapply create_queue_wf; [|done]. unfold in_u. lia.
  - by eexists _, _.
Qed.

Lemma build_desc_chain_safe mq m descs : mock_ready m mq -> Z.of_nat (length descs) <= 2 ^ 16 ->
  exists m' r, build_desc_chain descs (mq, m) = Some ((mq, m'), r) /\ same_layout m m' /\
    (forall c, r = Ok c -> chain_wf c).
Proof.
  intros Hrdy Hl. unfold build_desc_chain. rewrite rm_bind_unfold, link_descs_linked by lia.
  by apply build_multiple_safe.
Qed.

(** [GuestMemoryMmap::from_ranges(&[(start_addr, 0x11000)])]: one region whose
    aligned words can be accessed. *)
Record fuzz_memory m : Prop := {
  fz_mapped : range_mapped m START_ADDR 0x11000;
  fz_access : forall a, START_ADDR <= a -> a + 2 <= START_ADDR + 0x11000 -> a mod 2 = 0 -> acc16 m a;
}.

Lemma fuzz_memory_layout m m' : same_layout m m' -> fuzz_memory m -> fuzz_memory m'.
Proof.
  intros Hl [Hm Ha]. split; [by eapply same_layout_mapped|]. intros a ? ? ?.
  eapply same_layout_acc16; [done|]. by apply Ha.
Qed.

(** Every target lays out its queue. *)
Lemma fuzz_mock m : fuzz_memory m ->
  exists mq m', mock_create START_ADDR DEFAULT_QUEUE_SIZE m = Some (mq, m') /\
    in_u 16 (mq_len mq) /\ same_layout m m' /\ mock_ready m' mq.
Proof.
  intros [Hm Ha]. unfold START_ADDR, DEFAULT_QUEUE_SIZE in *.
  destruct (mock_create_ready 0x1000 256 m) as (mq & m' & -> & Hl & _ & _ & _ & Hly & Hr & _);
    [lia|done|by exists 8|done|lia| |apply Ha; [lia|lia|done]..|].
  - intros x Hx. apply Hm. lia.
  - exists mq, m'. rewrite Hl. done.
Qed.

Lemma populate_layout gs m : Forall (fun g => bytes_ok (snd g)) gs -> same_layout m (populate gs m).
Proof.
  intros Hg. revert m. induction Hg as [|[a bs] gs Hb _ IH]; intros m; [apply same_layout_refl|].
  eapply same_layout_trans; [apply (law_write_layout m a bs Hb)|apply IH].
Qed.
End MockSafety.

Lemma sanitize_args_ok fs :
  Forall call_args_ok fs -> Forall call_args_ok (sanitize_virtio_queue_functions fs).
Proof.
  intros Hf. destruct (sanitize_from_spec false fs) as [Hs _].
  apply list.Forall_forall. intros f Hin. eapply list.Forall_forall; [exact Hf|]. by eapply elem_of_sublist.
Qed.

(** ** Properties *)

Section FuzzProperties.
Context {M : Type} `{GML : GuestMemoryLaws M}.
Implicit Types m : M.

(** C21: the fuzz targets of the queue never panic and always end: on their memory, whatever
    descriptors the input has and whatever calls it makes, both the queue the mock driver
    creates and a queue restored from the state of the input are driven to the end of the
    calls, or the input is rejected. *)
Theorem fuzz_queue_targets_return (i : VirtioQueueInput) (j : QueueStateInput) m :
  fuzz_memory m -> Forall call_args_ok (vi_functions i) -> Forall call_args_ok (qi_functions j) ->
  state_in_range (fuzzing_into_queue_state (qi_queue_state j)) ->
  (exists m', fuzz_virtio_queue i m = Some m' /\ same_layout m m') /\
  (exists m', fuzz_virtio_queue_ser j m = Some m' /\ same_layout m m').
Proof.
  intros Hm Hi Hj Hst. destruct (fuzz_mock m Hm) as (mq & m1 & Hc & Hlen & Hl1 & Hr).
  assert (forall (o : result Error Queue) fs m2, Forall call_args_ok fs -> same_layout m m2 ->
    (forall q, o = Ok q -> queue_wf q) ->
    exists m', match o with
      | Err _ => Some m2
      | Ok q => '((q, m), _) ← call_all (sanitize_virtio_queue_functions fs) (q, m2); Some m
      end = Some m' /\ same_layout m m') as Hcalls.
  { intros [q|e] fs m2 Hfs Hl Hq; [|by eexists].
    destruct (call_all_safe _ (sanitize_args_ok fs Hfs) q m2 (Hq q eq_refl)) as (q' & m3 & r & -> & _ & Hl3).
    exists m3. split; [done|]. by eapply same_layout_trans. }
  split; [unfold fuzz_virtio_queue|unfold fuzz_virtio_queue_ser]; rewrite Hc; cbn [mbind option_bind].
  - destruct (build_multiple_safe mq m1 (raw_descriptors (vi_descriptors i)) Hr) as (m2 & r & -> & Hl2 & _).
    cbn [mbind option_bind]. pose proof (same_layout_trans _ _ _ Hl1 Hl2) as Hl.
    destruct (is_ok r); simpl; [|by eexists]. apply Hcalls; [done|done|].
    intros q Hq. by eapply create_queue_wf.
  - destruct (build_multiple_safe mq m1 (raw_descriptors (qi_descriptors j)) Hr) as (m2 & r & -> & Hl2 & _).
    cbn [mbind option_bind]. pose proof (same_layout_trans _ _ _ Hl1 Hl2) as Hl.
    destruct (is_ok r); simpl; [|by eexists]. apply Hcalls; [done|done|].
    intros q Hq. by eapply queue_try_from_wf.
Qed.

(** The fuzz target of the vsock packet never panics: whatever chain of up to 65536
    descriptors the input has and whatever calls it makes on the packet, stores to guest
    memory included, it ends. *)
Theorem fuzz_vsock_returns `{SBL : !SliceBytesLaws M (GM := GM) (SB := SB)} (i : VsockInput) m :
  fuzz_memory m -> Z.of_nat (length (si_descriptors i)) <= 2 ^ 16 -> Forall args_ok (si_functions i) ->
  exists m', fuzz_vsock i m = Some m'.
Proof.
  intros Hm Hlen Hfs. destruct (fuzz_mock m Hm) as (mq & m1 & Hc & _ & _ & Hr).
  unfold fuzz_vsock. rewrite Hc. cbn [mbind option_bind].
  destruct (build_desc_chain_safe mq m1 (raw_descriptors (si_descriptors i)) Hr) as (m2 & r & -> & _ & Hwf).
  { unfold raw_descriptors. by rewrite length_fmap. }
  cbn [mbind option_bind]. destruct r as [c|e]; [|by eexists]. specialize (Hwf c eq_refl).
  assert (forall p, made_from_chain m2 m2 c (si_pkt_max_data i) p ->
    exists m', ('((p, m), _) ← vsock_calls (si_functions i) (p, m2); Some m) = Some m') as Hcalls.
  { intros p Hp. destruct (made_packet_ok _ _ _ _ _ Hwf Hp) as [Hok Hh].
    destruct (packet_calls_run (si_functions i) p m2 Hok Hh Hfs) as (m3 & -> & _). by eexists. }
  destruct (si_init_function i).
  - destruct (from_rx_virtq_chain m2 m2 c _) as [c' [p|e]] eqn:Hp; [|by eexists].
    apply Hcalls. exists c'. by right.
  - destruct (from_tx_virtq_chain m2 m2 c _) as [c' [p|e]] eqn:Hp; [|by eexists].
    apply Hcalls. exists c'. by left.
Qed.

(** C39: the fuzz target of the block device never panics on memory of the range it maps:
    whatever the input puts into memory, whatever chain of up to 65536 descriptors it offers and
    whatever the features and the id (20 bytes) of the device, the request is rejected or executed
    and completed.  The memory file can be seeked, which the target unwraps. *)
Theorem fuzz_blk_returns {B} `{BL : BackendLaws B M (GM := GM)} (i : BlkInput) (memfile : B) m :
  fuzz_memory m -> Forall (fun g => bytes_ok (snd g)) (bi_guestmem i) ->
  Z.of_nat (length (bi_descriptors i)) <= 2 ^ 16 ->
  (forall id, bi_device_id i = Some id -> length id = 20%nat) ->
  is_ok (snd (be_seek_end memfile)) = true ->
  exists m', fuzz_blk i memfile m = Some m'.
Proof.
  intros Hm Hg Hlen Hid Hfile. pose proof (populate_layout (bi_guestmem i) m Hg) as Hl.
  destruct (fuzz_mock _ (fuzz_memory_layout _ _ Hl Hm)) as (mq & m1 & Hc & _ & _ & Hr).
  unfold fuzz_blk. rewrite Hc. cbn [mbind option_bind]. unfold std_io_backend_new.
  destruct (be_seek_end memfile) as [b [n|e]] eqn:Hse; [|done].
  apply law_seek_end in Hse as [_ Hn]. specialize (Hn n eq_refl). cbn [to_option mbind option_bind].
  set (bk := match bi_device_id i with Some id => _ | None => _ end).
  assert (backend_ok bk) as Hbk.
  { assert (bk_num_sectors bk = n / 512) as Hs.
    { subst bk. unfold SECTOR_SHIFT. by destruct (bi_device_id i); simpl; rewrite Z.shiftr_div_pow2. }
    unfold in_u in Hn. pose proof (Z.div_mod n 512 ltac:(lia)). pose proof (Z.mod_pos_bound n 512 ltac:(lia)).
    unfold backend_ok. rewrite Hs. split; [apply Z.div_pos; lia|]. split; [lia|].
    intros id Hd. subst bk. destruct (bi_device_id i) as [id'|]; [|done]. injection Hd as <-.
    by rewrite (Hid id' eq_refl). }
  destruct (build_desc_chain_safe mq m1 (raw_descriptors (bi_descriptors i)) Hr) as (m2 & r & -> & _ & Hwf).
  { unfold raw_descriptors. by rewrite length_fmap. }
  cbn [mbind option_bind]. destruct r as [c|e]; [|by eexists]. specialize (Hwf c eq_refl).
  destruct (parse_descriptors m2 c Hwf) as [c' Hp]. rewrite Hp. cbn [mbind option_bind].
  destruct (parse_spec m2 _) as [req|e]; [|by eexists].
  destruct (parse_request_ok _ _ _ _ Hwf Hp) as [Hreq _].
  destruct (execute_run_ok req bk m2 Hbk Hreq) as (s' & m3 & res & He & _).
  rewrite process_request_unfold, He. by destruct (gm_write m3 _ _) as [m4 [[]|e]]; eexists.
Qed.
End FuzzProperties.

(** More descriptors than that make the index of a link overflow in [build_desc_chain], which
    panics instead of returning an error. *)
Theorem build_desc_chain_overflows {M} `{GuestMemory M} (descs : list RawDescriptor) mq (m : M) :
  2 ^ 16 < Z.of_nat (length descs) -> build_desc_chain descs (mq, m) = None.
Proof.
  intros Hl. unfold build_desc_chain. rewrite rm_bind_unfold.
  assert (forall raws idx, 0 <= idx < 2 ^ 16 -> 2 ^ 16 < idx + Z.of_nat (length raws) ->
    link_descs idx raws = None) as Hlink; [|by rewrite (Hlink descs 0)].
  induction raws as [|d raws IH]; intros idx Hi Hlen; simpl length in Hlen; [lia|].
  destruct raws as [|d2 raws]; [simpl in Hlen; lia|]. cbn [link_descs] in *.
  rewrite (wrap_small 16 idx) by (unfold in_u; lia). unfold add_u, checked_add.
  destruct (idx + 1 <? 2 ^ 16) eqn:Hc; zbool; [|done]. cbn [mbind option_bind].
  rewrite IH; [done|lia|cbn [length] in *; lia].
Qed.

(** ** Concrete runs *)

Module FuzzExamples.
Definition fuzz_mem : FlatMem := from_ranges [(START_ADDR, 0x11000)].

Lemma fuzz_mem_ok : fuzz_memory fuzz_mem.
Proof.
  split.
  - apply (fm_region_mapped fuzz_mem START_ADDR START_ADDR 0x11000); [reflexivity|lia|lia].
  - intros a Ha Hl Hm. apply fm_acc16_spec. unfold fm_acc16. rewrite Hm.
    unfold START_ADDR in *. unfold fm_region. cbn [fuzz_mem from_ranges fm_regions List.find].
    unfold START_ADDR. rewrite (proj2 (region_has_spec a (0x1000, 0x11000))) by (simpl; lia).
    rewrite (proj2 (Z.leb_le _ _)) by lia. done.
Qed.

(** A header, two buffers and a status byte. *)
Definition descs : list FuzzingDescriptor := [
  mk_fuzzing_descriptor 0x8000 16 0 0;
  mk_fuzzing_descriptor 0x9000 512 2 0;
  mk_fuzzing_descriptor 0xa000 512 2 0;
  mk_fuzzing_descriptor 0xb000 1 2 0].
End FuzzExamples.
Import FuzzExamples.

Lemma fuzz_queue_targets_return_witness :
  (exists m', fuzz_virtio_queue (mk_virtio_queue_input descs
     [FSetSize 15; FPopDescriptorChainLoop; FAddUsed 0 0x2000; FIter]) fuzz_mem = Some m') /\
  (exists m', fuzz_virtio_queue_ser (mk_queue_state_input descs
     (mk_fuzzing_queue_state 256 0 0 true 256 true 0x1000 0x2000 0x2104)
     [FPopDescriptorChain; FEnableNotification]) fuzz_mem = Some m').
Proof.
  destruct (fuzz_queue_targets_return
    (mk_virtio_queue_input descs [FSetSize 15; FPopDescriptorChainLoop; FAddUsed 0 0x2000; FIter])
    (mk_queue_state_input descs (mk_fuzzing_queue_state 256 0 0 true 256 true 0x1000 0x2000 0x2104)
       [FPopDescriptorChain; FEnableNotification])
    fuzz_mem fuzz_mem_ok) as [(m1 & H1 & _) (m2 & H2 & _)].
  - repeat constructor; by vm_compute.
  - repeat constructor; by vm_compute.
  - split; by vm_compute.
  - split; [by exists m1|by exists m2].
Defined.

Lemma fuzz_vsock_returns_witness :
  exists m', fuzz_vsock (mk_vsock_input 4096 FromTX descs [VSetOp 7; VLen]) fuzz_mem = Some m'.
Proof.
  apply (fuzz_vsock_returns (mk_vsock_input 4096 FromTX descs [VSetOp 7; VLen]) fuzz_mem fuzz_mem_ok).
  - by vm_compute.
  - repeat constructor; by vm_compute.
Defined.

Lemma fuzz_blk_returns_witness :
  exists m', fuzz_blk (mk_blk_input descs [(0x8000, [0; 0; 0; 0])] 0 (Some (replicate 20 1)))
    (mk_image 4096 0 ∅) fuzz_mem = Some m'.
Proof.
  apply (fuzz_blk_returns (mk_blk_input descs [(0x8000, [0; 0; 0; 0])] 0 (Some (replicate 20 1)))
    (mk_image 4096 0 ∅) fuzz_mem fuzz_mem_ok).
  - repeat constructor; by vm_compute.
  - by vm_compute.
  - intros id [= <-]. reflexivity.
  - reflexivity.
Defined.

Lemma build_desc_chain_overflows_witness :
  build_desc_chain (replicate (Z.to_nat 65537) (fuzzing_descriptor_into (mk_fuzzing_descriptor 0 1 0 0)))
    (mk_mock 256 0 (table_new 0 256) 0 (mk_ring 0 0 (mk_array_ref 0 0) 0) 0
       (mk_ring 0 0 (mk_array_ref 0 0) 0) 0, fuzz_mem) = None.
Proof. apply build_desc_chain_overflows. rewrite length_replicate. lia. Defined.
