(* ===== verification/NetHeader.v ===== *)
(** * The header of network packets

    virtio-bindings/src/virtio_net/mod.rs: the comparison and the fields of
    the debug output of [virtio_net_hdr_v1], the only code in that crate that
    is written by hand.  The header has a union of three structs of two 16-bit
    fields each; the comparison looks at the bytes of the whole header. *)

From stdpp Require Import base numbers list strings.
From S2P Require Import Prelude Bytes.

(** The struct of the union the code reads, and the storage of the union. *)
Record net_hdr_csum : Type := mk_csum { csum_start : u16; csum_offset : u16 }.
Record net_hdr_union : Type := mk_union { un_bytes : list u8 }.

(** Reading that field of the union. *)
Definition union_csum (u : net_hdr_union) : net_hdr_csum :=
  mk_csum (le_value (take 2 (un_bytes u))) (le_value (take 2 (drop 2 (un_bytes u)))).

Record virtio_net_hdr_v1 : Type := mk_net_hdr {
  nh_flags : u8;
  nh_gso_type : u8;
  nh_hdr_len : u16;
  nh_gso_size : u16;
  nh_union : net_hdr_union;
  nh_num_buffers : u16;
}.

(** The header as the bytes of its layout, without padding. *)
Definition net_hdr_bytes (h : virtio_net_hdr_v1) : list u8 :=
  encode_fields [1; 1; 2; 2]%nat [nh_flags h; nh_gso_type h; nh_hdr_len h; nh_gso_size h]
  ++ un_bytes (nh_union h) ++ encode_fields [2]%nat [nh_num_buffers h].

(** [PartialEq::eq]: the transmuted arrays are compared. *)
Definition net_hdr_eq (self other : virtio_net_hdr_v1) : bool :=
  bool_decide (net_hdr_bytes self = net_hdr_bytes other).

(** The names and values [Debug::fmt] passes to the formatter. *)
Definition net_hdr_debug (h : virtio_net_hdr_v1) : list (string * Z) :=
  let csum := union_csum (nh_union h) in
  [("flags", nh_flags h); ("gso_type", nh_gso_type h); ("hdr_len", nh_hdr_len h);
   ("gso_size", nh_gso_size h); ("csum_start", csum_start csum); ("csum_offset", csum_offset csum);
   ("num_buffers", nh_num_buffers h)].

(** [Default]: zeroed storage. *)
Definition net_hdr_default : virtio_net_hdr_v1 := mk_net_hdr 0 0 0 0 (mk_union [0; 0; 0; 0]) 0.

(** The fields have their width. *)
Record net_hdr_ok (h : virtio_net_hdr_v1) : Prop := {
  no_head : fields_ok [1; 1; 2; 2]%nat [nh_flags h; nh_gso_type h; nh_hdr_len h; nh_gso_size h];
  no_union : length (un_bytes (nh_union h)) = 4%nat /\ bytes_ok (un_bytes (nh_union h));
  no_tail : fields_ok [2]%nat [nh_num_buffers h];
}.

(** The storage is determined by the reading of it. *)
Lemma union_csum_inj u u' :
  length (un_bytes u) = 4%nat -> length (un_bytes u') = 4%nat ->
  bytes_ok (un_bytes u) -> bytes_ok (un_bytes u') -> union_csum u = union_csum u' -> u = u'.
Proof.
  destruct u as [bs], u' as [bs']. simpl. intros Hl Hl' Hb Hb' [= H1 H2]. f_equal.
  assert (decode_fields [2; 2]%nat bs = decode_fields [2; 2]%nat bs') as Hd
    by (cbn [decode_fields]; by rewrite H1, H2).
  rewrite <- (encode_decode_fields [2; 2]%nat bs), Hd by done. by apply encode_decode_fields.
Qed.

(** The comparison of the bytes is the comparison of the fields, and two headers are equal
    exactly when their debug output is: nothing is hidden by the union. *)
Theorem net_hdr_eq_exact h h' : net_hdr_ok h -> net_hdr_ok h' ->
  (net_hdr_eq h h' = true <-> h = h') /\ (net_hdr_debug h = net_hdr_debug h' <-> h = h').
Proof.
  intros [Hh [Hul Hub] Ht] [Hh' [Hul' Hub'] Ht']. split.
  - unfold net_hdr_eq. rewrite bool_decide_eq_true. split; [|by intros ->].
    intros Heq. apply app_inj_1 in Heq as [H1 Heq]; [|by rewrite !length_encode_fields].
    apply app_inj_1 in Heq as [H2 H3]; [|congruence].
    apply (f_equal (decode_fields [1; 1; 2; 2]%nat)) in H1.
    apply (f_equal (decode_fields [2]%nat)) in H3. rewrite !decode_encode_fields in H1, H3 by done.
    destruct h as [? ? ? ? [] ?], h' as [? ? ? ? [] ?]. by simplify_eq/=.
  - split; [|by intros ->]. intros Hd. unfold net_hdr_debug in Hd. injection Hd as H1 H2 H3 H4 H5 H6 H7.
    assert (nh_union h = nh_union h') as Hu.
    { apply union_csum_inj; try done. unfold union_csum. by rewrite H5, H6. }
    destruct h, h'. by simplify_eq/=.
Qed.

(** The test of the source. *)
Lemma virtio_net_hdr_v1_partial_eq :
  net_hdr_eq net_hdr_default net_hdr_default = true /\
  net_hdr_eq net_hdr_default (mk_net_hdr 1 0 0 0 (mk_union [0; 0; 0; 0]) 0) = false.
Proof. split; vm_compute; reflexivity. Qed.
