(* ===== verification/Testing.v ===== *)
(** * Running the repository's tests

    The unit tests of the repository, transcribed statement by statement, run
    on the definitions of this library: a failed [assert!], an [unwrap] of an
    error and a panic of the code under test are all [None].  This file has the
    assertions and the world most tests share, a mock driver and a device queue
    over one guest memory. *)

From stdpp Require Import base numbers list option gmap.
From S2P Require Import Prelude Bytes GuestMemory FlatMemory Descriptor Chain Queue Mock.

(** ** Assertions *)

(** A test never ends in an error: what fails, panics. *)
Abbreviation test S := (RM S Empty_set).

Section Assertions.
Context {S : Type}.

Definition assert (b : bool) : test S unit := if b then mret tt else panic.
Definition assert_eq {A} `{EqDecision A} (x y : A) : test S unit := assert (bool_decide (x = y)).
Definition assert_ne {A} `{EqDecision A} (x y : A) : test S unit := assert (bool_decide (x ≠ y)).

(** [Result::unwrap] of a value. *)
Definition unwrap_ok {E A} (r : result E A) : test S A := unwrap (to_option r).

(** A [for] loop over the elements of a list. *)
Fixpoint for_each {A} (xs : list A) (body : A -> test S unit) : test S unit :=
  match xs with
  | [] => mret tt
  | x :: xs => _ ← body x; for_each xs body
  end.

(** The test runs to its end from this state. *)
Definition passes (t : test S unit) (s : option S) : bool :=
  match s with
  | Some s => match t s with Some (_, Ok _) => true | _ => false end
  | None => false
  end.

Lemma assert_true b s : b = true -> assert b s = Some (s, Ok tt).
Proof. by intros ->. Qed.

Lemma for_each_app {A} (xs ys : list A) (body : A -> test S unit) s :
  for_each (xs ++ ys) body s =
    match for_each xs body s with
    | Some (s', Ok _) => for_each ys body s'
    | r => r
    end.
Proof.
  revert s. induction xs as [|x xs IH]; intros s; simpl; [done|].
  rewrite !rm_bind_unfold. by destruct (body x s) as [[s' [[]|[]]]|].
Qed.

(** A loop goes through when its body goes through from every state the loop reaches. *)
Lemma for_each_inv {A} (I : S -> Prop) (xs : list A) (body : A -> test S unit) s :
  I s ->
  (forall x s, x ∈ xs -> I s -> exists s', body x s = Some (s', Ok tt) /\ I s') ->
  exists s', for_each xs body s = Some (s', Ok tt) /\ I s'.
Proof.
  revert s. induction xs as [|x xs IH]; intros s Hs Hb; simpl; [by exists s|].
  destruct (Hb x s) as (s1 & Hx & H1); [left|done|].
  rewrite rm_bind_unfold, Hx. apply IH; [done|].
  intros y s2 Hy. apply Hb. by right.
Qed.
End Assertions.

(** ** The world of the queue tests *)

Record World : Type := mk_world {
  w_mock : MockSplitQueue;
  w_queue : Queue;
  w_mem : FlatMem;
}.

Definition with_queue (q : Queue) (w : World) : World := mk_world (w_mock w) q (w_mem w).

(** [MockSplitQueue::new(m, len)] and [vq.create_queue().unwrap()]. *)
Definition fresh (m : FlatMem) (len : u16) : option World :=
  '(vq, m) ← mock_new len m;
  q ← to_option (create_queue vq);
  Some (mk_world vq q m).

(** The memory most tests map. *)
Definition test_mem : FlatMem := from_ranges [(0, 0x10000)].

(** A method of the device's queue, its [Result] as a value; [dev] unwraps it. *)
Definition dev_result {A} (c : RM (Queue * FlatMem) Error A) : test World (result Error A) := fun w =>
  match c (w_queue w, w_mem w) with
  | None => None
  | Some ((q, m), r) => Some (mk_world (w_mock w) q m, Ok r)
  end.

Definition dev {A} (c : RM (Queue * FlatMem) Error A) : test World A :=
  r ← dev_result c; unwrap_ok r.

(** A method of the mock driver, unwrapped. *)
Definition drv {A} (c : RM (MockSplitQueue * FlatMem) MockError A) : test World A := fun w =>
  match c (w_mock w, w_mem w) with
  | Some ((vq, m), Ok a) => Some (mk_world vq (w_queue w) m, Ok a)
  | _ => None
  end.

(** A setter of the queue, and a field of it. *)
Definition set_queue (f : Queue -> Queue) : test World unit :=
  modify (fun w => with_queue (f (w_queue w)) w).
Definition the {A} (f : Queue -> A) : test World A := gets (f ∘ w_queue).

Definition valid : test World bool := gets (fun w => is_valid (w_mem w) (w_queue w)).

(** [mem.write_obj::<u16>(v, addr).unwrap()] and the read. *)
Definition poke16 (v : u16) (addr : u64) : test World unit := fun w =>
  match ref_store (BV := u16_bv) v addr (w_mem w) with
  | Some m => Some (mk_world (w_mock w) (w_queue w) m, Ok tt)
  | None => None
  end.
Definition peek16 (addr : u64) : test World u16 := fun w =>
  match ref_load Z (BV := u16_bv) (w_mem w) addr with
  | Some v => Some (w, Ok v)
  | None => None
  end.

(** [vq.avail().idx().store(v)]. *)
Definition store_avail_idx (v : u16) : test World unit :=
  vq ← gets w_mock; poke16 v (ring_idx (mq_avail vq)).

(** [vq.used().idx().load()]. *)
Definition load_used_idx : test World u16 :=
  vq ← gets w_mock; peek16 (ring_idx (mq_used vq)).

(** [chain.next()]. *)
Definition next_desc (c : DescriptorChain) : test World (DescriptorChain * option Descriptor) :=
  m ← gets w_mem; mret (chain_next m c).

(** [c.next().unwrap()] on a chain, [n] times. *)
Fixpoint skip (n : nat) (c : DescriptorChain) : test World DescriptorChain :=
  match n with
  | O => mret c
  | S n => '(c, o) ← next_desc c; _ ← unwrap o; skip n c
  end.

(** [assert!(c.next().is_none())]. *)
Definition ends (c : DescriptorChain) : test World DescriptorChain :=
  '(c, o) ← next_desc c; _ ← assert (bool_decide (o = None)); mret c.

(** [MockSplitQueue::start] and [end]. *)
Definition mock_start (vq : MockSplitQueue) : u64 := mq_desc_table_addr vq.
Definition mock_end (vq : MockSplitQueue) : option u64 := ring_end (mq_used vq).
