(* ===== verification/QueueTests.v ===== *)
(** * The tests of the queue

    The unit tests of virtio-queue/src/queue.rs, in the order of the file. *)

From stdpp Require Import base numbers list option gmap.
From S2P Require Import Prelude Bytes GuestMemory FlatMemory Descriptor Chain Queue QueueFacts.
From S2P Require Import Notification Mock Testing.

Definition test_queue_is_valid : test World unit :=
  vq ← gets w_mock;
  b ← valid; _ ← assert b;
  _ ← set_queue (set_ready false);
  r ← the q_ready; _ ← assert (negb r);
  b ← valid; _ ← assert (negb b);
  _ ← set_queue (set_ready true);
  max ← the q_max_size;
  _ ← set_queue (queue_set_size (wrap 16 (Z.shiftl max 1)));
  s ← the q_size; _ ← assert_eq s max;
  _ ← set_queue (queue_set_size 0);
  s ← the q_size; _ ← assert_eq s max;
  _ ← set_queue (queue_set_size 11);
  s ← the q_size; _ ← assert_eq s max;
  _ ← set_queue (queue_set_size 4);
  s ← the q_size; _ ← assert_eq s 4;
  _ ← set_queue (with_size max);
  _ ← set_queue (set_desc_table_address (Some 0xf) None);
  a ← the q_desc_table; _ ← assert_eq a (mq_desc_table_addr vq);
  _ ← set_queue (set_desc_table_address (Some 0xfffffff0) None);
  a ← the q_desc_table; _ ← assert_eq a 0xfffffff0;
  b ← valid; _ ← assert (negb b);
  _ ← set_queue (set_desc_table_address (Some 0x10) None);
  a ← the q_desc_table; _ ← assert_eq a 0x10;
  b ← valid; _ ← assert b;
  let addr := mq_desc_table_addr vq in
  _ ← set_queue (set_desc_table_address (Some (wrap 32 addr)) (Some (wrap 32 (Z.shiftr addr 32))));
  _ ← set_queue (set_avail_ring_address (Some 0x1) None);
  a ← the q_avail_ring; _ ← assert_eq a (mq_avail_addr vq);
  _ ← set_queue (set_avail_ring_address (Some 0xfffffffe) None);
  a ← the q_avail_ring; _ ← assert_eq a 0xfffffffe;
  b ← valid; _ ← assert (negb b);
  _ ← set_queue (set_avail_ring_address (Some 0x2) None);
  a ← the q_avail_ring; _ ← assert_eq a 0x2;
  b ← valid; _ ← assert b;
  let addr := mq_avail_addr vq in
  _ ← set_queue (set_avail_ring_address (Some (wrap 32 addr)) (Some (wrap 32 (Z.shiftr addr 32))));
  _ ← set_queue (set_used_ring_address (Some 0x3) None);
  a ← the q_used_ring; _ ← assert_eq a (mq_used_addr vq);
  _ ← set_queue (set_used_ring_address (Some 0xfffffffc) None);
  a ← the q_used_ring; _ ← assert_eq a 0xfffffffc;
  b ← valid; _ ← assert (negb b);
  _ ← set_queue (set_used_ring_address (Some 0x4) None);
  a ← the q_used_ring; _ ← assert_eq a 0x4;
  let addr := mq_used_addr vq in
  _ ← set_queue (set_used_ring_address (Some (wrap 32 addr)) (Some (wrap 32 (Z.shiftr addr 32))));
  b ← valid; assert b.

Theorem test_queue_is_valid_passes : passes test_queue_is_valid (fresh test_mem 16) = true.
Proof. vm_compute. reflexivity. Qed.

Definition test_add_used : test World unit :=
  vq ← gets w_mock;
  i ← dev (used_idx Acquire); _ ← assert_eq i 0;
  i ← load_used_idx; _ ← assert_eq i 0;
  r ← dev_result (add_used 16 0x1000); _ ← assert (negb (is_ok r));
  i ← load_used_idx; _ ← assert_eq i 0;
  _ ← dev (add_used 1 0x1000);
  n ← the q_next_used; _ ← assert_eq n 1;
  i ← dev (used_idx Acquire); _ ← assert_eq i 1;
  i ← load_used_idx; _ ← assert_eq i 1;
  r ← unwrap (ref_at 8 (ring_ring (mq_used vq)) 0);
  a ← unwrap_ok r;
  m ← gets w_mem;
  x ← unwrap (ref_load VirtqUsedElem m a);
  _ ← assert_eq (ue_id x) 1;
  assert_eq (ue_len x) 0x1000.

Theorem test_add_used_passes : passes test_add_used (fresh test_mem 16) = true.
Proof. vm_compute. reflexivity. Qed.

Definition test_reset_queue : test World unit :=
  _ ← set_queue (queue_set_size 8);
  _ ← set_queue (set_desc_table_address (Some 0x5000) None);
  _ ← set_queue (set_event_idx true);
  _ ← set_queue (set_next_avail 2);
  _ ← set_queue (set_next_used 4);
  _ ← set_queue (with_num_added 15);
  q ← gets w_queue;
  _ ← assert_eq (q_size q) 8;
  _ ← assert (q_ready q);
  _ ← assert_ne (q_desc_table q) DEFAULT_DESC_TABLE_ADDR;
  _ ← assert_ne (q_avail_ring q) DEFAULT_AVAIL_RING_ADDR;
  _ ← assert_ne (q_used_ring q) DEFAULT_USED_RING_ADDR;
  _ ← assert_ne (q_next_avail q) 0;
  _ ← assert_ne (q_next_used q) 0;
  _ ← assert_ne (q_num_added q) 0;
  _ ← assert (q_event_idx_enabled q);
  _ ← set_queue reset;
  q ← gets w_queue;
  _ ← assert_eq (q_size q) 16;
  _ ← assert (negb (q_ready q));
  _ ← assert_eq (q_desc_table q) DEFAULT_DESC_TABLE_ADDR;
  _ ← assert_eq (q_avail_ring q) DEFAULT_AVAIL_RING_ADDR;
  _ ← assert_eq (q_used_ring q) DEFAULT_USED_RING_ADDR;
  _ ← assert_eq (q_next_avail q) 0;
  _ ← assert_eq (q_next_used q) 0;
  _ ← assert_eq (q_num_added q) 0;
  assert (negb (q_event_idx_enabled q)).

Theorem test_reset_queue_passes : passes test_reset_queue (fresh test_mem 16) = true.
Proof. vm_compute. reflexivity. Qed.

(** ** Notifications *)

(** The body of the first loop of [test_needs_notification]. *)
Definition always_notified (i : Z) : test World unit :=
  _ ← set_queue (with_next_used i);
  b ← dev needs_notification;
  assert b.

(** The body of its second loop; [65536] is [wrap]. *)
Definition notified_once (i : Z) : test World unit :=
  _ ← set_queue (with_next_used (wrap 16 i));
  _ ← set_queue (with_num_added 1);
  b ← dev needs_notification;
  assert_eq (b, i) ((i =? 5) || (i =? 5 + 65536), i).

(** What comes before the second loop. *)
Definition needs_notification_start : test World unit :=
  vq ← gets w_mock;
  _ ← for_each (seqZ 0 16) always_notified;
  _ ← poke16 4 (mq_avail_addr vq + (4 + 16 * 2));
  set_queue (set_event_idx true).

(** What comes after it. *)
Definition needs_notification_end : test World unit :=
  vq ← gets w_mock;
  let event_addr := mq_avail_addr vq + (4 + 16 * 2) in
  _ ← poke16 8 event_addr;
  b ← dev needs_notification; _ ← assert (negb b);
  _ ← poke16 15 event_addr;
  _ ← set_queue (with_num_added 1);
  b ← dev needs_notification; _ ← assert (negb b);
  _ ← set_queue (with_next_used 15);
  _ ← set_queue (with_num_added 1);
  b ← dev needs_notification; _ ← assert (negb b);
  _ ← set_queue (with_next_used 16);
  _ ← set_queue (with_num_added 1);
  b ← dev needs_notification; _ ← assert b;
  b ← dev needs_notification; _ ← assert (negb b);
  _ ← poke16 (65535 - 3) event_addr;
  _ ← set_queue (with_next_used (65535 - 2));
  _ ← set_queue (with_num_added 1);
  b ← dev needs_notification;
  assert b.

Definition test_needs_notification : test World unit :=
  _ ← needs_notification_start;
  _ ← for_each (seqZ 0 (65536 + 12)) notified_once;
  needs_notification_end.

(** The second loop is too long to run; its body is computed once, for every index.  [cursor] is
    the part of the queue it changes. *)
Definition cursor (q : Queue) (next_used num_added : u16) (w : World) : World :=
  with_queue (with_num_added num_added (with_next_used next_used q)) w.

Lemma notified_once_run w n a i :
  q_event_idx_enabled (w_queue w) = true ->
  used_event_addr (w_queue w) < 2 ^ 64 ->
  gm_load16 (w_mem w) (used_event_addr (w_queue w)) = Ok 4 ->
  0 <= i < 65536 + 12 ->
  notified_once i (cursor (w_queue w) n a w) = Some (cursor (w_queue w) (wrap 16 i) 0 w, Ok tt).
Proof.
  intros He Ha Hl Hi. simpl in Hl. unfold notified_once. rewrite rm_bind_unfold. simpl.
  rewrite rm_bind_unfold. simpl. rewrite rm_bind_unfold. unfold dev. rewrite rm_bind_unfold.
  unfold dev_result. simpl. rewrite needs_notification_spec. simpl. rewrite He.
  change (used_event_addr _) with (used_event_addr (w_queue w)). rewrite decide_True, Hl by done.
  simpl. unfold assert_eq. rewrite assert_true; [done|]. apply bool_decide_eq_true. f_equal.
  apply eq_true_iff_eq. unfold need_event. rewrite wsub_wsub, wsub_wsub_r by done.
  unfold wsub, wrap. change (2 ^ 16) with 65536. rewrite orb_true_iff, !Z.eqb_eq, Z.ltb_lt.
  rewrite Zminus_mod_idemp_l. Z.to_euclidean_division_equations. lia.
Qed.

Lemma notified_loop_run w n :
  q_event_idx_enabled (w_queue w) = true ->
  used_event_addr (w_queue w) < 2 ^ 64 ->
  gm_load16 (w_mem w) (used_event_addr (w_queue w)) = Ok 4 ->
  0 <= n < 65536 + 12 ->
  for_each (seqZ 0 (n + 1)) notified_once w = Some (cursor (w_queue w) (wrap 16 n) 0 w, Ok tt).
Proof.
  intros He Ha Hl Hn.
  replace w with (cursor (w_queue w) (q_next_used (w_queue w)) (q_num_added (w_queue w)) w) at 1
    by (by destruct w as [? [] ?]).
  destruct (for_each_inv (fun s => exists b a, s = cursor (w_queue w) b a w)
    (seqZ 0 n) notified_once
    (cursor (w_queue w) (q_next_used (w_queue w)) (q_num_added (w_queue w)) w))
    as (s & Hs & b & a & ->); [by eexists _, _| |].
  - intros i s Hi (b & a & ->). apply elem_of_seqZ in Hi.
    rewrite notified_once_run by (done || lia). by eexists _; split; [|eexists _, _].
  - rewrite seqZ_app, for_each_app, Hs by lia. replace (0 + n) with n by lia.
    change (seqZ n 1) with [n].
    simpl. by rewrite rm_bind_unfold, notified_once_run.
Qed.

Theorem test_needs_notification_passes :
  passes test_needs_notification (fresh test_mem 16) = true.
Proof.
  destruct (fresh test_mem 16) as [w0|] eqn:H0; vm_compute in H0; [injection H0 as <-|done].
  unfold passes, test_needs_notification. rewrite rm_bind_unfold.
  destruct (needs_notification_start _) as [[w1 [[]|[]]]|] eqn:H1; vm_compute in H1;
    [injection H1 as <-|done].
  rewrite rm_bind_unfold. change (65536 + 12) with (65547 + 1).
  rewrite notified_loop_run by by vm_compute.
  by vm_compute.
Qed.

Definition test_enable_disable_notification : test World unit :=
  vq ← gets w_mock;
  let used_addr := mq_used_addr vq in
  let avail_addr := mq_avail_addr vq in
  e ← the q_event_idx_enabled; _ ← assert (negb e);
  _ ← dev enable_notification;
  v ← peek16 used_addr; _ ← assert_eq v 0;
  _ ← dev disable_notification;
  v ← peek16 used_addr; _ ← assert_eq v (wrap 16 VRING_USED_F_NO_NOTIFY);
  _ ← dev enable_notification;
  v ← peek16 used_addr; _ ← assert_eq v 0;
  _ ← set_queue (set_event_idx true);
  _ ← poke16 2 (avail_addr + 2);
  b ← dev enable_notification; _ ← assert b;
  _ ← set_queue (with_next_avail 2);
  b ← dev enable_notification; _ ← assert (negb b);
  _ ← poke16 8 (avail_addr + 2);
  b ← dev enable_notification; _ ← assert b;
  _ ← set_queue (with_next_avail 8);
  b ← dev enable_notification; assert (negb b).

Theorem test_enable_disable_notification_passes :
  passes test_enable_disable_notification (fresh test_mem 16) = true.
Proof. vm_compute. reflexivity. Qed.

(** ** Consuming chains *)

(** The descriptors of a test: the [i]-th is a page at [0x1000 * (i + 1)], linked to the next. *)
Definition test_descs (n : Z) (flags : Z -> Z) : list RawDescriptor :=
  (fun i => raw_of_split (descriptor_new (0x1000 * (i + 1)) 0x1000 (wrap 16 (flags i)) (i + 1)))
    <$> seqZ 0 n.

(** [chain.for_each(|d| ...)]: the bytes the device may write. *)
Fixpoint writable_len (ds : list Descriptor) (desc_len : u32) : option u32 :=
  match ds with
  | [] => Some desc_len
  | d :: ds =>
      desc_len ← (if Z.land (d_flags d) VRING_DESC_F_WRITE =? VRING_DESC_F_WRITE
                  then add_u 32 desc_len (d_len d) else Some desc_len);
      writable_len ds desc_len
  end.

(** The [while let] loop of the tests; running out of [fuel] is a failure. *)
Fixpoint consume_all (fuel : nat) : test World unit :=
  match fuel with
  | O => panic
  | S fuel =>
      it ← dev iter;
      o ← dev (avail_next it);
      match o with
      | None => mret tt
      | Some chain =>
          m ← gets w_mem;
          desc_len ← unwrap (writable_len (chain_descriptors m chain) 0);
          _ ← dev (add_used (head_index chain) desc_len);
          consume_all fuel
      end
  end.

(** The [loop] around it; [meanwhile] is what the driver does before notifications are enabled
    again.  The result is the number of iterations. *)
Fixpoint notif_loop (fuel : nat) (meanwhile : test World unit) (i : Z) : test World Z :=
  match fuel with
  | O => panic
  | S fuel =>
      let i := i + 1 in
      _ ← dev disable_notification;
      _ ← consume_all 8;
      _ ← meanwhile;
      b ← dev enable_notification;
      if (b : bool) then notif_loop fuel meanwhile i else mret i
  end.

Definition test_consume_chains_with_notif : test World unit :=
  b ← valid; _ ← assert b;
  let flags (i : Z) := if bool_decide (i ∈ [1; 4; 6; 8; 12]) then 0 else VRING_DESC_F_NEXT in
  _ ← drv (add_desc_chains (test_descs 13 flags) 0);
  _ ← store_avail_idx 2;
  n ← the q_next_avail; _ ← assert_eq n 0;
  i ← notif_loop 3 (mret tt) 0;
  _ ← assert_eq i 1;
  n ← the q_next_avail; _ ← assert_eq n 2;
  n ← the q_next_used; _ ← assert_eq n 2;
  _ ← store_avail_idx 3;
  i ← notif_loop 3 (store_avail_idx 4) 0;
  _ ← assert_eq i 2;
  n ← the q_next_avail; _ ← assert_eq n 4;
  n ← the q_next_used; _ ← assert_eq n 4;
  _ ← store_avail_idx 7;
  _ ← notif_loop 3 (mret tt) 0;
  n ← the q_next_avail; _ ← assert_eq n 7;
  n ← the q_next_used; assert_eq n 7.

Theorem test_consume_chains_with_notif_passes :
  passes test_consume_chains_with_notif (fresh test_mem 16) = true.
Proof. vm_compute. reflexivity. Qed.

Definition test_invalid_avail_idx : test World unit :=
  b ← valid; _ ← assert b;
  let flags (i : Z) := if bool_decide (i ∈ [1; 4; 6]) then 0 else VRING_DESC_F_NEXT in
  _ ← drv (add_desc_chains (test_descs 7 flags) 0);
  _ ← store_avail_idx 3;
  n ← the q_next_avail; _ ← assert_eq n 0;
  n ← the q_next_used; _ ← assert_eq n 0;
  _ ← notif_loop 3 (mret tt) 0;
  n ← the q_next_avail; _ ← assert_eq n 3;
  i ← dev (avail_idx Acquire); _ ← assert_eq i 3;
  n ← the q_next_used; _ ← assert_eq n 3;
  i ← dev (used_idx Acquire); _ ← assert_eq i 3;
  r ← the q_ready; _ ← assert r;
  _ ← store_avail_idx 1;
  r ← dev_result iter; assert (negb (is_ok r)).

Theorem test_invalid_avail_idx_passes :
  passes test_invalid_avail_idx (fresh test_mem 16) = true.
Proof. vm_compute. reflexivity. Qed.

Definition test_iterator_and_avail_idx : test World unit :=
  let queue_size := 2 in
  b ← valid; _ ← assert b;
  _ ← drv (add_desc_chains (test_descs queue_size (fun _ => 0)) 0);
  _ ← set_queue (set_next_avail 65535);
  next_avail ← the q_next_avail;
  _ ← store_avail_idx (wadd 16 next_avail queue_size);
  r ← dev_result iter; _ ← assert (is_ok r);
  _ ← store_avail_idx (wadd 16 next_avail (queue_size - 1));
  r ← dev_result iter; _ ← assert (is_ok r);
  _ ← store_avail_idx (wadd 16 next_avail (queue_size + 1));
  r ← dev_result iter; assert (negb (is_ok r)).

Theorem test_iterator_and_avail_idx_passes :
  passes test_iterator_and_avail_idx (fresh test_mem 2) = true.
Proof. vm_compute. reflexivity. Qed.

(** ** Iterators *)

(** [i.next().unwrap()] on an iterator of the queue. *)
Definition next_chain (it : AvailIter) : test World DescriptorChain :=
  o ← dev (avail_next it); unwrap o.

(** The same on the readable or writable descriptors. *)
Fixpoint rw_skip (n : nat) (it : DescriptorChainRwIter) : test World DescriptorChainRwIter :=
  match n with
  | O => mret it
  | S n => m ← gets w_mem; let '(it, o) := rw_next m it in _ ← unwrap o; rw_skip n it
  end.
Definition rw_ends (it : DescriptorChainRwIter) : test World DescriptorChainRwIter :=
  m ← gets w_mem; let '(it, o) := rw_next m it in _ ← assert (bool_decide (o = None)); mret it.

Definition test_descriptor_and_iterator : test World unit :=
  b ← valid; _ ← assert b;
  let flags (j : Z) :=
    if bool_decide (j ∈ [1; 6]) then 0
    else if bool_decide (j ∈ [2; 5]) then Z.lor VRING_DESC_F_NEXT VRING_DESC_F_WRITE
    else if j =? 4 then VRING_DESC_F_WRITE
    else VRING_DESC_F_NEXT in
  _ ← drv (add_desc_chains (test_descs 7 flags) 0);
  i ← dev iter;
  c ← next_chain i; _ ← assert_eq (head_index c) 0;
  c ← skip 2 c; c ← ends c; _ ← ends c;
  c ← next_chain i; _ ← assert_eq (head_index c) 2;
  it ← rw_skip 2 (writable c); it ← rw_ends it; _ ← rw_ends it;
  c ← next_chain i; _ ← assert_eq (head_index c) 5;
  it ← rw_skip 1 (readable c); it ← rw_ends it; _ ← rw_ends it;
  mret tt.

Theorem test_descriptor_and_iterator_passes :
  passes test_descriptor_and_iterator (fresh test_mem 16) = true.
Proof. vm_compute. reflexivity. Qed.

(** The bytes a chain yields, with the [expect] of the test. *)
Definition yielded_bytes (c : DescriptorChain) : test World u32 :=
  m ← gets w_mem;
  unwrap (foldl (fun y d => y ≫= fun y => checked_add 32 y (d_len d)) (Some 0)
            (chain_descriptors m c)).

Definition test_iterator : test World unit :=
  vq ← gets w_mock;
  _ ← set_queue (fun q => with_size (q_max_size q) q);
  _ ← set_queue (with_desc_table (mq_desc_table_addr vq));
  _ ← set_queue (with_avail_ring (mq_avail_addr vq));
  _ ← set_queue (with_used_ring (mq_used_addr vq));
  b ← valid; _ ← assert b;
  _ ← set_queue (with_ready false);
  r ← dev_result iter; _ ← assert (negb (is_ok r));
  _ ← set_queue (with_ready true);
  let flags (j : Z) := if bool_decide (j ∈ [1; 4]) then 0 else VRING_DESC_F_NEXT in
  _ ← drv (add_desc_chains (test_descs 5 flags) 0);
  i ← dev iter;
  c ← next_chain i; _ ← assert_eq (head_index c) 0;
  c ← skip 2 c; c ← ends c; _ ← assert_eq (head_index c) 0;
  c ← next_chain i; _ ← assert_eq (head_index c) 2;
  c ← skip 3 c; c ← ends c; _ ← assert_eq (head_index c) 2;
  o ← dev (avail_next i); _ ← assert (bool_decide (o = None));
  _ ← set_queue go_to_previous_position;
  i ← dev iter; c ← next_chain i;
  c ← skip 3 c; _ ← ends c;
  let descs := [descriptor_new 0x1000 0xffffffff (wrap 16 VRING_DESC_F_NEXT) 1;
                descriptor_new 0x1000 0x12345678 0 2] in
  _ ← drv (add_desc_chains (raw_of_split <$> descs) 0);
  i ← dev iter; c ← next_chain i; _ ← yielded_bytes c;
  let descs := [descriptor_new 0x1000 0xffffffff (wrap 16 VRING_DESC_F_NEXT) 0] in
  _ ← drv (add_desc_chains (raw_of_split <$> descs) 0);
  i ← dev iter; c ← next_chain i; _ ← yielded_bytes c;
  mret tt.

Theorem test_iterator_passes : passes test_iterator (fresh test_mem 16) = true.
Proof. vm_compute. reflexivity. Qed.

(** ** Regressions and setters *)

Definition test_regression_iterator_division : test World unit :=
  let descriptors := [descriptor_new 14178673876262995140 3301229764 50372 50372] in
  _ ← drv (build_desc_chain (raw_of_split <$> descriptors));
  _ ← set_queue (fun _ => {|
    q_max_size := 38;
    q_next_avail := 0;
    q_next_used := 0;
    q_event_idx_enabled := false;
    q_num_added := 0;
    q_size := 0;
    q_ready := false;
    q_desc_table := 12837708984796196;
    q_avail_ring := 0;
    q_used_ring := 9943947977301164032 |});
  o ← dev pop_descriptor_chain;
  assert (bool_decide (o = None)).

Theorem test_regression_iterator_division_passes :
  passes test_regression_iterator_division (fresh test_mem 1) = true.
Proof. vm_compute. reflexivity. Qed.

(** [r.unwrap_err()]. *)
Definition unwrap_err {S E A} (r : result E A) : test S E :=
  match r with Ok _ => panic | Err e => mret e end.

(** The test builds its own queue: the state is that queue. *)
Definition test_setters_error_cases : test Queue unit :=
  e ← unwrap_err (queue_new 15); _ ← assert_eq e InvalidMaxSize;
  q ← unwrap_ok (queue_new 16);
  _ ← modify (fun _ => q);
  expected_val ← gets q_desc_table;
  q ← gets id; e ← unwrap_err (try_set_desc_table_address 0xf q);
  _ ← assert_eq e InvalidDescTableAlign;
  a ← gets q_desc_table; _ ← assert_eq a expected_val;
  expected_val ← gets q_avail_ring;
  q ← gets id; e ← unwrap_err (try_set_avail_ring_address 0x1 q);
  _ ← assert_eq e InvalidAvailRingAlign;
  a ← gets q_avail_ring; _ ← assert_eq a expected_val;
  expected_val ← gets q_used_ring;
  q ← gets id; e ← unwrap_err (try_set_used_ring_address 0x3 q);
  _ ← assert_eq e InvalidUsedRingAlign;
  a ← gets q_used_ring; _ ← assert_eq a expected_val;
  expected_val ← gets q_size;
  q ← gets id; e ← unwrap_err (try_set_size 15 q);
  _ ← assert_eq e InvalidSize;
  s ← gets q_size; assert_eq s expected_val.

Theorem test_setters_error_cases_passes :
  passes test_setters_error_cases (to_option (queue_new 16)) = true.
Proof. vm_compute. reflexivity. Qed.

(** The [while let] loops of [test_regression_timeout_after_reset]. *)
Fixpoint count_popped (fuel : nat) (counter : Z) : test World Z :=
  match fuel with
  | O => panic
  | S fuel =>
      o ← dev pop_descriptor_chain;
      match o with
      | None => mret counter
      | Some c =>
          m ← gets w_mem;
          count_popped fuel (counter + Z.of_nat (length (chain_descriptors m c)))
      end
  end.

Definition test_regression_timeout_after_reset : test World unit :=
  let descriptors := [
    descriptor_new 21508325467 0 1 4;
    descriptor_new 2097152 4096 3 0;
    descriptor_new 18374686479672737792 4294967295 65535 29;
    descriptor_new 76842670169653248 1114115 0 0;
    descriptor_new 16 983040 126 3;
    descriptor_new 897648164864 0 0 0;
    descriptor_new 111669149722 0 0 0] in
  _ ← drv (build_multiple_desc_chains (raw_of_split <$> descriptors));
  vq ← gets w_mock;
  q ← unwrap_ok (create_queue vq);
  _ ← set_queue (fun _ => q);
  _ ← set_queue reset;
  _ ← set_queue (set_ready true);
  counter ← count_popped 8 0;
  _ ← assert_eq counter 0;
  _ ← set_queue reset;
  _ ← set_queue (set_avail_ring_address (Some 0x1000) None);
  a ← the q_avail_ring; _ ← assert_eq a 0x1000;
  counter ← count_popped 8 0;
  assert_eq counter 0.

Theorem test_regression_timeout_after_reset_passes :
  passes test_regression_timeout_after_reset (fresh test_mem 1024) = true.
Proof. vm_compute. reflexivity. Qed.
