(* ===== verification/ChainTests.v ===== *)
(** * The tests of the descriptor chain

    The unit tests of virtio-queue/src/chain.rs.  Each runs in the world of
    [Testing]: a mock driver of 16 entries over one guest memory. *)

From stdpp Require Import base numbers list option gmap.
From S2P Require Import Prelude Bytes GuestMemory FlatMemory Descriptor Chain Queue Mock Testing.

(** [RawDescriptor::from(SplitDescriptor::new(addr, len, flags as u16, next))]. *)
Definition raw_desc (addr : u64) (len flags : u32) (next : u16) : RawDescriptor :=
  raw_of_split (descriptor_new addr len (wrap 16 flags) next).

(** [vq.desc_table().store(i, desc).unwrap()], and the store into another table. *)
Definition store_in (t : DescriptorTable) (i : u16) (d : RawDescriptor) : test World unit :=
  drv (on_mem (table_store t i d)).
Definition store_desc (i : u16) (d : RawDescriptor) : test World unit :=
  vq ← gets w_mock; store_in (mq_desc_table vq) i d.

(** [DescriptorChain::new(m, vq.start(), 16, 0)]. *)
Definition first_of_table : test World DescriptorChain :=
  vq ← gets w_mock; mret (chain_new (mock_start vq) 16 0).

Definition test_checked_new_descriptor_chain : test World unit :=
  vq ← gets w_mock;
  e ← unwrap (mock_end vq); _ ← assert (e <? 0x1000);
  _ ← ends (chain_new (mock_start vq) 16 16);
  _ ← ends (chain_new 0x00ffffffffff 16 0);
  _ ← store_desc 0 (raw_desc 0x1000 0x1000 VRING_DESC_F_NEXT 16);
  c ← first_of_table; c ← skip 1 c; _ ← ends c;
  _ ← store_desc 0 (raw_desc 0x1000 0x1000 VRING_DESC_F_NEXT 1);
  _ ← store_desc 1 (raw_desc 0x2000 0x1000 0 0);
  c ← first_of_table;
  _ ← assert_eq (c_desc_table c) (mock_start vq);
  _ ← assert_eq (c_queue_size c) 16;
  _ ← assert_eq (c_ttl c) (c_queue_size c);
  '(c, desc) ← next_desc c;
  desc ← unwrap desc;
  _ ← assert_eq (d_addr desc) 0x1000;
  _ ← assert_eq (d_len desc) 0x1000;
  _ ← assert_eq (d_flags desc) (wrap 16 VRING_DESC_F_NEXT);
  _ ← assert_eq (d_next desc) 1;
  _ ← assert_eq (c_ttl c) (c_queue_size c - 1);
  c ← skip 1 c; _ ← assert_eq (c_ttl c) 0;
  c ← ends c; assert_eq (c_ttl c) 0.

Theorem test_checked_new_descriptor_chain_passes :
  passes test_checked_new_descriptor_chain (fresh test_mem 16) = true.
Proof. vm_compute. reflexivity. Qed.

(** The loop of [test_ttl_wrap_around] that walks the chain; [n] iterations are left. *)
Fixpoint ttl_counts_down (n : nat) (i : u16) (c : DescriptorChain) : test World DescriptorChain :=
  match n with
  | O => mret c
  | S n =>
      c ← skip 1 c;
      _ ← assert_eq (c_ttl c) (c_queue_size c - i - 1);
      ttl_counts_down n (i + 1) c
  end.

Definition test_ttl_wrap_around : test World unit :=
  _ ← for_each (seqZ 0 (16 - 1)) (fun i =>
        store_desc i (raw_desc (0x1000 * (i + 1)) 0x1000 VRING_DESC_F_NEXT (i + 1)));
  _ ← store_desc (16 - 1) (raw_desc (0x1000 * 16) 0x1000 0 0);
  c ← first_of_table;
  _ ← assert_eq (c_ttl c) (c_queue_size c);
  c ← ttl_counts_down 16 0 c;
  _ ← ends c; mret tt.

Theorem test_ttl_wrap_around_passes :
  passes test_ttl_wrap_around (fresh (from_ranges [(0, 0x100000)]) 16) = true.
Proof. vm_compute. reflexivity. Qed.

(** The indirect table of four chained descriptors at [addr]. *)
Definition fill_indirect_table (addr : u64) : test World unit :=
  let idtable := table_new addr 4 in
  for_each (seqZ 0 4) (fun i =>
    store_in idtable i (if i <? 3 then raw_desc (0x1000 * i) 0x1000 VRING_DESC_F_NEXT (i + 1)
                        else raw_desc (0x1000 * i) 0x1000 0 0)).

(** The loop that walks it. *)
Fixpoint walk_indirect (n : nat) (i : u16) (c : DescriptorChain) : test World DescriptorChain :=
  match n with
  | O => mret c
  | S n =>
      '(c, desc) ← next_desc c;
      desc ← unwrap desc;
      _ ← assert (c_is_indirect c);
      _ ← (if i <? 3 then
             _ ← assert_eq (d_flags desc) (wrap 16 VRING_DESC_F_NEXT);
             assert_eq (d_next desc) (i + 1)
           else mret tt);
      walk_indirect n (i + 1) c
  end.

Definition test_new_from_indirect_descriptor : test World unit :=
  _ ← store_desc 0 (raw_desc 0x6000 0x1000 VRING_DESC_F_NEXT 1);
  _ ← store_desc 1 (raw_desc 0x7000 0x1000 (Z.lor VRING_DESC_F_INDIRECT VRING_DESC_F_NEXT) 2);
  _ ← store_desc 2 (raw_desc 0x8000 0x1000 0 0);
  c ← first_of_table;
  _ ← fill_indirect_table 0x7000;
  _ ← assert_eq (head_index c) 0;
  c ← skip 1 c;
  _ ← assert (negb (c_is_indirect c));
  c ← walk_indirect 4 0 c;
  _ ← ends c; mret tt.

Theorem test_new_from_indirect_descriptor_passes :
  passes test_new_from_indirect_descriptor (fresh test_mem 16) = true.
Proof. vm_compute. reflexivity. Qed.

Definition test_indirect_descriptor_address_noaligned : test World unit :=
  _ ← store_desc 0 (raw_desc 0x7001 0x1000 (Z.lor VRING_DESC_F_INDIRECT VRING_DESC_F_NEXT) 2);
  c ← first_of_table;
  _ ← fill_indirect_table 0x7001;
  _ ← walk_indirect 4 0 c; mret tt.

Theorem test_indirect_descriptor_address_noaligned_passes :
  passes test_indirect_descriptor_address_noaligned (fresh test_mem 16) = true.
Proof. vm_compute. reflexivity. Qed.

(** The three blocks of [test_indirect_descriptor_err], each with memory of its own. *)
Definition test_indirect_len_unaligned : test World unit :=
  _ ← store_desc 0 (raw_desc 0x1000 0x1001 VRING_DESC_F_INDIRECT 0);
  c ← first_of_table; _ ← ends c; mret tt.

Definition test_indirect_len_too_large : test World unit :=
  _ ← store_desc 0 (raw_desc 0x1000 ((65535 + 1) * VRING_DESC_ALIGN_SIZE) VRING_DESC_F_INDIRECT 0);
  c ← first_of_table; _ ← ends c; mret tt.

(** [m.write_obj(desc, addr).unwrap()]. *)
Definition write_desc (d : RawDescriptor) (addr : u64) : test World unit := fun w =>
  match ref_store d addr (w_mem w) with
  | Some m => Some (mk_world (w_mock w) (w_queue w) m, Ok tt)
  | None => None
  end.

Definition test_indirect_nested : test World unit :=
  _ ← store_desc 0 (raw_desc 0x1000 0x1000 VRING_DESC_F_INDIRECT 0);
  _ ← write_desc (raw_desc 0x3000 0x1000 0 0) 0x1000;
  c ← first_of_table; _ ← skip 1 c;
  _ ← write_desc (raw_desc 0x3000 0x1000 VRING_DESC_F_INDIRECT 0) 0x1000;
  c ← first_of_table; _ ← ends c; mret tt.

Theorem test_indirect_descriptor_err_passes :
  passes test_indirect_len_unaligned (fresh test_mem 16) = true /\
  passes test_indirect_len_too_large (fresh test_mem 16) = true /\
  passes test_indirect_nested (fresh test_mem 16) = true.
Proof. vm_compute. done. Qed.
