(* ===== verification/ReaderTests.v ===== *)
(** * The tests of the readers and writers

    The unit tests of virtio-queue/src/descriptor_utils.rs.  The state of a
    test is its guest memory; a reader or writer is a value the test threads. *)

From stdpp Require Import base numbers list option gmap.
From S2P Require Import Prelude Bytes GuestMemory FlatMemory Descriptor Chain Queue Mock.
From S2P Require Import DescriptorUtils Testing.

Inductive DescriptorType : Type := Readable | Writable.

(** [const MAX_QUEUE_SIZE] of the tests. *)
Definition TEST_QUEUE_SIZE : u16 := 16.

(** The loop of [create_descriptor_chain]; the outer [None] is the overflow of [size + spaces]. *)
Fixpoint chain_layout (spaces index start : Z) (ds : list (DescriptorType * u32))
    : option (result Error (list RawDescriptor)) :=
  match ds with
  | [] => Some (Ok [])
  | (type_, size) :: ds =>
      let flags := match type_ with Writable => VRING_DESC_F_WRITE | Readable => 0 end in
      let flags := match ds with [] => flags | _ => Z.lor flags VRING_DESC_F_NEXT end in
      let desc := raw_of_split (descriptor_new start size (wrap 16 flags) (wrap 16 (index + 1))) in
      offset ← add_u 32 size spaces;
      match checked_add 64 start offset with
      | None => Some (Err InvalidChain)
      | Some start =>
          match chain_layout spaces (index + 1) start ds with
          | Some (Ok descs) => Some (Ok (desc :: descs))
          | r => r
          end
      end
  end.

(** The queue the tests make for themselves, and the first chain of it. *)
Definition chain_of_queue (desc_table avail_ring : u64) (m : FlatMem) : option DescriptorChain :=
  q ← to_option (queue_new TEST_QUEUE_SIZE);
  q ← to_option (try_set_desc_table_address desc_table q);
  q ← to_option (try_set_avail_ring_address avail_ring q);
  match iter (set_ready true q, m) with
  | Some (s, Ok it) => match avail_next it s with Some (_, Ok o) => o | _ => None end
  | _ => None
  end.

Definition create_descriptor_chain (descriptor_array_addr : u64)
    (descriptors : list (DescriptorType * u32)) (spaces_between_regions : u32)
    : RM FlatMem Error DescriptorChain := fun m =>
  '(queue, m) ← mock_create descriptor_array_addr TEST_QUEUE_SIZE m;
  buffers_start_addr ← mock_end queue;
  r ← chain_layout spaces_between_regions 0 buffers_start_addr descriptors;
  match r with
  | Err e => Some (m, Err e)
  | Ok descs =>
      match build_desc_chain descs (queue, m) with
      | Some ((_, m), Ok _) =>
          chain ← chain_of_queue descriptor_array_addr (mq_avail_addr queue) m;
          Some (m, Ok chain)
      | _ => None
      end
  end.

(** [create_descriptor_chain(...).expect(...)]. *)
Definition expect_chain (ds : list (DescriptorType * u32)) (spaces : u32)
    : test FlatMem DescriptorChain :=
  r ← try (create_descriptor_chain 0 ds spaces); unwrap_ok r.

Definition expect_reader (c : DescriptorChain) : test FlatMem DescriptorChainConsumer :=
  m ← gets id; r ← unwrap (reader_new m c); unwrap_ok r.
Definition expect_writer (c : DescriptorChain) : test FlatMem DescriptorChainConsumer :=
  m ← gets id; r ← unwrap (writer_new m c); unwrap_ok r.

(** An operation on a reader or writer: the reader after it, and its result. *)
Definition io {A} (c : DescriptorChainConsumer)
    (op : RM (DescriptorChainConsumer * FlatMem) IoError A)
    : test FlatMem (DescriptorChainConsumer * result IoError A) := fun m =>
  match op (c, m) with
  | Some ((c, m), r) => Some (m, Ok (c, r))
  | None => None
  end.

Definition counts (c : DescriptorChainConsumer) (available consumed : usize) : test FlatMem unit :=
  _ ← assert_eq (available_bytes c) available; assert_eq (bytes_consumed c) consumed.

(** [Read::read_to_end]: read until nothing comes, [chunk] bytes at a time. *)
Fixpoint read_to_end (fuel : nat) (chunk : usize)
    : RM (DescriptorChainConsumer * FlatMem) IoError (list Z) :=
  match fuel with
  | O => panic
  | S fuel =>
      r ← reader_read chunk;
      if snd r =? 0 then mret []
      else rest ← read_to_end fuel chunk; mret (fst r ++ rest)
  end.

(** ** Reading and writing *)

Definition reader_test_inv_desc_addr : test FlatMem unit := fun m =>
  match mock_create 0x0 TEST_QUEUE_SIZE m with
  | None => None
  | Some (queue, m) =>
      let descriptor := raw_of_split (descriptor_new 0x1001 1 0 1) in
      match build_desc_chain [descriptor] (queue, m) with
      | Some ((_, m), Ok _) =>
          (chain ← unwrap (chain_of_queue 0 (mq_avail_addr queue) m);
           r ← unwrap (reader_new m chain);
           assert (negb (is_ok r))) m
      | _ => None
      end
  end.

Definition reader_test_simple_chain : test FlatMem unit :=
  chain ← expect_chain [(Readable, 8); (Readable, 16); (Readable, 18); (Readable, 64)] 0;
  reader ← expect_reader chain;
  _ ← counts reader 106 0;
  '(reader, r) ← io reader (read_exact 64);
  _ ← unwrap_ok r;
  _ ← counts reader 42 64;
  '(reader, r) ← io reader (reader_read 64);
  r ← unwrap_ok r; _ ← assert_eq (snd r) 42;
  counts reader 0 106.

Definition writer_test_simple_chain : test FlatMem unit :=
  chain ← expect_chain [(Writable, 8); (Writable, 16); (Writable, 18); (Writable, 64)] 0;
  writer ← expect_writer chain;
  _ ← counts writer 106 0;
  let buffer := replicate 64 0 in
  '(writer, r) ← io writer (write_all buffer);
  _ ← unwrap_ok r;
  _ ← counts writer 42 64;
  '(writer, r) ← io writer (writer_write buffer);
  r ← unwrap_ok r; _ ← assert_eq (snd r) 42;
  counts writer 0 106.

Definition reader_test_incompatible_chain : test FlatMem unit :=
  chain ← expect_chain [(Writable, 8)] 0;
  reader ← expect_reader chain;
  _ ← counts reader 0 0;
  '(reader, r) ← io reader (reader_read_obj Z (H0 := uint_bv 1));
  _ ← assert (negb (is_ok r));
  counts reader 0 0.

Definition writer_test_incompatible_chain : test FlatMem unit :=
  chain ← expect_chain [(Readable, 8)] 0;
  writer ← expect_writer chain;
  _ ← counts writer 0 0;
  '(writer, r) ← io writer (writer_write_obj (H0 := uint_bv 1) 0);
  _ ← assert (negb (is_ok r));
  counts writer 0 0.

(** The descriptors of the shared chain and of the split tests. *)
Definition shared_descs : list (DescriptorType * u32) :=
  [(Readable, 16); (Readable, 16); (Readable, 96); (Writable, 64); (Writable, 1); (Writable, 3)].

Definition reader_writer_shared_chain : test FlatMem unit :=
  chain ← expect_chain shared_descs 0;
  reader ← expect_reader chain;
  writer ← expect_writer chain;
  _ ← assert_eq (bytes_consumed reader) 0;
  _ ← assert_eq (bytes_consumed writer) 0;
  '(reader, r) ← io reader (read_to_end 8 200);
  buffer ← unwrap_ok r; _ ← assert_eq (length buffer) 128%nat;
  '(writer, r) ← io writer (write_all (take 68 buffer));
  _ ← unwrap_ok r;
  _ ← counts reader 0 128;
  counts writer 0 68.

Definition reader_writer_shattered_object : test FlatMem unit :=
  let secret := 0x12345678 in
  chain_writer ← expect_chain [(Writable, 1); (Writable, 1); (Writable, 1); (Writable, 1)] 123;
  writer ← expect_writer chain_writer;
  '(_, r) ← io writer (writer_write_obj (H0 := uint_bv 4) secret);
  _ ← unwrap_ok r;
  chain_reader ← expect_chain [(Readable, 1); (Readable, 1); (Readable, 1); (Readable, 1)] 123;
  reader ← expect_reader chain_reader;
  '(_, r) ← io reader (reader_read_obj Z (H0 := uint_bv 4));
  read_secret ← unwrap_ok r; assert_eq read_secret secret.

Definition reader_unexpected_eof : test FlatMem unit :=
  chain ← expect_chain [(Readable, 256); (Readable, 256)] 0;
  reader ← expect_reader chain;
  '(_, r) ← io reader (read_exact 1024);
  assert (match r with Err IoUnexpectedEof => true | _ => false end).

Definition read_full : test FlatMem unit :=
  chain ← expect_chain [(Readable, 16); (Readable, 16); (Readable, 16)] 0;
  reader ← expect_reader chain;
  '(_, r) ← io reader (reader_read 64);
  r ← unwrap_ok r; assert_eq (snd r) 48.

(** [Writer::flush] does nothing and succeeds. *)
Definition write_full : test FlatMem unit :=
  chain ← expect_chain [(Writable, 16); (Writable, 16); (Writable, 16)] 0;
  writer ← expect_writer chain;
  '(_, r) ← io writer (writer_write (replicate 64 0xde));
  r ← unwrap_ok r; assert_eq (snd r) 48.

(** ** Splitting *)

(** [reader.split_at(offset)]: what is left of it, and the other part. *)
Definition split_reader (c : DescriptorChainConsumer) (offset : usize)
    : test FlatMem (DescriptorChainConsumer * result Error DescriptorChainConsumer) :=
  m ← gets id; unwrap (split_at m offset c).

Definition splits (c : DescriptorChainConsumer) (offset left right : usize) : test FlatMem unit :=
  '(c, other) ← split_reader c offset;
  other ← unwrap_ok other;
  _ ← assert_eq (available_bytes c) left;
  assert_eq (available_bytes other) right.

Definition split_border : test FlatMem unit :=
  chain ← expect_chain shared_descs 0;
  reader ← expect_reader chain;
  _ ← splits reader 32 32 96;
  writer ← expect_writer chain;
  splits writer 64 64 4.

Definition split_middle : test FlatMem unit :=
  chain ← expect_chain shared_descs 0; reader ← expect_reader chain; splits reader 24 24 104.

Definition split_end : test FlatMem unit :=
  chain ← expect_chain shared_descs 0; reader ← expect_reader chain; splits reader 128 128 0.

Definition split_beginning : test FlatMem unit :=
  chain ← expect_chain shared_descs 0; reader ← expect_reader chain; splits reader 0 0 128.

Definition split_outofbounds : test FlatMem unit :=
  chain ← expect_chain shared_descs 0; reader ← expect_reader chain;
  '(_, other) ← split_reader reader 256;
  assert (negb (is_ok other)).

(** ** The tests pass *)

Theorem reader_test_inv_desc_addr_passes :
  passes reader_test_inv_desc_addr (Some (from_ranges [(0, 0x1000)])) = true.
Proof. vm_compute. reflexivity. Qed.

Theorem reader_writer_tests_pass :
  Forall (fun t => passes t (Some test_mem) = true)
    [reader_test_simple_chain; writer_test_simple_chain; reader_test_incompatible_chain;
     writer_test_incompatible_chain; reader_writer_shared_chain; reader_writer_shattered_object;
     reader_unexpected_eof; read_full; write_full].
Proof. repeat constructor; vm_compute; reflexivity. Qed.

Theorem split_tests_pass :
  Forall (fun t => passes t (Some test_mem) = true)
    [split_border; split_middle; split_end; split_beginning; split_outofbounds].
Proof. repeat constructor; vm_compute; reflexivity. Qed.
