(* ===== verification/SyncTests.v ===== *)
(** * The tests of the shared queue

    The unit tests of virtio-queue/src/queue_sync.rs, through the interface
    [QueueT] of a [QueueSync]. *)

From stdpp Require Import base numbers list option gmap.
From S2P Require Import Prelude Bytes GuestMemory FlatMemory Descriptor Chain Queue Mock.
From S2P Require Import QueueSync Testing.

Abbreviation Shared := (QueueSync * FlatMem)%type.

(** [QueueSync::new(max_size).unwrap()] and a guest of 64 KiB. *)
Definition shared (max_size : u16) : option Shared :=
  q ← to_option (sync_new max_size); Some (q, test_mem).

(** A method of the queue, its [Result] as a value; [ask] unwraps it. *)
Definition ask_result {A} (c : RM Shared Error A) : test Shared (result Error A) := try c.
Definition ask {A} (c : RM Shared Error A) : test Shared A := r ← ask_result c; unwrap_ok r.

Definition sees {A} `{EqDecision A} (c : RM Shared Error A) (v : A) : test Shared unit :=
  x ← ask c; assert_eq x v.
Definition sees_not {A} `{EqDecision A} (c : RM Shared Error A) (v : A) : test Shared unit :=
  x ← ask c; assert_ne x v.

(** ** Threads *)

(** What the two threads of [test_queue_state_sync] do before and after the barriers: one looks
    through a guard, the other through the queue. *)
Definition looks_through_guard (ready : bool) : test Shared unit :=
  sees (qt_lock _ (getter q_ready)) ready.
Definition looks (ready : bool) : test Shared unit := sees qt_ready ready.

(** Between two barriers the threads run in any order, [guard_first] or not; the first barrier
    waits for both before [set_ready], the second for [set_ready]. *)
Definition in_order (guard_first ready : bool) : test Shared unit :=
  if guard_first then _ ← looks_through_guard ready; looks ready
  else _ ← looks ready; looks_through_guard ready.

Definition test_queue_state_sync (order1 order2 : bool) : test Shared unit :=
  _ ← in_order order1 false;
  _ ← ask (qt_set_ready true);
  in_order order2 true.

Theorem test_queue_state_sync_passes order1 order2 :
  passes (test_queue_state_sync order1 order2) (shared 0x1000) = true.
Proof. by destruct order1, order2; vm_compute. Qed.

(** ** The other tests *)

(** The addresses all of them set. *)
Definition set_rings : test Shared unit :=
  _ ← ask (qt_set_desc_table_address (Some 0x1000) None);
  _ ← ask (qt_set_avail_ring_address (Some 0x2000) None);
  ask (qt_set_used_ring_address (Some 0x3000) None).

Definition test_state_sync_add_used : test Shared unit :=
  _ ← set_rings;
  _ ← ask (qt_set_event_idx true);
  _ ← ask (qt_set_ready true);
  _ ← sees qt_is_valid true;
  _ ← sees (qt_lock _ (getter q_size)) 0x100;
  _ ← sees qt_max_size 0x100;
  _ ← sees qt_size 0x100;
  _ ← ask (qt_set_size 0x80);
  _ ← sees qt_size 0x80;
  _ ← sees qt_max_size 0x100;
  _ ← ask (qt_set_next_avail 5);
  _ ← sees qt_next_avail 5;
  _ ← ask (qt_set_next_used 3);
  _ ← sees qt_next_used 3;
  _ ← sees (qt_avail_idx Acquire) 0;
  _ ← sees (qt_used_idx Acquire) 0;
  _ ← sees qt_next_used 3;
  r ← ask_result (qt_add_used 0x200 0x1000);
  _ ← assert (negb (is_ok r));
  _ ← sees qt_next_used 3;
  _ ← ask (qt_add_used 1 0x1000);
  _ ← sees qt_next_used 4;
  sees (qt_used_idx Acquire) 4.

(** [q.lock_state().field()]. *)
Definition locked {A} (f : Queue -> A) : RM Shared Error A := qt_lock _ (getter f).

Definition test_sync_state_reset_queue : test Shared unit :=
  _ ← set_rings;
  _ ← ask (qt_set_event_idx true);
  _ ← ask (qt_set_next_avail 2);
  _ ← ask (qt_set_next_used 2);
  _ ← ask (qt_set_size 0x8);
  _ ← ask (qt_set_ready true);
  _ ← sees qt_is_valid true;
  _ ← ask qt_needs_notification;
  _ ← sees (locked q_size) 0x8;
  _ ← sees (locked q_ready) true;
  _ ← sees_not (locked q_desc_table) DEFAULT_DESC_TABLE_ADDR;
  _ ← sees_not (locked q_avail_ring) DEFAULT_AVAIL_RING_ADDR;
  _ ← sees_not (locked q_used_ring) DEFAULT_USED_RING_ADDR;
  _ ← sees_not (locked q_next_avail) 0;
  _ ← sees_not (locked q_next_used) 0;
  _ ← sees (locked q_event_idx_enabled) true;
  _ ← ask qt_reset;
  _ ← sees (locked q_size) 0x100;
  _ ← sees (locked q_ready) false;
  _ ← sees (locked q_desc_table) DEFAULT_DESC_TABLE_ADDR;
  _ ← sees (locked q_avail_ring) DEFAULT_AVAIL_RING_ADDR;
  _ ← sees (locked q_used_ring) DEFAULT_USED_RING_ADDR;
  _ ← sees (locked q_next_avail) 0;
  _ ← sees (locked q_next_used) 0;
  sees (locked q_event_idx_enabled) false.

(** [m.read_obj::<u16>(addr)] and [m.write_obj::<u16>(v, addr)]. *)
Definition mem16_is (addr : u64) (v : u16) : test Shared unit :=
  m ← gets snd; x ← unwrap (ref_load Z (BV := u16_bv) m addr); assert_eq x v.
Definition set_mem16 (v : u16) (addr : u64) : test Shared unit := fun '(s, m) =>
  match ref_store (BV := u16_bv) v addr m with Some m => Some ((s, m), Ok tt) | None => None end.

Definition sync_test_enable_disable_notification : test Shared unit :=
  _ ← ask (qt_set_desc_table_address (Some 0x1000) None);
  _ ← sees qt_desc_table 0x1000;
  _ ← ask (qt_set_avail_ring_address (Some 0x2000) None);
  _ ← sees qt_avail_ring 0x2000;
  _ ← ask (qt_set_used_ring_address (Some 0x3000) None);
  _ ← sees qt_used_ring 0x3000;
  _ ← ask (qt_set_ready true);
  _ ← sees qt_is_valid true;
  used_addr ← ask (locked q_used_ring);
  _ ← sees qt_event_idx_enabled false;
  _ ← ask qt_enable_notification;
  _ ← mem16_is used_addr 0;
  _ ← ask qt_disable_notification;
  _ ← mem16_is used_addr (wrap 16 VRING_USED_F_NO_NOTIFY);
  _ ← ask qt_enable_notification;
  _ ← mem16_is used_addr 0;
  _ ← ask (qt_set_event_idx true);
  avail_addr ← ask (locked q_avail_ring);
  _ ← set_mem16 2 (avail_addr + 2);
  _ ← sees qt_enable_notification true;
  _ ← ask (qt_lock _ (update_queue (set_next_avail 2)));
  _ ← sees qt_enable_notification false;
  _ ← set_mem16 8 (avail_addr + 2);
  _ ← sees qt_enable_notification true;
  _ ← ask (qt_lock _ (update_queue (set_next_avail 8)));
  sees qt_enable_notification false.

Theorem sync_tests_pass :
  Forall (fun t => passes t (shared 0x100) = true)
    [test_state_sync_add_used; test_sync_state_reset_queue; sync_test_enable_disable_notification].
Proof. repeat constructor; vm_compute; reflexivity. Qed.
