(* ===== verification/FormatTests.v ===== *)
(** * The tests of the data formats

    The unit tests of virtio-queue/src/desc, virtio-queue/src/state.rs,
    virtio-queue-ser/src/state.rs and virtio-bindings/src/virtio_net.  These
    tests keep no state but the value they build. *)

From stdpp Require Import base numbers list option strings pretty.
From S2P Require Import Prelude Bytes GuestMemory Descriptor Chain Queue QueueState NetHeader Testing.

(** The test passes whatever runs around it. *)
Definition passes_alone (t : test unit unit) : bool := passes t (Some tt).

(** [offset_of!(T, field)]: in the memory image of [x] the field of [n] bytes at [offset] is [v]. *)
Definition field_at {T} `{ByteValued T} (x : T) (n offset : nat) (v : Z) : test unit unit :=
  assert_eq (le_value (take n (drop offset (bv_encode x)))) v.

(** [e2.as_mut_slice().copy_from_slice(e1.as_slice())]: the length must agree. *)
Definition copied {T} `{ByteValued T} (e1 : T) : test unit T :=
  _ ← assert_eq (length (bv_encode e1)) (bv_size T); mret (bv_decode (bv_encode e1)).

(** ** Raw descriptors: desc/mod.rs *)

Definition test_desc_from_split : test unit unit :=
  let split_desc := descriptor_new 1 2 3 4 in
  let desc := raw_of_split split_desc in
  _ ← assert_eq (d_addr split_desc) (raw0 desc);
  _ ← assert_eq (d_len split_desc) (raw1 desc);
  _ ← assert_eq (d_flags split_desc) (raw2 desc);
  assert_eq (d_next split_desc) (raw3 desc).

Definition test_split_from_desc : test unit unit :=
  let desc := mk_raw 1 2 3 4 in
  let split_desc := split_of_raw desc in
  _ ← assert_eq (d_addr split_desc) (raw0 desc);
  _ ← assert_eq (d_len split_desc) (raw1 desc);
  _ ← assert_eq (d_flags split_desc) (raw2 desc);
  assert_eq (d_next split_desc) (raw3 desc).

Definition test_desc_from_packed : test unit unit :=
  let packed_desc := packed_new 1 2 3 4 in
  let desc := raw_of_packed packed_desc in
  _ ← assert_eq (p_addr packed_desc) (raw0 desc);
  _ ← assert_eq (p_len packed_desc) (raw1 desc);
  _ ← assert_eq (p_id packed_desc) (raw2 desc);
  assert_eq (p_flags packed_desc) (raw3 desc).

Definition test_packed_from_desc : test unit unit :=
  let desc := mk_raw 1 2 3 4 in
  let packed_desc := packed_of_raw desc in
  _ ← assert_eq (p_addr packed_desc) (raw0 desc);
  _ ← assert_eq (p_len packed_desc) (raw1 desc);
  _ ← assert_eq (p_id packed_desc) (raw2 desc);
  assert_eq (p_flags packed_desc) (raw3 desc).

(** ** Packed descriptors: desc/packed.rs *)

Definition packed_test_descriptor_offset : test unit unit :=
  let x := packed_new 1 2 3 4 in
  _ ← assert_eq (bv_size PackedDescriptor) 16%nat;
  _ ← field_at x 8 0 (p_addr x);
  _ ← field_at x 4 8 (p_len x);
  _ ← field_at x 2 12 (p_id x);
  field_at x 2 14 (p_flags x).

Definition packed_test_descriptor_getter_setter : test unit unit :=
  let desc := packed_new 0 0 0 0 in
  let desc := packed_set_addr 0x1000 desc in
  _ ← assert_eq (p_addr desc) 0x1000;
  let desc := packed_set_len 0x2000 desc in
  _ ← assert_eq (p_len desc) 0x2000;
  let desc := packed_set_flags (wrap 16 VRING_DESC_F_NEXT) desc in
  _ ← assert_eq (p_flags desc) (wrap 16 VRING_DESC_F_NEXT);
  _ ← assert (packed_has_next desc);
  _ ← assert (negb (packed_is_write_only desc));
  _ ← assert (negb (packed_refers_to_indirect_table desc));
  let desc := packed_set_flags (wrap 16 VRING_DESC_F_WRITE) desc in
  _ ← assert_eq (p_flags desc) (wrap 16 VRING_DESC_F_WRITE);
  _ ← assert (negb (packed_has_next desc));
  _ ← assert (packed_is_write_only desc);
  _ ← assert (negb (packed_refers_to_indirect_table desc));
  let desc := packed_set_flags (wrap 16 VRING_DESC_F_INDIRECT) desc in
  _ ← assert_eq (p_flags desc) (wrap 16 VRING_DESC_F_INDIRECT);
  _ ← assert (negb (packed_is_write_only desc));
  _ ← assert (packed_refers_to_indirect_table desc);
  let desc := packed_set_id 1 desc in
  assert_eq (p_id desc) 1.

Definition packed_test_descriptor_copy : test unit unit :=
  let e1 := packed_new 1 2 0 3 in
  e2 ← copied e1;
  _ ← assert_eq (p_addr e1) (p_addr e2);
  _ ← assert_eq (p_len e1) (p_len e2);
  _ ← assert_eq (p_id e1) (p_id e2);
  assert_eq (p_flags e1) (p_flags e2).

Definition test_packed_desc_event_offset : test unit unit :=
  let x := packed_desc_event_new 1 2 in
  _ ← field_at x 2 0 (off_wrap x);
  _ ← field_at x 2 2 (event_flags x);
  assert_eq (bv_size PackedDescEvent) 4%nat.

Definition test_packed_desc_event_copy : test unit unit :=
  let e1 := packed_desc_event_new 1 2 in
  e2 ← copied e1;
  _ ← assert_eq (off_wrap e1) (off_wrap e2);
  assert_eq (event_flags e1) (event_flags e2).

(** ** Split descriptors: desc/split.rs *)

Definition split_test_descriptor_offset : test unit unit :=
  let x := descriptor_new 1 2 3 4 in
  _ ← assert_eq (bv_size Descriptor) 16%nat;
  _ ← field_at x 8 0 (d_addr x);
  _ ← field_at x 4 8 (d_len x);
  _ ← field_at x 2 12 (d_flags x);
  field_at x 2 14 (d_next x).

Definition split_test_descriptor_getter_setter : test unit unit :=
  let desc := descriptor_new 0 0 0 0 in
  let desc := set_addr 0x1000 desc in
  _ ← assert_eq (d_addr desc) 0x1000;
  let desc := set_len 0x2000 desc in
  _ ← assert_eq (d_len desc) 0x2000;
  let desc := set_flags (wrap 16 VRING_DESC_F_NEXT) desc in
  _ ← assert_eq (d_flags desc) (wrap 16 VRING_DESC_F_NEXT);
  _ ← assert (has_next desc);
  _ ← assert (negb (is_write_only desc));
  _ ← assert (negb (refers_to_indirect_table desc));
  let desc := set_flags (wrap 16 VRING_DESC_F_WRITE) desc in
  _ ← assert_eq (d_flags desc) (wrap 16 VRING_DESC_F_WRITE);
  _ ← assert (negb (has_next desc));
  _ ← assert (is_write_only desc);
  _ ← assert (negb (refers_to_indirect_table desc));
  let desc := set_flags (wrap 16 VRING_DESC_F_INDIRECT) desc in
  _ ← assert_eq (d_flags desc) (wrap 16 VRING_DESC_F_INDIRECT);
  _ ← assert (negb (has_next desc));
  _ ← assert (negb (is_write_only desc));
  _ ← assert (refers_to_indirect_table desc);
  let desc := set_next 3 desc in
  assert_eq (d_next desc) 3.

Definition split_test_descriptor_copy : test unit unit :=
  let e1 := descriptor_new 1 2 (wrap 16 VRING_DESC_F_NEXT) 3 in
  e2 ← copied e1;
  _ ← assert_eq (d_addr e1) (d_addr e2);
  _ ← assert_eq (d_len e1) (d_len e2);
  _ ← assert_eq (d_flags e1) (d_flags e2);
  assert_eq (d_next e1) (d_next e2).

Definition test_used_elem_offset : test unit unit :=
  let x := used_elem_new 1 2 in
  _ ← field_at x 4 0 (ue_id x);
  _ ← field_at x 4 4 (ue_len x);
  assert_eq (bv_size VirtqUsedElem) 8%nat.

Definition test_used_elem_copy : test unit unit :=
  let e1 := used_elem_new 3 15 in
  e2 ← copied e1;
  _ ← assert_eq (ue_id e1) (ue_id e2);
  assert_eq (ue_len e1) (ue_len e2).

Theorem descriptor_tests_pass :
  Forall (fun t => passes_alone t = true)
    [test_desc_from_split; test_split_from_desc; test_desc_from_packed; test_packed_from_desc;
     packed_test_descriptor_offset; packed_test_descriptor_getter_setter;
     packed_test_descriptor_copy; test_packed_desc_event_offset; test_packed_desc_event_copy;
     split_test_descriptor_offset; split_test_descriptor_getter_setter; split_test_descriptor_copy;
     test_used_elem_offset; test_used_elem_copy].
Proof. repeat constructor. Qed.

(** ** Saved queues: state.rs of virtio-queue and virtio-queue-ser *)

Definition create_valid_queue_state : test unit QueueState :=
  queue ← unwrap_ok (queue_new 16); mret (queue_state queue).

Definition test_empty_queue_state : test unit unit :=
  queue ← unwrap_ok (queue_new 16);
  restored_q ← unwrap_ok (queue_try_from (queue_state queue));
  assert_eq queue restored_q.

(** Each invalid state alters one field of the valid one. *)
Definition rejected (s : QueueState) : test unit unit := assert (negb (is_ok (queue_try_from s))).

Definition test_invalid_queue_state : test unit unit :=
  s ← create_valid_queue_state;
  let max_size v := mk_queue_state v (st_next_avail s) (st_next_used s) (st_event_idx_enabled s)
    (st_size s) (st_ready s) (st_desc_table s) (st_avail_ring s) (st_used_ring s) in
  let size v := mk_queue_state (st_max_size s) (st_next_avail s) (st_next_used s)
    (st_event_idx_enabled s) v (st_ready s) (st_desc_table s) (st_avail_ring s) (st_used_ring s) in
  let rings d a u := mk_queue_state (st_max_size s) (st_next_avail s) (st_next_used s)
    (st_event_idx_enabled s) (st_size s) (st_ready s) d a u in
  _ ← rejected (max_size 0);
  _ ← rejected (max_size 65535);
  _ ← rejected (max_size 15);
  _ ← rejected (size 0);
  _ ← rejected (size 65535);
  _ ← rejected (size 15);
  _ ← rejected (rings 0xf (st_avail_ring s) (st_used_ring s));
  _ ← rejected (rings (st_desc_table s) 0x1 (st_used_ring s));
  rejected (rings (st_desc_table s) (st_avail_ring s) 0x3).

Definition test_state_ser : test unit unit :=
  let SOME_VALUE := 16 in
  let state := mk_queue_state (SOME_VALUE * 2) (SOME_VALUE - 1) (SOME_VALUE + 1) false SOME_VALUE
    true SOME_VALUE (SOME_VALUE * 2) (SOME_VALUE * 4) in
  let ser_state := queue_state_ser_of state in
  let state_from_ser := queue_state_of_ser ser_state in
  _ ← assert_eq state state_from_ser;
  assert_eq (queue_state_of_ser queue_state_ser_default) queue_state_default.

Definition test_ser_with_len_zero : test unit unit :=
  let queue_ser := mk_queue_state_ser 16 0 0 false 0 true 0 256 276 in
  let queue_state := queue_state_of_ser queue_ser in
  assert (match queue_try_from queue_state with
          | Err e => bool_decide (e = InvalidSize)
          | Ok _ => false
          end).

Theorem queue_state_tests_pass :
  Forall (fun t => passes_alone t = true)
    [test_empty_queue_state; test_invalid_queue_state; test_state_ser; test_ser_with_len_zero].
Proof. repeat constructor. Qed.

(** ** The network header: virtio_net/mod.rs *)

(** [Formatter::debug_struct] on one line. *)
Definition debug_line (name : string) (fields : list (string * Z)) : string :=
  (name ++ " { " ++
   String.concat ", " ((fun '(n, v) => n ++ ": " ++ pretty v) <$> fields) ++ " }")%string.

(** Lower case hexadecimal digits; a 16-bit value has at most four. *)
Definition hex_digit (d : Z) : string :=
  default EmptyString
    (["0"; "1"; "2"; "3"; "4"; "5"; "6"; "7"; "8"; "9"; "a"; "b"; "c"; "d"; "e"; "f"]%string
       !! Z.to_nat d).
Fixpoint hex (fuel : nat) (v : Z) : string :=
  match fuel with
  | O => EmptyString
  | S fuel => if v <? 16 then hex_digit v else (hex fuel (v / 16) ++ hex_digit (v mod 16))%string
  end.

Definition newline : string := String (Ascii.ascii_of_nat 10) EmptyString.

(** The pretty form of it, one field per line, in hexadecimal with its prefix. *)
Definition debug_hex (name : string) (fields : list (string * Z)) : string :=
  (name ++ " {" ++ newline ++
   String.concat EmptyString
     ((fun '(n, v) => "    " ++ n ++ ": 0x" ++ hex 4 v ++ "," ++ newline) <$> fields) ++ "}")%string.

Definition test_net_hdr_default_debug : test unit unit :=
  assert_eq (debug_line "virtio_net_hdr_v1" (net_hdr_debug net_hdr_default))
    "virtio_net_hdr_v1 { flags: 0, gso_type: 0, hdr_len: 0, gso_size: 0, csum_start: 0, csum_offset: 0, num_buffers: 0 }"%string.

Definition test_net_hdr_hex_debug : test unit unit :=
  assert_eq (debug_hex "virtio_net_hdr_v1" (net_hdr_debug net_hdr_default))
    "virtio_net_hdr_v1 {
    flags: 0x0,
    gso_type: 0x0,
    hdr_len: 0x0,
    gso_size: 0x0,
    csum_start: 0x0,
    csum_offset: 0x0,
    num_buffers: 0x0,
}"%string.

Definition test_net_hdr_partial_eq : test unit unit :=
  let hdr1 := net_hdr_default in
  let hdr2 := mk_net_hdr 1 0 0 0 (mk_union [0; 0; 0; 0]) 0 in
  _ ← assert (net_hdr_eq hdr1 hdr1);
  assert (negb (net_hdr_eq hdr1 hdr2)).

Theorem net_header_tests_pass :
  Forall (fun t => passes_alone t = true)
    [test_net_hdr_default_debug; test_net_hdr_hex_debug; test_net_hdr_partial_eq].
Proof. repeat constructor. Qed.
