(* ===== verification/DeviceTests.v ===== *)
(** * The tests of the devices and of the MMIO transport

    The unit tests of virtio-device/src/virtio_config.rs, lib.rs and mmio.rs,
    on the device [Dummy] they share.  The state of a test is the device. *)

From stdpp Require Import base numbers list option gmap.
From S2P Require Import Prelude Bytes GuestMemory Descriptor Chain Queue VirtioDevice Mmio Testing.
Import DummyDevice.

(** [Dummy::new]. *)
Definition dummy (device_type : u32) (features : u64) (config_space : list u8) : option Dummy :=
  q ← to_option (queue_new 256); Some (dummy_new q device_type features config_space).

(** A method without a result, one that may panic, and a field of the device. *)
Definition method (f : Dummy -> Dummy) : test Dummy unit := modify f.
Definition method_opt (f : Dummy -> option Dummy) : test Dummy unit := fun d =>
  match f d with Some d => Some (d, Ok tt) | None => None end.
Definition has {A} `{EqDecision A} (f : Dummy -> A) (v : A) : test Dummy unit :=
  x ← gets f; assert_eq x v.

(** Assignments to the fields of [d.cfg]. *)
Definition set_cfg (f : VirtioConfig -> VirtioConfig) : test Dummy unit := method (borrow_mut f).
Definition cfg_device_features (v : u64) (c : VirtioConfig) : VirtioConfig :=
  mk_config v (v_driver_features c) (v_device_features_select c) (v_driver_features_select c)
    (v_device_status c) (v_queue_select c) (v_queues c) (v_config_generation c)
    (v_config_space c) (v_device_activated c) (v_interrupt_status c).
Definition cfg_generation (v : u8) (c : VirtioConfig) : VirtioConfig :=
  mk_config (v_device_features c) (v_driver_features c) (v_device_features_select c)
    (v_driver_features_select c) (v_device_status c) (v_queue_select c) (v_queues c) v
    (v_config_space c) (v_device_activated c) (v_interrupt_status c).

(** ** virtio_config.rs *)

Definition has_queue (index : u16) (d : Dummy) : bool := bool_decide (is_Some (queue d index)).
(** [d.queue_mut(index).is_some()]. *)
Definition has_queue_mut (index : u16) (d : Dummy) : bool :=
  match queue_mut index id d with Some _ => true | None => false end.

Definition test_impls : test Dummy unit :=
  let config_space := seqZ 0 12 in
  let len := 12 in
  _ ← has device_type 2;
  _ ← has num_queues 1;
  _ ← has (has_queue 0) true;
  _ ← has (has_queue_mut 0) true;
  _ ← has (has_queue 1) false;
  _ ← has (has_queue_mut 1) false;
  _ ← has device_features 7;
  _ ← has driver_features 0;
  _ ← method (set_driver_features 0 1);
  _ ← has driver_features 1;
  _ ← method (set_driver_features 1 1);
  _ ← has driver_features (Z.shiftl 1 32 + 1);
  _ ← method (set_driver_features 2 1);
  _ ← has driver_features (Z.shiftl 1 32 + 1);
  _ ← has device_status 0;
  _ ← method (set_device_status 2);
  _ ← has device_status 2;
  let v1 := replicate 12 0 in
  _ ← has (fun d => read_config d len v1) v1;
  _ ← has (fun d => read_config d (len / 2) v1) (drop 6 config_space ++ replicate 6 0);
  _ ← method (write_config len v1);
  _ ← has (v_config_space ∘ borrow) config_space;
  _ ← method (write_config (len / 2) v1);
  _ ← has (v_config_space ∘ borrow) (take 6 config_space ++ replicate 6 0);
  _ ← has queue_select 0;
  _ ← method (set_queue_select 1);
  _ ← has queue_select 1;
  _ ← has device_features_select 0;
  _ ← method (set_device_features_select 1);
  _ ← has device_features_select 1;
  _ ← has driver_features_select 0;
  _ ← method (set_driver_features_select 1);
  has driver_features_select 1.

Theorem test_impls_passes : passes test_impls (dummy 2 7 (seqZ 0 12)) = true.
Proof. vm_compute. reflexivity. Qed.

(** ** lib.rs *)

(** [for q in d.cfg.queues.iter() { assert!(q.event_idx_enabled() == b) }]. *)
Definition queues_event_idx (b : bool) : test Dummy unit :=
  d ← gets id; for_each (v_queues (borrow d)) (fun q => assert_eq (q_event_idx_enabled q) b).

Definition status_is (v : u8) : test Dummy unit := has (v_device_status ∘ borrow) v.

Definition test_ack_device_status : test Dummy unit :=
  let EVENT_IDX := Z.shiftl 1 VIRTIO_F_RING_EVENT_IDX in
  _ ← status_is 0;
  _ ← method_opt (ack_device_status DRIVER);
  _ ← status_is 0;
  let status := ACKNOWLEDGE in
  _ ← method_opt (ack_device_status status);
  _ ← status_is status;
  let status := Z.lor status DRIVER in
  _ ← method_opt (ack_device_status status);
  _ ← status_is status;
  let old_status := status in
  let status := Z.lor status FEATURES_OK in
  _ ← method_opt (ack_device_status status);
  _ ← status_is status;
  _ ← has (fun d => Z.land (v_device_features (borrow d)) EVENT_IDX) 0;
  _ ← queues_event_idx false;
  _ ← set_cfg (with_status old_status);
  _ ← set_cfg (fun c => with_driver_features (Z.lor (v_driver_features c) EVENT_IDX) c);
  _ ← method_opt (ack_device_status status);
  _ ← status_is old_status;
  _ ← set_cfg (fun c => cfg_device_features (Z.lor (v_device_features c) EVENT_IDX) c);
  _ ← method_opt (ack_device_status status);
  _ ← status_is status;
  _ ← queues_event_idx true;
  let status := Z.lor status FEATURES_OK in
  _ ← method_opt (ack_device_status status);
  _ ← status_is status;
  _ ← has dm_activate_count 0;
  let status := Z.lor status DRIVER_OK in
  _ ← method_opt (ack_device_status status);
  _ ← status_is status;
  _ ← has dm_activate_count 1;
  _ ← method_opt (ack_device_status FAILED);
  s ← gets (v_device_status ∘ borrow);
  _ ← assert_ne (Z.land s FAILED) 0;
  _ ← has dm_reset_count 0;
  _ ← method_opt (ack_device_status RESET);
  has dm_reset_count 1.

Theorem test_ack_device_status_passes : passes test_ack_device_status (dummy 0 0 []) = true.
Proof. vm_compute. reflexivity. Qed.

(** ** mmio.rs *)

(** [mmio_read(&d, offset)] and [d.write(offset, &v.to_le_bytes())]. *)
Definition reg_is (offset v : Z) : test Dummy unit :=
  has (fun d => le_value (mmio_read d offset (replicate 4 0))) v.
Definition write_reg (offset v : Z) : test Dummy unit := method_opt (mmio_write offset (le_bytes 4 v)).

(** A field of the first queue. *)
Definition queue0_is (f : Queue -> Z) (v : Z) : test Dummy unit :=
  has (fun d => f <$> v_queues (borrow d) !! 0%nat) (Some v).

Definition mmio_features : u64 := Z.shiftl 3 32 + 7.

(** The registers before the queues. *)
Definition test_mmio_features : test Dummy unit :=
  _ ← reg_is 0x00 MMIO_MAGIC_VALUE;
  _ ← reg_is 0x04 MMIO_VERSION;
  _ ← reg_is 0x08 2;
  _ ← reg_is 0x0c VENDOR_ID;
  _ ← reg_is 0x10 (wrap 32 mmio_features);
  _ ← write_reg 0x14 1;
  _ ← reg_is 0x10 (wrap 32 (Z.shiftr mmio_features 32));
  _ ← write_reg 0x14 2;
  _ ← reg_is 0x10 0;
  _ ← write_reg 0x20 7;
  _ ← has driver_features 0;
  _ ← set_cfg (with_status DRIVER);
  _ ← write_reg 0x20 7;
  _ ← has driver_features 7;
  _ ← write_reg 0x24 1;
  has driver_features_select 1.

(** The registers of the selected queue. *)
Definition test_mmio_queue : test Dummy unit :=
  _ ← reg_is 0x34 256;
  _ ← queue0_is q_size 256;
  _ ← write_reg 0x38 32;
  _ ← queue0_is q_size 256;
  _ ← set_cfg (fun c => with_status (Z.lor (v_device_status c) FEATURES_OK) c);
  _ ← write_reg 0x38 32;
  _ ← queue0_is q_size 32;
  _ ← reg_is 0x44 0;
  _ ← write_reg 0x44 1;
  _ ← reg_is 0x44 1;
  _ ← has dm_last_queue_notify 0;
  _ ← write_reg 0x50 2;
  _ ← has dm_last_queue_notify 2;
  _ ← queue0_is q_desc_table 0;
  _ ← write_reg 0x80 16;
  _ ← queue0_is q_desc_table 16;
  _ ← write_reg 0x84 2;
  _ ← queue0_is q_desc_table (Z.shiftl 2 32 + 16);
  _ ← queue0_is q_avail_ring 0;
  _ ← write_reg 0x90 2;
  _ ← queue0_is q_avail_ring 2;
  _ ← write_reg 0x94 2;
  _ ← queue0_is q_avail_ring (Z.shiftl 2 32 + 2);
  _ ← queue0_is q_used_ring 0;
  _ ← write_reg 0xa0 4;
  _ ← queue0_is q_used_ring 4;
  _ ← write_reg 0xa4 2;
  _ ← queue0_is q_used_ring (Z.shiftl 2 32 + 4);
  _ ← write_reg 0x30 1;
  reg_is 0x34 0.

(** Interrupt, status and generation, and the configuration space. *)
Definition test_mmio_status : test Dummy unit :=
  let interrupt_status := 3 in
  _ ← set_cfg (with_interrupt_status interrupt_status);
  _ ← reg_is 0x60 interrupt_status;
  _ ← write_reg 0x64 interrupt_status;
  _ ← reg_is 0x60 interrupt_status;
  let negotiated := Z.lor (Z.lor ACKNOWLEDGE DRIVER) FEATURES_OK in
  _ ← set_cfg (with_status negotiated);
  let new_status := Z.lor negotiated DRIVER_OK in
  _ ← write_reg 0x70 new_status;
  _ ← write_reg 0x64 interrupt_status;
  _ ← reg_is 0x60 0;
  _ ← reg_is 0x70 new_status;
  _ ← reg_is 0xfc 0;
  _ ← set_cfg (cfg_generation 5);
  reg_is 0xfc 5.

Definition test_mmio_config : test Dummy unit :=
  let config_space := seqZ 0 8 in
  let buf := replicate 20 1 in
  _ ← has (fun d => mmio_read d 0x100 buf) (config_space ++ replicate 12 1);
  let delta := 6 in
  _ ← method_opt (mmio_write (0x100 + delta) buf);
  has (v_config_space ∘ borrow) (take 6 config_space ++ replicate 2 1).

Definition test_virtio_mmio_device : test Dummy unit :=
  _ ← test_mmio_features; _ ← test_mmio_queue; _ ← test_mmio_status; test_mmio_config.

Theorem test_virtio_mmio_device_passes :
  passes test_virtio_mmio_device (dummy 2 mmio_features (seqZ 0 8)) = true.
Proof. vm_compute. reflexivity. Qed.
