(* ===== verification/BlkTests.v ===== *)
(** * The tests of the block device

    The unit tests of virtio-blk/src/request.rs and
    virtio-blk/src/stdio_executor.rs.  The temporary file of the tests is a
    [DiskImage], guest memory a [FlatMem]. *)

From stdpp Require Import base numbers list option gmap.
From S2P Require Import Prelude Bytes GuestMemory FlatMemory Descriptor Chain Queue Mock.
From S2P Require Import BlkRequest BlkExecutor BlkProperties Testing.

(** ** Parsing *)

(** [PartialEq for Error] of the tests of request.rs. *)
Definition blk_req_error_eq (x y : BlkReqError) : bool :=
  match x, y with
  | DescriptorChainTooShort, DescriptorChainTooShort => true
  | DescriptorLengthTooSmall, DescriptorLengthTooSmall => true
  | BlkReqGuestMemory e, BlkReqGuestMemory other_e => bool_decide (e = other_e)
  | InvalidFlushSector, InvalidFlushSector => true
  | UnexpectedReadOnlyDescriptor, UnexpectedReadOnlyDescriptor => true
  | UnexpectedWriteOnlyDescriptor, UnexpectedWriteOnlyDescriptor => true
  | _, _ => false
  end.

(** [Request::new] of the tests. *)
Definition request_new (request_type : RequestType) (data : list (u64 * u32)) (sector status_addr : u64)
    : Request := mk_request request_type data sector status_addr.

Abbreviation Driver := (MockSplitQueue * FlatMem)%type.

(** [mem.write_obj(v, addr).unwrap()]. *)
Definition put_obj {T} `{ByteValued T} (v : T) (addr : u64) : test Driver unit := fun '(vq, m) =>
  match ref_store v addr m with Some m => Some ((vq, m), Ok tt) | None => None end.

(** [Request::parse(&mut chain)] of the chain the mock driver builds from [v]. *)
Definition parse_chain (v : list RawDescriptor) : test Driver (result BlkReqError Request) :=
  r ← try (build_desc_chain v);
  chain ← unwrap_ok r;
  m ← gets snd;
  '(_, r) ← unwrap (parse m chain);
  mret r.

Definition parse_fails (v : list RawDescriptor) (e : BlkReqError) : test Driver unit :=
  r ← parse_chain v;
  assert (match r with Err e' => blk_req_error_eq e' e | Ok _ => false end).

(** A readable and a writable descriptor. *)
Definition req_ro (addr : u64) (len : u32) : RawDescriptor := raw_of_split (descriptor_new addr len 0 0).
Definition req_wo (addr : u64) (len : u32) : RawDescriptor :=
  raw_of_split (descriptor_new addr len (wrap 16 VRING_DESC_F_WRITE) 0).

(** The descriptors or the header are wrong. *)
Definition test_parse_malformed : test Driver unit :=
  _ ← put_obj (mk_header VIRTIO_BLK_T_IN 0 2) 0x100000;
  _ ← parse_fails [req_wo 0x100000 0x100; req_wo 0x200000 0x100; req_wo 0x300000 0x100]
        UnexpectedWriteOnlyDescriptor;
  _ ← parse_fails [req_ro 0x100000 0x100; req_wo 0x200000 0x100; req_ro 0x300000 0x100]
        UnexpectedReadOnlyDescriptor;
  _ ← parse_fails [req_ro 0x100000 0x100; req_wo 0x200000 0x100; req_wo 0x300000 0x0]
        DescriptorLengthTooSmall;
  let v := [req_ro 0x100000 0x100; req_ro 0x200000 0x100; req_wo 0x300000 0x100] in
  _ ← put_obj (mk_header VIRTIO_BLK_T_FLUSH 0 1) 0x100000;
  _ ← parse_fails v InvalidFlushSector;
  _ ← put_obj (H := uint_bv 4) VIRTIO_BLK_T_IN 0x100000;
  parse_fails v UnexpectedReadOnlyDescriptor.

(** The status address is wrong; then valid requests. *)
Definition test_parse_valid : test Driver unit :=
  let v := [req_ro 0x100000 0x100; req_wo 0x200000 0x100; req_wo 0x300000 0x200; req_wo 0x11000000 0x100] in
  _ ← put_obj (mk_header VIRTIO_BLK_T_OUT 0 2) 0x100000;
  _ ← parse_fails v (BlkReqGuestMemory (InvalidGuestAddress 0x11000000));
  let v := [req_ro 0x100000 0x100; req_wo 0x200000 0x100; req_wo 0x300000 0x200; req_wo 0x400000 0x100] in
  _ ← put_obj (mk_header VIRTIO_BLK_T_OUT 0 2) 0x100000;
  r ← parse_chain v;
  request ← unwrap_ok r;
  _ ← assert_eq request (mk_request Out [(0x200000, 0x100); (0x300000, 0x200)] 2 0x400000);
  _ ← assert_eq (r_status_addr request) 0x400000;
  _ ← assert_eq (total_data_len request) (0x100 + 0x200);
  _ ← put_obj (mk_header 2 0 2) 0x100000;
  r ← parse_chain v;
  request ← unwrap_ok r;
  _ ← assert_eq (r_request_type request) (UnsupportedType 2);
  _ ← put_obj (mk_header VIRTIO_BLK_T_FLUSH 0 0) 0x100000;
  r ← parse_chain [req_ro 0x100000 0x100; req_wo 0x400000 0x100];
  assert (is_ok r).

Definition test_parse_request : test Driver unit :=
  _ ← test_parse_malformed; test_parse_valid.

Theorem test_parse_request_passes :
  passes test_parse_request (mock_new 16 (from_ranges [(0, 0x10000000)])) = true.
Proof. vm_compute. reflexivity. Qed.

(** ** Executing *)

(** [PartialEq for Error] of the tests of stdio_executor.rs. *)
Definition blk_error_eq (x y : BlkError) : bool :=
  match x, y with
  | BlkDiscardWriteZeroes e, BlkDiscardWriteZeroes other_e => e =? other_e
  | BlkFlush e, BlkFlush other_e => e =? other_e
  | BlkGuestMemory e, BlkGuestMemory other_e => bool_decide (e = other_e)
  | BlkInvalidAccess, BlkInvalidAccess => true
  | BlkInvalidDataLength, BlkInvalidDataLength => true
  | BlkInvalidFlags, BlkInvalidFlags => true
  | BlkOverflow, BlkOverflow => true
  | BlkRead e bytes, BlkRead other_e other_bytes =>
      bool_decide (e = other_e) && (bytes =? other_bytes)
  | BlkReadOnly, BlkReadOnly => true
  | BlkWrite e, BlkWrite other_e => bool_decide (e = other_e)
  | BlkSeek e, BlkSeek other_e => e =? other_e
  | BlkUnsupported val, BlkUnsupported other_val => val =? other_val
  | _, _ => false
  end.

Abbreviation Exec := (StdIoBackend DiskImage * FlatMem)%type.

(** A temporary file of [size] bytes, the executor on it and a guest memory. *)
Definition executor_on (f : DiskImage) (features : u64) : option Exec :=
  s ← to_option (std_io_backend_new f features);
  Some (s, from_ranges [(0, 0x10000000)]).

Definition empty_file (size : Z) : DiskImage := mk_image size 0 ∅.

Definition run_request (request : Request) : test Exec (result BlkError u32) := try (execute request).

Definition executes (request : Request) (n : u32) : test Exec unit :=
  r ← run_request request; v ← unwrap_ok r; assert_eq v n.

Definition execute_fails (request : Request) (e : BlkError) : test Exec unit :=
  r ← run_request request;
  assert (match r with Err e' => blk_error_eq e' e | Ok _ => false end).

(** [req_exec.features = features]. *)
Definition set_features (features : u64) : test Exec unit :=
  modify (fun '(s, m) => (mk_backend (bk_inner s) (bk_num_sectors s) features (bk_device_id s), m)).

(** [req_exec.inner().seek(SeekFrom::Start(pos))]. *)
Definition seek_inner (pos : u64) : test Exec unit := fun '(s, m) =>
  match be_seek_start (bk_inner s) pos with
  | (b, Ok _) => Some ((with_inner b s, m), Ok tt)
  | (_, Err _) => None
  end.

(** [inner().read(&mut v)] reads all of the [n] bytes, and they are [byte]. *)
Definition reads (n : nat) (byte : u8) : test Exec unit := fun '(s, m) =>
  let b := bk_inner s in
  match im_take b (Z.of_nat n) with
  | Some bs =>
      (_ ← assert_eq bs (replicate n byte);
       modify (fun '(s, m) => (with_inner (mk_image (im_size b) (im_pos b + Z.of_nat n) (im_bytes b)) s, m)))
        (s, m)
  | None => None
  end.

(** [inner().write(&v)] writes all of [bs] at the file offset. *)
Definition writes (bs : list u8) : test Exec unit := fun '(s, m) =>
  match im_store (bk_inner s) (im_pos (bk_inner s)) bs with
  | (b, Ok _) => Some ((with_inner b s, m), Ok tt)
  | (_, Err _) => None
  end.

(** [mem.write_slice(bs, addr).unwrap()], [mem.write_obj] and the read of a byte. *)
Definition put_slice (bs : list u8) (addr : u64) : test Exec unit := fun '(s, m) =>
  match gm_write m addr bs with (m, Ok _) => Some ((s, m), Ok tt) | (_, Err _) => None end.
Definition put_segment (seg : DiscardWriteZeroes) (addr : u64) : test Exec unit :=
  put_slice (bv_encode seg) addr.
Definition mem_has (bs : list u8) (addr : u64) : test Exec unit :=
  m ← gets snd; r ← unwrap_ok (gm_read m addr (length bs)); assert_eq r bs.

(** [for addr in from..to { assert_eq!(mem.read_obj::<u8>(addr), byte) }]. *)
Definition bytes_are (from to : Z) (byte : u8) : test Exec unit :=
  for_each (seqZ from (to - from)) (fun addr => mem_has [byte] addr).

Definition NON_ZERO_VALUE : u8 := 0x55.

(** The file of [test_execute_request], before the executor gets it. *)
Definition test_file : DiskImage :=
  let f := empty_file 0x1000 in
  let f := im_put f 0x100 (replicate 0x200 NON_ZERO_VALUE) in
  im_put f 0x400 (replicate 0x80 (NON_ZERO_VALUE + 1)).

(** The reads of [test_execute_request]: flush and read requests. *)
Definition test_execute_read : test Exec unit :=
  let flush_req := request_new Flush [(0x100, 0x400)] 0 0x600 in
  _ ← execute_fails flush_req BlkReadOnly;
  _ ← set_features 0;
  _ ← execute_fails flush_req (BlkUnsupported VIRTIO_BLK_T_FLUSH);
  _ ← set_features (Z.shiftl 1 VIRTIO_BLK_F_FLUSH);
  _ ← executes flush_req 0x00;
  _ ← executes (request_new In [(0x100, 0x400); (0x600, 0x200)] 0 0x900) 0x600;
  _ ← bytes_are 0x100 0x1ff 0x00;
  _ ← bytes_are 0x200 0x3ff NON_ZERO_VALUE;
  _ ← bytes_are 0x400 0x4ff 0x00;
  _ ← bytes_are 0x600 0x67f (NON_ZERO_VALUE + 1);
  bytes_are 0x680 0x7ff 0x00.

(** [inner_mut().write_zeroes_at(0x00, 0x1000)], and the new memory. *)
Definition clear_file : test Exec unit := fun '(s, _) =>
  match be_write_all_zeroes_at (M := FlatMem) (bk_inner s) 0 0x1000 with
  | (b, Ok _) => Some ((with_inner b s, from_ranges [(0, 0x10000000)]), Ok tt)
  | (_, Err _) => None
  end.

(** Its writes, and the requests that fail. *)
Definition test_execute_write : test Exec unit :=
  _ ← clear_file;
  _ ← put_slice (replicate 0x200 NON_ZERO_VALUE) 0x200;
  _ ← put_slice (replicate 0x100 NON_ZERO_VALUE) 0x880;
  _ ← executes (request_new Out [(0x100, 0x400); (0x800, 0x200)] 1 0x200) 0x00;
  _ ← seek_inner 0;
  _ ← reads 0x300 0x00;
  _ ← reads 0x200 NON_ZERO_VALUE;
  _ ← reads 0x100 0x00;
  _ ← reads 0x80 0x00;
  _ ← reads 0x100 NON_ZERO_VALUE;
  _ ← reads 0x80 0x00;
  r ← run_request (request_new Out [(0x100, 0x200)] 7 0x200);
  _ ← assert (is_ok r);
  _ ← execute_fails (request_new Out [(0x100, 0x400)] 7 0x200) BlkInvalidAccess;
  _ ← execute_fails (request_new Out [(0x100, 0x400); (0x500, 0x100)] 2 0x200) BlkInvalidDataLength;
  _ ← execute_fails (request_new In [(0x100, 0x201)] 2 0x200) BlkInvalidDataLength;
  _ ← executes (request_new In [(0x100, 0x500); (0x500, 0x300)] 2 0x200) 0x800;
  _ ← execute_fails (request_new Out [(0xFFFFFF0, 0x200)] 7 0x200) (BlkWrite (PartialBuffer 512 16));
  _ ← execute_fails (request_new In [(0xFFFFFF0, 0x200)] 7 0x200) (BlkRead (PartialBuffer 512 16) 16);
  execute_fails (request_new (UnsupportedType 8) [(0x100, 0x200)] 7 0x200) (BlkUnsupported 8).

Definition test_execute_request : test Exec unit :=
  _ ← test_execute_read; test_execute_write.

(** Its end, on a larger file. *)
Definition test_execute_too_long : test Exec unit :=
  execute_fails (request_new In [(0x100, (2 ^ 32 - 1) - SECTOR_SIZE + 1); (0x1000, SECTOR_SIZE)] 0 0x200)
    BlkInvalidDataLength.

Theorem test_execute_request_passes :
  passes test_execute_request (executor_on test_file (Z.shiftl 1 VIRTIO_BLK_F_RO)) = true.
Proof. vm_compute. reflexivity. Qed.

Theorem test_execute_too_long_passes :
  passes test_execute_too_long (executor_on (empty_file ((2 ^ 32 - 1) * 2)) 0) = true.
Proof. vm_compute. reflexivity. Qed.

(** ** Discard and write zeroes *)

(** The writes that fill the file of [test_discard_wr_zeroes_request]. *)
Definition fill_file : test Exec unit :=
  _ ← put_slice (replicate 0x200 NON_ZERO_VALUE) 0x200;
  _ ← put_slice (replicate 0x100 NON_ZERO_VALUE) 0x880;
  _ ← executes (request_new Out [(0x100, 0x400); (0x800, 0x200)] 1 0x200) 0x00;
  _ ← put_slice (replicate 0x600 (NON_ZERO_VALUE + 1)) 0x3100;
  r ← run_request (request_new Out [(0x3000, 0x800); (0x200, 0x200)] 3 0x200);
  assert (is_ok r).

Definition test_write_zeroes : test Exec unit :=
  _ ← put_segment (mk_dwz 2 2 0) 0x1000;
  _ ← put_segment (mk_dwz 5 1 0) 0x4000;
  _ ← executes (request_new WriteZeroes [(0x1000, DWZ_LEN); (0x4000, DWZ_LEN)] 2 0x2000) 0x00;
  _ ← seek_inner 0;
  _ ← reads 0x300 0x00;
  _ ← reads 0x100 NON_ZERO_VALUE;
  _ ← reads 0x400 0x00;
  _ ← reads 0x200 (NON_ZERO_VALUE + 1);
  _ ← reads 0x200 0x00;
  _ ← reads 0x100 (NON_ZERO_VALUE + 1);
  _ ← reads 0x100 0x00;
  reads 0x200 NON_ZERO_VALUE.

(** The discard request that succeeds, and the one of the later part. *)
Definition discard_one (addr : u64) (len : u32) : Request := request_new Discard [(addr, len)] 7 0x2000.

Definition test_discard : test Exec unit :=
  _ ← put_segment (mk_dwz 7 1 0) 0x1000;
  _ ← executes (discard_one 0x1000 DWZ_LEN) 0x00;
  _ ← seek_inner 0xE00;
  _ ← reads 0x200 0x00;
  n ← gets (fun '(s, _) => im_size (bk_inner s)); assert_eq n 0x1000.

Definition test_write_zeroes_unmap : test Exec unit :=
  _ ← put_segment (mk_dwz 4 1 0x0001) 0x1000;
  _ ← seek_inner 0x800;
  _ ← reads 0x200 (NON_ZERO_VALUE + 1);
  _ ← writes (replicate 0x200 (NON_ZERO_VALUE + 2));
  _ ← seek_inner 0x600;
  _ ← writes (replicate 0x200 (NON_ZERO_VALUE + 2));
  _ ← executes (request_new WriteZeroes [(0x1000, DWZ_LEN)] 7 0x2000) 0x00;
  _ ← seek_inner 0x600;
  _ ← reads 0x200 (NON_ZERO_VALUE + 2);
  _ ← reads 0x200 0;
  reads 0x200 (NON_ZERO_VALUE + 2).

Definition test_discard_invalid : test Exec unit :=
  _ ← set_features 0;
  _ ← execute_fails (discard_one 0x1000 DWZ_LEN) (BlkUnsupported VIRTIO_BLK_T_DISCARD);
  _ ← set_features (Z.lor (Z.shiftl 1 VIRTIO_BLK_F_DISCARD) (Z.shiftl 1 VIRTIO_BLK_F_WRITE_ZEROES));
  _ ← execute_fails (request_new Discard [(0x5000, DWZ_LEN / 2); (0x1000, DWZ_LEN / 2)] 7 0x2000)
        BlkInvalidDataLength;
  _ ← execute_fails (discard_one 0x1000 (DWZ_LEN - 1)) BlkInvalidDataLength;
  _ ← execute_fails (discard_one (2 ^ 64 - 1 - DWZ_LEN) (2 * DWZ_LEN)) BlkOverflow;
  _ ← put_segment (mk_dwz 7 2 0) 0x1000;
  _ ← execute_fails (discard_one 0x1000 DWZ_LEN) BlkInvalidAccess;
  _ ← put_segment (mk_dwz 3 2 0x0001) 0x1000;
  _ ← execute_fails (discard_one 0x1000 DWZ_LEN) BlkInvalidFlags;
  _ ← put_segment (mk_dwz 3 2 0xA000) 0x1000;
  _ ← execute_fails (request_new WriteZeroes [(0x1000, DWZ_LEN)] 7 0x2000) BlkInvalidFlags;
  execute_fails (request_new WriteZeroes [(0x11000000, DWZ_LEN)] 7 0x2000)
    (BlkGuestMemory (InvalidGuestAddress 0x11000000)).

Definition test_discard_wr_zeroes_request : test Exec unit :=
  _ ← fill_file;
  _ ← test_write_zeroes;
  _ ← test_discard;
  _ ← test_write_zeroes_unmap;
  test_discard_invalid.

Theorem test_discard_wr_zeroes_request_passes :
  passes test_discard_wr_zeroes_request
    (executor_on (empty_file 0x1000)
       (Z.lor (Z.shiftl 1 VIRTIO_BLK_F_DISCARD) (Z.shiftl 1 VIRTIO_BLK_F_WRITE_ZEROES))) = true.
Proof. vm_compute. reflexivity. Qed.

(** ** The device id and the status byte *)

Definition dev_id : list u8 := seqZ 0x01 0x14.

(** [req_exec = req_exec.with_device_id(dev_id)]. *)
Definition set_device_id : test Exec unit := modify (fun '(s, m) => (with_device_id dev_id s, m)).

Definition test_get_device_id : test Exec unit :=
  let get_id_req data := request_new GetDeviceID data 1 0x200 in
  _ ← execute_fails (get_id_req [(0x100, VIRTIO_BLK_ID_BYTES)]) (BlkUnsupported VIRTIO_BLK_T_GET_ID);
  _ ← set_device_id;
  _ ← execute_fails (get_id_req [(0x100, VIRTIO_BLK_ID_BYTES - 1)]) BlkInvalidDataLength;
  _ ← executes (get_id_req [(0x100, VIRTIO_BLK_ID_BYTES)]) VIRTIO_BLK_ID_BYTES;
  _ ← mem_has dev_id 0x100;
  _ ← put_slice (replicate 20 0) 0x100;
  _ ← executes (get_id_req [(0x100, 0x08); (0x200, 0x0C)]) VIRTIO_BLK_ID_BYTES;
  _ ← mem_has (take 8 dev_id) 0x100;
  mem_has (drop 8 dev_id) 0x200.

Theorem test_get_device_id_passes :
  passes test_get_device_id (executor_on (empty_file 0x1000) 0) = true.
Proof. vm_compute. reflexivity. Qed.

(** A processed request: the length it returns and the status it leaves at [addr]. *)
Definition processes (request : Request) (n : u32) (addr : u64) (status : u32) : test Exec unit :=
  r ← try (process_request request); v ← unwrap_ok r;
  _ ← assert_eq v n;
  mem_has [wrap 8 status] addr.

Definition test_process_request : test Exec unit :=
  let flush_req := request_new Flush [(0x100, 0x400)] 0 0x600 in
  _ ← processes flush_req 1 0x600 VIRTIO_BLK_S_UNSUPP;
  _ ← set_features (Z.shiftl 1 VIRTIO_BLK_F_FLUSH);
  _ ← processes flush_req 1 0x600 VIRTIO_BLK_S_OK;
  _ ← processes (request_new In [(0x100, 0x400); (0x600, 0x200)] 0 0x900) 0x601 0x900 VIRTIO_BLK_S_OK;
  r ← try (process_request (request_new In [(0x100, 0x400); (0x600, 0x200)] 0 0x10000001));
  _ ← assert (match r with
              | Err (ProcGuestMemory e) => bool_decide (e = InvalidGuestAddress 0x10000001)
              | _ => false
              end);
  _ ← set_features (Z.shiftl 1 VIRTIO_BLK_F_DISCARD);
  _ ← put_segment (mk_dwz 3 2 0x0001) 0x1000;
  _ ← processes (request_new Discard [(0x1000, DWZ_LEN)] 7 0x2000) 1 0x2000 VIRTIO_BLK_S_UNSUPP;
  _ ← processes (request_new Out [(0xFFFFFF0, 0x200)] 7 0x200) 1 0x200 VIRTIO_BLK_S_IOERR;
  _ ← processes (request_new In [(0xFFFFFF0, 0x200)] 7 0x200) (0x10000000 - 0xFFFFFF0 + 1)
        0x200 VIRTIO_BLK_S_IOERR;
  _ ← set_device_id;
  processes (request_new GetDeviceID [(0xFFFFFFA, VIRTIO_BLK_ID_BYTES)] 7 0x200)
    (0x10000000 - 0xFFFFFFA + 1) 0x200 VIRTIO_BLK_S_IOERR.

Theorem test_process_request_passes :
  passes test_process_request (executor_on (empty_file 0x1000) 0) = true.
Proof. vm_compute. reflexivity. Qed.
