(* ===== verification/VsockTests.v ===== *)
(** * The tests of the vsock packet

    The unit tests of virtio-vsock/src/packet.rs.  The state of a test is the
    mock driver and the guest memory; a packet is a value the test threads. *)

From stdpp Require Import base numbers list option gmap.
From S2P Require Import Prelude Bytes GuestMemory FlatMemory Descriptor Chain Queue Mock.
From S2P Require Import VsockPacket VsockProperties Testing.

(** [PartialEq for Error] of the tests; the errors of memory are compared as they print. *)
Definition vsock_error_eq (x y : VsockError) : bool :=
  match x, y with
  | VsockDescriptorChainTooShort, VsockDescriptorChainTooShort => true
  | VsockDescriptorLengthTooSmall, VsockDescriptorLengthTooSmall => true
  | VsockDescriptorLengthTooLong, VsockDescriptorLengthTooLong => true
  | VsockInvalidHeaderInputSize size, VsockInvalidHeaderInputSize other_size => size =? other_size
  | VsockInvalidHeaderLen size, VsockInvalidHeaderLen other_size => size =? other_size
  | VsockInvalidMemoryAccess e, VsockInvalidMemoryAccess other_e => bool_decide (e = other_e)
  | VsockInvalidVolatileAccess e, VsockInvalidVolatileAccess other_e => e =? other_e
  | VsockUnexpectedReadOnlyDescriptor, VsockUnexpectedReadOnlyDescriptor => true
  | VsockUnexpectedWriteOnlyDescriptor, VsockUnexpectedWriteOnlyDescriptor => true
  | _, _ => false
  end.

Definition SRC_CID : u64 := 1.
Definition DST_CID : u64 := 2.
Definition SRC_PORT : u32 := 3.
Definition DST_PORT : u32 := 4.
Definition LEN : u32 := 16.
Definition TYPE : u16 := 5.
Definition OP : u16 := 6.
Definition FLAGS : u32 := 7.
Definition FLAG : u32 := 8.
Definition BUF_ALLOC : u32 := 256.
Definition FWD_CNT : u32 := 9.
Definition MAX_PKT_BUF_SIZE : u32 := 64 * 1024.

(** What the memory answers for a slice that leaves its region,
    [GuestMemoryError::InvalidBackendAddress]. *)
Definition InvalidBackendAddress : GuestMemoryError := OtherMemoryError 0.

Abbreviation Guest := (MockSplitQueue * FlatMem)%type.

(** A new memory and a mock driver in it. *)
Definition use_memory (size : Z) : test Guest unit := fun _ =>
  match mock_new 16 (from_ranges [(0, size)]) with
  | Some s => Some (s, Ok tt)
  | None => None
  end.

(** A descriptor of a test; [build_desc_chain] adds the links. *)
Definition ro (addr : u64) (len : u32) : RawDescriptor := raw_of_split (descriptor_new addr len 0 0).
Definition wo (addr : u64) (len : u32) : RawDescriptor :=
  raw_of_split (descriptor_new addr len (wrap 16 VRING_DESC_F_WRITE) 0).

Definition build (v : list RawDescriptor) : test Guest DescriptorChain :=
  r ← try (build_desc_chain v); unwrap_ok r.

(** [VsockPacket::from_rx_virtq_chain(&mem, &mut chain, MAX_PKT_BUF_SIZE)], and the transmit side. *)
Definition from_chain (rx : bool) (c : DescriptorChain)
    : test Guest (DescriptorChain * result VsockError VsockPacket) :=
  m ← gets snd;
  mret (if rx then from_rx_virtq_chain m m c MAX_PKT_BUF_SIZE
        else from_tx_virtq_chain m m c MAX_PKT_BUF_SIZE).

(** The assertion on the error of a chain. *)
Definition fails_with (rx : bool) (v : list RawDescriptor) (e : VsockError) : test Guest unit :=
  c ← build v;
  '(_, r) ← from_chain rx c;
  assert (match r with Err e' => vsock_error_eq e' e | Ok _ => false end).

(** The assertions on a packet: its header (with [len]), the address of its header slice and its data slice. *)
Definition packet_is (p : VsockPacket) (h : PacketHeader) (at_ : u64) (data : option (u64 * usize))
    : test Guest unit :=
  _ ← assert_eq (header p) h;
  _ ← assert_eq (vs_addr (header_slice p)) at_;
  _ ← assert_eq (vs_len (header_slice p)) PKT_HEADER_SIZE;
  assert_eq ((fun vs => (vs_addr vs, vs_len vs)) <$> data_slice p) data.

(** A chain that holds a packet, and what is left of the chain. *)
Definition parses (rx : bool) (v : list RawDescriptor) (h : PacketHeader) (at_ : u64)
    (data : option (u64 * usize)) : test Guest DescriptorChain :=
  c ← build v;
  '(c, r) ← from_chain rx c;
  p ← unwrap_ok r;
  _ ← packet_is p h at_ data;
  mret c.

(** Chains that are not packets. *)
Definition test_from_rx_malformed : test Guest unit :=
  _ ← fails_with true [ro 0x100000 0x100; wo 0x200000 0x100] VsockUnexpectedReadOnlyDescriptor;
  _ ← fails_with true [wo 0x100000 (PKT_HEADER_SIZE - 1); wo 0x200000 0x100]
        VsockDescriptorLengthTooSmall;
  _ ← fails_with true [wo 0x100000 PKT_HEADER_SIZE; wo 0x200000 (MAX_PKT_BUF_SIZE + 1)]
        VsockDescriptorLengthTooLong;
  _ ← fails_with true [wo 0x100000 PKT_HEADER_SIZE] VsockDescriptorChainTooShort;
  fails_with true [ro 0x100000 0x100; wo 0x200000 0x100] VsockUnexpectedReadOnlyDescriptor.

(** Chains that leave a smaller memory. *)
Definition test_from_rx_out_of_bounds : test Guest unit :=
  _ ← use_memory 0x100004;
  _ ← fails_with true [wo 0x100000 0x100; wo 0x200000 0x100]
        (VsockInvalidMemoryAccess InvalidBackendAddress);
  _ ← fails_with true [wo 0x200000 0x100; wo 0x300000 0x100]
        (VsockInvalidMemoryAccess (InvalidGuestAddress 0x200000));
  _ ← fails_with true [wo 0x50000 0x100; ro 0x80000 0x100] VsockUnexpectedReadOnlyDescriptor;
  _ ← fails_with true [wo 0x50000 0x100; wo 0x100000 0x100]
        (VsockInvalidMemoryAccess InvalidBackendAddress);
  fails_with true [wo 0x50000 0x100; wo 0x200000 0x100]
    (VsockInvalidMemoryAccess (InvalidGuestAddress 0x200000)).

(** Packets in two descriptors and in one. *)
Definition test_from_rx_valid : test Guest unit :=
  c ← parses true [wo 0x50000 0x100; wo 0x80000 0x100] packet_header_default 0x50000
        (Some (0x80000, 0x100));
  '(_, r) ← from_chain true c;
  _ ← assert (match r with Err e => vsock_error_eq e VsockDescriptorChainTooShort | _ => false end);
  _ ← parses true [wo 0x50000 (PKT_HEADER_SIZE + 0x100)] packet_header_default 0x50000
        (Some (0x50000 + PKT_HEADER_SIZE, 0x100));
  mret tt.

Definition test_from_rx_virtq_chain : test Guest unit :=
  _ ← test_from_rx_malformed; _ ← test_from_rx_out_of_bounds; test_from_rx_valid.

(** [mem.write_obj(header, addr).unwrap()]. *)
Definition write_header (h : PacketHeader) (addr : u64) : test Guest unit := fun '(vq, m) =>
  match ref_store h addr m with Some m => Some ((vq, m), Ok tt) | None => None end.

(** A header of the transmit test. *)
Definition sent_header (len : u32) : PacketHeader :=
  mk_packet_header SRC_CID DST_CID SRC_PORT DST_PORT len 0 0 0 0 0.

(** Headers that are not acceptable, and a packet without data. *)
Definition test_from_tx_header : test Guest unit :=
  _ ← fails_with false [wo 0x100000 0x100; ro 0x200000 0x100] VsockUnexpectedWriteOnlyDescriptor;
  _ ← fails_with false [ro 0x100000 (PKT_HEADER_SIZE - 1); ro 0x200000 0x100]
        VsockDescriptorLengthTooSmall;
  _ ← write_header (sent_header 0) 0x100000;
  _ ← parses false [ro 0x100000 PKT_HEADER_SIZE] (sent_header 0) 0x100000 None;
  mret tt.

(** Packets that leave a smaller memory or whose data does not fit the header. *)
Definition test_from_tx_data : test Guest unit :=
  _ ← use_memory 0x100004;
  _ ← fails_with false [ro 0x100000 0x100; ro 0x200000 0x100]
        (VsockInvalidMemoryAccess InvalidBackendAddress);
  _ ← fails_with false [ro 0x200000 0x100; ro 0x300000 0x100]
        (VsockInvalidMemoryAccess (InvalidGuestAddress 0x200000));
  _ ← write_header (sent_header (MAX_PKT_BUF_SIZE + 1)) 0x50000;
  _ ← fails_with false [ro 0x50000 0x100; ro 0x80000 0x100]
        (VsockInvalidHeaderLen (MAX_PKT_BUF_SIZE + 1));
  _ ← write_header (sent_header LEN) 0x50000;
  _ ← fails_with false [ro 0x50000 PKT_HEADER_SIZE] VsockDescriptorChainTooShort;
  _ ← fails_with false [ro 0x50000 0x100; ro 0x100000 0x100]
        (VsockInvalidMemoryAccess InvalidBackendAddress);
  _ ← fails_with false [ro 0x50000 0x100; ro 0x200000 0x100]
        (VsockInvalidMemoryAccess (InvalidGuestAddress 0x200000));
  _ ← fails_with false [ro 0x50000 0x100; wo 0x80000 0x100] VsockUnexpectedWriteOnlyDescriptor;
  fails_with false [ro 0x50000 0x100; ro 0x80000 (LEN - 1)] VsockDescriptorLengthTooSmall.

Definition test_from_tx_valid : test Guest unit :=
  c ← parses false [ro 0x50000 0x100; ro 0x80000 0x100] (sent_header LEN) 0x50000
        (Some (0x80000, LEN));
  '(_, r) ← from_chain false c;
  _ ← assert (match r with Err e => vsock_error_eq e VsockDescriptorChainTooShort | _ => false end);
  _ ← parses false [ro 0x50000 (PKT_HEADER_SIZE + 0x100)] (sent_header LEN) 0x50000
        (Some (0x50000 + PKT_HEADER_SIZE, LEN));
  mret tt.

Definition test_from_tx_virtq_chain : test Guest unit :=
  _ ← test_from_tx_header; _ ← test_from_tx_data; test_from_tx_valid.

(** ** The header *)

(** The packet the tests below start from. *)
Definition received_packet : test Guest VsockPacket :=
  c ← build [wo 0x100000 0x100; wo 0x200000 0x100];
  '(_, r) ← from_chain true c;
  unwrap_ok r.

(** A method of the packet: the packet after it, and its result. *)
Definition on_packet {A} (p : VsockPacket) (c : RM (VsockPacket * FlatMem) VsockError A)
    : test Guest (VsockPacket * result VsockError A) := fun '(vq, m) =>
  match c (p, m) with
  | Some ((p, m), r) => Some ((vq, m), Ok (p, r))
  | None => None
  end.

Definition expected_header : PacketHeader :=
  mk_packet_header SRC_CID DST_CID SRC_PORT DST_PORT LEN TYPE OP (Z.lor FLAGS FLAG) BUF_ALLOC FWD_CNT.

(** [packet.header_slice().read_obj(offset).unwrap()] of [n] bytes. *)
Definition slice_has (p : VsockPacket) (n : nat) (offset : usize) (v : Z) : test Guest unit :=
  m ← gets snd;
  bs ← unwrap_ok (vs_read m (header_slice p) offset n);
  assert_eq (le_value bs) v.

Definition test_header_set_get : test Guest unit :=
  packet ← received_packet;
  '(packet, _) ← on_packet packet (
    _ ← set_src_cid SRC_CID;
    _ ← set_dst_cid DST_CID;
    _ ← set_src_port SRC_PORT;
    _ ← set_dst_port DST_PORT;
    _ ← set_len LEN;
    _ ← set_type TYPE;
    _ ← set_op OP;
    _ ← set_flags FLAGS;
    _ ← set_flag FLAG;
    _ ← set_buf_alloc BUF_ALLOC;
    set_fwd_cnt FWD_CNT);
  _ ← assert_eq (flags packet) (Z.lor FLAGS FLAG);
  _ ← assert_eq (op packet) OP;
  _ ← assert_eq (type_ packet) TYPE;
  _ ← assert_eq (dst_cid packet) DST_CID;
  _ ← assert_eq (dst_port packet) DST_PORT;
  _ ← assert_eq (src_cid packet) SRC_CID;
  _ ← assert_eq (src_port packet) SRC_PORT;
  _ ← assert_eq (fwd_cnt packet) FWD_CNT;
  _ ← assert_eq (len packet) LEN;
  _ ← assert_eq (buf_alloc packet) BUF_ALLOC;
  _ ← assert_eq (header packet) expected_header;
  _ ← slice_has packet 8 SRC_CID_OFFSET SRC_CID;
  _ ← slice_has packet 8 DST_CID_OFFSET DST_CID;
  _ ← slice_has packet 4 SRC_PORT_OFFSET SRC_PORT;
  _ ← slice_has packet 4 DST_PORT_OFFSET DST_PORT;
  _ ← slice_has packet 4 LEN_OFFSET LEN;
  _ ← slice_has packet 2 TYPE_OFFSET TYPE;
  _ ← slice_has packet 2 OP_OFFSET OP;
  _ ← slice_has packet 4 FLAGS_OFFSET (Z.lor FLAGS FLAG);
  _ ← slice_has packet 4 BUF_ALLOC_OFFSET BUF_ALLOC;
  slice_has packet 4 FWD_CNT_OFFSET FWD_CNT.

Definition test_set_header_from_raw : test Guest unit :=
  packet ← received_packet;
  _ ← assert_eq (header packet) packet_header_default;
  '(packet, r) ← on_packet packet (set_header_from_raw (bv_encode expected_header));
  _ ← unwrap_ok r;
  _ ← assert_eq (header packet) expected_header;
  m ← gets snd;
  bs ← unwrap_ok (vs_read m (header_slice packet) 0 (bv_size PacketHeader));
  _ ← assert_eq (bv_decode bs) expected_header;
  let invalid_slice := replicate (Z.to_nat (PKT_HEADER_SIZE - 1)) 0 in
  '(_, r) ← on_packet packet (set_header_from_raw invalid_slice);
  assert (match r with
          | Err e => vsock_error_eq e (VsockInvalidHeaderInputSize (PKT_HEADER_SIZE - 1))
          | Ok _ => false
          end).

(** The test's buffer of a header and [LEN] bytes lies at [raw]. *)
Definition test_packet_new (raw : u64) : test Guest unit :=
  let hdr_raw := {| vs_addr := raw; vs_len := PKT_HEADER_SIZE |} in
  let data_raw := {| vs_addr := raw + PKT_HEADER_SIZE; vs_len := LEN |} in
  packet ← unwrap_ok (vsock_packet_new hdr_raw (Some data_raw));
  _ ← packet_is packet packet_header_default raw (Some (raw + PKT_HEADER_SIZE, LEN));
  packet ← unwrap_ok (vsock_packet_new hdr_raw None);
  _ ← packet_is packet packet_header_default raw None;
  assert (match vsock_packet_new {| vs_addr := raw; vs_len := PKT_HEADER_SIZE - 1 |} None with
          | Err e => vsock_error_eq e (VsockInvalidHeaderInputSize (PKT_HEADER_SIZE - 1))
          | Ok _ => false
          end).

(** A [#[should_panic]] test: it gets to its last call, which panics. *)
Definition test_set_header_field_with_invalid_offset : test Guest bool :=
  packet ← received_packet;
  m ← gets snd;
  mret (match set_header_field FSrcCid 50 SRC_CID (packet, m) with None => true | Some _ => false end).

(** ** The tests pass *)

Theorem test_from_rx_virtq_chain_passes :
  passes test_from_rx_virtq_chain (mock_new 16 (from_ranges [(0, 0x10000000)])) = true.
Proof. vm_compute. reflexivity. Qed.

Theorem test_from_tx_virtq_chain_passes :
  passes test_from_tx_virtq_chain (mock_new 16 (from_ranges [(0, 0x10000000)])) = true.
Proof. vm_compute. reflexivity. Qed.

Theorem vsock_header_tests_pass :
  Forall (fun t => passes t (mock_new 16 (from_ranges [(0, 0x300000)])) = true)
    [test_header_set_get; test_set_header_from_raw; test_packet_new 0x1000;
     b ← test_set_header_field_with_invalid_offset; assert b].
Proof. repeat constructor; vm_compute; reflexivity. Qed.
