(* ===== verification/ConsoleTests.v ===== *)
(** * The tests of the console

    The unit tests of virtio-console/src/console.rs.  The output of the tests
    is a [Vec], the sink [VecSink]. *)

From stdpp Require Import base numbers list option gmap.
From S2P Require Import Prelude Bytes GuestMemory FlatMemory Descriptor Chain Queue Mock.
From S2P Require Import Console Testing.

(** [PartialEq for Error] of the tests. *)
Definition console_error_eq (x y : ConsoleError) : bool :=
  match x, y with
  | WriteToGuestFailed e, WriteToGuestFailed other_e => bool_decide (e = other_e)
  | WriteToOutputFailed e, WriteToOutputFailed other_e => bool_decide (e = other_e)
  | ChainLengthOverflow, ChainLengthOverflow => true
  | BufferCapacityExceeded, BufferCapacityExceeded => true
  | ConsoleUnexpectedReadOnlyDescriptor, ConsoleUnexpectedReadOnlyDescriptor => true
  | ConsoleUnexpectedWriteOnlyDescriptor, ConsoleUnexpectedWriteOnlyDescriptor => true
  | InvalidBufferCapacity, InvalidBufferCapacity => true
  | _, _ => false
  end.

Definition INPUT_VALUE : u8 := 42.
Definition INPUT_SIZE : u32 := 256.
Definition input (value : u8) (n : Z) : list u8 := replicate (Z.to_nat n) value.

(** The console, the mock driver and guest memory. *)
Record Terminal : Type := mk_terminal {
  t_console : Console VecSink;
  t_mock : MockSplitQueue;
  t_mem : FlatMem;
}.

Definition set_console (con : Console VecSink) (t : Terminal) : Terminal :=
  mk_terminal con (t_mock t) (t_mem t).

(** A console with an empty output and a guest of 64 KiB. *)
Definition terminal : option Terminal :=
  con ← to_option (new_with_capacity DEFAULT_CAPACITY (mk_vec []));
  '(vq, m) ← mock_new 16 (from_ranges [(0, 0x10000)]);
  Some (mk_terminal con vq m).

(** [MockSplitQueue::new(&mem, 16)] once more, in the same memory. *)
Definition new_mock : test Terminal unit := fun t =>
  match mock_new 16 (t_mem t) with
  | Some (vq, m) => Some (mk_terminal (t_console t) vq m, Ok tt)
  | None => None
  end.

(** [console.enqueue_data(&mut data)]. *)
Definition enqueue (data : list u8) : test Terminal (result ConsoleError unit) := fun t =>
  match enqueue_data (t_console t, data) with
  | Some ((con, _), r) => Some (set_console con t, Ok r)
  | None => None
  end.
Definition enqueue_ok (data : list u8) : test Terminal unit := r ← enqueue data; unwrap_ok r.

Definition error_is {A} (r : result ConsoleError A) (e : ConsoleError) : test Terminal unit :=
  assert (match r with Err e' => console_error_eq e' e | Ok _ => false end).

(** [queue.build_desc_chain(&v).unwrap()], handed to a method of the console. *)
Definition on_chain {A} (v : list RawDescriptor)
    (op : RM (Console VecSink * DescriptorChain * FlatMem) ConsoleError A)
    : test Terminal (result ConsoleError A) := fun t =>
  match build_desc_chain v (t_mock t, t_mem t) with
  | Some ((vq, m), Ok c) =>
      match op (t_console t, c, m) with
      | Some ((con, _, m), r) => Some (mk_terminal con vq m, Ok r)
      | None => None
      end
  | _ => None
  end.

Definition readable_at (addr : u64) (len : u32) : RawDescriptor :=
  raw_of_split (descriptor_new addr len 0 0).
Definition writable_at (addr : u64) (len : u32) : RawDescriptor :=
  raw_of_split (descriptor_new addr len (wrap 16 VRING_DESC_F_WRITE) 0).

(** [mem.write_slice] and the assertion on [mem.read_slice]. *)
Definition write_mem (bs : list u8) (addr : u64) : test Terminal unit := fun t =>
  match gm_write (t_mem t) addr bs with
  | (m, Ok _) => Some (mk_terminal (t_console t) (t_mock t) m, Ok tt)
  | (_, Err _) => None
  end.
Definition memory_is (bs : list u8) (addr : u64) : test Terminal unit :=
  m ← gets t_mem; r ← unwrap_ok (gm_read m addr (length bs)); assert_eq r bs.

Definition test_default_console : test Terminal unit :=
  console1 ← unwrap (console_new (mk_vec []));
  assert_eq (capacity console1) DEFAULT_CAPACITY.

Definition test_input_buffer_operations : test Terminal unit :=
  let out := mk_vec (input 0 DEFAULT_CAPACITY) in
  _ ← error_is (new_with_capacity 0 out) InvalidBufferCapacity;
  _ ← error_is (new_with_capacity (MAX_CAPACITY + 1) out) InvalidBufferCapacity;
  con ← unwrap_ok (new_with_capacity DEFAULT_CAPACITY out);
  _ ← modify (set_console con);
  _ ← enqueue_ok (input INPUT_VALUE DEFAULT_CAPACITY);
  r ← enqueue (input INPUT_VALUE 1);
  _ ← error_is r BufferCapacityExceeded;
  _ ← modify (fun t => set_console (clear_input_buffer (t_console t)) t);
  con ← gets t_console; assert (is_input_buffer_empty con).

Definition test_process_transmitq_chain : test Terminal unit :=
  r ← on_chain [readable_at 0x1000 INPUT_SIZE; writable_at 0x2000 INPUT_SIZE] process_transmitq_chain;
  _ ← error_is r ConsoleUnexpectedWriteOnlyDescriptor;
  r ← on_chain [readable_at 0x10000 INPUT_SIZE; readable_at 0x20000 INPUT_SIZE] process_transmitq_chain;
  _ ← error_is r (WriteToOutputFailed (InvalidGuestAddress 0x10000));
  _ ← write_mem (input INPUT_VALUE INPUT_SIZE) 0x3000;
  _ ← write_mem (input (INPUT_VALUE * 2) INPUT_SIZE) 0x4000;
  _ ← modify (fun t => set_console (with_output (mk_vec []) (t_console t)) t);
  r ← on_chain [readable_at 0x3000 INPUT_SIZE; readable_at 0x4000 INPUT_SIZE] process_transmitq_chain;
  _ ← unwrap_ok r;
  con ← gets t_console;
  let out := vec_bytes (output con) in
  _ ← assert_eq (take (Z.to_nat INPUT_SIZE) out) (input INPUT_VALUE INPUT_SIZE);
  assert_eq (drop (Z.to_nat INPUT_SIZE) out) (input (INPUT_VALUE * 2) INPUT_SIZE).

(** [console.process_receiveq_chain(&mut chain).unwrap()] and its result. *)
Definition receives (v : list RawDescriptor) (n : u32) : test Terminal unit :=
  r ← on_chain v process_receiveq_chain; k ← unwrap_ok r; assert_eq k n.

Definition clear_input : test Terminal unit :=
  modify (fun t => set_console (clear_input_buffer (t_console t)) t).

Definition test_process_receiveq_chain : test Terminal unit :=
  _ ← enqueue_ok (input INPUT_VALUE INPUT_SIZE);
  r ← on_chain [writable_at 0x1000 0x10; readable_at 0x2000 INPUT_SIZE] process_receiveq_chain;
  _ ← error_is r ConsoleUnexpectedReadOnlyDescriptor;
  _ ← new_mock;
  r ← on_chain [writable_at 0x10000 INPUT_SIZE; writable_at 0x20000 INPUT_SIZE] process_receiveq_chain;
  _ ← error_is r (WriteToGuestFailed (InvalidGuestAddress 0x10000));
  _ ← clear_input;
  _ ← enqueue_ok (input INPUT_VALUE INPUT_SIZE);
  _ ← enqueue_ok (input (INPUT_VALUE * 2) INPUT_SIZE);
  _ ← new_mock;
  _ ← receives [writable_at 0x3000 INPUT_SIZE; writable_at 0x4000 INPUT_SIZE] (2 * INPUT_SIZE);
  _ ← memory_is (input INPUT_VALUE INPUT_SIZE) 0x3000;
  _ ← memory_is (input (INPUT_VALUE * 2) INPUT_SIZE) 0x4000;
  _ ← clear_input;
  _ ← enqueue_ok (input INPUT_VALUE (2 * INPUT_SIZE));
  _ ← new_mock;
  _ ← receives [writable_at 0x5000 INPUT_SIZE] INPUT_SIZE;
  _ ← memory_is (input INPUT_VALUE INPUT_SIZE) 0x5000;
  con ← gets t_console; _ ← assert (negb (is_input_buffer_empty con));
  _ ← receives [writable_at 0x6000 INPUT_SIZE] INPUT_SIZE;
  _ ← memory_is (input INPUT_VALUE INPUT_SIZE) 0x6000;
  con ← gets t_console; _ ← assert (is_input_buffer_empty con);
  receives [writable_at 0x7000 INPUT_SIZE] 0.

Theorem console_tests_pass :
  Forall (fun t => passes t terminal = true)
    [test_default_console; test_input_buffer_operations; test_process_transmitq_chain;
     test_process_receiveq_chain].
Proof. repeat constructor; vm_compute; reflexivity. Qed.
