(* ===== verification/CorpusTests.v ===== *)
(** * The corpus of the fuzz targets

    The tests of fuzz/common/src that build the first inputs of the fuzz
    targets: they make the calls they record.  The file the inputs are written
    to, and its format, are bincode's. *)

From stdpp Require Import base numbers list option gmap.
From S2P Require Import Prelude Bytes GuestMemory FlatMemory Descriptor Chain Queue QueueState.
From S2P Require Import QueueApi Mock BlkRequest BlkExecutor BlkProperties VsockPacket.
From S2P Require Import VsockProperties FuzzTargets Testing VsockTests.

(** ** virtio_queue.rs *)

(** The descriptors of [create_basic_virtio_queue_ops]. *)
Definition corpus_descriptors : list FuzzingDescriptor :=
  let desc_len := 0x1000 in
  (fun i => mk_fuzzing_descriptor (desc_len * (i + 1)) desc_len
     (wrap 16 (if bool_decide (i ∈ [1; 6]) then 0
               else if bool_decide (i ∈ [2; 5]) then Z.lor VRING_DESC_F_NEXT VRING_DESC_F_WRITE
               else if i =? 4 then VRING_DESC_F_WRITE
               else VRING_DESC_F_NEXT)) (i + 1)) <$> seqZ 0 7.

(** [create_basic_virtio_queue_ops]: the calls are made on the queue of the world and pushed to
    [functions] in their order. *)
Definition create_basic_virtio_queue_ops : test World VirtioQueueInput :=
  let desc_len := 0x1000 in
  let descriptors := corpus_descriptors in
  _ ← drv (build_multiple_desc_chains (fuzzing_descriptor_into <$> descriptors));
  vq ← gets w_mock;
  q ← unwrap_ok (create_queue vq);
  _ ← set_queue (fun _ => q);
  _ ← set_queue (set_ready true);
  let functions := [FSetReady true] in
  _ ← dev disable_notification;
  let functions := functions ++ [FDisableNotification] in
  _ ← set_queue (queue_set_size 15);
  let functions := functions ++ [FSetSize 15] in
  s ← the q_size; _ ← assert_eq s DEFAULT_QUEUE_SIZE;
  let functions := functions ++ [FSize] in
  _ ← dev (add_used 0 (desc_len * 2));
  let functions := functions ++ [FAddUsed 0 (desc_len * 2)] in
  _ ← dev enable_notification;
  let functions := functions ++ [FEnableNotification] in
  _ ← dev (add_used 2 (desc_len * 3));
  let functions := functions ++ [FAddUsed 2 (desc_len * 3)] in
  o ← dev pop_descriptor_chain; _ ← unwrap o;
  let functions := functions ++ [FPopDescriptorChain] in
  mret (mk_virtio_queue_input descriptors functions).

(** The input that is written. *)
Definition basic_virtio_queue : option VirtioQueueInput :=
  w ← fresh test_mem DEFAULT_QUEUE_SIZE;
  '(_, r) ← create_basic_virtio_queue_ops w;
  to_option r.

(** ** virtio_queue_ser.rs *)

Definition basic_virtio_queue_ser : option QueueStateInput :=
  virtq_fuzz_input ← basic_virtio_queue;
  q ← to_option (queue_new DEFAULT_QUEUE_SIZE);
  Some (mk_queue_state_input (vi_descriptors virtq_fuzz_input)
          (queue_state_into_fuzzing (queue_state q)) (vi_functions virtq_fuzz_input)).

(** ** vsock.rs *)

Definition CORPUS_DESC_LEN : u32 := 0x100.
Definition HEADER_WRITE_ADDR : u64 := 0x100.
Definition DATA_WRITE_ADDR : u64 := 0x1000.

(** A setter of the packet, and the getter that is recorded after it. *)
Definition set_and_get {A} `{EqDecision A} (set : VsockFunction) (get : VsockPacket -> A) (v : A)
    (p : VsockPacket) : test Guest VsockPacket :=
  '(p, r) ← on_packet p (vsock_call set);
  _ ← unwrap_ok r;
  _ ← assert_eq (get p) v;
  mret p.

(** The functions the helper below pushes. *)
Definition basic_vsock_functions : list VsockFunction :=
  [VHeaderSlice; VDataSlice; VSetSrcCid SRC_CID; VSrcCid; VSetDstCid DST_CID; VDstCid;
   VSetSrcPort SRC_PORT; VSrcPort; VSetDstPort DST_PORT; VDstPort; VSetLen LEN; VLen;
   VSetType TYPE; VType_; VSetOp OP; VOp; VSetFlags FLAGS; VFlags; VSetFlag FLAG;
   VSetBufAlloc BUF_ALLOC; VBufAlloc; VSetFwdCnt FWD_CNT; VFwdCnt].

Definition create_basic_vsock_packet_ops (packet : VsockPacket) (functions : list VsockFunction)
    : test Guest (list VsockFunction) :=
  _ ← assert_eq (vs_addr (header_slice packet)) HEADER_WRITE_ADDR;
  data_slice ← unwrap (data_slice packet);
  _ ← assert_eq (vs_addr data_slice) DATA_WRITE_ADDR;
  packet ← set_and_get (VSetSrcCid SRC_CID) src_cid SRC_CID packet;
  packet ← set_and_get (VSetDstCid DST_CID) src_cid SRC_CID packet;
  packet ← set_and_get (VSetSrcPort SRC_PORT) src_port SRC_PORT packet;
  packet ← set_and_get (VSetDstPort DST_PORT) dst_port DST_PORT packet;
  packet ← set_and_get (VSetLen LEN) len LEN packet;
  packet ← set_and_get (VSetType TYPE) type_ TYPE packet;
  packet ← set_and_get (VSetOp OP) op OP packet;
  packet ← set_and_get (VSetFlags FLAGS) flags FLAGS packet;
  packet ← set_and_get (VSetFlag FLAG) (fun _ => tt) tt packet;
  packet ← set_and_get (VSetBufAlloc BUF_ALLOC) buf_alloc BUF_ALLOC packet;
  _ ← set_and_get (VSetFwdCnt FWD_CNT) fwd_cnt FWD_CNT packet;
  mret (functions ++ basic_vsock_functions).

(** The packet of a chain of two descriptors, for a receive or a transmit chain. *)
Definition corpus_packet (rx : bool) (descriptors : list FuzzingDescriptor) : test Guest VsockPacket :=
  r ← try (build_multiple_desc_chains (fuzzing_descriptor_into <$> descriptors));
  chain ← unwrap_ok r;
  '(_, r) ← from_chain rx chain;
  unwrap_ok r.

Definition write_tx_vsock_packet_ops : test Guest VsockInput :=
  let header := mk_packet_header SRC_CID DST_CID SRC_PORT DST_PORT LEN TYPE OP FLAGS BUF_ALLOC FWD_CNT in
  let header_bytes := bv_encode header in
  _ ← write_header header HEADER_WRITE_ADDR;
  let functions := [V_WriteToMem HEADER_WRITE_ADDR header_bytes] in
  let descriptors := [
    mk_fuzzing_descriptor HEADER_WRITE_ADDR CORPUS_DESC_LEN (wrap 16 VRING_DESC_F_NEXT) 1;
    mk_fuzzing_descriptor DATA_WRITE_ADDR CORPUS_DESC_LEN 0 0] in
  packet ← corpus_packet false descriptors;
  functions ← create_basic_vsock_packet_ops packet functions;
  mret (mk_vsock_input MAX_PKT_BUF_SIZE FromTX descriptors functions).

Definition write_rx_vsock_packet_ops : test Guest VsockInput :=
  let descriptors := [
    mk_fuzzing_descriptor HEADER_WRITE_ADDR CORPUS_DESC_LEN
      (wrap 16 (Z.lor VRING_DESC_F_NEXT VRING_DESC_F_WRITE)) 1;
    mk_fuzzing_descriptor DATA_WRITE_ADDR CORPUS_DESC_LEN (wrap 16 VRING_DESC_F_WRITE) 0] in
  packet ← corpus_packet true descriptors;
  functions ← create_basic_vsock_packet_ops packet [];
  mret (mk_vsock_input MAX_PKT_BUF_SIZE FromRX descriptors functions).

(** The input a vsock test writes. *)
Definition vsock_corpus (t : test Guest VsockInput) : option VsockInput :=
  s ← mock_new DEFAULT_QUEUE_SIZE test_mem;
  '(_, r) ← t s;
  to_option r.

(** ** blk.rs *)

Definition REQ_SECTOR : u64 := 1.
Definition HEADER_ADDR : u64 := 0x100.
Definition HEADER_LEN : u32 := Z.of_nat (bv_size RequestHeader).
Definition REQ_STATUS_ADDR : u64 := 0x5000.
Definition DESC_LEN : usize := 0x1000.

Definition blk_descriptors : list FuzzingDescriptor := [
  mk_fuzzing_descriptor HEADER_ADDR HEADER_LEN (wrap 16 VRING_DESC_F_NEXT) 1;
  mk_fuzzing_descriptor 0x3000 DESC_LEN (wrap 16 (Z.lor VRING_DESC_F_NEXT VRING_DESC_F_WRITE)) 2;
  mk_fuzzing_descriptor 0x4000 DESC_LEN (wrap 16 (Z.lor VRING_DESC_F_NEXT VRING_DESC_F_WRITE)) 3;
  mk_fuzzing_descriptor REQ_STATUS_ADDR DESC_LEN (wrap 16 VRING_DESC_F_WRITE) 0].

(** [mem.write_slice(&[0u8; DESC_LEN], addr).unwrap()]. *)
Definition zero_page (addr : u64) : test Guest unit := fun '(vq, m) =>
  match gm_write m addr (replicate (Z.to_nat DESC_LEN) 0) with
  | (m, Ok _) => Some ((vq, m), Ok tt)
  | (_, Err _) => None
  end.

Definition test_blk_basic_descriptor_chain : test Guest BlkInput :=
  _ ← (fun '(vq, m) =>
         match ref_store (mk_header VIRTIO_BLK_T_IN 0 REQ_SECTOR) HEADER_ADDR m with
         | Some m => Some ((vq, m), Ok tt)
         | None => None
         end);
  _ ← for_each [0x3000; 0x4000] zero_page;
  _ ← zero_page REQ_STATUS_ADDR;
  r ← try (build_multiple_desc_chains (fuzzing_descriptor_into <$> blk_descriptors));
  chain ← unwrap_ok r;
  m ← gets snd;
  '(_, r) ← unwrap (parse m chain);
  req ← unwrap_ok r;
  let data := r_data req in
  _ ← assert_eq (length data) 2%nat;
  _ ← assert_eq (data !! 0%nat) (Some (0x3000, DESC_LEN));
  _ ← assert_eq (data !! 1%nat) (Some (0x4000, DESC_LEN));
  _ ← assert_eq (r_sector req) REQ_SECTOR;
  _ ← assert_eq (r_status_addr req) REQ_STATUS_ADDR;
  _ ← assert_eq (total_data_len req) (DESC_LEN * 2);
  _ ← assert_eq (r_request_type req) In;
  mret (mk_blk_input blk_descriptors [] 0 (Some (replicate 20 1))).

Definition blk_corpus : option BlkInput :=
  s ← mock_new DEFAULT_QUEUE_SIZE test_mem;
  '(_, r) ← test_blk_basic_descriptor_chain s;
  to_option r.

(** ** The inputs are built, and the targets take them *)

(** The memory the fuzz targets map. *)
Definition target_mem : FlatMem := from_ranges [(0x1000, 0x11000)].

Definition ends_without_panic {A} (o : option A) : bool :=
  match o with Some _ => true | None => false end.

Theorem virtio_queue_corpus_runs :
  match basic_virtio_queue, basic_virtio_queue_ser with
  | Some i, Some s =>
      ends_without_panic (fuzz_virtio_queue i target_mem) &&
      ends_without_panic (fuzz_virtio_queue_ser s target_mem)
  | _, _ => false
  end = true.
Proof. vm_compute. reflexivity. Qed.

(** The chain a target builds from the descriptors of an input, and its memory. *)
Definition target_chain (ds : list FuzzingDescriptor) : option (FlatMem * DescriptorChain) :=
  '(vq, m) ← mock_create START_ADDR DEFAULT_QUEUE_SIZE target_mem;
  '((_, m), r) ← build_desc_chain (raw_descriptors ds) (vq, m);
  chain ← to_option r;
  Some (m, chain).

(** What a vsock input comes to in the target: the error of its packet. *)
Definition target_packet_error (i : option VsockInput) : option VsockError :=
  i ← i;
  '(m, chain) ← target_chain (si_descriptors i);
  match snd (match si_init_function i with
             | FromRX => from_rx_virtq_chain m m chain (si_pkt_max_data i)
             | FromTX => from_tx_virtq_chain m m chain (si_pkt_max_data i)
             end) with
  | Err e => Some e
  | Ok _ => None
  end.

(** Both vsock inputs are built by tests that pass, but neither reaches a method of the packet in
    the target: their header lies below the memory the target maps. *)
Theorem vsock_corpus_rejected :
  target_packet_error (vsock_corpus write_tx_vsock_packet_ops) =
    Some (VsockInvalidMemoryAccess (InvalidGuestAddress HEADER_WRITE_ADDR)) /\
  target_packet_error (vsock_corpus write_rx_vsock_packet_ops) =
    Some (VsockInvalidMemoryAccess (InvalidGuestAddress HEADER_WRITE_ADDR)).
Proof. vm_compute. split; reflexivity. Qed.

(** The error the request of a block input ends in. *)
Definition target_request_error (i : option BlkInput) : option BlkReqError :=
  i ← i;
  '(m, chain) ← target_chain (bi_descriptors i);
  '(_, r) ← parse (populate (bi_guestmem i) m) chain;
  match r with Err e => Some e | Ok _ => None end.

(** The block input has no contents for guest memory and a header below it: no request is run. *)
Theorem blk_corpus_rejected :
  target_request_error blk_corpus = Some (BlkReqGuestMemory (InvalidGuestAddress HEADER_ADDR)).
Proof. vm_compute. reflexivity. Qed.
