(* ===== verification/Layout.v ===== *)
(** * Layout of C structures

    The rules by which the compiler lays out the types of the generated
    bindings (virtio-bindings/src/bindings): [#[repr(C)]] and
    [#[repr(C, packed)]] structs, unions, arrays, raw pointers and the
    flexible array member [__IncompleteArrayField].  [size_of], [align_of]
    and [offset_of] compute what [::std::mem::size_of], [align_of] and
    [offset_of!] return, for a target given by an [abi].

    The theorem of this file holds of every type: fields are placed in order,
    aligned, apart from each other and inside the structure. *)

From stdpp Require Import base numbers list option strings.
From Stdlib Require Import ZArith Lia.
From S2P Require Import Prelude.

(** ** Types and targets *)

#[local] Set Warnings "-register-all".

(** The integer types of [::std::os::raw] the bindings use. *)
Inductive prim : Type := c_char | c_uchar | c_ushort | c_uint | c_ulonglong.

Inductive ctype : Type :=
  | TPrim (p : prim)
  | TPtr
  | TPhantom                                           (* PhantomData *)
  | TArray (t : ctype) (n : Z)                         (* [t; n] *)
  | TStruct (packed : bool) (fs : list (string * ctype))
  | TUnion (fs : list (string * ctype)).

(** What the layout of these types depends on: pointers, and the alignment of the 32-bit and
    64-bit integers. *)
Record abi : Type := mk_abi {
  ptr_size : Z;
  ptr_align : Z;
  uint_align : Z;
  ulonglong_align : Z;
}.

Definition prim_size (p : prim) : Z :=
  match p with c_char | c_uchar => 1 | c_ushort => 2 | c_uint => 4 | c_ulonglong => 8 end.

Definition prim_align (A : abi) (p : prim) : Z :=
  match p with
  | c_uint => uint_align A
  | c_ulonglong => ulonglong_align A
  | p => prim_size p
  end.

(** The least multiple of [al] not below [n]. *)
Definition round_up (n al : Z) : Z := (n + al - 1) / al * al.

(** ** Size, alignment and offsets *)

Fixpoint align_of (A : abi) (t : ctype) : Z :=
  match t with
  | TPrim p => prim_align A p
  | TPtr => ptr_align A
  | TPhantom => 1
  | TArray t _ => align_of A t
  | TStruct true _ => 1
  | TStruct false fs | TUnion fs => foldr (fun f m => Z.max (align_of A f.2) m) 1 fs
  end.

(** In a packed struct a field may start anywhere. *)
Definition field_align (A : abi) (packed : bool) (t : ctype) : Z :=
  if packed then 1 else align_of A t.

Fixpoint size_of (A : abi) (t : ctype) : Z :=
  match t with
  | TPrim p => prim_size p
  | TPtr => ptr_size A
  | TPhantom => 0
  | TArray t n => n * size_of A t
  | TStruct packed fs =>
      round_up
        (foldl (fun pos f => round_up pos (field_align A packed f.2) + size_of A f.2) 0 fs)
        (align_of A t)
  | TUnion fs => round_up (foldr (fun f m => Z.max (size_of A f.2) m) 0 fs) (align_of A t)
  end.

(** The offsets of the fields from position [pos] on, and the position after the last. *)
Fixpoint offsets (A : abi) (packed : bool) (pos : Z) (fs : list (string * ctype)) : list Z :=
  match fs with
  | [] => []
  | f :: fs =>
      let o := round_up pos (field_align A packed f.2) in
      o :: offsets A packed (o + size_of A f.2) fs
  end.

Definition extent (A : abi) (packed : bool) (pos : Z) (fs : list (string * ctype)) : Z :=
  foldl (fun pos f => round_up pos (field_align A packed f.2) + size_of A f.2) pos fs.

Definition fields_of (t : ctype) : list (string * ctype) :=
  match t with TStruct _ fs | TUnion fs => fs | _ => [] end.

(** The offsets of all fields: those of a union share the start. *)
Definition field_offsets (A : abi) (t : ctype) : list Z :=
  match t with
  | TStruct packed fs => offsets A packed 0 fs
  | TUnion fs => (fun _ => 0) <$> fs
  | _ => []
  end.

Definition field_index (t : ctype) (name : string) : option nat :=
  fst <$> list_find (fun f => f.1 = name) (fields_of t).

Definition offset_of (A : abi) (t : ctype) (name : string) : option Z :=
  i ← field_index t name; field_offsets A t !! i.

Definition field_type (t : ctype) (name : string) : option ctype :=
  i ← field_index t name; snd <$> fields_of t !! i.

(** ** The flexible array member

    A struct of a marker and an array of no elements: it has no size, and aligns what
    comes at its place. *)
Definition __IncompleteArrayField (T : ctype) : ctype :=
  TStruct false [("0", TPhantom); ("1", TArray T 0)].

(** [as_ptr] and [as_slice]: the addresses of the elements that start where the member is. *)
Definition incomplete_as_ptr (self : Z) : Z := self.
Definition incomplete_as_slice (A : abi) (T : ctype) (self len : Z) : list Z :=
  (fun i => incomplete_as_ptr self + i * size_of A T) <$> seqZ 0 len.

(** ** Zeroed storage

    [Default] of the generated types: [write_bytes(s.as_mut_ptr(), 0, 1)]. *)
Definition zeroed (A : abi) (t : ctype) : list Z := replicate (Z.to_nat (size_of A t)) 0.

(** ** The generated assertions

    [[msg][x - n]] in a constant: the subtraction of [usize]s must not wrap and the index
    must be inside an array of one element, or the crate does not compile. *)
Definition const_assert (x n : Z) : bool :=
  match checked_sub x n with Some i => i <? 1 | None => false end.

(** A [const _: () = { ... }] block: the size, the alignment and the offsets it expects. *)
Record checks : Type := mk_checks { ck_size : Z; ck_align : Z; ck_offsets : list (string * Z) }.

Definition check_offset (A : abi) (t : ctype) (c : string * Z) : bool :=
  match offset_of A t c.1 with Some o => const_assert o c.2 | None => false end.

Definition checks_pass (A : abi) (t : ctype) (c : checks) : bool :=
  const_assert (size_of A t) (ck_size c) && const_assert (align_of A t) (ck_align c)
  && forallb (check_offset A t) (ck_offsets c).

(** ** Well-formed targets and types *)

Record abi_ok (A : abi) : Prop := {
  ao_ptr : is_pow2 (ptr_align A) /\ (ptr_align A | ptr_size A) /\ 0 <= ptr_size A;
  ao_uint : is_pow2 (uint_align A) /\ (uint_align A | 4);
  ao_ulonglong : is_pow2 (ulonglong_align A) /\ (ulonglong_align A | 8);
}.

(** Arrays have a length. *)
Fixpoint ctype_ok (t : ctype) : bool :=
  match t with
  | TPrim _ | TPtr | TPhantom => true
  | TArray t n => (0 <=? n) && ctype_ok t
  | TStruct _ fs | TUnion fs => forallb (fun f => ctype_ok f.2) fs
  end.

(** Induction over a type and the types of its fields. *)
Section CtypeInd.
Context (P : ctype -> Prop).
Context (Hprim : forall p, P (TPrim p)) (Hptr : P TPtr) (Hph : P TPhantom).
Context (Harr : forall t n, P t -> P (TArray t n)).
Context (Hstr : forall packed fs, Forall (fun f => P f.2) fs -> P (TStruct packed fs)).
Context (Huni : forall fs, Forall (fun f => P f.2) fs -> P (TUnion fs)).

Fixpoint ctype_fields_ind (t : ctype) : P t :=
  let all := fix all (fs : list (string * ctype)) : Forall (fun f => P f.2) fs :=
    match fs with
    | [] => Forall_nil_2 _
    | f :: fs => Forall_cons_2 _ f fs (ctype_fields_ind f.2) (all fs)
    end in
  match t with
  | TPrim p => Hprim p
  | TPtr => Hptr
  | TPhantom => Hph
  | TArray t n => Harr t n (ctype_fields_ind t)
  | TStruct packed fs => Hstr packed fs (all fs)
  | TUnion fs => Huni fs (all fs)
  end.
End CtypeInd.

Lemma forallb_Forall_true {X} (p : X -> bool) (l : list X) :
  forallb p l = true <-> Forall (fun x => p x = true) l.
Proof.
  induction l as [|x l IH]; simpl; [done|]. by rewrite andb_true_iff, IH, Forall_cons.
Qed.

(** ** Alignments *)

Lemma round_up_spec n al : 0 < al -> n <= round_up n al < n + al /\ (al | round_up n al).
Proof.
  intros Hal. unfold round_up. split; [|by exists ((n + al - 1) / al)].
  pose proof (Z.div_mod (n + al - 1) al ltac:(lia)).
  pose proof (Z.mod_pos_bound (n + al - 1) al Hal). nia.
Qed.

Lemma round_up_id n al : 0 < al -> (al | n) -> round_up n al = n.
Proof.
  intros Hal [k ->]. unfold round_up. f_equal. symmetry.
  apply (Z.div_unique _ _ _ (al - 1)); lia.
Qed.

Lemma is_pow2_1 : is_pow2 1.
Proof. by exists 0. Qed.

Lemma is_pow2_divide a b : is_pow2 a -> is_pow2 b -> a <= b -> (a | b).
Proof.
  intros (k & Hk & ->) (l & Hl & ->) Hle. exists (2 ^ (l - k)).
  rewrite <- Z.pow_add_r; [f_equal; lia| |lia].
  destruct (Z.le_gt_cases k l); [lia|]. pose proof (Z.pow_lt_mono_r 2 l k). lia.
Qed.

Lemma is_pow2_max a b : is_pow2 a -> is_pow2 b -> is_pow2 (Z.max a b).
Proof. intros. by destruct (Z.max_spec a b) as [[_ ->]|[_ ->]]. Qed.

Section Targets.
Context (A : abi) (HA : abi_ok A).

Lemma prim_align_ok p : is_pow2 (prim_align A p) /\ (prim_align A p | prim_size p).
Proof.
  destruct p; simpl; try apply (ao_ulonglong A HA); try apply (ao_uint A HA); (split; [|done]).
  all: first [by exists 0 | by exists 1].
Qed.

Lemma max_align_pow2 (fs : list (string * ctype)) :
  Forall (fun f => is_pow2 (align_of A f.2)) fs ->
  is_pow2 (foldr (fun f m => Z.max (align_of A f.2) m) 1 fs).
Proof. induction 1; simpl; [apply is_pow2_1|by apply is_pow2_max]. Qed.

Lemma align_of_pow2 t : is_pow2 (align_of A t).
Proof.
  induction t as [p| | |t n IH|[] fs IH|fs IH] using ctype_fields_ind; simpl;
    try done; try apply is_pow2_1; try by apply max_align_pow2.
  - apply prim_align_ok.
  - apply (ao_ptr A HA).
Qed.

Lemma align_of_pos t : 0 < align_of A t.
Proof. apply is_pow2_pos, align_of_pow2. Qed.

Lemma field_align_pos packed t : 0 < field_align A packed t.
Proof. unfold field_align. destruct packed; [done|apply align_of_pos]. Qed.

(** The alignment of the whole is a multiple of the alignment of each part. *)
Lemma max_align_divide (fs : list (string * ctype)) i f :
  fs !! i = Some f -> (align_of A f.2 | foldr (fun f m => Z.max (align_of A f.2) m) 1 fs).
Proof.
  intros Hi. apply is_pow2_divide; [apply align_of_pow2| |].
  - apply max_align_pow2, Forall_forall. intros. apply align_of_pow2.
  - revert i Hi. induction fs as [|g fs IH]; intros [|i] Hi; simplify_eq/=; [lia|].
    specialize (IH i Hi). lia.
Qed.

(** ** Sizes *)

Lemma extent_ge packed (fs : list (string * ctype)) pos :
  Forall (fun f => 0 <= size_of A f.2) fs -> pos <= extent A packed pos fs.
Proof.
  intros Hfs. revert pos. induction Hfs as [|f fs Hf Hfs IH]; intros pos; simpl; [lia|].
  pose proof (round_up_spec pos _ (field_align_pos packed f.2)) as [? _].
  specialize (IH (round_up pos (field_align A packed f.2) + size_of A f.2)). lia.
Qed.

Lemma size_of_ok t : ctype_ok t = true -> 0 <= size_of A t /\ (align_of A t | size_of A t).
Proof.
  induction t as [p| | |t n IH|packed fs IH|fs IH] using ctype_fields_ind; intros Hok.
  - split; [by destruct p|apply prim_align_ok].
  - split; apply (ao_ptr A HA).
  - split; [done|by exists 0].
  - simpl in Hok. apply andb_true_iff in Hok as [Hn [Hs Hd]%IH]. simpl.
    split; [apply Z.leb_le in Hn; by apply Z.mul_nonneg_nonneg|by apply Z.divide_mul_r].
  - assert (Forall (fun f => 0 <= size_of A f.2) fs) as Hsz.
    { apply forallb_Forall_true in Hok. rewrite Forall_forall in *.
      intros f Hf. by apply IH, Hok. }
    pose proof (round_up_spec (extent A packed 0 fs) _ (align_of_pos (TStruct packed fs))) as [Hb Hd].
    pose proof (extent_ge packed fs 0 Hsz). split; [|exact Hd].
    change (0 <= round_up (extent A packed 0 fs) (align_of A (TStruct packed fs))). lia.
  - pose proof (round_up_spec (foldr (fun f m => Z.max (size_of A f.2) m) 0 fs) _
      (align_of_pos (TUnion fs))) as [Hb Hd]. split; [|exact Hd].
    assert (0 <= foldr (fun f m => Z.max (size_of A f.2) m) 0 fs) by (clear Hok Hb Hd IH; induction fs; simpl; lia).
    simpl in *. lia.
Qed.

(** ** Placement of the fields *)

Lemma length_offsets packed (fs : list (string * ctype)) pos :
  length (offsets A packed pos fs) = length fs.
Proof. revert pos. induction fs; intros pos; simpl; auto. Qed.

(** A field is placed from the current position on, at its alignment, before the end. *)
Lemma offsets_lookup packed (fs : list (string * ctype)) pos i f o :
  Forall (fun f => 0 <= size_of A f.2) fs ->
  fs !! i = Some f -> offsets A packed pos fs !! i = Some o ->
  pos <= o /\ (field_align A packed f.2 | o) /\ o + size_of A f.2 <= extent A packed pos fs.
Proof.
  intros Hfs. revert pos i. induction Hfs as [|g fs Hg Hfs IH]; intros pos [|i] Hf Ho; simplify_eq/=.
  - pose proof (round_up_spec pos _ (field_align_pos packed f.2)) as [? ?].
    split_and!; [lia|done|by apply extent_ge].
  - pose proof (round_up_spec pos _ (field_align_pos packed g.2)) as [? _].
    destruct (IH _ _ Hf Ho) as (? & ? & ?). split_and!; [lia|done|done].
Qed.

(** A later field starts after an earlier one ends. *)
Lemma offsets_order packed (fs : list (string * ctype)) pos i j f g o o' :
  Forall (fun f => 0 <= size_of A f.2) fs -> (i < j)%nat ->
  fs !! i = Some f -> offsets A packed pos fs !! i = Some o ->
  fs !! j = Some g -> offsets A packed pos fs !! j = Some o' ->
  o + size_of A f.2 <= o'.
Proof.
  intros Hfs. revert pos i j.
  induction Hfs as [|h fs Hh Hfs IH]; intros pos [|i] [|j] Hij Hf Ho Hg Ho'; simplify_eq/=; try lia.
  - by destruct (offsets_lookup _ _ _ _ _ _ Hfs Hg Ho').
  - eapply (IH _ i j); eauto; lia.
Qed.

Lemma union_size_ge (fs : list (string * ctype)) i f :
  fs !! i = Some f -> size_of A f.2 <= foldr (fun f m => Z.max (size_of A f.2) m) 0 fs.
Proof.
  revert i. induction fs as [|g fs IH]; intros [|i] Hi; simplify_eq/=; [lia|].
  specialize (IH i Hi). lia.
Qed.
End Targets.

Definition is_packed (t : ctype) : bool := match t with TStruct true _ => true | _ => false end.
Definition is_union (t : ctype) : bool := match t with TUnion _ => true | _ => false end.

(** Where one field lies in a type. *)
Record field_sound (A : abi) (t : ctype) (i : nat) (f : string * ctype) (o : Z) : Prop := {
  fs_inside : 0 <= o /\ o + size_of A f.2 <= size_of A t;
  (** wherever an object that is aligned itself is stored, the field is aligned *)
  fs_aligned : is_packed t = false -> forall base, (align_of A t | base) -> (align_of A f.2 | base + o);
  (** the fields of a struct do not overlap *)
  fs_ordered : is_union t = false -> forall j g o', (i < j)%nat ->
    fields_of t !! j = Some g -> field_offsets A t !! j = Some o' -> o + size_of A f.2 <= o';
}.

Lemma struct_field_sound A packed fs i f o :
  abi_ok A -> ctype_ok (TStruct packed fs) = true ->
  fs !! i = Some f -> offsets A packed 0 fs !! i = Some o ->
  field_sound A (TStruct packed fs) i f o.
Proof.
  intros HA Hok Hf Ho.
  assert (Forall (fun f => 0 <= size_of A f.2) fs) as Hsz.
  { apply forallb_Forall_true in Hok. eapply Forall_impl; [exact Hok|].
    intros g Hg. by apply (size_of_ok A HA). }
  destruct (offsets_lookup A HA _ _ _ _ _ _ Hsz Hf Ho) as (H0 & Hal & Hend). split.
  - split; [done|].
    pose proof (round_up_spec (extent A packed 0 fs) _ (align_of_pos A HA (TStruct packed fs))) as [? _].
    change (size_of A (TStruct packed fs))
      with (round_up (extent A packed 0 fs) (align_of A (TStruct packed fs))). lia.
  - intros Hp base Hb. destruct packed; [done|]. apply Z.divide_add_r; [|done].
    etrans; [by apply (max_align_divide A HA fs i)|done].
  - intros _ j g o' Hij Hg Ho'. by eapply (offsets_order A HA).
Qed.

Lemma union_field_sound A fs i f :
  abi_ok A -> fs !! i = Some f -> field_sound A (TUnion fs) i f 0.
Proof.
  intros HA Hf. split; [split; [done|]| |done].
  - pose proof (union_size_ge A fs i f Hf).
    pose proof (round_up_spec (foldr (fun f m => Z.max (size_of A f.2) m) 0 fs) _
      (align_of_pos A HA (TUnion fs))) as [? _]. simpl in *. lia.
  - intros _ base Hb. rewrite Z.add_0_r. etrans; [by apply (max_align_divide A HA fs i)|done].
Qed.

(** On every target, the layout computed for a type is sound.  The size is a multiple of
    the alignment (so arrays of it stay aligned); every field has an offset, lies inside the
    type and, unless the struct is packed, is aligned in memory whenever the struct is; and the
    fields of a struct are in order and do not overlap. *)
Theorem layout_sound A t : abi_ok A -> ctype_ok t = true ->
  (0 <= size_of A t /\ 0 < align_of A t /\ (align_of A t | size_of A t)) /\
  length (field_offsets A t) = length (fields_of t) /\
  forall i f o, fields_of t !! i = Some f -> field_offsets A t !! i = Some o -> field_sound A t i f o.
Proof.
  intros HA Hok. split_and!; try by apply (size_of_ok A HA).
  - by apply align_of_pos.
  - destruct t; simpl; [done..|apply length_offsets|apply length_fmap].
  - intros i f o Hf Ho. destruct t as [| | | |packed fs|fs]; try done.
    + by apply struct_field_sound.
    + apply list_lookup_fmap_Some in Ho as (? & ? & _). simplify_eq. by apply union_field_sound.
Qed.

(** ** What passing assertions say *)

Lemma const_assert_spec x n : const_assert x n = true <-> x = n.
Proof. unfold const_assert, checked_sub. destruct (Z.leb_spec n x); zbool; lia. Qed.

(** A block compiles exactly when each number in it is the one of the layout. *)
Lemma checks_pass_spec A t c : checks_pass A t c = true <->
  size_of A t = ck_size c /\ align_of A t = ck_align c /\
  Forall (fun e => offset_of A t e.1 = Some e.2) (ck_offsets c).
Proof.
  unfold checks_pass. rewrite !andb_true_iff, !const_assert_spec, forallb_Forall_true.
  rewrite Logic.and_assoc. do 2 f_equiv. apply Forall_iff. intros [f n]. unfold check_offset. simpl.
  destruct (offset_of A t f); [rewrite const_assert_spec|]; naive_solver.
Qed.

(** A byte followed by a 64-bit integer where that aligns to 4: three bytes of padding. *)
Lemma layout_sound_witness :
  let A := mk_abi 4 4 4 4 in
  let t := TStruct false [("tag", TPrim c_uchar); ("value", TPrim c_ulonglong)] in
  size_of A t = 12 /\ field_sound A t 1 ("value", TPrim c_ulonglong) 4.
Proof.
  intros A t. split; [reflexivity|].
  apply (layout_sound A t); [|reflexivity..].
  split; simpl; split_and!; first [by exists 2 | by exists 1 | lia].
Defined.
