(* ===== verification/BindingsTarget.v ===== *)
(** * Architectures of the bindings

    The directories of virtio-bindings/src/bindings, one per architecture, the
    data layout of each target, the integer aliases the files share, and the choice of a directory in virtio-bindings/src/lib.rs.  The
    data layouts are those of the compiler's targets; the numbers in the files
    are compared with them in Bindings.v.

    Most files are the same for all architectures.  They differ where pointers
    are 4 bytes ([vring] in virtio_ring.rs), where 64-bit integers align to 4
    (x86), and in the types of C enumerations (hexagon). *)

From stdpp Require Import base numbers list strings.
From S2P Require Import Prelude Layout.

Inductive arch : Type :=
  | Aarch64 | Arm | Hexagon | Loongarch64 | M68k | Mips | Mips32r6 | Mips64 | Mips64r6
  | Powerpc | Powerpc64 | Riscv32 | Riscv64 | S390x | Sparc | Sparc64 | X86 | X86_64.

Global Instance arch_eq_dec : EqDecision arch.
Proof. solve_decision. Defined.

Definition all_archs : list arch :=
  [Aarch64; Arm; Hexagon; Loongarch64; M68k; Mips; Mips32r6; Mips64; Mips64r6; Powerpc; Powerpc64;
   Riscv32; Riscv64; S390x; Sparc; Sparc64; X86; X86_64].

(** The data layout of the target, as the compiler documents it.  Nine targets have 64-bit
    pointers, and nine have 32-bit pointers.  All integers of the former are aligned to their
    size, and so are those of the latter but two: x86 aligns 64-bit integers to 4 bytes, and
    m68k aligns 32-bit integers and pointers to 2. *)
Definition m68k_abi (ulonglong_align : Z) : abi := mk_abi 4 2 2 ulonglong_align.

Definition abi_of (a : arch) : abi :=
  match a with
  | Aarch64 | Loongarch64 | Mips64 | Mips64r6 | Powerpc64 | Riscv64 | S390x | Sparc64 | X86_64 =>
      mk_abi 8 8 4 8
  | Arm | Hexagon | Mips | Mips32r6 | Powerpc | Riscv32 | Sparc => mk_abi 4 4 4 8
  | X86 => mk_abi 4 4 4 4
  (* 4 is the default of LLVM; the System V ABI of the m68k has 2. *)
  | M68k => m68k_abi 4
  end.

(** The directories state three sets of numbers: one where there are 64-bit pointers, one of
    x86, and one in the eight others. *)
Definition by_dir (a : arch) (wide narrow x86 : Z) : Z :=
  match a with
  | Aarch64 | Loongarch64 | Mips64 | Mips64r6 | Powerpc64 | Riscv64 | S390x | Sparc64 | X86_64 => wide
  | Arm | Hexagon | M68k | Mips | Mips32r6 | Powerpc | Riscv32 | Sparc => narrow
  | X86 => x86
  end.

(** ** Aliases *)

Definition __u8 : ctype := TPrim c_uchar.
Definition __u16 : ctype := TPrim c_ushort.
Definition __u32 : ctype := TPrim c_uint.
Definition __u64 : ctype := TPrim c_ulonglong.
Definition __le16 : ctype := __u16.
Definition __le32 : ctype := __u32.
Definition __le64 : ctype := __u64.
Definition __virtio16 : ctype := __u16.
Definition __virtio32 : ctype := __u32.
Definition __virtio64 : ctype := __u64.

(** ** The directory lib.rs selects

    The [cfg_attr(target_arch = ..., path = ...)] attributes of a module; without one that
    applies, the module is looked for outside of bindings/. *)
Definition selected_dir (a : arch) : option string :=
  match a with
  | Arm => Some "bindings/arm"
  | Aarch64 => Some "bindings/aarch64"
  | Hexagon => Some "bindings/hexagon"
  | Loongarch64 => Some "bindings/loongarch64"
  | M68k => Some "bindings/m68k"
  | Mips => Some "bindings/mipsel"
  | Powerpc64 => Some "bindings/powerpc64le"
  | Riscv64 => Some "bindings/riscv64"
  | S390x => Some "bindings/s390x"
  | Sparc64 => Some "bindings/sparc64"
  | X86_64 => Some "bindings/x86_64"
  | Mips32r6 | Mips64 | Mips64r6 | Powerpc | Riscv32 | Sparc | X86 => None
  end.

(** Every target is one the layout theorem speaks of. *)
Lemma abi_of_ok a : abi_ok (abi_of a).
Proof.
  destruct a; split; simpl; split_and!;
    first [by exists 3 | by exists 2 | by exists 1 | lia].
Qed.

Lemma all_archs_complete a : a ∈ all_archs.
Proof. apply list_elem_of_In. destruct a; simpl; tauto. Qed.

(** The architectures with a directory that no module of lib.rs is read from. *)
Lemma unselected_archs :
  filter (fun a => selected_dir a = None) all_archs =
  [Mips32r6; Mips64; Mips64r6; Powerpc; Riscv32; Sparc; X86].
Proof. reflexivity. Qed.
