(* ===== verification/BindingsRing.v ===== *)
(** * Bindings of virtio_ring.h

    virtio-bindings/src/bindings/<arch>/virtio_ring.rs: the structs of the rings and the
    assertions generated for each.  [x_checks a] has the numbers the file of architecture
    [a] states for struct [x]. *)

From stdpp Require Import base numbers list strings.
From S2P Require Import Prelude Layout BindingsTarget.

Definition vring_desc : ctype := TStruct false
  [("addr", __virtio64); ("len", __virtio32); ("flags", __virtio16); ("next", __virtio16)].
Definition vring_desc_checks (a : arch) : checks := mk_checks 16 (by_dir a 8 8 4)
  [("addr", 0); ("len", 8); ("flags", 12); ("next", 14)].

Definition vring_avail : ctype := TStruct false
  [("flags", __virtio16); ("idx", __virtio16); ("ring", __IncompleteArrayField __virtio16)].
Definition vring_avail_checks (_ : arch) : checks := mk_checks 4 2
  [("flags", 0); ("idx", 2); ("ring", 4)].

Definition vring_used_elem : ctype := TStruct false
  [("id", __virtio32); ("len", __virtio32)].
Definition vring_used_elem_checks (_ : arch) : checks := mk_checks 8 4
  [("id", 0); ("len", 4)].

Definition vring_used_elem_t : ctype := vring_used_elem.

Definition vring_used : ctype := TStruct false
  [("flags", __virtio16); ("idx", __virtio16); ("ring", __IncompleteArrayField vring_used_elem_t)].
Definition vring_used_checks (_ : arch) : checks := mk_checks 4 4
  [("flags", 0); ("idx", 2); ("ring", 4)].

Definition vring : ctype := TStruct false
  [("num", TPrim c_uint); ("desc", TPtr); ("avail", TPtr); ("used", TPtr)].
Definition vring_checks (a : arch) : checks := mk_checks (by_dir a 32 16 16) (by_dir a 8 4 4)
  [("num", 0); ("desc", by_dir a 8 4 4); ("avail", by_dir a 16 8 8); ("used", by_dir a 24 12 12)].

Definition vring_packed_desc_event : ctype := TStruct false
  [("off_wrap", __le16); ("flags", __le16)].
Definition vring_packed_desc_event_checks (_ : arch) : checks := mk_checks 4 2
  [("off_wrap", 0); ("flags", 2)].

Definition vring_packed_desc : ctype := TStruct false
  [("addr", __le64); ("len", __le32); ("id", __le16); ("flags", __le16)].
Definition vring_packed_desc_checks (a : arch) : checks := mk_checks 16 (by_dir a 8 8 4)
  [("addr", 0); ("len", 8); ("id", 12); ("flags", 14)].

(** The assertion blocks of virtio_ring.rs in the order of the file. *)
Definition virtio_ring_blocks (a : arch) : list (ctype * checks) :=
  [(vring_desc, vring_desc_checks a); (vring_avail, vring_avail_checks a);
   (vring_used_elem, vring_used_elem_checks a); (vring_used, vring_used_checks a);
   (vring, vring_checks a); (vring_packed_desc_event, vring_packed_desc_event_checks a);
   (vring_packed_desc, vring_packed_desc_checks a)].
