(* ===== verification/BindingsDevices.v ===== *)
(** * Bindings of virtio_blk.h, virtio_scsi.h and virtio_input.h

    virtio-bindings/src/bindings/<arch>/virtio_blk.rs, virtio_scsi.rs and virtio_input.rs:
    the structs of the block, SCSI and input devices with the assertions generated for each. *)

From stdpp Require Import base numbers list strings.
From S2P Require Import Prelude Layout BindingsTarget.

(** ** The block device *)

Definition virtio_blk_config_virtio_blk_geometry : ctype := TStruct false
  [("cylinders", __virtio16); ("heads", __u8); ("sectors", __u8)].
Definition virtio_blk_config_virtio_blk_geometry_checks (_ : arch) : checks := mk_checks 4 2
  [("cylinders", 0); ("heads", 2); ("sectors", 3)].

Definition virtio_blk_config_virtio_blk_zoned_characteristics : ctype := TStruct false
  [("zone_sectors", __virtio32); ("max_open_zones", __virtio32);
   ("max_active_zones", __virtio32); ("max_append_sectors", __virtio32);
   ("write_granularity", __virtio32); ("model", __u8); ("unused2", TArray __u8 3)].
Definition virtio_blk_config_virtio_blk_zoned_characteristics_checks (_ : arch) : checks := mk_checks 24 4
  [("zone_sectors", 0); ("max_open_zones", 4); ("max_active_zones", 8);
   ("max_append_sectors", 12); ("write_granularity", 16); ("model", 20); ("unused2", 21)].

Definition virtio_blk_config : ctype := TStruct true
  [("capacity", __virtio64); ("size_max", __virtio32); ("seg_max", __virtio32);
   ("geometry", virtio_blk_config_virtio_blk_geometry); ("blk_size", __virtio32);
   ("physical_block_exp", __u8); ("alignment_offset", __u8); ("min_io_size", __virtio16);
   ("opt_io_size", __virtio32); ("wce", __u8); ("unused", __u8); ("num_queues", __virtio16);
   ("max_discard_sectors", __virtio32); ("max_discard_seg", __virtio32);
   ("discard_sector_alignment", __virtio32); ("max_write_zeroes_sectors", __virtio32);
   ("max_write_zeroes_seg", __virtio32); ("write_zeroes_may_unmap", __u8);
   ("unused1", TArray __u8 3); ("max_secure_erase_sectors", __virtio32);
   ("max_secure_erase_seg", __virtio32); ("secure_erase_sector_alignment", __virtio32);
   ("zoned", virtio_blk_config_virtio_blk_zoned_characteristics)].
Definition virtio_blk_config_checks (_ : arch) : checks := mk_checks 96 1
  [("capacity", 0); ("size_max", 8); ("seg_max", 12); ("geometry", 16); ("blk_size", 20);
   ("physical_block_exp", 24); ("alignment_offset", 25); ("min_io_size", 26);
   ("opt_io_size", 28); ("wce", 32); ("unused", 33); ("num_queues", 34);
   ("max_discard_sectors", 36); ("max_discard_seg", 40); ("discard_sector_alignment", 44);
   ("max_write_zeroes_sectors", 48); ("max_write_zeroes_seg", 52);
   ("write_zeroes_may_unmap", 56); ("unused1", 57); ("max_secure_erase_sectors", 60);
   ("max_secure_erase_seg", 64); ("secure_erase_sector_alignment", 68); ("zoned", 72)].

Definition virtio_blk_outhdr : ctype := TStruct false
  [("type_", __virtio32); ("ioprio", __virtio32); ("sector", __virtio64)].
Definition virtio_blk_outhdr_checks (a : arch) : checks := mk_checks 16 (by_dir a 8 8 4)
  [("type_", 0); ("ioprio", 4); ("sector", 8)].

Definition virtio_blk_zone_descriptor : ctype := TStruct false
  [("z_cap", __virtio64); ("z_start", __virtio64); ("z_wp", __virtio64); ("z_type", __u8);
   ("z_state", __u8); ("reserved", TArray __u8 38)].
Definition virtio_blk_zone_descriptor_checks (a : arch) : checks := mk_checks 64 (by_dir a 8 8 4)
  [("z_cap", 0); ("z_start", 8); ("z_wp", 16); ("z_type", 24); ("z_state", 25); ("reserved", 26)].

Definition virtio_blk_zone_report : ctype := TStruct false
  [("nr_zones", __virtio64); ("reserved", TArray __u8 56);
   ("zones", __IncompleteArrayField virtio_blk_zone_descriptor)].
Definition virtio_blk_zone_report_checks (a : arch) : checks := mk_checks 64 (by_dir a 8 8 4)
  [("nr_zones", 0); ("reserved", 8); ("zones", 64)].

Definition virtio_blk_discard_write_zeroes : ctype := TStruct false
  [("sector", __le64); ("num_sectors", __le32); ("flags", __le32)].
Definition virtio_blk_discard_write_zeroes_checks (a : arch) : checks := mk_checks 16 (by_dir a 8 8 4)
  [("sector", 0); ("num_sectors", 8); ("flags", 12)].

Definition virtio_scsi_inhdr : ctype := TStruct false
  [("errors", __virtio32); ("data_len", __virtio32); ("sense_len", __virtio32);
   ("residual", __virtio32)].
Definition virtio_scsi_inhdr_checks (_ : arch) : checks := mk_checks 16 4
  [("errors", 0); ("data_len", 4); ("sense_len", 8); ("residual", 12)].

(** The assertion blocks of virtio_blk.rs in the order of the file. *)
Definition virtio_blk_blocks (a : arch) : list (ctype * checks) :=
  [(virtio_blk_config_virtio_blk_geometry, virtio_blk_config_virtio_blk_geometry_checks a);
   (virtio_blk_config_virtio_blk_zoned_characteristics, virtio_blk_config_virtio_blk_zoned_characteristics_checks a);
   (virtio_blk_config, virtio_blk_config_checks a);
   (virtio_blk_outhdr, virtio_blk_outhdr_checks a);
   (virtio_blk_zone_descriptor, virtio_blk_zone_descriptor_checks a);
   (virtio_blk_zone_report, virtio_blk_zone_report_checks a);
   (virtio_blk_discard_write_zeroes, virtio_blk_discard_write_zeroes_checks a);
   (virtio_scsi_inhdr, virtio_scsi_inhdr_checks a)].

(** ** SCSI *)

Definition virtio_scsi_cmd_req : ctype := TStruct true
  [("lun", TArray __u8 8); ("tag", __virtio64); ("task_attr", __u8); ("prio", __u8);
   ("crn", __u8); ("cdb", TArray __u8 32)].
Definition virtio_scsi_cmd_req_checks (_ : arch) : checks := mk_checks 51 1
  [("lun", 0); ("tag", 8); ("task_attr", 16); ("prio", 17); ("crn", 18); ("cdb", 19)].

Definition virtio_scsi_cmd_req_pi : ctype := TStruct true
  [("lun", TArray __u8 8); ("tag", __virtio64); ("task_attr", __u8); ("prio", __u8);
   ("crn", __u8); ("pi_bytesout", __virtio32); ("pi_bytesin", __virtio32);
   ("cdb", TArray __u8 32)].
Definition virtio_scsi_cmd_req_pi_checks (_ : arch) : checks := mk_checks 59 1
  [("lun", 0); ("tag", 8); ("task_attr", 16); ("prio", 17); ("crn", 18); ("pi_bytesout", 19);
   ("pi_bytesin", 23); ("cdb", 27)].

Definition virtio_scsi_cmd_resp : ctype := TStruct true
  [("sense_len", __virtio32); ("resid", __virtio32); ("status_qualifier", __virtio16);
   ("status", __u8); ("response", __u8); ("sense", TArray __u8 96)].
Definition virtio_scsi_cmd_resp_checks (_ : arch) : checks := mk_checks 108 1
  [("sense_len", 0); ("resid", 4); ("status_qualifier", 8); ("status", 10); ("response", 11);
   ("sense", 12)].

Definition virtio_scsi_ctrl_tmf_req : ctype := TStruct true
  [("type_", __virtio32); ("subtype", __virtio32); ("lun", TArray __u8 8); ("tag", __virtio64)].
Definition virtio_scsi_ctrl_tmf_req_checks (_ : arch) : checks := mk_checks 24 1
  [("type_", 0); ("subtype", 4); ("lun", 8); ("tag", 16)].

Definition virtio_scsi_ctrl_tmf_resp : ctype := TStruct true
  [("response", __u8)].
Definition virtio_scsi_ctrl_tmf_resp_checks (_ : arch) : checks := mk_checks 1 1
  [("response", 0)].

Definition virtio_scsi_ctrl_an_req : ctype := TStruct true
  [("type_", __virtio32); ("lun", TArray __u8 8); ("event_requested", __virtio32)].
Definition virtio_scsi_ctrl_an_req_checks (_ : arch) : checks := mk_checks 16 1
  [("type_", 0); ("lun", 4); ("event_requested", 12)].

Definition virtio_scsi_ctrl_an_resp : ctype := TStruct true
  [("event_actual", __virtio32); ("response", __u8)].
Definition virtio_scsi_ctrl_an_resp_checks (_ : arch) : checks := mk_checks 5 1
  [("event_actual", 0); ("response", 4)].

Definition virtio_scsi_event : ctype := TStruct true
  [("event", __virtio32); ("lun", TArray __u8 8); ("reason", __virtio32)].
Definition virtio_scsi_event_checks (_ : arch) : checks := mk_checks 16 1
  [("event", 0); ("lun", 4); ("reason", 12)].

Definition virtio_scsi_config : ctype := TStruct true
  [("num_queues", __virtio32); ("seg_max", __virtio32); ("max_sectors", __virtio32);
   ("cmd_per_lun", __virtio32); ("event_info_size", __virtio32); ("sense_size", __virtio32);
   ("cdb_size", __virtio32); ("max_channel", __virtio16); ("max_target", __virtio16);
   ("max_lun", __virtio32)].
Definition virtio_scsi_config_checks (_ : arch) : checks := mk_checks 36 1
  [("num_queues", 0); ("seg_max", 4); ("max_sectors", 8); ("cmd_per_lun", 12);
   ("event_info_size", 16); ("sense_size", 20); ("cdb_size", 24); ("max_channel", 28);
   ("max_target", 30); ("max_lun", 32)].

(** The assertion blocks of virtio_scsi.rs in the order of the file. *)
Definition virtio_scsi_blocks (a : arch) : list (ctype * checks) :=
  [(virtio_scsi_cmd_req, virtio_scsi_cmd_req_checks a);
   (virtio_scsi_cmd_req_pi, virtio_scsi_cmd_req_pi_checks a);
   (virtio_scsi_cmd_resp, virtio_scsi_cmd_resp_checks a);
   (virtio_scsi_ctrl_tmf_req, virtio_scsi_ctrl_tmf_req_checks a);
   (virtio_scsi_ctrl_tmf_resp, virtio_scsi_ctrl_tmf_resp_checks a);
   (virtio_scsi_ctrl_an_req, virtio_scsi_ctrl_an_req_checks a);
   (virtio_scsi_ctrl_an_resp, virtio_scsi_ctrl_an_resp_checks a);
   (virtio_scsi_event, virtio_scsi_event_checks a);
   (virtio_scsi_config, virtio_scsi_config_checks a)].

(** ** Input *)

Definition virtio_input_absinfo : ctype := TStruct false
  [("min", __le32); ("max", __le32); ("fuzz", __le32); ("flat", __le32); ("res", __le32)].
Definition virtio_input_absinfo_checks (_ : arch) : checks := mk_checks 20 4
  [("min", 0); ("max", 4); ("fuzz", 8); ("flat", 12); ("res", 16)].

Definition virtio_input_devids : ctype := TStruct false
  [("bustype", __le16); ("vendor", __le16); ("product", __le16); ("version", __le16)].
Definition virtio_input_devids_checks (_ : arch) : checks := mk_checks 8 2
  [("bustype", 0); ("vendor", 2); ("product", 4); ("version", 6)].

Definition virtio_input_config__bindgen_ty_1 : ctype := TUnion
  [("string", TArray (TPrim c_char) 128); ("bitmap", TArray __u8 128);
   ("abs", virtio_input_absinfo); ("ids", virtio_input_devids)].
Definition virtio_input_config__bindgen_ty_1_checks (_ : arch) : checks := mk_checks 128 4
  [("string", 0); ("bitmap", 0); ("abs", 0); ("ids", 0)].

Definition virtio_input_config : ctype := TStruct false
  [("select", __u8); ("subsel", __u8); ("size", __u8); ("reserved", TArray __u8 5);
   ("u", virtio_input_config__bindgen_ty_1)].
Definition virtio_input_config_checks (_ : arch) : checks := mk_checks 136 4
  [("select", 0); ("subsel", 1); ("size", 2); ("reserved", 3); ("u", 8)].

Definition virtio_input_event : ctype := TStruct false
  [("type_", __le16); ("code", __le16); ("value", __le32)].
Definition virtio_input_event_checks (_ : arch) : checks := mk_checks 8 4
  [("type_", 0); ("code", 2); ("value", 4)].

(** The assertion blocks of virtio_input.rs in the order of the file. *)
Definition virtio_input_blocks (a : arch) : list (ctype * checks) :=
  [(virtio_input_absinfo, virtio_input_absinfo_checks a);
   (virtio_input_devids, virtio_input_devids_checks a);
   (virtio_input_config__bindgen_ty_1, virtio_input_config__bindgen_ty_1_checks a);
   (virtio_input_config, virtio_input_config_checks a);
   (virtio_input_event, virtio_input_event_checks a)].
