(* ===== verification/BindingsNet.v ===== *)
(** * Bindings of virtio_net.h

    virtio-bindings/src/bindings/<arch>/virtio_net.rs: the structs of the network device
    with the assertions generated for each.  The struct [virtio_net_hdr_v1] is called
    [virtio_net_hdr_v1_t] here, apart from the record of NetHeader.v. *)

From stdpp Require Import base numbers list strings.
From S2P Require Import Prelude Layout BindingsTarget.

Definition virtio_net_config : ctype := TStruct true
  [("mac", TArray __u8 6); ("status", __virtio16); ("max_virtqueue_pairs", __virtio16);
   ("mtu", __virtio16); ("speed", __le32); ("duplex", __u8); ("rss_max_key_size", __u8);
   ("rss_max_indirection_table_length", __le16); ("supported_hash_types", __le32)].
Definition virtio_net_config_checks (_ : arch) : checks := mk_checks 24 1
  [("mac", 0); ("status", 6); ("max_virtqueue_pairs", 8); ("mtu", 10); ("speed", 12);
   ("duplex", 16); ("rss_max_key_size", 17); ("rss_max_indirection_table_length", 18);
   ("supported_hash_types", 20)].

Definition virtio_net_hdr_v1__bindgen_ty_1__bindgen_ty_1 : ctype := TStruct false
  [("csum_start", __virtio16); ("csum_offset", __virtio16)].
Definition virtio_net_hdr_v1__bindgen_ty_1__bindgen_ty_1_checks (_ : arch) : checks := mk_checks 4 2
  [("csum_start", 0); ("csum_offset", 2)].

Definition virtio_net_hdr_v1__bindgen_ty_1__bindgen_ty_2 : ctype := TStruct false
  [("start", __virtio16); ("offset", __virtio16)].
Definition virtio_net_hdr_v1__bindgen_ty_1__bindgen_ty_2_checks (_ : arch) : checks := mk_checks 4 2
  [("start", 0); ("offset", 2)].

Definition virtio_net_hdr_v1__bindgen_ty_1__bindgen_ty_3 : ctype := TStruct false
  [("segments", __le16); ("dup_acks", __le16)].
Definition virtio_net_hdr_v1__bindgen_ty_1__bindgen_ty_3_checks (_ : arch) : checks := mk_checks 4 2
  [("segments", 0); ("dup_acks", 2)].

Definition virtio_net_hdr_v1__bindgen_ty_1 : ctype := TUnion
  [("__bindgen_anon_1", virtio_net_hdr_v1__bindgen_ty_1__bindgen_ty_1);
   ("csum", virtio_net_hdr_v1__bindgen_ty_1__bindgen_ty_2);
   ("rsc", virtio_net_hdr_v1__bindgen_ty_1__bindgen_ty_3)].
Definition virtio_net_hdr_v1__bindgen_ty_1_checks (_ : arch) : checks := mk_checks 4 2
  [("csum", 0); ("rsc", 0)].

Definition virtio_net_hdr_v1_t : ctype := TStruct false
  [("flags", __u8); ("gso_type", __u8); ("hdr_len", __virtio16); ("gso_size", __virtio16);
   ("__bindgen_anon_1", virtio_net_hdr_v1__bindgen_ty_1); ("num_buffers", __virtio16)].
Definition virtio_net_hdr_v1_t_checks (_ : arch) : checks := mk_checks 12 2
  [("flags", 0); ("gso_type", 1); ("hdr_len", 2); ("gso_size", 4); ("num_buffers", 10)].

Definition virtio_net_hdr_v1_hash : ctype := TStruct false
  [("hdr", virtio_net_hdr_v1_t); ("hash_value", __le32); ("hash_report", __le16);
   ("padding", __le16)].
Definition virtio_net_hdr_v1_hash_checks (_ : arch) : checks := mk_checks 20 4
  [("hdr", 0); ("hash_value", 12); ("hash_report", 16); ("padding", 18)].

Definition virtio_net_hdr : ctype := TStruct false
  [("flags", __u8); ("gso_type", __u8); ("hdr_len", __virtio16); ("gso_size", __virtio16);
   ("csum_start", __virtio16); ("csum_offset", __virtio16)].
Definition virtio_net_hdr_checks (_ : arch) : checks := mk_checks 10 2
  [("flags", 0); ("gso_type", 1); ("hdr_len", 2); ("gso_size", 4); ("csum_start", 6);
   ("csum_offset", 8)].

Definition virtio_net_hdr_mrg_rxbuf : ctype := TStruct false
  [("hdr", virtio_net_hdr); ("num_buffers", __virtio16)].
Definition virtio_net_hdr_mrg_rxbuf_checks (_ : arch) : checks := mk_checks 12 2
  [("hdr", 0); ("num_buffers", 10)].

Definition virtio_net_ctrl_hdr : ctype := TStruct true
  [("class", __u8); ("cmd", __u8)].
Definition virtio_net_ctrl_hdr_checks (_ : arch) : checks := mk_checks 2 1
  [("class", 0); ("cmd", 1)].

Definition virtio_net_ctrl_mac : ctype := TStruct true
  [("entries", __virtio32); ("macs", __IncompleteArrayField (TArray __u8 6))].
Definition virtio_net_ctrl_mac_checks (_ : arch) : checks := mk_checks 4 1
  [("entries", 0); ("macs", 4)].

Definition virtio_net_ctrl_mq : ctype := TStruct false
  [("virtqueue_pairs", __virtio16)].
Definition virtio_net_ctrl_mq_checks (_ : arch) : checks := mk_checks 2 2
  [("virtqueue_pairs", 0)].

Definition virtio_net_rss_config : ctype := TStruct false
  [("hash_types", __le32); ("indirection_table_mask", __le16); ("unclassified_queue", __le16);
   ("indirection_table", TArray __le16 1); ("max_tx_vq", __le16); ("hash_key_length", __u8);
   ("hash_key_data", __IncompleteArrayField __u8)].
Definition virtio_net_rss_config_checks (_ : arch) : checks := mk_checks 16 4
  [("hash_types", 0); ("indirection_table_mask", 4); ("unclassified_queue", 6);
   ("indirection_table", 8); ("max_tx_vq", 10); ("hash_key_length", 12); ("hash_key_data", 13)].

Definition virtio_net_rss_config_hdr : ctype := TStruct false
  [("hash_types", __le32); ("indirection_table_mask", __le16); ("unclassified_queue", __le16);
   ("indirection_table", __IncompleteArrayField __le16)].
Definition virtio_net_rss_config_hdr_checks (_ : arch) : checks := mk_checks 8 4
  [("hash_types", 0); ("indirection_table_mask", 4); ("unclassified_queue", 6);
   ("indirection_table", 8)].

Definition virtio_net_rss_config_trailer : ctype := TStruct false
  [("max_tx_vq", __le16); ("hash_key_length", __u8);
   ("hash_key_data", __IncompleteArrayField __u8)].
Definition virtio_net_rss_config_trailer_checks (_ : arch) : checks := mk_checks 4 2
  [("max_tx_vq", 0); ("hash_key_length", 2); ("hash_key_data", 3)].

Definition virtio_net_hash_config : ctype := TStruct false
  [("hash_types", __le32); ("reserved", TArray __le16 4); ("hash_key_length", __u8);
   ("hash_key_data", __IncompleteArrayField __u8)].
Definition virtio_net_hash_config_checks (_ : arch) : checks := mk_checks 16 4
  [("hash_types", 0); ("reserved", 4); ("hash_key_length", 12); ("hash_key_data", 13)].

Definition virtio_net_ctrl_coal_tx : ctype := TStruct false
  [("tx_max_packets", __le32); ("tx_usecs", __le32)].
Definition virtio_net_ctrl_coal_tx_checks (_ : arch) : checks := mk_checks 8 4
  [("tx_max_packets", 0); ("tx_usecs", 4)].

Definition virtio_net_ctrl_coal_rx : ctype := TStruct false
  [("rx_max_packets", __le32); ("rx_usecs", __le32)].
Definition virtio_net_ctrl_coal_rx_checks (_ : arch) : checks := mk_checks 8 4
  [("rx_max_packets", 0); ("rx_usecs", 4)].

Definition virtio_net_ctrl_coal : ctype := TStruct false
  [("max_packets", __le32); ("max_usecs", __le32)].
Definition virtio_net_ctrl_coal_checks (_ : arch) : checks := mk_checks 8 4
  [("max_packets", 0); ("max_usecs", 4)].

Definition virtio_net_ctrl_coal_vq : ctype := TStruct false
  [("vqn", __le16); ("reserved", __le16); ("coal", virtio_net_ctrl_coal)].
Definition virtio_net_ctrl_coal_vq_checks (_ : arch) : checks := mk_checks 12 4
  [("vqn", 0); ("reserved", 2); ("coal", 4)].

Definition virtio_net_stats_capabilities : ctype := TStruct false
  [("supported_stats_types", TArray __le64 1)].
Definition virtio_net_stats_capabilities_checks (a : arch) : checks := mk_checks 8 (by_dir a 8 8 4)
  [("supported_stats_types", 0)].

Definition virtio_net_ctrl_queue_stats__bindgen_ty_1 : ctype := TStruct false
  [("vq_index", __le16); ("reserved", TArray __le16 3); ("types_bitmap", TArray __le64 1)].
Definition virtio_net_ctrl_queue_stats__bindgen_ty_1_checks (a : arch) : checks := mk_checks 16 (by_dir a 8 8 4)
  [("vq_index", 0); ("reserved", 2); ("types_bitmap", 8)].

Definition virtio_net_ctrl_queue_stats : ctype := TStruct false
  [("stats", TArray virtio_net_ctrl_queue_stats__bindgen_ty_1 1)].
Definition virtio_net_ctrl_queue_stats_checks (a : arch) : checks := mk_checks 16 (by_dir a 8 8 4)
  [("stats", 0)].

Definition virtio_net_stats_reply_hdr : ctype := TStruct false
  [("type_", __u8); ("reserved", __u8); ("vq_index", __le16); ("reserved1", __le16);
   ("size", __le16)].
Definition virtio_net_stats_reply_hdr_checks (_ : arch) : checks := mk_checks 8 2
  [("type_", 0); ("reserved", 1); ("vq_index", 2); ("reserved1", 4); ("size", 6)].

Definition virtio_net_stats_cvq : ctype := TStruct false
  [("hdr", virtio_net_stats_reply_hdr); ("command_num", __le64); ("ok_num", __le64)].
Definition virtio_net_stats_cvq_checks (a : arch) : checks := mk_checks 24 (by_dir a 8 8 4)
  [("hdr", 0); ("command_num", 8); ("ok_num", 16)].

Definition virtio_net_stats_rx_basic : ctype := TStruct false
  [("hdr", virtio_net_stats_reply_hdr); ("rx_notifications", __le64); ("rx_packets", __le64);
   ("rx_bytes", __le64); ("rx_interrupts", __le64); ("rx_drops", __le64);
   ("rx_drop_overruns", __le64)].
Definition virtio_net_stats_rx_basic_checks (a : arch) : checks := mk_checks 56 (by_dir a 8 8 4)
  [("hdr", 0); ("rx_notifications", 8); ("rx_packets", 16); ("rx_bytes", 24);
   ("rx_interrupts", 32); ("rx_drops", 40); ("rx_drop_overruns", 48)].

Definition virtio_net_stats_tx_basic : ctype := TStruct false
  [("hdr", virtio_net_stats_reply_hdr); ("tx_notifications", __le64); ("tx_packets", __le64);
   ("tx_bytes", __le64); ("tx_interrupts", __le64); ("tx_drops", __le64);
   ("tx_drop_malformed", __le64)].
Definition virtio_net_stats_tx_basic_checks (a : arch) : checks := mk_checks 56 (by_dir a 8 8 4)
  [("hdr", 0); ("tx_notifications", 8); ("tx_packets", 16); ("tx_bytes", 24);
   ("tx_interrupts", 32); ("tx_drops", 40); ("tx_drop_malformed", 48)].

Definition virtio_net_stats_rx_csum : ctype := TStruct false
  [("hdr", virtio_net_stats_reply_hdr); ("rx_csum_valid", __le64); ("rx_needs_csum", __le64);
   ("rx_csum_none", __le64); ("rx_csum_bad", __le64)].
Definition virtio_net_stats_rx_csum_checks (a : arch) : checks := mk_checks 40 (by_dir a 8 8 4)
  [("hdr", 0); ("rx_csum_valid", 8); ("rx_needs_csum", 16); ("rx_csum_none", 24);
   ("rx_csum_bad", 32)].

Definition virtio_net_stats_tx_csum : ctype := TStruct false
  [("hdr", virtio_net_stats_reply_hdr); ("tx_csum_none", __le64); ("tx_needs_csum", __le64)].
Definition virtio_net_stats_tx_csum_checks (a : arch) : checks := mk_checks 24 (by_dir a 8 8 4)
  [("hdr", 0); ("tx_csum_none", 8); ("tx_needs_csum", 16)].

Definition virtio_net_stats_rx_gso : ctype := TStruct false
  [("hdr", virtio_net_stats_reply_hdr); ("rx_gso_packets", __le64); ("rx_gso_bytes", __le64);
   ("rx_gso_packets_coalesced", __le64); ("rx_gso_bytes_coalesced", __le64)].
Definition virtio_net_stats_rx_gso_checks (a : arch) : checks := mk_checks 40 (by_dir a 8 8 4)
  [("hdr", 0); ("rx_gso_packets", 8); ("rx_gso_bytes", 16); ("rx_gso_packets_coalesced", 24);
   ("rx_gso_bytes_coalesced", 32)].

Definition virtio_net_stats_tx_gso : ctype := TStruct false
  [("hdr", virtio_net_stats_reply_hdr); ("tx_gso_packets", __le64); ("tx_gso_bytes", __le64);
   ("tx_gso_segments", __le64); ("tx_gso_segments_bytes", __le64);
   ("tx_gso_packets_noseg", __le64); ("tx_gso_bytes_noseg", __le64)].
Definition virtio_net_stats_tx_gso_checks (a : arch) : checks := mk_checks 56 (by_dir a 8 8 4)
  [("hdr", 0); ("tx_gso_packets", 8); ("tx_gso_bytes", 16); ("tx_gso_segments", 24);
   ("tx_gso_segments_bytes", 32); ("tx_gso_packets_noseg", 40); ("tx_gso_bytes_noseg", 48)].

Definition virtio_net_stats_rx_speed : ctype := TStruct false
  [("hdr", virtio_net_stats_reply_hdr); ("rx_ratelimit_packets", __le64);
   ("rx_ratelimit_bytes", __le64)].
Definition virtio_net_stats_rx_speed_checks (a : arch) : checks := mk_checks 24 (by_dir a 8 8 4)
  [("hdr", 0); ("rx_ratelimit_packets", 8); ("rx_ratelimit_bytes", 16)].

Definition virtio_net_stats_tx_speed : ctype := TStruct false
  [("hdr", virtio_net_stats_reply_hdr); ("tx_ratelimit_packets", __le64);
   ("tx_ratelimit_bytes", __le64)].
Definition virtio_net_stats_tx_speed_checks (a : arch) : checks := mk_checks 24 (by_dir a 8 8 4)
  [("hdr", 0); ("tx_ratelimit_packets", 8); ("tx_ratelimit_bytes", 16)].

(** The assertion blocks of virtio_net.rs in the order of the file. *)
Definition virtio_net_blocks (a : arch) : list (ctype * checks) :=
  [(virtio_net_config, virtio_net_config_checks a);
   (virtio_net_hdr_v1__bindgen_ty_1__bindgen_ty_1, virtio_net_hdr_v1__bindgen_ty_1__bindgen_ty_1_checks a);
   (virtio_net_hdr_v1__bindgen_ty_1__bindgen_ty_2, virtio_net_hdr_v1__bindgen_ty_1__bindgen_ty_2_checks a);
   (virtio_net_hdr_v1__bindgen_ty_1__bindgen_ty_3, virtio_net_hdr_v1__bindgen_ty_1__bindgen_ty_3_checks a);
   (virtio_net_hdr_v1__bindgen_ty_1, virtio_net_hdr_v1__bindgen_ty_1_checks a);
   (virtio_net_hdr_v1_t, virtio_net_hdr_v1_t_checks a);
   (virtio_net_hdr_v1_hash, virtio_net_hdr_v1_hash_checks a);
   (virtio_net_hdr, virtio_net_hdr_checks a);
   (virtio_net_hdr_mrg_rxbuf, virtio_net_hdr_mrg_rxbuf_checks a);
   (virtio_net_ctrl_hdr, virtio_net_ctrl_hdr_checks a);
   (virtio_net_ctrl_mac, virtio_net_ctrl_mac_checks a);
   (virtio_net_ctrl_mq, virtio_net_ctrl_mq_checks a);
   (virtio_net_rss_config, virtio_net_rss_config_checks a);
   (virtio_net_rss_config_hdr, virtio_net_rss_config_hdr_checks a);
   (virtio_net_rss_config_trailer, virtio_net_rss_config_trailer_checks a);
   (virtio_net_hash_config, virtio_net_hash_config_checks a);
   (virtio_net_ctrl_coal_tx, virtio_net_ctrl_coal_tx_checks a);
   (virtio_net_ctrl_coal_rx, virtio_net_ctrl_coal_rx_checks a);
   (virtio_net_ctrl_coal, virtio_net_ctrl_coal_checks a);
   (virtio_net_ctrl_coal_vq, virtio_net_ctrl_coal_vq_checks a);
   (virtio_net_stats_capabilities, virtio_net_stats_capabilities_checks a);
   (virtio_net_ctrl_queue_stats__bindgen_ty_1, virtio_net_ctrl_queue_stats__bindgen_ty_1_checks a);
   (virtio_net_ctrl_queue_stats, virtio_net_ctrl_queue_stats_checks a);
   (virtio_net_stats_reply_hdr, virtio_net_stats_reply_hdr_checks a);
   (virtio_net_stats_cvq, virtio_net_stats_cvq_checks a);
   (virtio_net_stats_rx_basic, virtio_net_stats_rx_basic_checks a);
   (virtio_net_stats_tx_basic, virtio_net_stats_tx_basic_checks a);
   (virtio_net_stats_rx_csum, virtio_net_stats_rx_csum_checks a);
   (virtio_net_stats_tx_csum, virtio_net_stats_tx_csum_checks a);
   (virtio_net_stats_rx_gso, virtio_net_stats_rx_gso_checks a);
   (virtio_net_stats_tx_gso, virtio_net_stats_tx_gso_checks a);
   (virtio_net_stats_rx_speed, virtio_net_stats_rx_speed_checks a);
   (virtio_net_stats_tx_speed, virtio_net_stats_tx_speed_checks a)].
