(* ===== verification/BindingsGpu.v ===== *)
(** * Bindings of virtio_gpu.h

    virtio-bindings/src/bindings/<arch>/virtio_gpu.rs: the structs of the GPU device with
    the assertions generated for each. *)

From stdpp Require Import base numbers list strings.
From S2P Require Import Prelude Layout BindingsTarget.

Definition virtio_gpu_ctrl_hdr : ctype := TStruct false
  [("type_", __le32); ("flags", __le32); ("fence_id", __le64); ("ctx_id", __le32);
   ("ring_idx", __u8); ("padding", TArray __u8 3)].
Definition virtio_gpu_ctrl_hdr_checks (a : arch) : checks := mk_checks 24 (by_dir a 8 8 4)
  [("type_", 0); ("flags", 4); ("fence_id", 8); ("ctx_id", 16); ("ring_idx", 20); ("padding", 21)].

Definition virtio_gpu_cursor_pos : ctype := TStruct false
  [("scanout_id", __le32); ("x", __le32); ("y", __le32); ("padding", __le32)].
Definition virtio_gpu_cursor_pos_checks (_ : arch) : checks := mk_checks 16 4
  [("scanout_id", 0); ("x", 4); ("y", 8); ("padding", 12)].

Definition virtio_gpu_update_cursor : ctype := TStruct false
  [("hdr", virtio_gpu_ctrl_hdr); ("pos", virtio_gpu_cursor_pos); ("resource_id", __le32);
   ("hot_x", __le32); ("hot_y", __le32); ("padding", __le32)].
Definition virtio_gpu_update_cursor_checks (a : arch) : checks := mk_checks 56 (by_dir a 8 8 4)
  [("hdr", 0); ("pos", 24); ("resource_id", 40); ("hot_x", 44); ("hot_y", 48); ("padding", 52)].

Definition virtio_gpu_rect : ctype := TStruct false
  [("x", __le32); ("y", __le32); ("width", __le32); ("height", __le32)].
Definition virtio_gpu_rect_checks (_ : arch) : checks := mk_checks 16 4
  [("x", 0); ("y", 4); ("width", 8); ("height", 12)].

Definition virtio_gpu_resource_unref : ctype := TStruct false
  [("hdr", virtio_gpu_ctrl_hdr); ("resource_id", __le32); ("padding", __le32)].
Definition virtio_gpu_resource_unref_checks (a : arch) : checks := mk_checks 32 (by_dir a 8 8 4)
  [("hdr", 0); ("resource_id", 24); ("padding", 28)].

Definition virtio_gpu_resource_create_2d : ctype := TStruct false
  [("hdr", virtio_gpu_ctrl_hdr); ("resource_id", __le32); ("format", __le32); ("width", __le32);
   ("height", __le32)].
Definition virtio_gpu_resource_create_2d_checks (a : arch) : checks := mk_checks 40 (by_dir a 8 8 4)
  [("hdr", 0); ("resource_id", 24); ("format", 28); ("width", 32); ("height", 36)].

Definition virtio_gpu_set_scanout : ctype := TStruct false
  [("hdr", virtio_gpu_ctrl_hdr); ("r", virtio_gpu_rect); ("scanout_id", __le32);
   ("resource_id", __le32)].
Definition virtio_gpu_set_scanout_checks (a : arch) : checks := mk_checks 48 (by_dir a 8 8 4)
  [("hdr", 0); ("r", 24); ("scanout_id", 40); ("resource_id", 44)].

Definition virtio_gpu_resource_flush : ctype := TStruct false
  [("hdr", virtio_gpu_ctrl_hdr); ("r", virtio_gpu_rect); ("resource_id", __le32);
   ("padding", __le32)].
Definition virtio_gpu_resource_flush_checks (a : arch) : checks := mk_checks 48 (by_dir a 8 8 4)
  [("hdr", 0); ("r", 24); ("resource_id", 40); ("padding", 44)].

Definition virtio_gpu_transfer_to_host_2d : ctype := TStruct false
  [("hdr", virtio_gpu_ctrl_hdr); ("r", virtio_gpu_rect); ("offset", __le64);
   ("resource_id", __le32); ("padding", __le32)].
Definition virtio_gpu_transfer_to_host_2d_checks (a : arch) : checks := mk_checks 56 (by_dir a 8 8 4)
  [("hdr", 0); ("r", 24); ("offset", 40); ("resource_id", 48); ("padding", 52)].

Definition virtio_gpu_mem_entry : ctype := TStruct false
  [("addr", __le64); ("length", __le32); ("padding", __le32)].
Definition virtio_gpu_mem_entry_checks (a : arch) : checks := mk_checks 16 (by_dir a 8 8 4)
  [("addr", 0); ("length", 8); ("padding", 12)].

Definition virtio_gpu_resource_attach_backing : ctype := TStruct false
  [("hdr", virtio_gpu_ctrl_hdr); ("resource_id", __le32); ("nr_entries", __le32)].
Definition virtio_gpu_resource_attach_backing_checks (a : arch) : checks := mk_checks 32 (by_dir a 8 8 4)
  [("hdr", 0); ("resource_id", 24); ("nr_entries", 28)].

Definition virtio_gpu_resource_detach_backing : ctype := TStruct false
  [("hdr", virtio_gpu_ctrl_hdr); ("resource_id", __le32); ("padding", __le32)].
Definition virtio_gpu_resource_detach_backing_checks (a : arch) : checks := mk_checks 32 (by_dir a 8 8 4)
  [("hdr", 0); ("resource_id", 24); ("padding", 28)].

Definition virtio_gpu_resp_display_info_virtio_gpu_display_one : ctype := TStruct false
  [("r", virtio_gpu_rect); ("enabled", __le32); ("flags", __le32)].
Definition virtio_gpu_resp_display_info_virtio_gpu_display_one_checks (_ : arch) : checks := mk_checks 24 4
  [("r", 0); ("enabled", 16); ("flags", 20)].

Definition virtio_gpu_resp_display_info : ctype := TStruct false
  [("hdr", virtio_gpu_ctrl_hdr);
   ("pmodes", TArray virtio_gpu_resp_display_info_virtio_gpu_display_one 16)].
Definition virtio_gpu_resp_display_info_checks (a : arch) : checks := mk_checks 408 (by_dir a 8 8 4)
  [("hdr", 0); ("pmodes", 24)].

Definition virtio_gpu_box : ctype := TStruct false
  [("x", __le32); ("y", __le32); ("z", __le32); ("w", __le32); ("h", __le32); ("d", __le32)].
Definition virtio_gpu_box_checks (_ : arch) : checks := mk_checks 24 4
  [("x", 0); ("y", 4); ("z", 8); ("w", 12); ("h", 16); ("d", 20)].

Definition virtio_gpu_transfer_host_3d : ctype := TStruct false
  [("hdr", virtio_gpu_ctrl_hdr); ("box_", virtio_gpu_box); ("offset", __le64);
   ("resource_id", __le32); ("level", __le32); ("stride", __le32); ("layer_stride", __le32)].
Definition virtio_gpu_transfer_host_3d_checks (a : arch) : checks := mk_checks 72 (by_dir a 8 8 4)
  [("hdr", 0); ("box_", 24); ("offset", 48); ("resource_id", 56); ("level", 60); ("stride", 64);
   ("layer_stride", 68)].

Definition virtio_gpu_resource_create_3d : ctype := TStruct false
  [("hdr", virtio_gpu_ctrl_hdr); ("resource_id", __le32); ("target", __le32);
   ("format", __le32); ("bind", __le32); ("width", __le32); ("height", __le32);
   ("depth", __le32); ("array_size", __le32); ("last_level", __le32); ("nr_samples", __le32);
   ("flags", __le32); ("padding", __le32)].
Definition virtio_gpu_resource_create_3d_checks (a : arch) : checks := mk_checks 72 (by_dir a 8 8 4)
  [("hdr", 0); ("resource_id", 24); ("target", 28); ("format", 32); ("bind", 36); ("width", 40);
   ("height", 44); ("depth", 48); ("array_size", 52); ("last_level", 56); ("nr_samples", 60);
   ("flags", 64); ("padding", 68)].

Definition virtio_gpu_ctx_create : ctype := TStruct false
  [("hdr", virtio_gpu_ctrl_hdr); ("nlen", __le32); ("context_init", __le32);
   ("debug_name", TArray (TPrim c_char) 64)].
Definition virtio_gpu_ctx_create_checks (a : arch) : checks := mk_checks 96 (by_dir a 8 8 4)
  [("hdr", 0); ("nlen", 24); ("context_init", 28); ("debug_name", 32)].

Definition virtio_gpu_ctx_destroy : ctype := TStruct false
  [("hdr", virtio_gpu_ctrl_hdr)].
Definition virtio_gpu_ctx_destroy_checks (a : arch) : checks := mk_checks 24 (by_dir a 8 8 4)
  [("hdr", 0)].

Definition virtio_gpu_ctx_resource : ctype := TStruct false
  [("hdr", virtio_gpu_ctrl_hdr); ("resource_id", __le32); ("padding", __le32)].
Definition virtio_gpu_ctx_resource_checks (a : arch) : checks := mk_checks 32 (by_dir a 8 8 4)
  [("hdr", 0); ("resource_id", 24); ("padding", 28)].

Definition virtio_gpu_cmd_submit : ctype := TStruct false
  [("hdr", virtio_gpu_ctrl_hdr); ("size", __le32); ("padding", __le32)].
Definition virtio_gpu_cmd_submit_checks (a : arch) : checks := mk_checks 32 (by_dir a 8 8 4)
  [("hdr", 0); ("size", 24); ("padding", 28)].

Definition virtio_gpu_get_capset_info : ctype := TStruct false
  [("hdr", virtio_gpu_ctrl_hdr); ("capset_index", __le32); ("padding", __le32)].
Definition virtio_gpu_get_capset_info_checks (a : arch) : checks := mk_checks 32 (by_dir a 8 8 4)
  [("hdr", 0); ("capset_index", 24); ("padding", 28)].

Definition virtio_gpu_resp_capset_info : ctype := TStruct false
  [("hdr", virtio_gpu_ctrl_hdr); ("capset_id", __le32); ("capset_max_version", __le32);
   ("capset_max_size", __le32); ("padding", __le32)].
Definition virtio_gpu_resp_capset_info_checks (a : arch) : checks := mk_checks 40 (by_dir a 8 8 4)
  [("hdr", 0); ("capset_id", 24); ("capset_max_version", 28); ("capset_max_size", 32);
   ("padding", 36)].

Definition virtio_gpu_get_capset : ctype := TStruct false
  [("hdr", virtio_gpu_ctrl_hdr); ("capset_id", __le32); ("capset_version", __le32)].
Definition virtio_gpu_get_capset_checks (a : arch) : checks := mk_checks 32 (by_dir a 8 8 4)
  [("hdr", 0); ("capset_id", 24); ("capset_version", 28)].

Definition virtio_gpu_resp_capset : ctype := TStruct false
  [("hdr", virtio_gpu_ctrl_hdr); ("capset_data", __IncompleteArrayField __u8)].
Definition virtio_gpu_resp_capset_checks (a : arch) : checks := mk_checks 24 (by_dir a 8 8 4)
  [("hdr", 0); ("capset_data", 24)].

Definition virtio_gpu_cmd_get_edid : ctype := TStruct false
  [("hdr", virtio_gpu_ctrl_hdr); ("scanout", __le32); ("padding", __le32)].
Definition virtio_gpu_cmd_get_edid_checks (a : arch) : checks := mk_checks 32 (by_dir a 8 8 4)
  [("hdr", 0); ("scanout", 24); ("padding", 28)].

Definition virtio_gpu_resp_edid : ctype := TStruct false
  [("hdr", virtio_gpu_ctrl_hdr); ("size", __le32); ("padding", __le32);
   ("edid", TArray __u8 1024)].
Definition virtio_gpu_resp_edid_checks (a : arch) : checks := mk_checks 1056 (by_dir a 8 8 4)
  [("hdr", 0); ("size", 24); ("padding", 28); ("edid", 32)].

Definition virtio_gpu_config : ctype := TStruct false
  [("events_read", __le32); ("events_clear", __le32); ("num_scanouts", __le32);
   ("num_capsets", __le32)].
Definition virtio_gpu_config_checks (_ : arch) : checks := mk_checks 16 4
  [("events_read", 0); ("events_clear", 4); ("num_scanouts", 8); ("num_capsets", 12)].

Definition virtio_gpu_resource_assign_uuid : ctype := TStruct false
  [("hdr", virtio_gpu_ctrl_hdr); ("resource_id", __le32); ("padding", __le32)].
Definition virtio_gpu_resource_assign_uuid_checks (a : arch) : checks := mk_checks 32 (by_dir a 8 8 4)
  [("hdr", 0); ("resource_id", 24); ("padding", 28)].

Definition virtio_gpu_resp_resource_uuid : ctype := TStruct false
  [("hdr", virtio_gpu_ctrl_hdr); ("uuid", TArray __u8 16)].
Definition virtio_gpu_resp_resource_uuid_checks (a : arch) : checks := mk_checks 40 (by_dir a 8 8 4)
  [("hdr", 0); ("uuid", 24)].

Definition virtio_gpu_resource_create_blob : ctype := TStruct false
  [("hdr", virtio_gpu_ctrl_hdr); ("resource_id", __le32); ("blob_mem", __le32);
   ("blob_flags", __le32); ("nr_entries", __le32); ("blob_id", __le64); ("size", __le64)].
Definition virtio_gpu_resource_create_blob_checks (a : arch) : checks := mk_checks 56 (by_dir a 8 8 4)
  [("hdr", 0); ("resource_id", 24); ("blob_mem", 28); ("blob_flags", 32); ("nr_entries", 36);
   ("blob_id", 40); ("size", 48)].

Definition virtio_gpu_set_scanout_blob : ctype := TStruct false
  [("hdr", virtio_gpu_ctrl_hdr); ("r", virtio_gpu_rect); ("scanout_id", __le32);
   ("resource_id", __le32); ("width", __le32); ("height", __le32); ("format", __le32);
   ("padding", __le32); ("strides", TArray __le32 4); ("offsets", TArray __le32 4)].
Definition virtio_gpu_set_scanout_blob_checks (a : arch) : checks := mk_checks 96 (by_dir a 8 8 4)
  [("hdr", 0); ("r", 24); ("scanout_id", 40); ("resource_id", 44); ("width", 48);
   ("height", 52); ("format", 56); ("padding", 60); ("strides", 64); ("offsets", 80)].

Definition virtio_gpu_resource_map_blob : ctype := TStruct false
  [("hdr", virtio_gpu_ctrl_hdr); ("resource_id", __le32); ("padding", __le32); ("offset", __le64)].
Definition virtio_gpu_resource_map_blob_checks (a : arch) : checks := mk_checks 40 (by_dir a 8 8 4)
  [("hdr", 0); ("resource_id", 24); ("padding", 28); ("offset", 32)].

Definition virtio_gpu_resp_map_info : ctype := TStruct false
  [("hdr", virtio_gpu_ctrl_hdr); ("map_info", __u32); ("padding", __u32)].
Definition virtio_gpu_resp_map_info_checks (a : arch) : checks := mk_checks 32 (by_dir a 8 8 4)
  [("hdr", 0); ("map_info", 24); ("padding", 28)].

Definition virtio_gpu_resource_unmap_blob : ctype := TStruct false
  [("hdr", virtio_gpu_ctrl_hdr); ("resource_id", __le32); ("padding", __le32)].
Definition virtio_gpu_resource_unmap_blob_checks (a : arch) : checks := mk_checks 32 (by_dir a 8 8 4)
  [("hdr", 0); ("resource_id", 24); ("padding", 28)].

(** The assertion blocks of virtio_gpu.rs in the order of the file. *)
Definition virtio_gpu_blocks (a : arch) : list (ctype * checks) :=
  [(virtio_gpu_ctrl_hdr, virtio_gpu_ctrl_hdr_checks a);
   (virtio_gpu_cursor_pos, virtio_gpu_cursor_pos_checks a);
   (virtio_gpu_update_cursor, virtio_gpu_update_cursor_checks a);
   (virtio_gpu_rect, virtio_gpu_rect_checks a);
   (virtio_gpu_resource_unref, virtio_gpu_resource_unref_checks a);
   (virtio_gpu_resource_create_2d, virtio_gpu_resource_create_2d_checks a);
   (virtio_gpu_set_scanout, virtio_gpu_set_scanout_checks a);
   (virtio_gpu_resource_flush, virtio_gpu_resource_flush_checks a);
   (virtio_gpu_transfer_to_host_2d, virtio_gpu_transfer_to_host_2d_checks a);
   (virtio_gpu_mem_entry, virtio_gpu_mem_entry_checks a);
   (virtio_gpu_resource_attach_backing, virtio_gpu_resource_attach_backing_checks a);
   (virtio_gpu_resource_detach_backing, virtio_gpu_resource_detach_backing_checks a);
   (virtio_gpu_resp_display_info_virtio_gpu_display_one, virtio_gpu_resp_display_info_virtio_gpu_display_one_checks a);
   (virtio_gpu_resp_display_info, virtio_gpu_resp_display_info_checks a);
   (virtio_gpu_box, virtio_gpu_box_checks a);
   (virtio_gpu_transfer_host_3d, virtio_gpu_transfer_host_3d_checks a);
   (virtio_gpu_resource_create_3d, virtio_gpu_resource_create_3d_checks a);
   (virtio_gpu_ctx_create, virtio_gpu_ctx_create_checks a);
   (virtio_gpu_ctx_destroy, virtio_gpu_ctx_destroy_checks a);
   (virtio_gpu_ctx_resource, virtio_gpu_ctx_resource_checks a);
   (virtio_gpu_cmd_submit, virtio_gpu_cmd_submit_checks a);
   (virtio_gpu_get_capset_info, virtio_gpu_get_capset_info_checks a);
   (virtio_gpu_resp_capset_info, virtio_gpu_resp_capset_info_checks a);
   (virtio_gpu_get_capset, virtio_gpu_get_capset_checks a);
   (virtio_gpu_resp_capset, virtio_gpu_resp_capset_checks a);
   (virtio_gpu_cmd_get_edid, virtio_gpu_cmd_get_edid_checks a);
   (virtio_gpu_resp_edid, virtio_gpu_resp_edid_checks a);
   (virtio_gpu_config, virtio_gpu_config_checks a);
   (virtio_gpu_resource_assign_uuid, virtio_gpu_resource_assign_uuid_checks a);
   (virtio_gpu_resp_resource_uuid, virtio_gpu_resp_resource_uuid_checks a);
   (virtio_gpu_resource_create_blob, virtio_gpu_resource_create_blob_checks a);
   (virtio_gpu_set_scanout_blob, virtio_gpu_set_scanout_blob_checks a);
   (virtio_gpu_resource_map_blob, virtio_gpu_resource_map_blob_checks a);
   (virtio_gpu_resp_map_info, virtio_gpu_resp_map_info_checks a);
   (virtio_gpu_resource_unmap_blob, virtio_gpu_resource_unmap_blob_checks a)].
