(* ===== verification/BindingsConsts.v ===== *)
(** * Constants of the bindings

    The [pub const] items of virtio-bindings/src/bindings, as tables of names, types and
    values.  The values are the same for all architectures; the type of an enumeration is
    not. *)

From stdpp Require Import base numbers list strings.
From S2P Require Import Prelude Layout BindingsTarget.

(** A [pub const] item: its name, its type ([u32] is [c_uint] and [u64] is [c_ulonglong]) and
    its value. *)
Definition constant : Type := string * prim * Z.

Definition of_type (p : prim) (l : list (string * Z)) : list constant :=
  (fun e => (e.1, p, e.2)) <$> l.

(** The type of a C enumeration: [unsigned int], and on hexagon the least type that holds
    its values. *)
Definition short_enum (a : arch) (least : prim) : prim :=
  match a with Hexagon => least | _ => c_uint end.

Definition virtio_ring_constants : list constant := of_type c_uint
  [("VRING_DESC_F_NEXT", 1); ("VRING_DESC_F_WRITE", 2); ("VRING_DESC_F_INDIRECT", 4);
   ("VRING_PACKED_DESC_F_AVAIL", 7); ("VRING_PACKED_DESC_F_USED", 15);
   ("VRING_USED_F_NO_NOTIFY", 1); ("VRING_AVAIL_F_NO_INTERRUPT", 1);
   ("VRING_PACKED_EVENT_FLAG_ENABLE", 0); ("VRING_PACKED_EVENT_FLAG_DISABLE", 1);
   ("VRING_PACKED_EVENT_FLAG_DESC", 2); ("VRING_PACKED_EVENT_F_WRAP_CTR", 15);
   ("VIRTIO_RING_F_INDIRECT_DESC", 28); ("VIRTIO_RING_F_EVENT_IDX", 29);
   ("VRING_AVAIL_ALIGN_SIZE", 2); ("VRING_USED_ALIGN_SIZE", 4); ("VRING_DESC_ALIGN_SIZE", 16)].

Definition virtio_config_constants : list constant := of_type c_uint
  [("VIRTIO_CONFIG_S_ACKNOWLEDGE", 1); ("VIRTIO_CONFIG_S_DRIVER", 2);
   ("VIRTIO_CONFIG_S_DRIVER_OK", 4); ("VIRTIO_CONFIG_S_FEATURES_OK", 8);
   ("VIRTIO_CONFIG_S_NEEDS_RESET", 64); ("VIRTIO_CONFIG_S_FAILED", 128);
   ("VIRTIO_TRANSPORT_F_START", 28); ("VIRTIO_TRANSPORT_F_END", 42);
   ("VIRTIO_F_NOTIFY_ON_EMPTY", 24); ("VIRTIO_F_ANY_LAYOUT", 27); ("VIRTIO_F_VERSION_1", 32);
   ("VIRTIO_F_ACCESS_PLATFORM", 33); ("VIRTIO_F_IOMMU_PLATFORM", 33);
   ("VIRTIO_F_RING_PACKED", 34); ("VIRTIO_F_IN_ORDER", 35); ("VIRTIO_F_ORDER_PLATFORM", 36);
   ("VIRTIO_F_SR_IOV", 37); ("VIRTIO_F_NOTIFICATION_DATA", 38);
   ("VIRTIO_F_NOTIF_CONFIG_DATA", 39); ("VIRTIO_F_RING_RESET", 40); ("VIRTIO_F_ADMIN_VQ", 41)].

Definition virtio_mmio_constants : list constant := of_type c_uint
  [("VIRTIO_MMIO_MAGIC_VALUE", 0); ("VIRTIO_MMIO_VERSION", 4); ("VIRTIO_MMIO_DEVICE_ID", 8);
   ("VIRTIO_MMIO_VENDOR_ID", 12); ("VIRTIO_MMIO_DEVICE_FEATURES", 16);
   ("VIRTIO_MMIO_DEVICE_FEATURES_SEL", 20); ("VIRTIO_MMIO_DRIVER_FEATURES", 32);
   ("VIRTIO_MMIO_DRIVER_FEATURES_SEL", 36); ("VIRTIO_MMIO_GUEST_PAGE_SIZE", 40);
   ("VIRTIO_MMIO_QUEUE_SEL", 48); ("VIRTIO_MMIO_QUEUE_NUM_MAX", 52);
   ("VIRTIO_MMIO_QUEUE_NUM", 56); ("VIRTIO_MMIO_QUEUE_ALIGN", 60);
   ("VIRTIO_MMIO_QUEUE_PFN", 64); ("VIRTIO_MMIO_QUEUE_READY", 68);
   ("VIRTIO_MMIO_QUEUE_NOTIFY", 80); ("VIRTIO_MMIO_INTERRUPT_STATUS", 96);
   ("VIRTIO_MMIO_INTERRUPT_ACK", 100); ("VIRTIO_MMIO_STATUS", 112);
   ("VIRTIO_MMIO_QUEUE_DESC_LOW", 128); ("VIRTIO_MMIO_QUEUE_DESC_HIGH", 132);
   ("VIRTIO_MMIO_QUEUE_AVAIL_LOW", 144); ("VIRTIO_MMIO_QUEUE_AVAIL_HIGH", 148);
   ("VIRTIO_MMIO_QUEUE_USED_LOW", 160); ("VIRTIO_MMIO_QUEUE_USED_HIGH", 164);
   ("VIRTIO_MMIO_SHM_SEL", 172); ("VIRTIO_MMIO_SHM_LEN_LOW", 176);
   ("VIRTIO_MMIO_SHM_LEN_HIGH", 180); ("VIRTIO_MMIO_SHM_BASE_LOW", 184);
   ("VIRTIO_MMIO_SHM_BASE_HIGH", 188); ("VIRTIO_MMIO_CONFIG_GENERATION", 252);
   ("VIRTIO_MMIO_CONFIG", 256); ("VIRTIO_MMIO_INT_VRING", 1); ("VIRTIO_MMIO_INT_CONFIG", 2)].

Definition virtio_ids_constants : list constant := of_type c_uint
  [("VIRTIO_ID_NET", 1); ("VIRTIO_ID_BLOCK", 2); ("VIRTIO_ID_CONSOLE", 3); ("VIRTIO_ID_RNG", 4);
   ("VIRTIO_ID_BALLOON", 5); ("VIRTIO_ID_IOMEM", 6); ("VIRTIO_ID_RPMSG", 7);
   ("VIRTIO_ID_SCSI", 8); ("VIRTIO_ID_9P", 9); ("VIRTIO_ID_MAC80211_WLAN", 10);
   ("VIRTIO_ID_RPROC_SERIAL", 11); ("VIRTIO_ID_CAIF", 12); ("VIRTIO_ID_MEMORY_BALLOON", 13);
   ("VIRTIO_ID_GPU", 16); ("VIRTIO_ID_CLOCK", 17); ("VIRTIO_ID_INPUT", 18);
   ("VIRTIO_ID_VSOCK", 19); ("VIRTIO_ID_CRYPTO", 20); ("VIRTIO_ID_SIGNAL_DIST", 21);
   ("VIRTIO_ID_PSTORE", 22); ("VIRTIO_ID_IOMMU", 23); ("VIRTIO_ID_MEM", 24);
   ("VIRTIO_ID_SOUND", 25); ("VIRTIO_ID_FS", 26); ("VIRTIO_ID_PMEM", 27);
   ("VIRTIO_ID_RPMB", 28); ("VIRTIO_ID_MAC80211_HWSIM", 29); ("VIRTIO_ID_VIDEO_ENCODER", 30);
   ("VIRTIO_ID_VIDEO_DECODER", 31); ("VIRTIO_ID_SCMI", 32); ("VIRTIO_ID_NITRO_SEC_MOD", 33);
   ("VIRTIO_ID_I2C_ADAPTER", 34); ("VIRTIO_ID_WATCHDOG", 35); ("VIRTIO_ID_CAN", 36);
   ("VIRTIO_ID_DMABUF", 37); ("VIRTIO_ID_PARAM_SERV", 38); ("VIRTIO_ID_AUDIO_POLICY", 39);
   ("VIRTIO_ID_BT", 40); ("VIRTIO_ID_GPIO", 41); ("VIRTIO_TRANS_ID_NET", 4096);
   ("VIRTIO_TRANS_ID_BLOCK", 4097); ("VIRTIO_TRANS_ID_BALLOON", 4098);
   ("VIRTIO_TRANS_ID_CONSOLE", 4099); ("VIRTIO_TRANS_ID_SCSI", 4100);
   ("VIRTIO_TRANS_ID_RNG", 4101); ("VIRTIO_TRANS_ID_9P", 4105)].

Definition virtio_blk_constants : list constant := of_type c_uint
  [("VIRTIO_BLK_F_SIZE_MAX", 1); ("VIRTIO_BLK_F_SEG_MAX", 2); ("VIRTIO_BLK_F_GEOMETRY", 4);
   ("VIRTIO_BLK_F_RO", 5); ("VIRTIO_BLK_F_BLK_SIZE", 6); ("VIRTIO_BLK_F_TOPOLOGY", 10);
   ("VIRTIO_BLK_F_MQ", 12); ("VIRTIO_BLK_F_DISCARD", 13); ("VIRTIO_BLK_F_WRITE_ZEROES", 14);
   ("VIRTIO_BLK_F_SECURE_ERASE", 16); ("VIRTIO_BLK_F_ZONED", 17); ("VIRTIO_BLK_F_BARRIER", 0);
   ("VIRTIO_BLK_F_SCSI", 7); ("VIRTIO_BLK_F_FLUSH", 9); ("VIRTIO_BLK_F_CONFIG_WCE", 11);
   ("VIRTIO_BLK_F_WCE", 9); ("VIRTIO_BLK_ID_BYTES", 20); ("VIRTIO_BLK_T_IN", 0);
   ("VIRTIO_BLK_T_OUT", 1); ("VIRTIO_BLK_T_SCSI_CMD", 2); ("VIRTIO_BLK_T_FLUSH", 4);
   ("VIRTIO_BLK_T_GET_ID", 8); ("VIRTIO_BLK_T_DISCARD", 11); ("VIRTIO_BLK_T_WRITE_ZEROES", 13);
   ("VIRTIO_BLK_T_SECURE_ERASE", 14); ("VIRTIO_BLK_T_ZONE_APPEND", 15);
   ("VIRTIO_BLK_T_ZONE_REPORT", 16); ("VIRTIO_BLK_T_ZONE_OPEN", 18);
   ("VIRTIO_BLK_T_ZONE_CLOSE", 20); ("VIRTIO_BLK_T_ZONE_FINISH", 22);
   ("VIRTIO_BLK_T_ZONE_RESET", 24); ("VIRTIO_BLK_T_ZONE_RESET_ALL", 26);
   ("VIRTIO_BLK_T_BARRIER", 2147483648); ("VIRTIO_BLK_Z_NONE", 0); ("VIRTIO_BLK_Z_HM", 1);
   ("VIRTIO_BLK_Z_HA", 2); ("VIRTIO_BLK_ZT_CONV", 1); ("VIRTIO_BLK_ZT_SWR", 2);
   ("VIRTIO_BLK_ZT_SWP", 3); ("VIRTIO_BLK_ZS_NOT_WP", 0); ("VIRTIO_BLK_ZS_EMPTY", 1);
   ("VIRTIO_BLK_ZS_IOPEN", 2); ("VIRTIO_BLK_ZS_EOPEN", 3); ("VIRTIO_BLK_ZS_CLOSED", 4);
   ("VIRTIO_BLK_ZS_RDONLY", 13); ("VIRTIO_BLK_ZS_FULL", 14); ("VIRTIO_BLK_ZS_OFFLINE", 15);
   ("VIRTIO_BLK_WRITE_ZEROES_FLAG_UNMAP", 1); ("VIRTIO_BLK_S_OK", 0); ("VIRTIO_BLK_S_IOERR", 1);
   ("VIRTIO_BLK_S_UNSUPP", 2); ("VIRTIO_BLK_S_ZONE_INVALID_CMD", 3);
   ("VIRTIO_BLK_S_ZONE_UNALIGNED_WP", 4); ("VIRTIO_BLK_S_ZONE_OPEN_RESOURCE", 5);
   ("VIRTIO_BLK_S_ZONE_ACTIVE_RESOURCE", 6)].

Definition virtio_scsi_constants : list constant := of_type c_uint
  [("VIRTIO_SCSI_CDB_DEFAULT_SIZE", 32); ("VIRTIO_SCSI_SENSE_DEFAULT_SIZE", 96);
   ("VIRTIO_SCSI_CDB_SIZE", 32); ("VIRTIO_SCSI_SENSE_SIZE", 96); ("VIRTIO_SCSI_F_INOUT", 0);
   ("VIRTIO_SCSI_F_HOTPLUG", 1); ("VIRTIO_SCSI_F_CHANGE", 2); ("VIRTIO_SCSI_F_T10_PI", 3);
   ("VIRTIO_SCSI_S_OK", 0); ("VIRTIO_SCSI_S_OVERRUN", 1); ("VIRTIO_SCSI_S_ABORTED", 2);
   ("VIRTIO_SCSI_S_BAD_TARGET", 3); ("VIRTIO_SCSI_S_RESET", 4); ("VIRTIO_SCSI_S_BUSY", 5);
   ("VIRTIO_SCSI_S_TRANSPORT_FAILURE", 6); ("VIRTIO_SCSI_S_TARGET_FAILURE", 7);
   ("VIRTIO_SCSI_S_NEXUS_FAILURE", 8); ("VIRTIO_SCSI_S_FAILURE", 9);
   ("VIRTIO_SCSI_S_FUNCTION_SUCCEEDED", 10); ("VIRTIO_SCSI_S_FUNCTION_REJECTED", 11);
   ("VIRTIO_SCSI_S_INCORRECT_LUN", 12); ("VIRTIO_SCSI_T_TMF", 0); ("VIRTIO_SCSI_T_AN_QUERY", 1);
   ("VIRTIO_SCSI_T_AN_SUBSCRIBE", 2); ("VIRTIO_SCSI_T_TMF_ABORT_TASK", 0);
   ("VIRTIO_SCSI_T_TMF_ABORT_TASK_SET", 1); ("VIRTIO_SCSI_T_TMF_CLEAR_ACA", 2);
   ("VIRTIO_SCSI_T_TMF_CLEAR_TASK_SET", 3); ("VIRTIO_SCSI_T_TMF_I_T_NEXUS_RESET", 4);
   ("VIRTIO_SCSI_T_TMF_LOGICAL_UNIT_RESET", 5); ("VIRTIO_SCSI_T_TMF_QUERY_TASK", 6);
   ("VIRTIO_SCSI_T_TMF_QUERY_TASK_SET", 7); ("VIRTIO_SCSI_T_EVENTS_MISSED", 2147483648);
   ("VIRTIO_SCSI_T_NO_EVENT", 0); ("VIRTIO_SCSI_T_TRANSPORT_RESET", 1);
   ("VIRTIO_SCSI_T_ASYNC_NOTIFY", 2); ("VIRTIO_SCSI_T_PARAM_CHANGE", 3);
   ("VIRTIO_SCSI_EVT_RESET_HARD", 0); ("VIRTIO_SCSI_EVT_RESET_RESCAN", 1);
   ("VIRTIO_SCSI_EVT_RESET_REMOVED", 2); ("VIRTIO_SCSI_S_SIMPLE", 0);
   ("VIRTIO_SCSI_S_ORDERED", 1); ("VIRTIO_SCSI_S_HEAD", 2); ("VIRTIO_SCSI_S_ACA", 3)].

Definition virtio_net_constants : list constant :=
  [("VIRTIO_NET_F_CSUM", c_uint, 0); ("VIRTIO_NET_F_GUEST_CSUM", c_uint, 1);
   ("VIRTIO_NET_F_CTRL_GUEST_OFFLOADS", c_uint, 2); ("VIRTIO_NET_F_MTU", c_uint, 3);
   ("VIRTIO_NET_F_MAC", c_uint, 5); ("VIRTIO_NET_F_GUEST_TSO4", c_uint, 7);
   ("VIRTIO_NET_F_GUEST_TSO6", c_uint, 8); ("VIRTIO_NET_F_GUEST_ECN", c_uint, 9);
   ("VIRTIO_NET_F_GUEST_UFO", c_uint, 10); ("VIRTIO_NET_F_HOST_TSO4", c_uint, 11);
   ("VIRTIO_NET_F_HOST_TSO6", c_uint, 12); ("VIRTIO_NET_F_HOST_ECN", c_uint, 13);
   ("VIRTIO_NET_F_HOST_UFO", c_uint, 14); ("VIRTIO_NET_F_MRG_RXBUF", c_uint, 15);
   ("VIRTIO_NET_F_STATUS", c_uint, 16); ("VIRTIO_NET_F_CTRL_VQ", c_uint, 17);
   ("VIRTIO_NET_F_CTRL_RX", c_uint, 18); ("VIRTIO_NET_F_CTRL_VLAN", c_uint, 19);
   ("VIRTIO_NET_F_CTRL_RX_EXTRA", c_uint, 20); ("VIRTIO_NET_F_GUEST_ANNOUNCE", c_uint, 21);
   ("VIRTIO_NET_F_MQ", c_uint, 22); ("VIRTIO_NET_F_CTRL_MAC_ADDR", c_uint, 23);
   ("VIRTIO_NET_F_DEVICE_STATS", c_uint, 50); ("VIRTIO_NET_F_VQ_NOTF_COAL", c_uint, 52);
   ("VIRTIO_NET_F_NOTF_COAL", c_uint, 53); ("VIRTIO_NET_F_GUEST_USO4", c_uint, 54);
   ("VIRTIO_NET_F_GUEST_USO6", c_uint, 55); ("VIRTIO_NET_F_HOST_USO", c_uint, 56);
   ("VIRTIO_NET_F_HASH_REPORT", c_uint, 57); ("VIRTIO_NET_F_GUEST_HDRLEN", c_uint, 59);
   ("VIRTIO_NET_F_RSS", c_uint, 60); ("VIRTIO_NET_F_RSC_EXT", c_uint, 61);
   ("VIRTIO_NET_F_STANDBY", c_uint, 62); ("VIRTIO_NET_F_SPEED_DUPLEX", c_uint, 63);
   ("VIRTIO_NET_F_GSO", c_uint, 6); ("VIRTIO_NET_S_LINK_UP", c_uint, 1);
   ("VIRTIO_NET_S_ANNOUNCE", c_uint, 2); ("VIRTIO_NET_RSS_HASH_TYPE_IPv4", c_uint, 1);
   ("VIRTIO_NET_RSS_HASH_TYPE_TCPv4", c_uint, 2); ("VIRTIO_NET_RSS_HASH_TYPE_UDPv4", c_uint, 4);
   ("VIRTIO_NET_RSS_HASH_TYPE_IPv6", c_uint, 8); ("VIRTIO_NET_RSS_HASH_TYPE_TCPv6", c_uint, 16);
   ("VIRTIO_NET_RSS_HASH_TYPE_UDPv6", c_uint, 32);
   ("VIRTIO_NET_RSS_HASH_TYPE_IP_EX", c_uint, 64);
   ("VIRTIO_NET_RSS_HASH_TYPE_TCP_EX", c_uint, 128);
   ("VIRTIO_NET_RSS_HASH_TYPE_UDP_EX", c_uint, 256); ("VIRTIO_NET_HDR_F_NEEDS_CSUM", c_uint, 1);
   ("VIRTIO_NET_HDR_F_DATA_VALID", c_uint, 2); ("VIRTIO_NET_HDR_F_RSC_INFO", c_uint, 4);
   ("VIRTIO_NET_HDR_GSO_NONE", c_uint, 0); ("VIRTIO_NET_HDR_GSO_TCPV4", c_uint, 1);
   ("VIRTIO_NET_HDR_GSO_UDP", c_uint, 3); ("VIRTIO_NET_HDR_GSO_TCPV6", c_uint, 4);
   ("VIRTIO_NET_HDR_GSO_UDP_L4", c_uint, 5); ("VIRTIO_NET_HDR_GSO_ECN", c_uint, 128);
   ("VIRTIO_NET_HASH_REPORT_NONE", c_uint, 0); ("VIRTIO_NET_HASH_REPORT_IPv4", c_uint, 1);
   ("VIRTIO_NET_HASH_REPORT_TCPv4", c_uint, 2); ("VIRTIO_NET_HASH_REPORT_UDPv4", c_uint, 3);
   ("VIRTIO_NET_HASH_REPORT_IPv6", c_uint, 4); ("VIRTIO_NET_HASH_REPORT_TCPv6", c_uint, 5);
   ("VIRTIO_NET_HASH_REPORT_UDPv6", c_uint, 6); ("VIRTIO_NET_HASH_REPORT_IPv6_EX", c_uint, 7);
   ("VIRTIO_NET_HASH_REPORT_TCPv6_EX", c_uint, 8);
   ("VIRTIO_NET_HASH_REPORT_UDPv6_EX", c_uint, 9); ("VIRTIO_NET_OK", c_uint, 0);
   ("VIRTIO_NET_ERR", c_uint, 1); ("VIRTIO_NET_CTRL_RX", c_uint, 0);
   ("VIRTIO_NET_CTRL_RX_PROMISC", c_uint, 0); ("VIRTIO_NET_CTRL_RX_ALLMULTI", c_uint, 1);
   ("VIRTIO_NET_CTRL_RX_ALLUNI", c_uint, 2); ("VIRTIO_NET_CTRL_RX_NOMULTI", c_uint, 3);
   ("VIRTIO_NET_CTRL_RX_NOUNI", c_uint, 4); ("VIRTIO_NET_CTRL_RX_NOBCAST", c_uint, 5);
   ("VIRTIO_NET_CTRL_MAC", c_uint, 1); ("VIRTIO_NET_CTRL_MAC_TABLE_SET", c_uint, 0);
   ("VIRTIO_NET_CTRL_MAC_ADDR_SET", c_uint, 1); ("VIRTIO_NET_CTRL_VLAN", c_uint, 2);
   ("VIRTIO_NET_CTRL_VLAN_ADD", c_uint, 0); ("VIRTIO_NET_CTRL_VLAN_DEL", c_uint, 1);
   ("VIRTIO_NET_CTRL_ANNOUNCE", c_uint, 3); ("VIRTIO_NET_CTRL_ANNOUNCE_ACK", c_uint, 0);
   ("VIRTIO_NET_CTRL_MQ", c_uint, 4); ("VIRTIO_NET_CTRL_MQ_VQ_PAIRS_SET", c_uint, 0);
   ("VIRTIO_NET_CTRL_MQ_VQ_PAIRS_MIN", c_uint, 1);
   ("VIRTIO_NET_CTRL_MQ_VQ_PAIRS_MAX", c_uint, 32768);
   ("VIRTIO_NET_CTRL_MQ_RSS_CONFIG", c_uint, 1); ("VIRTIO_NET_CTRL_MQ_HASH_CONFIG", c_uint, 2);
   ("VIRTIO_NET_CTRL_GUEST_OFFLOADS", c_uint, 5);
   ("VIRTIO_NET_CTRL_GUEST_OFFLOADS_SET", c_uint, 0); ("VIRTIO_NET_CTRL_NOTF_COAL", c_uint, 6);
   ("VIRTIO_NET_CTRL_NOTF_COAL_TX_SET", c_uint, 0);
   ("VIRTIO_NET_CTRL_NOTF_COAL_RX_SET", c_uint, 1);
   ("VIRTIO_NET_CTRL_NOTF_COAL_VQ_SET", c_uint, 2);
   ("VIRTIO_NET_CTRL_NOTF_COAL_VQ_GET", c_uint, 3); ("VIRTIO_NET_CTRL_STATS", c_uint, 8);
   ("VIRTIO_NET_CTRL_STATS_QUERY", c_uint, 0); ("VIRTIO_NET_CTRL_STATS_GET", c_uint, 1);
   ("VIRTIO_NET_STATS_TYPE_CVQ", c_ulonglong, 4294967296);
   ("VIRTIO_NET_STATS_TYPE_RX_BASIC", c_uint, 1); ("VIRTIO_NET_STATS_TYPE_RX_CSUM", c_uint, 2);
   ("VIRTIO_NET_STATS_TYPE_RX_GSO", c_uint, 4); ("VIRTIO_NET_STATS_TYPE_RX_SPEED", c_uint, 8);
   ("VIRTIO_NET_STATS_TYPE_TX_BASIC", c_uint, 65536);
   ("VIRTIO_NET_STATS_TYPE_TX_CSUM", c_uint, 131072);
   ("VIRTIO_NET_STATS_TYPE_TX_GSO", c_uint, 262144);
   ("VIRTIO_NET_STATS_TYPE_TX_SPEED", c_uint, 524288);
   ("VIRTIO_NET_STATS_TYPE_REPLY_CVQ", c_uint, 32);
   ("VIRTIO_NET_STATS_TYPE_REPLY_RX_BASIC", c_uint, 0);
   ("VIRTIO_NET_STATS_TYPE_REPLY_RX_CSUM", c_uint, 1);
   ("VIRTIO_NET_STATS_TYPE_REPLY_RX_GSO", c_uint, 2);
   ("VIRTIO_NET_STATS_TYPE_REPLY_RX_SPEED", c_uint, 3);
   ("VIRTIO_NET_STATS_TYPE_REPLY_TX_BASIC", c_uint, 16);
   ("VIRTIO_NET_STATS_TYPE_REPLY_TX_CSUM", c_uint, 17);
   ("VIRTIO_NET_STATS_TYPE_REPLY_TX_GSO", c_uint, 18);
   ("VIRTIO_NET_STATS_TYPE_REPLY_TX_SPEED", c_uint, 19)].

Definition virtio_input_config_select (a : arch) : prim := short_enum a c_uchar.
Definition virtio_input_config_select_values (a : arch) : list constant := of_type (virtio_input_config_select a)
  [("virtio_input_config_select_VIRTIO_INPUT_CFG_UNSET", 0);
   ("virtio_input_config_select_VIRTIO_INPUT_CFG_ID_NAME", 1);
   ("virtio_input_config_select_VIRTIO_INPUT_CFG_ID_SERIAL", 2);
   ("virtio_input_config_select_VIRTIO_INPUT_CFG_ID_DEVIDS", 3);
   ("virtio_input_config_select_VIRTIO_INPUT_CFG_PROP_BITS", 16);
   ("virtio_input_config_select_VIRTIO_INPUT_CFG_EV_BITS", 17);
   ("virtio_input_config_select_VIRTIO_INPUT_CFG_ABS_INFO", 18)].

Definition virtio_gpu_constants : list constant := of_type c_uint
  [("VIRTIO_GPU_F_VIRGL", 0); ("VIRTIO_GPU_F_EDID", 1); ("VIRTIO_GPU_F_RESOURCE_UUID", 2);
   ("VIRTIO_GPU_F_RESOURCE_BLOB", 3); ("VIRTIO_GPU_F_CONTEXT_INIT", 4);
   ("VIRTIO_GPU_FLAG_FENCE", 1); ("VIRTIO_GPU_FLAG_INFO_RING_IDX", 2);
   ("VIRTIO_GPU_MAX_SCANOUTS", 16); ("VIRTIO_GPU_RESOURCE_FLAG_Y_0_TOP", 1);
   ("VIRTIO_GPU_CONTEXT_INIT_CAPSET_ID_MASK", 255); ("VIRTIO_GPU_CAPSET_VIRGL", 1);
   ("VIRTIO_GPU_CAPSET_VIRGL2", 2); ("VIRTIO_GPU_CAPSET_GFXSTREAM_VULKAN", 3);
   ("VIRTIO_GPU_CAPSET_VENUS", 4); ("VIRTIO_GPU_CAPSET_CROSS_DOMAIN", 5);
   ("VIRTIO_GPU_CAPSET_DRM", 6); ("VIRTIO_GPU_EVENT_DISPLAY", 1);
   ("VIRTIO_GPU_BLOB_MEM_GUEST", 1); ("VIRTIO_GPU_BLOB_MEM_HOST3D", 2);
   ("VIRTIO_GPU_BLOB_MEM_HOST3D_GUEST", 3); ("VIRTIO_GPU_BLOB_FLAG_USE_MAPPABLE", 1);
   ("VIRTIO_GPU_BLOB_FLAG_USE_SHAREABLE", 2); ("VIRTIO_GPU_BLOB_FLAG_USE_CROSS_DEVICE", 4);
   ("VIRTIO_GPU_MAP_CACHE_MASK", 15); ("VIRTIO_GPU_MAP_CACHE_NONE", 0);
   ("VIRTIO_GPU_MAP_CACHE_CACHED", 1); ("VIRTIO_GPU_MAP_CACHE_UNCACHED", 2);
   ("VIRTIO_GPU_MAP_CACHE_WC", 3)].

Definition virtio_gpu_ctrl_type (a : arch) : prim := short_enum a c_ushort.
Definition virtio_gpu_ctrl_type_values (a : arch) : list constant := of_type (virtio_gpu_ctrl_type a)
  [("virtio_gpu_ctrl_type_VIRTIO_GPU_UNDEFINED", 0);
   ("virtio_gpu_ctrl_type_VIRTIO_GPU_CMD_GET_DISPLAY_INFO", 256);
   ("virtio_gpu_ctrl_type_VIRTIO_GPU_CMD_RESOURCE_CREATE_2D", 257);
   ("virtio_gpu_ctrl_type_VIRTIO_GPU_CMD_RESOURCE_UNREF", 258);
   ("virtio_gpu_ctrl_type_VIRTIO_GPU_CMD_SET_SCANOUT", 259);
   ("virtio_gpu_ctrl_type_VIRTIO_GPU_CMD_RESOURCE_FLUSH", 260);
   ("virtio_gpu_ctrl_type_VIRTIO_GPU_CMD_TRANSFER_TO_HOST_2D", 261);
   ("virtio_gpu_ctrl_type_VIRTIO_GPU_CMD_RESOURCE_ATTACH_BACKING", 262);
   ("virtio_gpu_ctrl_type_VIRTIO_GPU_CMD_RESOURCE_DETACH_BACKING", 263);
   ("virtio_gpu_ctrl_type_VIRTIO_GPU_CMD_GET_CAPSET_INFO", 264);
   ("virtio_gpu_ctrl_type_VIRTIO_GPU_CMD_GET_CAPSET", 265);
   ("virtio_gpu_ctrl_type_VIRTIO_GPU_CMD_GET_EDID", 266);
   ("virtio_gpu_ctrl_type_VIRTIO_GPU_CMD_RESOURCE_ASSIGN_UUID", 267);
   ("virtio_gpu_ctrl_type_VIRTIO_GPU_CMD_RESOURCE_CREATE_BLOB", 268);
   ("virtio_gpu_ctrl_type_VIRTIO_GPU_CMD_SET_SCANOUT_BLOB", 269);
   ("virtio_gpu_ctrl_type_VIRTIO_GPU_CMD_CTX_CREATE", 512);
   ("virtio_gpu_ctrl_type_VIRTIO_GPU_CMD_CTX_DESTROY", 513);
   ("virtio_gpu_ctrl_type_VIRTIO_GPU_CMD_CTX_ATTACH_RESOURCE", 514);
   ("virtio_gpu_ctrl_type_VIRTIO_GPU_CMD_CTX_DETACH_RESOURCE", 515);
   ("virtio_gpu_ctrl_type_VIRTIO_GPU_CMD_RESOURCE_CREATE_3D", 516);
   ("virtio_gpu_ctrl_type_VIRTIO_GPU_CMD_TRANSFER_TO_HOST_3D", 517);
   ("virtio_gpu_ctrl_type_VIRTIO_GPU_CMD_TRANSFER_FROM_HOST_3D", 518);
   ("virtio_gpu_ctrl_type_VIRTIO_GPU_CMD_SUBMIT_3D", 519);
   ("virtio_gpu_ctrl_type_VIRTIO_GPU_CMD_RESOURCE_MAP_BLOB", 520);
   ("virtio_gpu_ctrl_type_VIRTIO_GPU_CMD_RESOURCE_UNMAP_BLOB", 521);
   ("virtio_gpu_ctrl_type_VIRTIO_GPU_CMD_UPDATE_CURSOR", 768);
   ("virtio_gpu_ctrl_type_VIRTIO_GPU_CMD_MOVE_CURSOR", 769);
   ("virtio_gpu_ctrl_type_VIRTIO_GPU_RESP_OK_NODATA", 4352);
   ("virtio_gpu_ctrl_type_VIRTIO_GPU_RESP_OK_DISPLAY_INFO", 4353);
   ("virtio_gpu_ctrl_type_VIRTIO_GPU_RESP_OK_CAPSET_INFO", 4354);
   ("virtio_gpu_ctrl_type_VIRTIO_GPU_RESP_OK_CAPSET", 4355);
   ("virtio_gpu_ctrl_type_VIRTIO_GPU_RESP_OK_EDID", 4356);
   ("virtio_gpu_ctrl_type_VIRTIO_GPU_RESP_OK_RESOURCE_UUID", 4357);
   ("virtio_gpu_ctrl_type_VIRTIO_GPU_RESP_OK_MAP_INFO", 4358);
   ("virtio_gpu_ctrl_type_VIRTIO_GPU_RESP_ERR_UNSPEC", 4608);
   ("virtio_gpu_ctrl_type_VIRTIO_GPU_RESP_ERR_OUT_OF_MEMORY", 4609);
   ("virtio_gpu_ctrl_type_VIRTIO_GPU_RESP_ERR_INVALID_SCANOUT_ID", 4610);
   ("virtio_gpu_ctrl_type_VIRTIO_GPU_RESP_ERR_INVALID_RESOURCE_ID", 4611);
   ("virtio_gpu_ctrl_type_VIRTIO_GPU_RESP_ERR_INVALID_CONTEXT_ID", 4612);
   ("virtio_gpu_ctrl_type_VIRTIO_GPU_RESP_ERR_INVALID_PARAMETER", 4613)].

Definition virtio_gpu_shm_id (a : arch) : prim := short_enum a c_uchar.
Definition virtio_gpu_shm_id_values (a : arch) : list constant := of_type (virtio_gpu_shm_id a)
  [("virtio_gpu_shm_id_VIRTIO_GPU_SHM_ID_UNDEFINED", 0);
   ("virtio_gpu_shm_id_VIRTIO_GPU_SHM_ID_HOST_VISIBLE", 1)].

Definition virtio_gpu_formats (a : arch) : prim := short_enum a c_uchar.
Definition virtio_gpu_formats_values (a : arch) : list constant := of_type (virtio_gpu_formats a)
  [("virtio_gpu_formats_VIRTIO_GPU_FORMAT_B8G8R8A8_UNORM", 1);
   ("virtio_gpu_formats_VIRTIO_GPU_FORMAT_B8G8R8X8_UNORM", 2);
   ("virtio_gpu_formats_VIRTIO_GPU_FORMAT_A8R8G8B8_UNORM", 3);
   ("virtio_gpu_formats_VIRTIO_GPU_FORMAT_X8R8G8B8_UNORM", 4);
   ("virtio_gpu_formats_VIRTIO_GPU_FORMAT_R8G8B8A8_UNORM", 67);
   ("virtio_gpu_formats_VIRTIO_GPU_FORMAT_X8B8G8R8_UNORM", 68);
   ("virtio_gpu_formats_VIRTIO_GPU_FORMAT_A8B8G8R8_UNORM", 121);
   ("virtio_gpu_formats_VIRTIO_GPU_FORMAT_R8G8B8X8_UNORM", 134)].
