(* ===== verification/Bindings.v ===== *)
(** * The bindings as a whole

    What the generated files of virtio-bindings state holds on every
    architecture, and the crates that use their own definitions of the same
    formats agree with them: the descriptors and ring elements of
    virtio-queue, the request header and segments of virtio-blk, the header
    of NetHeader.v, and the addresses at which the queue reads and writes the
    rings. *)

From stdpp Require Import base numbers list option strings.
From Stdlib Require Import ZArith Lia.
From S2P Require Import Prelude Bytes GuestMemory FlatMemory Descriptor Chain Queue QueueFacts VirtioDevice Mmio BlkRequest BlkExecutor NetHeader Layout BindingsTarget BindingsRing BindingsDevices BindingsNet BindingsGpu BindingsConsts.

(** ** The assertions *)

Definition all_blocks (a : arch) : list (ctype * checks) :=
  virtio_ring_blocks a ++ virtio_blk_blocks a ++ virtio_scsi_blocks a ++ virtio_input_blocks a
  ++ virtio_net_blocks a ++ virtio_gpu_blocks a.

Definition block_passes (a : arch) (b : ctype * checks) : bool :=
  ctype_ok b.1 && checks_pass (abi_of a) b.1 b.2.

(** The targets come in four layouts. *)
Definition representative (a : arch) : arch :=
  match a with
  | Aarch64 | Loongarch64 | Mips64 | Mips64r6 | Powerpc64 | Riscv64 | S390x | Sparc64 | X86_64 => X86_64
  | Arm | Hexagon | Mips | Mips32r6 | Powerpc | Riscv32 | Sparc => Arm
  | X86 => X86
  | M68k => M68k
  end.

Lemma all_blocks_representative a :
  abi_of a = abi_of (representative a) /\ all_blocks a = all_blocks (representative a).
Proof. by destruct a. Qed.

Lemma all_blocks_pass a : a <> M68k -> forallb (block_passes a) (all_blocks a) = true.
Proof.
  intros Ha. destruct (all_blocks_representative a) as [HA ->]. unfold block_passes. rewrite HA.
  destruct a; try done; vm_compute; reflexivity.
Qed.

(** On m68k the file of virtio_ring.h asserts alignments that only natural alignment gives, for
    structs of 32-bit integers and of pointers; how 64-bit integers are aligned does not matter. *)
Lemma m68k_ring_fails u :
  checks_pass (m68k_abi u) vring_used_elem (vring_used_elem_checks M68k) = false /\
  checks_pass (m68k_abi u) vring (vring_checks M68k) = false.
Proof.
  split; apply not_true_iff_false; intros (_ & Ha & _)%checks_pass_spec; by vm_compute in Ha.
Qed.

(** What a block says of its type on a target: the numbers are the ones of the layout, and the
    layout is sound. *)
Record block_holds (A : abi) (t : ctype) (c : checks) : Prop := {
  bh_size : size_of A t = ck_size c;
  bh_align : align_of A t = ck_align c;
  bh_offsets : Forall (fun e => offset_of A t e.1 = Some e.2) (ck_offsets c);
  bh_whole : 0 <= size_of A t /\ 0 < align_of A t /\ (align_of A t | size_of A t);
  bh_fields : forall i f o,
    fields_of t !! i = Some f -> field_offsets A t !! i = Some o -> field_sound A t i f o;
}.


(** ** Formats the crates define themselves *)

(** An integer in the byte order of a host, [true] for the most significant byte first; a struct
    of such integers without padding. *)
Definition native_bytes (big : bool) (w : nat) (v : Z) : list Z :=
  if big then reverse (le_bytes w v) else le_bytes w v.
Definition native_value (big : bool) (bs : list Z) : Z :=
  le_value (if big then reverse bs else bs).

Fixpoint encode_native (big : bool) (ws : list nat) (vs : list Z) : list Z :=
  match ws, vs with
  | w :: ws, v :: vs => native_bytes big w v ++ encode_native big ws vs
  | _, _ => []
  end.

Fixpoint decode_native (big : bool) (ws : list nat) (bs : list Z) : list Z :=
  match ws with
  | [] => []
  | w :: ws => native_value big (take w bs) :: decode_native big ws (drop w bs)
  end.

Lemma decode_native_little ws bs : decode_native false ws bs = decode_fields ws bs.
Proof. revert bs. induction ws as [|w ws IH]; intros bs; simpl; [done|]. by rewrite IH. Qed.

Lemma encode_native_little ws vs : encode_native false ws vs = encode_fields ws vs.
Proof. revert vs. induction ws as [|w ws IH]; intros [|v vs]; simpl; [done..|]. by rewrite IH. Qed.

Lemma length_native_bytes big w v : length (native_bytes big w v) = w.
Proof. unfold native_bytes. destruct big; by rewrite ?length_reverse, length_le_bytes. Qed.

Lemma native_value_bytes big w v :
  in_u (8 * Z.of_nat w) v -> native_value big (native_bytes big w v) = v.
Proof.
  intros Hv. unfold native_value, native_bytes.
  destruct big; rewrite ?reverse_involutive; by apply le_value_bytes.
Qed.

Lemma length_encode_native big ws vs :
  length vs = length ws -> length (encode_native big ws vs) = sum_list ws.
Proof.
  revert vs. induction ws as [|w ws IH]; intros [|v vs] Hl; simplify_eq/=; [done|].
  by rewrite length_app, length_native_bytes, IH.
Qed.

Lemma decode_encode_native big ws vs :
  fields_ok ws vs -> decode_native big ws (encode_native big ws vs) = vs.
Proof.
  revert vs. induction ws as [|w ws IH]; intros [|v vs] Hok; try by inversion Hok.
  apply fields_ok_cons in Hok as [Hv Hok]. simpl.
  rewrite take_app_length', drop_app_length' by (by rewrite length_native_bytes).
  by rewrite native_value_bytes, IH.
Qed.

(** The value of an integer field at an offset. *)
Definition read_at (big : bool) (bs : list Z) (o s : Z) : Z :=
  native_value big (take (Z.to_nat s) (drop (Z.to_nat o) bs)).

(** The fields of a struct, read from its bytes at the offsets of the bindings. *)
Definition read_fields (big : bool) (A : abi) (t : ctype) (bs : list Z) : list (string * Z) :=
  zip_with (fun f o => (f.1, read_at big bs o (size_of A f.2))) (fields_of t) (field_offsets A t).

(** Fields of the widths [ws] lie one after the other from [pos] on. *)
Fixpoint adjacent (A : abi) (pos : nat) (fs : list (string * ctype)) (os : list Z) (ws : list nat) : bool :=
  match fs, os, ws with
  | [], [], [] => true
  | f :: fs, o :: os, w :: ws =>
      (o =? Z.of_nat pos) && (size_of A f.2 =? Z.of_nat w) && adjacent A (pos + w) fs os ws
  | _, _, _ => false
  end.

Lemma adjacent_read big A fs os ws pos bs : adjacent A pos fs os ws = true ->
  (zip_with (fun f o => (f.1, read_at big bs o (size_of A f.2))) fs os) =
  zip fs.*1 (decode_native big ws (drop pos bs)).
Proof.
  revert os ws pos. induction fs as [|f fs IH]; intros [|o os] [|w ws] pos Hd; try done.
  cbn [adjacent] in Hd. rewrite !andb_true_iff, !Z.eqb_eq in Hd. destruct Hd as [[-> Hs] Hd].
  simpl. rewrite (IH _ _ _ Hd), drop_drop. unfold read_at. by rewrite Hs, !Nat2Z.id.
Qed.

(** The fields [ws] fill the struct [t]. *)
Definition fills (a : arch) (t : ctype) (ws : list nat) : bool :=
  adjacent (abi_of a) 0 (fields_of t) (field_offsets (abi_of a) t) ws
    && (Z.of_nat (sum_list ws) =? size_of (abi_of a) t).

Lemma fills_format big a t ws vs : fills a t ws = true -> fields_ok ws vs ->
  Z.of_nat (length (encode_native big ws vs)) = size_of (abi_of a) t /\
  read_fields big (abi_of a) t (encode_native big ws vs) = zip (fields_of t).*1 vs.
Proof.
  unfold fills. rewrite andb_true_iff, Z.eqb_eq. intros [Hd Hs] Hok. split.
  - rewrite length_encode_native; [done|]. symmetry. by eapply Forall2_length.
  - unfold read_fields. rewrite (adjacent_read _ _ _ _ ws 0) by done.
    by rewrite drop_0, decode_encode_native.
Qed.

(** A format whose fields are little-endian types is the struct [t]: the object has the size of
    [t], and [t]'s fields, read as little-endian integers where the bindings place them, are the
    object's. *)
Definition same_format {T} `{ByteValued T} (a : arch) (t : ctype) (x : T)
    (fields : list (string * Z)) : Prop :=
  Z.of_nat (length (bv_encode x)) = size_of (abi_of a) t /\
  read_fields false (abi_of a) t (bv_encode x) = fields.

(** A format whose fields are plain integers: on a host of either byte order its bytes [bs] are
    those of the struct [t] of that host, and on a little-endian host they are the ones the
    other files work with. *)
Definition same_native_format {T} `{ByteValued T} (big : bool) (a : arch) (t : ctype) (x : T)
    (bs : list Z) (fields : list (string * Z)) : Prop :=
  Z.of_nat (length bs) = size_of (abi_of a) t /\
  read_fields big (abi_of a) t bs = fields /\
  (big = false -> bs = bv_encode x).

Lemma struct_same_format {T} (ws : list nat) (fields : T -> list Z) build a t x l :
  fills a t ws = true ->
  zip (fields_of t).*1 (fields x) = l -> fields_ok ws (fields x) ->
  same_format (T := T) (H := struct_bv ws fields build) a t x l.
Proof.
  intros Hf <- Hok. unfold same_format. simpl. rewrite <- encode_native_little.
  by apply fills_format.
Qed.

Lemma struct_native_format {T} (ws : list nat) (fields : T -> list Z) build big a t x l :
  fills a t ws = true ->
  zip (fields_of t).*1 (fields x) = l -> fields_ok ws (fields x) ->
  same_native_format (T := T) (H := struct_bv ws fields build) big a t x
    (encode_native big ws (fields x)) l.
Proof.
  intros Hf <- Hok. destruct (fills_format big a t ws (fields x) Hf Hok) as [? ?].
  split_and!; [done|done|]. intros ->. simpl. apply encode_native_little.
Qed.

(** A target is decided by case analysis, as the numbers are the same within a model. *)
Ltac each_arch a := destruct a; vm_compute; reflexivity.

(** C23: the formats that virtio-queue and virtio-blk define themselves are those of the kernel's
    headers, on every architecture: an object has as many bytes as the struct, and reading the
    struct's fields at their offsets gives the object's fields.  Split and packed descriptors, the
    event suppression structure and used ring elements are declared with little-endian types, so
    their bytes and the reading are little-endian everywhere.  The header of a block request and
    the segments of discard requests are declared with plain integers: their bytes are in the
    order of the host, and the struct read in that order has the fields; the bytes are the
    little-endian ones of the request model exactly on the hosts it assumes. *)
Theorem formats_match_bindings a big :
  (forall d : Descriptor, bv_wf d -> same_format a vring_desc d
     [("addr", d_addr d); ("len", d_len d); ("flags", d_flags d); ("next", d_next d)]) /\
  (forall d : PackedDescriptor, bv_wf d -> same_format a vring_packed_desc d
     [("addr", p_addr d); ("len", p_len d); ("id", p_id d); ("flags", p_flags d)]) /\
  (forall e : PackedDescEvent, bv_wf e -> same_format a vring_packed_desc_event e
     [("off_wrap", off_wrap e); ("flags", event_flags e)]) /\
  (forall e : VirtqUsedElem, bv_wf e -> same_format a vring_used_elem e
     [("id", ue_id e); ("len", ue_len e)]) /\
  (forall h : RequestHeader, bv_wf h -> same_native_format big a virtio_blk_outhdr h
     (encode_native big [4; 4; 8]%nat [h_request_type h; h_reserved h; h_sector h])
     [("type_", h_request_type h); ("ioprio", h_reserved h); ("sector", h_sector h)]) /\
  (forall s : DiscardWriteZeroes, bv_wf s ->
     same_native_format big a virtio_blk_discard_write_zeroes s
       (encode_native big [8; 4; 4]%nat [dwz_sector s; dwz_num_sectors s; dwz_flags s])
       [("sector", dwz_sector s); ("num_sectors", dwz_num_sectors s); ("flags", dwz_flags s)]).
Proof.
  split_and!; intros x Hx;
    try (eapply struct_same_format; [each_arch a|done|exact Hx]).
  - eapply (struct_native_format _ (fun h => [h_request_type h; h_reserved h; h_sector h]));
      [each_arch a|done|exact Hx].
  - eapply (struct_native_format _ (fun s => [dwz_sector s; dwz_num_sectors s; dwz_flags s]));
      [each_arch a|done|exact Hx].
Qed.

(** The specification stores requests in little-endian order.  A big-endian host reads the header
    of a write as one of an unsupported type. *)
Lemma request_header_big_endian :
  read_fields true (abi_of S390x) virtio_blk_outhdr (bv_encode (mk_header VIRTIO_BLK_T_OUT 0 2)) =
    [("type_", 0x1000000); ("ioprio", 0); ("sector", 0x200000000000000)] /\
  request_type_from 0x1000000 = UnsupportedType 0x1000000.
Proof. split; vm_compute; reflexivity. Qed.

(** The header of network packets, on a little-endian host: its bytes are the struct's fields, the four bytes of the
    union have the same two integers in each of its three variants, and the default value is
    zeroed storage. *)
Lemma net_header_matches a h : net_hdr_ok h ->
  Z.of_nat (length (net_hdr_bytes h)) = size_of (abi_of a) virtio_net_hdr_v1_t /\
  read_fields false (abi_of a) virtio_net_hdr_v1_t (net_hdr_bytes h) =
    [("flags", nh_flags h); ("gso_type", nh_gso_type h); ("hdr_len", nh_hdr_len h);
     ("gso_size", nh_gso_size h); ("__bindgen_anon_1", le_value (un_bytes (nh_union h)));
     ("num_buffers", nh_num_buffers h)] /\
  Forall (fun v => (read_fields false (abi_of a) v.2 (un_bytes (nh_union h))).*2 =
                   [csum_start (union_csum (nh_union h)); csum_offset (union_csum (nh_union h))])
    (fields_of virtio_net_hdr_v1__bindgen_ty_1) /\
  net_hdr_bytes net_hdr_default = zeroed (abi_of a) virtio_net_hdr_v1_t.
Proof.
  intros [Hh [Hul Hub] Ht].
  assert (net_hdr_bytes h = encode_fields [1; 1; 2; 2; 4; 2]%nat
    [nh_flags h; nh_gso_type h; nh_hdr_len h; nh_gso_size h; le_value (un_bytes (nh_union h));
     nh_num_buffers h]) as ->.
  { unfold net_hdr_bytes. cbn [encode_fields]. rewrite <- Hul, le_bytes_value by done.
    by rewrite <- !(assoc_L (++)). }
  rewrite length_encode_fields by done. split_and!.
  - each_arch a.
  - unfold read_fields. rewrite (adjacent_read _ _ _ _ [1; 1; 2; 2; 4; 2]%nat 0) by each_arch a.
    rewrite drop_0, decode_native_little, decode_encode_fields; [done|].
    rewrite !fields_ok_cons in *. destruct Hh as (? & ? & ? & ? & _), Ht as [? _].
    split_and!; try done; [rewrite <- Hul; by apply le_value_range|apply fields_ok_nil].
  - repeat constructor; unfold read_fields; rewrite (adjacent_read _ _ _ _ [2; 2]%nat 0) by each_arch a;
      by rewrite drop_0, decode_native_little.
  - each_arch a.
Qed.

(** ** Addresses in the rings *)

(** The address of a field, of an element of the flexible array of a ring, and of an element of
    the descriptor table, for a structure at [base]. *)
Definition member_at (a : arch) (t : ctype) (base : Z) (name : string) : option Z :=
  o ← offset_of (abi_of a) t name; Some (base + o).

Definition element_at (a : arch) (elem : ctype) (base i : Z) : option Z :=
  incomplete_as_slice (abi_of a) elem base (i + 1) !! Z.to_nat i.

Definition slot_at (a : arch) (t elem : ctype) (base i : Z) : option Z :=
  ring ← member_at a t base "ring"; element_at a elem ring i.

Lemma element_at_eq a elem base i : 0 <= i ->
  element_at a elem base i = Some (base + i * size_of (abi_of a) elem).
Proof.
  intros Hi. unfold element_at, incomplete_as_slice, incomplete_as_ptr.
  rewrite list_lookup_fmap, (proj2 (lookup_seqZ 0 (i + 1) (Z.to_nat i) i)) by lia. done.
Qed.

Lemma avail_slot_eq a base i : 0 <= i ->
  slot_at a vring_avail __virtio16 base i =
  Some (base + (VIRTQ_AVAIL_RING_HEADER_SIZE + i * VIRTQ_AVAIL_ELEMENT_SIZE)).
Proof.
  intros Hi. unfold slot_at, member_at.
  replace (offset_of (abi_of a) vring_avail "ring") with (Some VIRTQ_AVAIL_RING_HEADER_SIZE) by each_arch a.
  simpl. rewrite element_at_eq by done.
  replace (size_of (abi_of a) __virtio16) with VIRTQ_AVAIL_ELEMENT_SIZE by each_arch a. f_equal. lia.
Qed.

Lemma used_slot_eq a base i : 0 <= i ->
  slot_at a vring_used vring_used_elem_t base i =
  Some (base + (VIRTQ_USED_RING_HEADER_SIZE + i * VIRTQ_USED_ELEMENT_SIZE)).
Proof.
  intros Hi. unfold slot_at, member_at.
  replace (offset_of (abi_of a) vring_used "ring") with (Some VIRTQ_USED_RING_HEADER_SIZE) by each_arch a.
  simpl. rewrite element_at_eq by done.
  replace (size_of (abi_of a) vring_used_elem_t) with VIRTQ_USED_ELEMENT_SIZE by each_arch a. f_equal. lia.
Qed.

Lemma desc_element_eq a base i : 0 <= i ->
  element_at a vring_desc base i = Some (base + i * Z.of_nat (bv_size Descriptor)).
Proof.
  intros Hi. rewrite element_at_eq by done.
  by replace (size_of (abi_of a) vring_desc) with (Z.of_nat (bv_size Descriptor)) by each_arch a.
Qed.

(** The rings of the queue end below [2^64]. *)
Record rings_fit (q : Queue) : Prop := {
  rf_size : 0 < q_size q;
  rf_next : 0 <= q_next_avail q /\ 0 <= q_next_used q;
  rf_avail : q_avail_ring q + VIRTQ_AVAIL_RING_META_SIZE + VIRTQ_AVAIL_ELEMENT_SIZE * q_size q <= 2 ^ 64;
  rf_used : q_used_ring q + VIRTQ_USED_RING_META_SIZE + VIRTQ_USED_ELEMENT_SIZE * q_size q <= 2 ^ 64;
}.

Section RingOperations.
Context {M : Type} `{GuestMemory M}.
Context (a : arch).

(** Reading and writing at an address the layout gives. *)
Definition load_at (addr : option Z) (order : Ordering) : RM (Queue * M) Error u16 :=
  addr ← unwrap addr; mem_load addr order.
Definition store_at (val : u16) (addr : option Z) (order : Ordering) : RM (Queue * M) Error unit :=
  addr ← unwrap addr; mem_store val addr order.

(** The accesses of the queue, written with the structs of the bindings: the index of the
    available ring is [avail->idx], the event fields come after the last element of the rings. *)
Definition c_avail_idx (q : Queue) (order : Ordering) : RM (Queue * M) Error u16 :=
  load_at (member_at a vring_avail (q_avail_ring q) "idx") order.
Definition c_used_idx (q : Queue) (order : Ordering) : RM (Queue * M) Error u16 :=
  load_at (member_at a vring_used (q_used_ring q) "idx") order.
Definition c_used_event (q : Queue) (order : Ordering) : RM (Queue * M) Error u16 :=
  load_at (slot_at a vring_avail __virtio16 (q_avail_ring q) (q_size q)) order.
Definition c_set_avail_event (q : Queue) (val : u16) (order : Ordering) : RM (Queue * M) Error unit :=
  store_at val (slot_at a vring_used vring_used_elem_t (q_used_ring q) (q_size q)) order.
Definition c_set_used_flags (q : Queue) (val : u16) (order : Ordering) : RM (Queue * M) Error unit :=
  store_at val (member_at a vring_used (q_used_ring q) "flags") order.

(** [used->ring[next_used % size] = elem], then [used->idx = next_used + 1]. *)
Definition c_add_used (q : Queue) (head_index : u16) (len : u32) : RM (Queue * M) Error unit :=
  addr ← unwrap (slot_at a vring_used vring_used_elem_t (q_used_ring q) (q_next_used q mod q_size q));
  _ ← mem_write_obj (used_elem_new head_index len) addr;
  _ ← update_queue (fun q => with_next_used (wadd 16 (q_next_used q) 1) q);
  _ ← update_queue (fun q => with_num_added (wadd 16 (q_num_added q) 1) q);
  store_at (wadd 16 (q_next_used q) 1) (member_at a vring_used (q_used_ring q) "idx") Release.

(** [avail->ring[next_avail % size]]: the head of the next chain. *)
Definition c_avail_head (q : Queue) (m : M) : option u16 :=
  addr ← slot_at a vring_avail __virtio16 (q_avail_ring q) (q_next_avail q mod q_size q);
  to_option (gm_load16 m addr).

(** [desc[i]]. *)
Definition c_descriptor (table i : Z) (m : M) : option Descriptor :=
  addr ← element_at a vring_desc table i; to_option (read_obj Descriptor m addr).

Lemma member_at_idx base :
  member_at a vring_avail base "idx" = Some (base + 2) /\ member_at a vring_used base "idx" = Some (base + 2).
Proof. destruct a; done. Qed.

Lemma member_at_flags base : member_at a vring_used base "flags" = Some (base + 0).
Proof. destruct a; done. Qed.

Lemma checked_add_fits x o : x + o < 2 ^ 64 -> checked_add 64 x o = Some (x + o).
Proof. intros Hlt. unfold checked_add. by rewrite (proj2 (Z.ltb_lt _ _) Hlt). Qed.

Lemma next_mod (x n : Z) : 0 < n -> 0 <= x mod n < n.
Proof. apply Z.mod_pos_bound. Qed.

(** The addresses in the rings, each the sum the code computes. *)
Ltac ring_bounds Hq :=
  destruct Hq as [Hsize [Hna Hnu] Hav Hus];
  unfold VIRTQ_AVAIL_RING_META_SIZE, VIRTQ_USED_RING_META_SIZE, VIRTQ_AVAIL_RING_HEADER_SIZE,
    VIRTQ_USED_RING_HEADER_SIZE, VIRTQ_AVAIL_ELEMENT_SIZE, VIRTQ_USED_ELEMENT_SIZE in *.

Lemma c_add_used_eq q m head_index len : rings_fit q -> head_index < q_size q ->
  add_used head_index len (q, m) = c_add_used q head_index len (q, m).
Proof.
  intros Hq Hh. unfold c_add_used, add_used, store_at.
  rewrite (proj2 (member_at_idx _)), used_slot_eq by (apply next_mod, (rf_size q Hq)).
  ring_bounds Hq. pose proof (next_mod (q_next_used q) (q_size q) Hsize).
  unfold queue_of, update_queue, checked_rem. rm_unfold.
  rewrite Z.geb_leb, (proj2 (Z.leb_gt _ _) Hh), (proj2 (Z.eqb_neq (q_size q) 0)) by lia.
  rewrite checked_add_fits by lia. simpl.
  destruct (write_obj m (used_elem_new head_index len) _) as [m' [[]|]]; [|done].
  simpl. rewrite checked_add_fits by (simpl; lia). done.
Qed.

Lemma c_avail_next_eq q m idx it : rings_fit q -> avail_iter_new idx q = Ok it -> q_next_avail q <> idx ->
  avail_next it (q, m) =
  match c_avail_head q m with
  | Some head => Some ((with_next_avail (wadd 16 (q_next_avail q) 1) q, m),
                       Ok (Some (chain_new (q_desc_table q) (q_size q) head)))
  | None => Some ((q, m), Ok None)
  end.
Proof.
  intros Hq Hit Hne. unfold avail_iter_new in Hit. case_match; simplify_eq.
  unfold c_avail_head, avail_next, checked_rem. cbn [it_last_index it_queue_size it_avail_ring it_desc_table].
  rewrite avail_slot_eq by (apply next_mod, (rf_size q Hq)).
  ring_bounds Hq. pose proof (next_mod (q_next_avail q) (q_size q) Hsize).
  rewrite (proj2 (Z.eqb_neq _ _) Hne), (proj2 (Z.eqb_neq (q_size q) 0)) by lia.
  rewrite checked_add_fits by lia. simpl. by destruct (gm_load16 m _).
Qed.

(** C22: the queue reads and writes the rings where the structs of the kernel's headers have their
    fields, on every architecture.  The index of either ring is the field [idx], the flags of the
    used ring [flags], a chain's head and a used element the element [i mod size] of the flexible
    array [ring], the event fields the place after the last element, and descriptors the elements
    of an array of [vring_desc]; the operations do exactly these accesses. *)
Theorem ring_operations_match q m : rings_fit q ->
  (forall order, avail_idx order (q, m) = c_avail_idx q order (q, m)) /\
  (forall order, used_idx order (q, m) = c_used_idx q order (q, m)) /\
  (forall order, used_event order (q, m) = c_used_event q order (q, m)) /\
  (forall val order, set_avail_event val order (q, m) = c_set_avail_event q val order (q, m)) /\
  (forall val order, set_used_flags val order (q, m) = c_set_used_flags q val order (q, m)) /\
  (forall head_index len, head_index < q_size q ->
     add_used head_index len (q, m) = c_add_used q head_index len (q, m)) /\
  (forall idx it, avail_iter_new idx q = Ok it -> q_next_avail q <> idx ->
     avail_next it (q, m) =
     match c_avail_head q m with
     | Some head => Some ((with_next_avail (wadd 16 (q_next_avail q) 1) q, m),
                          Ok (Some (chain_new (q_desc_table q) (q_size q) head)))
     | None => Some ((q, m), Ok None)
     end) /\
  (forall c, c_ttl c <> 0 -> 0 <= c_next_index c < c_queue_size c ->
     c_desc_table c + c_queue_size c * size_of (abi_of a) vring_desc <= 2 ^ 64 ->
     match c_descriptor (c_desc_table c) (c_next_index c) m with
     | None => chain_next m c = (c, None)
     | Some d => refers_to_indirect_table d = false -> c_yielded_bytes c + d_len d < 2 ^ 32 ->
         chain_next m c = (advance c d (c_yielded_bytes c + d_len d), Some d)
     end).
Proof.
  intros Hq. split_and!; try intros ?.
  - unfold c_avail_idx, avail_idx, load_at, queue_of. rewrite (proj1 (member_at_idx _)). ring_bounds Hq.
    rm_unfold. by rewrite checked_add_fits by lia.
  - unfold c_used_idx, used_idx, load_at, queue_of. rewrite (proj2 (member_at_idx _)). ring_bounds Hq.
    rm_unfold. by rewrite checked_add_fits by lia.
  - unfold c_used_event, used_event, load_at, queue_of. rewrite avail_slot_eq by (apply Z.lt_le_incl, Hq).
    ring_bounds Hq. rm_unfold. by rewrite checked_add_fits by lia.
  - intros order. unfold c_set_avail_event, set_avail_event, store_at, queue_of.
    rewrite used_slot_eq by (apply Z.lt_le_incl, Hq). ring_bounds Hq. rm_unfold.
    rewrite (Z.mul_comm 8), checked_add_fits by lia. done.
  - intros order. unfold c_set_used_flags, set_used_flags, store_at, queue_of. rewrite member_at_flags.
    rm_unfold. by rewrite Z.add_0_r.
  - intros len Hh. by apply c_add_used_eq.
  - intros it Hit Hne. by eapply c_avail_next_eq.
  - intros Httl Hi Hfit. unfold c_descriptor. rewrite desc_element_eq by lia.
    replace (size_of (abi_of a) vring_desc) with (Z.of_nat (bv_size Descriptor)) in Hfit by each_arch a.
    unfold chain_next. cbn [next_fuel].
    rewrite (proj2 (Z.eqb_neq _ _) Httl), Z.geb_leb, (proj2 (Z.leb_gt _ _) (proj2 Hi)).
    change (Z.of_nat (bv_size Descriptor)) with 16 in *. rewrite checked_add_fits by nia. simpl.
    destruct (read_obj Descriptor m _) as [d|]; [|done]. simpl. intros Hd Hy. rewrite Hd.
    unfold checked_add. by rewrite (proj2 (Z.ltb_lt _ _) Hy).
Qed.
End RingOperations.

(** ** Alignment of the rings *)

(** Every field of a [t] at [base] is aligned. *)
Definition fields_aligned (a : arch) (t : ctype) (base : Z) : Prop :=
  forall i f o, fields_of t !! i = Some f -> field_offsets (abi_of a) t !! i = Some o ->
    (align_of (abi_of a) f.2 | base + o).

Lemma struct_fields_aligned a fs base : ctype_ok (TStruct false fs) = true ->
  (align_of (abi_of a) (TStruct false fs) | base) -> fields_aligned a (TStruct false fs) base.
Proof.
  intros Hok Hb i f o Hf Ho.
  by apply (fs_aligned _ _ _ _ _ (struct_field_sound _ _ _ _ _ _ (abi_of_ok a) Hok Hf Ho)).
Qed.

Lemma mask_divide x n : 0 <= n -> negb (Z.land x (2 ^ n - 1) =? 0) = false -> (2 ^ n | x).
Proof. intros Hn Hc. apply Z.mod_divide; [lia|]. by apply mask_zero. Qed.

(** C38: addresses that the setters of the queue accept are aligned for what lies there, on every
    architecture: the header of either ring, its elements, and each descriptor. *)
Theorem accepted_addresses_aligned a q q' x i : 0 <= i ->
  (try_set_desc_table_address x q = Ok q' ->
     fields_aligned a vring_desc (x + i * size_of (abi_of a) vring_desc)) /\
  (try_set_avail_ring_address x q = Ok q' ->
     fields_aligned a vring_avail x /\
     exists p, slot_at a vring_avail __virtio16 x i = Some p /\ (align_of (abi_of a) __virtio16 | p)) /\
  (try_set_used_ring_address x q = Ok q' ->
     fields_aligned a vring_used x /\
     exists p, slot_at a vring_used vring_used_elem_t x i = Some p /\
       fields_aligned a vring_used_elem_t p).
Proof.
  intros Hi. split_and!; intros Hset.
  - unfold try_set_desc_table_address in Hset. case_match eqn:Hc; [done|].
    apply (mask_divide x 4) in Hc; [|done]. apply struct_fields_aligned; [done|].
    change (TStruct false _) with vring_desc. apply Z.divide_add_r.
    + etrans; [|exact Hc]. destruct a; by apply Z.mod_divide.
    + apply Z.divide_mul_r. destruct a; by apply Z.mod_divide.
  - unfold try_set_avail_ring_address in Hset. case_match eqn:Hc; [done|].
    apply (mask_divide x 1) in Hc; [|done]. split.
    + apply struct_fields_aligned; [done|]. by destruct a.
    + eexists. split; [by apply avail_slot_eq|].
      replace (align_of (abi_of a) __virtio16) with 2 by (by destruct a).
      destruct Hc as [k ->]. exists (k + 2 + i). unfold VIRTQ_AVAIL_RING_HEADER_SIZE, VIRTQ_AVAIL_ELEMENT_SIZE. lia.
  - unfold try_set_used_ring_address in Hset. case_match eqn:Hc; [done|].
    apply (mask_divide x 2) in Hc; [|done]. split.
    + apply struct_fields_aligned; [done|]. etrans; [|exact Hc]. destruct a; by apply Z.mod_divide.
    + eexists. split; [by apply used_slot_eq|]. apply struct_fields_aligned; [done|].
      change (TStruct false _) with vring_used_elem.
      trans 4; [destruct a; by apply Z.mod_divide|].
      destruct Hc as [k ->]. exists (k + 1 + 2 * i). unfold VIRTQ_USED_RING_HEADER_SIZE, VIRTQ_USED_ELEMENT_SIZE. lia.
Qed.

(** ** Constants *)

Definition all_constants (a : arch) : list constant :=
  virtio_ring_constants ++ virtio_config_constants ++ virtio_mmio_constants ++ virtio_ids_constants
  ++ virtio_blk_constants ++ virtio_scsi_constants ++ virtio_net_constants
  ++ virtio_input_config_select_values a ++ virtio_gpu_constants ++ virtio_gpu_ctrl_type_values a
  ++ virtio_gpu_shm_id_values a ++ virtio_gpu_formats_values a.

Definition constant_fits (c : constant) : bool := in_ub (8 * prim_size c.1.2) c.2.

Definition value_of (name : string) (l : list constant) : option Z :=
  (fun e => e.2.2) <$> list_find (fun c : constant => c.1.1 = name) l.

(** The constants that the models of the other crates use, under the names they import. *)
Definition used_constants : list (string * Z) :=
  [("VRING_DESC_F_NEXT", VRING_DESC_F_NEXT); ("VRING_DESC_F_WRITE", VRING_DESC_F_WRITE);
   ("VRING_DESC_F_INDIRECT", VRING_DESC_F_INDIRECT); ("VRING_USED_F_NO_NOTIFY", VRING_USED_F_NO_NOTIFY);
   ("VRING_DESC_ALIGN_SIZE", VRING_DESC_ALIGN_SIZE); ("VIRTIO_RING_F_EVENT_IDX", VIRTIO_F_RING_EVENT_IDX);
   ("VIRTIO_CONFIG_S_ACKNOWLEDGE", ACKNOWLEDGE); ("VIRTIO_CONFIG_S_DRIVER", DRIVER);
   ("VIRTIO_CONFIG_S_DRIVER_OK", DRIVER_OK); ("VIRTIO_CONFIG_S_FEATURES_OK", FEATURES_OK);
   ("VIRTIO_CONFIG_S_FAILED", FAILED);
   ("VIRTIO_MMIO_MAGIC_VALUE", VIRTIO_MMIO_MAGIC_VALUE); ("VIRTIO_MMIO_VERSION", VIRTIO_MMIO_VERSION);
   ("VIRTIO_MMIO_DEVICE_ID", VIRTIO_MMIO_DEVICE_ID); ("VIRTIO_MMIO_VENDOR_ID", VIRTIO_MMIO_VENDOR_ID);
   ("VIRTIO_MMIO_DEVICE_FEATURES", VIRTIO_MMIO_DEVICE_FEATURES);
   ("VIRTIO_MMIO_DEVICE_FEATURES_SEL", VIRTIO_MMIO_DEVICE_FEATURES_SEL);
   ("VIRTIO_MMIO_DRIVER_FEATURES", VIRTIO_MMIO_DRIVER_FEATURES);
   ("VIRTIO_MMIO_DRIVER_FEATURES_SEL", VIRTIO_MMIO_DRIVER_FEATURES_SEL);
   ("VIRTIO_MMIO_QUEUE_SEL", VIRTIO_MMIO_QUEUE_SEL); ("VIRTIO_MMIO_QUEUE_NUM_MAX", VIRTIO_MMIO_QUEUE_NUM_MAX);
   ("VIRTIO_MMIO_QUEUE_NUM", VIRTIO_MMIO_QUEUE_NUM); ("VIRTIO_MMIO_QUEUE_READY", VIRTIO_MMIO_QUEUE_READY);
   ("VIRTIO_MMIO_QUEUE_NOTIFY", VIRTIO_MMIO_QUEUE_NOTIFY);
   ("VIRTIO_MMIO_INTERRUPT_STATUS", VIRTIO_MMIO_INTERRUPT_STATUS);
   ("VIRTIO_MMIO_INTERRUPT_ACK", VIRTIO_MMIO_INTERRUPT_ACK); ("VIRTIO_MMIO_STATUS", VIRTIO_MMIO_STATUS);
   ("VIRTIO_MMIO_QUEUE_DESC_LOW", VIRTIO_MMIO_QUEUE_DESC_LOW);
   ("VIRTIO_MMIO_QUEUE_DESC_HIGH", VIRTIO_MMIO_QUEUE_DESC_HIGH);
   ("VIRTIO_MMIO_QUEUE_AVAIL_LOW", VIRTIO_MMIO_QUEUE_AVAIL_LOW);
   ("VIRTIO_MMIO_QUEUE_AVAIL_HIGH", VIRTIO_MMIO_QUEUE_AVAIL_HIGH);
   ("VIRTIO_MMIO_QUEUE_USED_LOW", VIRTIO_MMIO_QUEUE_USED_LOW);
   ("VIRTIO_MMIO_QUEUE_USED_HIGH", VIRTIO_MMIO_QUEUE_USED_HIGH);
   ("VIRTIO_MMIO_CONFIG_GENERATION", VIRTIO_MMIO_CONFIG_GENERATION); ("VIRTIO_MMIO_CONFIG", VIRTIO_MMIO_CONFIG);
   ("VIRTIO_BLK_T_IN", VIRTIO_BLK_T_IN); ("VIRTIO_BLK_T_OUT", VIRTIO_BLK_T_OUT);
   ("VIRTIO_BLK_T_FLUSH", VIRTIO_BLK_T_FLUSH); ("VIRTIO_BLK_T_GET_ID", VIRTIO_BLK_T_GET_ID);
   ("VIRTIO_BLK_T_DISCARD", VIRTIO_BLK_T_DISCARD); ("VIRTIO_BLK_T_WRITE_ZEROES", VIRTIO_BLK_T_WRITE_ZEROES);
   ("VIRTIO_BLK_F_RO", VIRTIO_BLK_F_RO); ("VIRTIO_BLK_F_FLUSH", VIRTIO_BLK_F_FLUSH);
   ("VIRTIO_BLK_F_DISCARD", VIRTIO_BLK_F_DISCARD); ("VIRTIO_BLK_F_WRITE_ZEROES", VIRTIO_BLK_F_WRITE_ZEROES);
   ("VIRTIO_BLK_ID_BYTES", VIRTIO_BLK_ID_BYTES); ("VIRTIO_BLK_S_OK", VIRTIO_BLK_S_OK);
   ("VIRTIO_BLK_S_IOERR", VIRTIO_BLK_S_IOERR); ("VIRTIO_BLK_S_UNSUPP", VIRTIO_BLK_S_UNSUPP)].

Lemma all_constants_cases a :
  all_constants a = all_constants X86_64 \/ all_constants a = all_constants Hexagon.
Proof. destruct a; auto. Qed.

(** Every constant is a value of the type it is declared with, also where enumerations are
    short, and the models use the values of the tables. *)
Theorem constants_agree a :
  forallb constant_fits (all_constants a) = true /\
  Forall (fun e => value_of e.1 (all_constants a) = Some e.2) used_constants.
Proof.
  assert (forallb constant_fits (all_constants a)
    && forallb (fun e => bool_decide (value_of e.1 (all_constants a) = Some e.2)) used_constants = true)
    as [Hf Hv]%andb_true_iff
    by (destruct (all_constants_cases a) as [-> | ->]; vm_compute; reflexivity).
  split; [exact Hf|]. apply forallb_Forall_true in Hv. eapply Forall_impl; [exact Hv|].
  intros e He. by apply bool_decide_eq_true in He.
Qed.

(** The registers of the transport: those before the two interrupt flags at the end of the
    table are words of a window of 256 bytes that ends where the configuration space starts,
    and no two share an offset. *)
Theorem mmio_registers_apart :
  let registers := take 31 virtio_mmio_constants in
  Forall (fun c : constant => (4 | c.2) /\ 0 <= c.2 /\ c.2 + 4 <= VIRTIO_MMIO_CONFIG) registers /\
  NoDup registers.*2.
Proof.
  simpl. split; [|by apply (bool_decide_unpack _); vm_compute].
  repeat constructor; simpl; first [by apply Z.mod_divide | unfold VIRTIO_MMIO_CONFIG; lia].
Qed.

(** ** Witnesses *)

(** The addresses of a queue of four entries on x86, and the fourth element of each ring. *)
Lemma accepted_addresses_aligned_witness :
  let q := mk_queue 16 0 0 false 0 4 false 0 0 0 in
  fields_aligned X86 vring_desc (0x1010 + 3 * size_of (abi_of X86) vring_desc) /\
  fields_aligned X86 vring_avail 0x2002 /\ fields_aligned X86 vring_used 0x3004.
Proof.
  intros q. split_and!.
  - apply (accepted_addresses_aligned X86 q (with_desc_table 0x1010 q) 0x1010 3); [lia|reflexivity].
  - apply (accepted_addresses_aligned X86 q (with_avail_ring 0x2002 q) 0x2002 3); [lia|reflexivity].
  - apply (accepted_addresses_aligned X86 q (with_used_ring 0x3004 q) 0x3004 3); [lia|reflexivity].
Defined.


Lemma formats_match_bindings_witness :
  read_fields false (abi_of X86) vring_desc (bv_encode (descriptor_new 0x12345678 0x200 3 7)) =
  [("addr", 0x12345678); ("len", 0x200); ("flags", 3); ("next", 7)].
Proof.
  apply (proj1 (formats_match_bindings X86 false) (descriptor_new 0x12345678 0x200 3 7)).
  apply fields_ok_cons. split; [done|]. apply fields_ok_cons. split; [done|].
  apply fields_ok_cons. split; [done|]. apply fields_ok_cons. split; [done|]. apply fields_ok_nil.
Defined.

Module BindingsExamples.
(** A queue of four entries whose used index is about to wrap, with one chain on offer. *)
Definition q4 : Queue := mk_queue 16 5 65535 false 0 4 true 0x1000 0x2000 0x3000.
Definition mem : FlatMem :=
  fst (gm_write (from_ranges [(0, 0x10000)]) 0x2002 [6; 0; 9; 0; 3; 0]).
End BindingsExamples.

Lemma ring_operations_match_witness :
  avail_idx Relaxed (BindingsExamples.q4, BindingsExamples.mem) =
    Some ((BindingsExamples.q4, BindingsExamples.mem), Ok 6) /\
  c_avail_idx (M := FlatMem) Sparc BindingsExamples.q4 Relaxed (BindingsExamples.q4, BindingsExamples.mem) =
    Some ((BindingsExamples.q4, BindingsExamples.mem), Ok 6) /\
  c_avail_head Sparc BindingsExamples.q4 BindingsExamples.mem = Some 3 /\
  add_used 3 16 (BindingsExamples.q4, BindingsExamples.mem) =
    c_add_used Sparc BindingsExamples.q4 3 16 (BindingsExamples.q4, BindingsExamples.mem).
Proof.
  assert (rings_fit BindingsExamples.q4) as Hq by (by split).
  pose proof (ring_operations_match Sparc BindingsExamples.q4 BindingsExamples.mem Hq)
    as (Hidx & _ & _ & _ & _ & Hadd & _).
  split_and!; [vm_compute; reflexivity|rewrite <- Hidx; vm_compute; reflexivity|vm_compute; reflexivity|].
  by apply Hadd.
Defined.
