(* ===== verification/Errors.v ===== *)
(** * Messages of the errors

    The [Display] implementations of the error types of virtio-queue (lib.rs
    and mock.rs), virtio-blk (request.rs and stdio_executor.rs), virtio-vsock
    (packet.rs) and virtio-console (console.rs), and the comparison of queue
    errors by their messages (queue.rs).

    The messages of the errors of vm-memory and of the standard library are
    parameters: [gm_fmt], [vm_fmt] and [io_fmt] are their [Display]. *)

From stdpp Require Import base numbers list option strings pretty.
From S2P Require Import Prelude GuestMemory Chain Mock BlkRequest BlkExecutor VsockPacket Console.

Section Messages.
Context (gm_fmt : GuestMemoryError -> string) (vm_fmt io_fmt : Z -> string).

Definition queue_error_display (e : Error) : string :=
  match e with
  | AddressOverflow => "address overflow"
  | ErrGuestMemory _ => "error accessing guest memory"
  | InvalidChain => "invalid descriptor chain"
  | InvalidIndirectDescriptor => "invalid indirect descriptor"
  | InvalidIndirectDescriptorTable => "invalid indirect descriptor table"
  | InvalidDescriptorIndex => "invalid descriptor index"
  | InvalidMaxSize => "invalid queue maximum size"
  | InvalidSize => "invalid queue size"
  | InvalidDescTableAlign => "virtio queue descriptor table breaks alignment constraints"
  | InvalidAvailRingAlign => "virtio queue available ring breaks alignment constraints"
  | InvalidUsedRingAlign => "virtio queue used ring breaks alignment constraints"
  | InvalidAvailRingIndex =>
      "invalid available ring index (more descriptors to process than queue size)"
  | QueueNotReady => "trying to process requests on a queue that's not ready"
  | VolatileMemoryError e => "volatile memory error: " +:+ vm_fmt e
  | DescriptorChainOverflow =>
      "the combined length of all the buffers in a `DescriptorChain` would overflow"
  | FindMemoryRegion => "no memory region for this address range"
  | ErrGuestMemoryError e => "descriptor guest memory error: " +:+ gm_fmt e
  | SplitOutOfBounds off => "`DescriptorChain` split is out of bounds: " +:+ pretty off
  end.

Definition mock_error_display (e : MockError) : string :=
  match e with
  | InvalidQueueParams _ => "cannot create queue due to invalid parameter"
  | InvalidIndex => "invalid index for pointing to an address in a region when defining a Ref object"
  | InvalidNextAvail => "invalid next available descriptor chain head in the queue"
  | GuestMem e => "guest memory error: " +:+ gm_fmt e
  end.

Definition blk_req_error_display (e : BlkReqError) : string :=
  match e with
  | DescriptorChainTooShort => "descriptor chain too short"
  | DescriptorLengthTooSmall => "descriptor length too small"
  | BlkReqGuestMemory err => "error accessing guest memory: " +:+ gm_fmt err
  | InvalidFlushSector => "invalid sector in flush request, it should be 0"
  | UnexpectedReadOnlyDescriptor => "unexpected read only descriptor"
  | UnexpectedWriteOnlyDescriptor => "unexpected write only descriptor"
  end.

Definition blk_error_display (e : BlkError) : string :=
  match e with
  | BlkDiscardWriteZeroes err => "discard/write zeroes execution failed: " +:+ io_fmt err
  | BlkFlush err => "flush execution failed: " +:+ io_fmt err
  | BlkGuestMemory err => "error accessing guest memory: " +:+ gm_fmt err
  | BlkInvalidAccess => "invalid file access"
  | BlkInvalidDataLength => "invalid data length of request"
  | BlkInvalidFlags => "invalid flags for discard/write zeroes request"
  | BlkOverflow => "overflow when computing memory address"
  | BlkRead err _ => "error during read request execution: " +:+ gm_fmt err
  | BlkReadOnly => "can't execute an operation other than `read` on a read-only device"
  | BlkWrite err => "error during write request execution: " +:+ gm_fmt err
  | BlkSeek err => "file seek execution failed: " +:+ io_fmt err
  | BlkUnsupported t => "can't execute unsupported request " +:+ pretty t
  end.

Definition vsock_error_display (e : VsockError) : string :=
  match e with
  | VsockDescriptorChainTooShort => "There are not enough descriptors in the chain."
  | VsockDescriptorLengthTooSmall =>
      "The descriptor is pointing to a buffer that has a smaller length than expected."
  | VsockDescriptorLengthTooLong =>
      "The descriptor is pointing to a buffer that has a longer length than expected."
  | VsockInvalidHeaderInputSize size => "Invalid header input size: " +:+ pretty size
  | VsockInvalidHeaderLen size => "Invalid header `len` field value: " +:+ pretty size
  | VsockInvalidMemoryAccess error => "Invalid guest memory access: " +:+ gm_fmt error
  | VsockInvalidVolatileAccess error => "Invalid volatile memory access: " +:+ vm_fmt error
  | VsockUnexpectedReadOnlyDescriptor => "Unexpected read-only descriptor."
  | VsockUnexpectedWriteOnlyDescriptor => "Unexpected write-only descriptor."
  end.

Definition console_error_display (e : ConsoleError) : string :=
  match e with
  | WriteToGuestFailed err => "Console failed to write slice to guest memory: " +:+ gm_fmt err
  | WriteToOutputFailed err => "Console failed to write data to output sink: " +:+ gm_fmt err
  | ChainLengthOverflow => "Console transmitq chain length has overflown usize."
  | BufferCapacityExceeded => "Console input buffer maximum capacity has been exceeded."
  | ConsoleUnexpectedReadOnlyDescriptor => "Unexpected read-only descriptor."
  | ConsoleUnexpectedWriteOnlyDescriptor => "Unexpected write-only descriptor."
  | InvalidBufferCapacity => "The capacity should not be 0 or higher than MAX_CAPACITY."
  | OutputSinkFlushFailed err => "Output sink flush has not written all bytes: " +:+ io_fmt err
  end.

(** [PartialEq for Error] of virtio-queue: the formatted messages are compared. *)
Definition queue_error_eq (self other : Error) : bool :=
  bool_decide (queue_error_display self = queue_error_display other).

(** ** Messages tell the variants apart

    The text of a message before its argument is found again in the message: the texts of a
    type are told apart by looking for the first of them the message starts with. *)
Fixpoint starts_with (t s : string) : bool :=
  match t, s with
  | EmptyString, _ => true
  | String x t, String y s => Ascii.eqb x y && starts_with t s
  | _, _ => false
  end.

Definition classify (texts : list string) (s : string) : option string :=
  List.find (fun t => starts_with t s) texts.

(** If the message of every error starts with its text and no earlier text of the list, equal
    messages have equal texts. *)
Lemma classify_inj {E} (display text : E -> string) (texts : list string) :
  (forall e, classify texts (display e) = Some (text e)) ->
  forall e e', display e = display e' -> text e = text e'.
Proof. intros Hc e e' Heq. apply (f_equal (classify texts)) in Heq. rewrite !Hc in Heq. by simplify_eq. Qed.

Definition queue_error_text (e : Error) : string :=
  match e with
  | VolatileMemoryError _ => "volatile memory error: "
  | ErrGuestMemoryError _ => "descriptor guest memory error: "
  | SplitOutOfBounds _ => "`DescriptorChain` split is out of bounds: "
  | e => queue_error_display e
  end.

(** The longer of two texts that start alike comes first. *)
Definition queue_error_texts : list string :=
  queue_error_text <$>
    [InvalidIndirectDescriptorTable; InvalidIndirectDescriptor; AddressOverflow;
     ErrGuestMemory (OtherMemoryError 0); InvalidChain; InvalidDescriptorIndex; InvalidMaxSize;
     InvalidSize; InvalidDescTableAlign; InvalidAvailRingAlign; InvalidUsedRingAlign;
     InvalidAvailRingIndex; QueueNotReady; VolatileMemoryError 0; DescriptorChainOverflow;
     FindMemoryRegion; ErrGuestMemoryError (OtherMemoryError 0); SplitOutOfBounds 0].

Lemma queue_error_classify e :
  classify queue_error_texts (queue_error_display e) = Some (queue_error_text e).
Proof. by destruct e. Qed.

(** What the comparison distinguishes: the argument of [GuestMemory] is not in the message, and
    the errors of vm-memory count as equal when their messages are. *)
Definition queue_error_same (e e' : Error) : Prop :=
  match e, e' with
  | ErrGuestMemory _, ErrGuestMemory _ => True
  | VolatileMemoryError c, VolatileMemoryError c' => vm_fmt c = vm_fmt c'
  | ErrGuestMemoryError g, ErrGuestMemoryError g' => gm_fmt g = gm_fmt g'
  | _, _ => e = e'
  end.

(** The texts of two variants differ. *)
Lemma queue_error_text_variant e e' : queue_error_text e = queue_error_text e' ->
  match e, e' with
  | ErrGuestMemory _, ErrGuestMemory _ | VolatileMemoryError _, VolatileMemoryError _
  | ErrGuestMemoryError _, ErrGuestMemoryError _ | SplitOutOfBounds _, SplitOutOfBounds _ => True
  | _, _ => e = e'
  end.
Proof. destruct e, e'; intros Heq; first [exact I | reflexivity | discriminate Heq]. Qed.

(** The comparison of queue errors is exactly that: errors of different variants never compare
    equal, although some messages start alike and others end in a text from elsewhere. *)
Theorem queue_error_eq_exact e e' : queue_error_eq e e' = true <-> queue_error_same e e'.
Proof.
  unfold queue_error_eq. rewrite bool_decide_eq_true. split.
  - intros Heq.
    pose proof (classify_inj _ _ _ queue_error_classify e e' Heq) as Ht%queue_error_text_variant.
    destruct e, e'; try exact Ht; cbn [queue_error_same queue_error_display] in *;
      apply (inj (String.append _)) in Heq; [done..|by apply (inj pretty) in Heq as ->].
  - destruct e, e'; simpl; intros Hs; simplify_eq; try done; by rewrite Hs.
Qed.

(** It is an equivalence relation, as [PartialEq] promises. *)
Lemma queue_error_eq_equivalence : Equivalence (fun e e' => queue_error_eq e e' = true).
Proof.
  unfold queue_error_eq. split; [intros e|intros e e'|intros e1 e2 e3]; rewrite !bool_decide_eq_true;
    congruence.
Qed.
End Messages.
